(* ===== verification/_CoqProject ===== *)
-Q . S2P
Prelude.v
Addr.v
AddressSpace.v
FrameAlloc.v
Queues.v
KTypes.v
Endpoint.v
EventLog.v
Console.v
Serial.v
Trace.v
KState.v
Dump.v
ArchIface.v
X86.v
RefMem.v
Paging.v
PagingInv.v
PagingLaws.v
PagingMap.v
PagingArch.v
PagingStart.v
Gdt.v
Sched.v
Ipc.v
Checks.v
Kill.v
Demo.v
Syscall.v
Tick.v
Frames.v
IpcSpec.v
Invariant.v
DumpRuns.v
IpcInv.v
IpcRefine.v
MemInv.v
CloseInv.v
KillInv.v
CheckInv.v
DumpInv.v
TickInv.v
Turn.v
Boot.v
IpcLog.v
IpcPaths.v
Reach.v
TurnInv.v
Rpc.v
Entry.v
Interrupts.v
System.v
Theorems.v
PathTheorems.v
PagingTheorems.v
EntryTheorems.v
IntTheorems.v
Bringup.v
