(* ===== verification/Prelude.v ===== *)
(** * formal-os: a verification development of the kernel

    formal-os (src/kernel/src) is a single-core x86_64 kernel in Rust: three
    tasks, a priority scheduler, synchronous IPC over endpoints, an address space
    per task with real page tables, system calls, fault isolation by killing a
    task, and a trace of everything it does.  It is built in the debug profile,
    so an overflow or an index out of range panics, and a panic halts the CPU.
    The development models all of it down to the machine interface and proves
    that it never panics in the runs described below, that its parts implement
    their contracts, and that tasks stay isolated.

    ** The program and its model

    The kernel proper (kernel/*.rs) is one record, [KernelState], with methods
    that change it.  It calls the paging code (arch/paging.rs) through a few
    functions, and the paging code works on the CPU and the [x86_64] crate.  The
    model has the same layers, each proved against the interface of the next:

    - Prelude: results and panics ([res]), the state monad [ST], total
      correctness ([returns]), machine integers, tactics, hints.
    - Addr (mem/addr.rs, mem/paging.rs, mem/layout.rs, arch/virt_layout.rs),
      AddressSpace (mem/address_space.rs), FrameAlloc (mm/mod.rs,
      kernel/pagetable_init.rs): plain data, the 64-entry mapping table, the
      allocator over the bootloader's memory map.
    - Queues, Endpoint, EventLog, KTypes, KState: the arrays with a length that
      serve as queues, endpoints, the ring buffer of events, tasks, the state.
    - Console (logging/mod.rs, logging/vga.rs), Serial (logging/serial.rs,
      panic.rs), Trace (kernel/trace.rs), Dump (the printers of kernel/mod.rs;
      DumpRuns shows that they return wherever the kernel calls them).
    - Sched, Ipc (kernel/ipc.rs), Kill, Checks (the run-time checker), Demo
      (kernel/demo), Syscall (kernel/syscall.rs, kernel/user_program.rs), Tick
      (the tick, [KernelState::new], the mailbox calls): the operations of the
      kernel, one definition per method, written in the monad [W] over the
      [World] of ArchIface (kernel state, architecture, statics).
    - IpcLog: the methods of kernel/ipc.rs and the system-call boundary with every
      line they print, in the monad [Logged] that returns the lines next to the
      result; [erases] says that without its lines it is the method of Ipc.
    - ArchIface: [ArchOps], what the kernel uses of the architecture, and
      [ArchLaws], what it relies on.
    - X86: [X86] and [X86Laws], what paging.rs uses of the crate and the CPU
      (entries, [OffsetPageTable], the hardware walk, loads and stores), and
      [X86Addr], the crate's checked addresses; RefMem is an instance.
    - Paging (arch/paging.rs and the page-fault handler), PagingInv, PagingLaws,
      PagingMap, PagingArch, PagingStart: the paging code, the state it keeps
      ([paging_ready]), and the instance of [ArchLaws] ([paging_laws]).
    - Gdt (arch/gdt.rs, the tables of arch/interrupts.rs), Interrupts (the
      handlers, kernel/state_ref.rs), Entry (kernel/entry.rs, arch/ring3.rs),
      Bringup ([kernel_main], [arch::init], [start] on CPU and paging together).

    Data is kept as the code has it: addresses and counters are [Z] with checked,
    wrapping or saturating operations as in the source, [usize] indices are [nat],
    arrays are lists whose accesses panic out of range, flags are bit masks.  A
    cargo feature is a field of [Features] or a boolean argument.

    ** What the theorems show

    - The invariant ([KillInv.Inv], from Invariant and MemInv): task states, ready
      queue and endpoint queues describe the same situation, the address spaces
      agree with the page tables, no frame has two owners, the current task runs.
      Boot establishes it, every tick, call, switch and kill keeps it (TickInv,
      IpcInv, KillInv, CloseInv, Boot), and it implies every check the kernel
      makes of itself (CheckInv).
    - Whole runs: the machine comes up from the bootloader's tables (Bringup), the
      normal start runs to its end without a panic (Theorems), and so does every
      sequence of system calls, ticks, switches and kills by programs of any kind
      (Reach, [kruns]), as long as counters and frames last; in every state such a
      run reaches the tasks are isolated.  These hold for every build without
      ring3_mailbox (with it [mailbox_dispatch] breaks the invariant,
      [mailbox_ipc_two_running]), the evil_* ones included: what README.md calls
      fail-stop violations (a double map, an unmap of an unmapped page, a full
      table) end as error codes of the system call, as docs/FEATURES.md says.
    - Scheduling: a switch runs the first ready task of highest priority, and a
      task of lower priority keeps the processor for one quantum at most (Turn,
      TurnInv), by composition of what each operation leaves alone (Frames:
      [preserves], for states in or out of the invariant).
    - Refinement: IPC implements the queue-free specification IpcSpec, killing
      implements its specification there, a whole request and reply has one net
      effect whichever side comes first (Rpc), the page system calls implement a
      map, the mapping table is a finite map, the allocator is a lazy list of the
      usable frames, the serial driver is the list of the bytes printed.
    - Paging: a checked CR3 switch keeps code, stack and the physical-memory window
      mapped; guarded accesses return the value or the fault and end in the
      kernel's root; writes of one task do not reach another.
    - Interrupts: every address the CPU needs to deliver an interrupt is mapped to
      the same place in every root; the calls through [int 0x80].
    - The log of IPC (IpcPaths, PathTheorems): the trace of the paths agrees with the
      counters in every state, and in a state of the invariant a call prints its
      path or its rejection: the reports of broken queues never appear.  Both are
      about builds without ring3_mailbox, where a send prints its line twice.
    - Output: the dump reads back, numbers read back, the screen writer stays in
      bounds, the panic handler stops on every device.
    - Where the code falls short a theorem says so: [int 0x80] trusts the user's
      stack pointer and overwrites kernel words, a demo reuses frames, a
      physical-memory window in the upper half fails.

    ** Bounds and fuel

    The loops of the sources run over lists of positions or with fuel that is
    proved sufficient: [allocate_fuel] (one iteration per remaining region plus
    two), [DECIMAL_BUF] digits, [EMERGENCY_POLLS] polls; the unbounded wait of the
    serial driver has any fuel, and the theorem gives one that is enough.  Counters
    are 64-bit and [Inv B F] says they are at most [B] with [F] frames left: a tick
    costs [TICK_COST] = 10 and [TICK_FRAMES] = 8 (two memory calls, each a frame
    and [PAGE_TABLE_FRAMES] = 3 tables), so 120 ticks need 960 frames and every
    counter is at most 1200.

    ** Parameters and hypotheses

    What is not part of the repository is a class with its documented behaviour
    and an instance that shows it can hold: the [x86_64] crate and the CPU
    ([X86Addr], [X86], [X86Laws]; RefMem), the descriptor table ([GdtOps],
    [GdtLaws]; [GdtList]), the I/O ports and the 16550 ([Ports], [Uart];
    [UartState]).  The addresses the linker chooses and what the bootloader leaves
    ([loaded], [tables_ok], [map_ok] of the memory map) are hypotheses of the
    theorems, discharged by the machine of System in the witnesses.

    Where the physical-memory window is ([layout_ok]) is the bootloader's choice:
    any offset of the lower half outside slot 0, where the kernel is linked, and
    whose four copied slots leave the user slot free, which paging.rs asserts.
    Index 3, which arch/virt_layout.rs quotes from a log, is such an offset, and
    it is the one of the machine of System.  [loaded] also asks that code and
    stack lie outside the slots of the window: the preflight check demands that
    no user root maps the low code and stack, and user roots share those slots.
    Loads and stores of words are of aligned addresses, so that a word lies in
    one page.

    ** Not modelled

    The instructions [hlt], [iretq], [lidt], [lgdt] and [ltr] are the values they
    load or end in.  The log lines of the scheduler, the tick, the demos and the
    paging code are not part of their models, since nothing reads them back; the
    lines of IPC and its traces, the events, the dump, panics and kills have their
    own definitions.  The paging code reads and writes page tables through the
    physical-memory window of the current root (paging.rs:644); [read_entry] and
    [write_entry] go to the frame directly, so a fault of such an access in a
    root without the window is not modelled.  The roots the theorems speak of
    have the window ([mr_physmap], [mr_copy]), and the offset arithmetic and its
    checks ([phys_to_virt]) are.  The fault statics and the kernel state are kept
    apart from the memory words, so a store through a stray pointer (as in
    [int80_overwrites_kernel_memory]) changes a word of memory but not those.
    [fmt::Debug] and [fmt::Write] implementations, types.rs and mm/pagetable_init.rs are not used
    by the program.  The order of loads and stores on other cores does not
    arise: the kernel is single-core and never enables external interrupts. *)

From stdpp Require Import base list option strings.
From Stdlib Require Import ZArith Lia.

Declare Scope kernel_scope.
Delimit Scope kernel_scope with kernel.
Open Scope kernel_scope.

(** ** Results and panics

    Safe Rust reports an unrecoverable error by a panic, which this kernel
    turns into a CPU halt (panic.rs).  A computation therefore either returns
    or panics; the reasons that occur in the sources are an arithmetic
    overflow (the kernel is built in the debug profile, so overflow checks are
    on), an array index out of range, and an explicit [panic!]/[expect]. *)

Inductive panic :=
  | PanicOverflow
  | PanicIndex
  | PanicMsg (msg : string).

Arguments PanicMsg msg%_string.

Inductive res (A : Type) :=
  | Ok (a : A)
  | Panicked (p : panic).
Arguments Ok {A} a.
Arguments Panicked {A} p.

(** Rust's [Result]: an error the caller handles, unlike a panic. *)
Inductive result (A E : Type) :=
  | Okay (a : A)
  | Err (e : E).
Arguments Okay {A E} a.
Arguments Err {A E} e.

Definition res_bind {A B} (f : A -> res B) (m : res A) : res B :=
  match m with
  | Ok a => f a
  | Panicked p => Panicked p
  end.

#[export] Instance res_mret : MRet res := @Ok.
#[export] Instance res_mbind : MBind res := @res_bind.

Lemma Ok_bind {A B} (a : A) (f : A -> res B) : (Ok a ≫= f) = f a.
Proof. done. Qed.

(** ** The state monad with panics

    [&mut self] methods are state transformers. *)

Definition ST (S A : Type) : Type := S -> res (A * S).

#[export] Instance ST_mret S : MRet (ST S) := fun A a s => Ok (a, s).
#[export] Instance ST_mbind S : MBind (ST S) := fun A B f m s =>
  match m s with
  | Ok (a, s') => f a s'
  | Panicked p => Panicked p
  end.

Section ST_operations.
Context {S : Type}.

Definition get : ST S S := fun s => Ok (s, s).
Definition put (s' : S) : ST S unit := fun _ => Ok (tt, s').
Definition gets {A} (f : S -> A) : ST S A := fun s => Ok (f s, s).
Definition modify (f : S -> S) : ST S unit := fun s => Ok (tt, f s).
Definition panic_with {A} (p : panic) : ST S A := fun _ => Panicked p.
Definition lift_res {A} (r : res A) : ST S A := fun s =>
  match r with
  | Ok a => Ok (a, s)
  | Panicked p => Panicked p
  end.

(** [arr[i]]: an index out of range panics. *)
Definition at_index {A} (l : list A) (i : nat) : ST S A := fun s =>
  match l !! i with
  | Some a => Ok (a, s)
  | None => Panicked PanicIndex
  end.

(** A [for] loop over the elements of a list. *)
Fixpoint for_each {A} (l : list A) (body : A -> ST S unit) : ST S unit :=
  match l with
  | [] => mret tt
  | x :: l' => body x ;; for_each l' body
  end.

(** Symbolic execution of the monad: these equations drive every proof about
    an operation. *)
Lemma bind_Ok {A B} (m : ST S A) (f : A -> ST S B) s a s' :
  m s = Ok (a, s') -> (m ≫= f) s = f a s'.
Proof. unfold mbind, ST_mbind. by intros ->. Qed.

Lemma bind_ret {A B} (a : A) (f : A -> ST S B) s : (mret a ≫= f) s = f a s.
Proof. done. Qed.

Lemma bind_get {B} (f : S -> ST S B) s : (get ≫= f) s = f s s.
Proof. done. Qed.

Lemma bind_gets {A B} (g : S -> A) (f : A -> ST S B) s :
  (gets g ≫= f) s = f (g s) s.
Proof. done. Qed.

Lemma bind_modify {B} g (f : unit -> ST S B) s :
  (modify g ≫= f) s = f tt (g s).
Proof. done. Qed.

Lemma bind_lift_Ok {A B} (a : A) (f : A -> ST S B) s :
  (lift_res (Ok a) ≫= f) s = f a s.
Proof. done. Qed.

Lemma bind_assoc {A B C} (m : ST S A) (f : A -> ST S B) (g : B -> ST S C) s :
  ((m ≫= f) ≫= g) s = (m ≫= (fun a => f a ≫= g)) s.
Proof. unfold mbind, ST_mbind. destruct (m s) as [[a s']|p]; done. Qed.

Lemma at_index_Ok {A} (l : list A) i a s :
  l !! i = Some a -> at_index l i s = Ok (a, s).
Proof. unfold at_index. by intros ->. Qed.

Lemma bind_at_index {A B} (l : list A) i a (f : A -> ST S B) s :
  l !! i = Some a -> (at_index l i ≫= f) s = f a s.
Proof. intros H. by rewrite (bind_Ok _ _ _ _ _ (at_index_Ok _ _ _ s H)). Qed.

(** Total correctness: the computation returns, without a panic, and its
    result satisfies the postcondition. *)
Definition returns {A} (m : ST S A) (s : S) (Q : A -> S -> Prop) : Prop :=
  exists a s', m s = Ok (a, s') /\ Q a s'.

Lemma returns_bind {A B} (m : ST S A) (f : A -> ST S B) s Q :
  returns m s (fun a s' => returns (f a) s' Q) -> returns (m ≫= f) s Q.
Proof.
  intros (a & s1 & Hm & b & s2 & Hf & HQ). exists b, s2.
  by rewrite (bind_Ok _ _ _ _ _ Hm).
Qed.

Lemma returns_Ok {A} (m : ST S A) s a s' (Q : A -> S -> Prop) :
  m s = Ok (a, s') -> Q a s' -> returns m s Q.
Proof. intros. by exists a, s'. Qed.

Lemma returns_ret {A} (a : A) s (Q : A -> S -> Prop) :
  Q a s -> returns (mret a) s Q.
Proof. intros. by exists a, s. Qed.

Lemma returns_mono {A} (m : ST S A) s (Q Q' : A -> S -> Prop) :
  returns m s Q -> (forall a s', Q a s' -> Q' a s') -> returns m s Q'.
Proof. intros (a & s' & ? & ?) ?. exists a, s'. auto. Qed.

Lemma returns_step {A B} (m : ST S A) (f : A -> ST S B) s a s' Q :
  m s = Ok (a, s') -> returns (f a) s' Q -> returns (m ≫= f) s Q.
Proof. unfold returns. intros H. by rewrite (bind_Ok _ _ _ _ _ H). Qed.

Lemma returns_seq {A B} (m : ST S A) (f : A -> ST S B) s (R : A -> S -> Prop) Q :
  returns m s R -> (forall a s', R a s' -> returns (f a) s' Q) -> returns (m ≫= f) s Q.
Proof. intros Hm Hf. apply returns_bind. eapply returns_mono; eauto. Qed.

Lemma returns_assoc {A B C} (m : ST S A) (f : A -> ST S B) (g : B -> ST S C) s Q :
  returns (m ≫= (fun a => f a ≫= g)) s Q -> returns ((m ≫= f) ≫= g) s Q.
Proof. unfold returns. by setoid_rewrite bind_assoc. Qed.

(** A call in tail position. *)
Lemma returns_group {A B C} (m : ST S A) (f : A -> ST S B) (g : B -> ST S C) s Q :
  returns ((m ≫= f) ≫= g) s Q -> returns (m ≫= fun a => f a ≫= g) s Q.
Proof. unfold returns. by rewrite bind_assoc. Qed.

Lemma returns_tail {A} (m : ST S A) s Q :
  returns (m ≫= mret) s Q -> returns m s Q.
Proof.
  intros (a & s' & H & HQ). exists a, s'. split; [|done].
  revert H. unfold mbind, ST_mbind. destruct (m s) as [[? ?]|]; done.
Qed.

(** A loop that maintains an invariant. *)
Lemma returns_for_each {A} (I : list A -> S -> Prop) (l : list A) body s :
  I l s ->
  (forall x l' s', I (x :: l') s' -> returns (body x) s' (fun _ => I l')) ->
  returns (for_each l body) s (fun _ => I []).
Proof.
  revert s. induction l as [|x l IH]; intros s HI Hbody; simpl.
  { by apply returns_ret. }
  apply returns_bind. eapply returns_mono; [by apply Hbody|].
  intros [] s' HI'. by apply IH.
Qed.

(** Inversion of a run that returned. *)
Lemma bind_inv {A B} (m : ST S A) (f : A -> ST S B) s b s2 :
  (m ≫= f) s = Ok (b, s2) -> exists a s1, m s = Ok (a, s1) /\ f a s1 = Ok (b, s2).
Proof. unfold mbind, ST_mbind. destruct (m s) as [[a s1]|p] eqn:E; [eauto|done]. Qed.

Lemma lift_inv {A} (r : res A) s a s' : lift_res r s = Ok (a, s') -> r = Ok a /\ s' = s.
Proof. unfold lift_res. destruct r; by intros [= -> ->]. Qed.

(** A computation that only looks at the state. *)
Definition reads_only {A} (m : ST S A) : Prop := forall s a s', m s = Ok (a, s') -> s' = s.

Lemma reads_only_ret {A} (a : A) : reads_only (mret a).
Proof. by intros s b s' [= _ ->]. Qed.
Lemma reads_only_get : reads_only get.
Proof. by intros s b s' [= _ ->]. Qed.
Lemma reads_only_gets {A} (f : S -> A) : reads_only (gets f).
Proof. by intros s b s' [= _ ->]. Qed.
Lemma reads_only_lift {A} (r : res A) : reads_only (lift_res r).
Proof. intros s b s' H. by apply lift_inv in H as [_ ->]. Qed.
Lemma reads_only_panic {A} p : reads_only (panic_with (A := A) p).
Proof. by intros s b s' H. Qed.
Lemma reads_only_bind {A B} (m : ST S A) (f : A -> ST S B) :
  reads_only m -> (forall a, reads_only (f a)) -> reads_only (m ≫= f).
Proof. intros Hm Hf s b s' (a & s1 & H1 & H2)%bind_inv. apply Hm in H1 as ->. by apply Hf in H2. Qed.
Lemma reads_only_if {A} (b : bool) (m1 m2 : ST S A) : reads_only m1 -> reads_only m2 -> reads_only (if b then m1 else m2).
Proof. by destruct b. Qed.

End ST_operations.

(** Running a computation of a component inside a larger state. *)
Definition zoom {S T A} (sel : T -> S) (upd : T -> S -> T) (m : ST S A) : ST T A :=
  fun t =>
    match m (sel t) with
    | Ok (a, s') => Ok (a, upd t s')
    | Panicked p => Panicked p
    end.

Lemma zoom_inv {S T A} (sel : T -> S) upd (m : ST S A) t a t' :
  zoom sel upd m t = Ok (a, t') -> exists s', m (sel t) = Ok (a, s') /\ t' = upd t s'.
Proof. unfold zoom. destruct (m (sel t)) as [[x s']|]; [|done]. intros [= -> <-]. eauto. Qed.

Lemma zoom_Ok {S T A} (sel : T -> S) upd (m : ST S A) t a s' :
  m (sel t) = Ok (a, s') -> zoom sel upd m t = Ok (a, upd t s').
Proof. unfold zoom. by intros ->. Qed.

Lemma returns_zoom {S T A} (sel : T -> S) upd (m : ST S A) t Q :
  returns m (sel t) (fun a s' => Q a (upd t s')) -> returns (zoom sel upd m) t Q.
Proof. intros (a & s' & H & HQ). exists a, (upd t s'). split; [|done]. by apply zoom_Ok. Qed.

(** ** Machine integers *)

Definition u64_max : Z := 2 ^ 64 - 1.
Definition u64 (z : Z) : Prop := (0 <= z <= u64_max)%Z.

(** [a + b] and [a * b] with overflow checks. *)
Definition u64_add (a b : Z) : res Z :=
  if (a + b <=? u64_max)%Z then Ok (a + b)%Z else Panicked PanicOverflow.
Definition u64_mul (a b : Z) : res Z :=
  if (a * b <=? u64_max)%Z then Ok (a * b)%Z else Panicked PanicOverflow.
Definition u64_wrapping_add (a b : Z) : Z := ((a + b) mod 2 ^ 64)%Z.
Definition u64_wrapping_sub (a b : Z) : Z := ((a - b) mod 2 ^ 64)%Z.
Definition u64_wrapping_mul (a b : Z) : Z := ((a * b) mod 2 ^ 64)%Z.
Definition u64_saturating_sub (a b : Z) : Z := Z.max 0 (a - b).
(** [!x] on a 64-bit word. *)
Definition u64_not (a : Z) : Z := (u64_max - a)%Z.

Lemma u64_add_Ok a b : (a + b <= u64_max)%Z -> u64_add a b = Ok (a + b)%Z.
Proof. intros H. unfold u64_add. by rewrite (proj2 (Z.leb_le _ _) H). Qed.

Lemma u64_mul_Ok a b : (a * b <= u64_max)%Z -> u64_mul a b = Ok (a * b)%Z.
Proof. intros H. unfold u64_mul. by rewrite (proj2 (Z.leb_le _ _) H). Qed.

Lemma u64_add_inv a b c : u64_add a b = Ok c -> c = (a + b)%Z /\ (a + b <= u64_max)%Z.
Proof. unfold u64_add. destruct (Z.leb_spec (a + b) u64_max); naive_solver lia. Qed.

Lemma u64_mul_inv a b c : u64_mul a b = Ok c -> c = (a * b)%Z /\ (a * b <= u64_max)%Z.
Proof. unfold u64_mul. destruct (Z.leb_spec (a * b) u64_max); naive_solver lia. Qed.

(** ** Automation *)

Create HintDb kernel.

#[export] Hint Resolve reads_only_ret reads_only_get reads_only_gets reads_only_lift reads_only_panic
  reads_only_bind reads_only_if : kernel.

(** Case analysis on the tests of the code. *)
Ltac case_test :=
  match goal with
  | |- context [ (?a <? ?b)%nat ] => destruct (Nat.ltb_spec a b)
  | |- context [ (?a <=? ?b)%nat ] => destruct (Nat.leb_spec a b)
  | |- context [ (?a =? ?b)%nat ] => destruct (Nat.eqb_spec a b)
  | |- context [ (?a <? ?b)%Z ] => destruct (Z.ltb_spec a b)
  | |- context [ (?a <=? ?b)%Z ] => destruct (Z.leb_spec a b)
  | |- context [ (?a =? ?b)%Z ] => destruct (Z.eqb_spec a b)
  end.

(** One step of symbolic execution of a [returns] goal. *)
Ltac mstep_basic :=
  match goal with
  | |- returns (get ≫= _) ?s _ => apply (returns_step _ _ s s s); [reflexivity|]
  | |- returns (gets ?f ≫= _) ?s _ => apply (returns_step _ _ s (f s) s); [reflexivity|]
  | |- returns (mret ?a ≫= _) ?s _ => apply (returns_step _ _ s a s); [reflexivity|]
  | |- returns (put ?s' ≫= _) ?s _ => apply (returns_step _ _ s tt s'); [reflexivity|]
  | |- returns (modify ?f ≫= _) ?s _ => apply (returns_step _ _ s tt (f s)); [reflexivity|]
  | |- returns (lift_res (Ok ?a) ≫= _) ?s _ => apply (returns_step _ _ s a s); [reflexivity|]
  | |- returns ((_ ≫= _) ≫= _) _ _ => apply returns_assoc
  | |- returns (mret ?a) ?s _ => apply returns_ret
  | |- returns (put ?s') ?s _ => apply (returns_Ok _ s tt s'); [reflexivity|]
  | |- returns (modify ?f) ?s _ => apply (returns_Ok _ s tt (f s)); [reflexivity|]
  | |- returns (lift_res (Ok ?a)) ?s _ => apply (returns_Ok _ s a s); [reflexivity|]
  | |- returns get ?s _ => apply (returns_Ok _ s s s); [reflexivity|]
  end.
