(* ===== verification/Addr.v ===== *)
(** * Addresses, pages, page flags and the virtual-address layout

    The plain data types of [mem/addr.rs], [mem/paging.rs] and [mem/layout.rs],
    and the pure address arithmetic of [arch/virt_layout.rs].  Addresses are
    64-bit words, kept as integers of [Z] with the checked operations of the
    prelude; [usize] indices are [nat]. *)

From stdpp Require Import base list option strings.
From Stdlib Require Import ZArith Lia.
From S2P Require Import Prelude.

#[local] Open Scope Z_scope.

(** ** mem/addr.rs *)

Definition PAGE_SIZE : Z := 4096.

Record PhysAddr := mkPhysAddr { phys_u64 : Z }.
Record VirtAddr := mkVirtAddr { virt_u64 : Z }.
Record PhysFrame := mkPhysFrame { frame_number : Z }.
Record VirtPage := mkVirtPage { page_number : Z }.

#[export] Instance PhysAddr_eq_dec : EqDecision PhysAddr.
Proof. solve_decision. Defined.
#[export] Instance VirtAddr_eq_dec : EqDecision VirtAddr.
Proof. solve_decision. Defined.
#[export] Instance PhysFrame_eq_dec : EqDecision PhysFrame.
Proof. solve_decision. Defined.
#[export] Instance VirtPage_eq_dec : EqDecision VirtPage.
Proof. solve_decision. Defined.

Definition PhysAddr_align_down (a : PhysAddr) : PhysAddr :=
  mkPhysAddr (Z.land (phys_u64 a) (u64_not (PAGE_SIZE - 1))).
Definition PhysAddr_frame (a : PhysAddr) : PhysFrame :=
  mkPhysFrame (phys_u64 a / PAGE_SIZE).
Definition VirtAddr_align_down (a : VirtAddr) : VirtAddr :=
  mkVirtAddr (Z.land (virt_u64 a) (u64_not (PAGE_SIZE - 1))).
Definition VirtAddr_page (a : VirtAddr) : VirtPage :=
  mkVirtPage (virt_u64 a / PAGE_SIZE).

(** [number * PAGE_SIZE] panics on overflow. *)
Definition PhysFrame_start_address (f : PhysFrame) : res PhysAddr :=
  a ← u64_mul (frame_number f) PAGE_SIZE; mret (mkPhysAddr a).
Definition PhysFrame_from_index (n : Z) : PhysFrame := mkPhysFrame n.
Definition VirtPage_start_address (p : VirtPage) : res VirtAddr :=
  a ← u64_mul (page_number p) PAGE_SIZE; mret (mkVirtAddr a).
Definition VirtPage_from_index (n : Z) : VirtPage := mkVirtPage n.

(** ** mem/paging.rs *)

(** A [bitflags!] set of 64-bit flags: [contains] is the mask test, [|] the
    bitwise union. *)
Record PageFlags := mkPageFlags { bits : Z }.

#[export] Instance PageFlags_eq_dec : EqDecision PageFlags.
Proof. solve_decision. Defined.

Definition PRESENT : PageFlags := mkPageFlags (Z.shiftl 1 0).
Definition WRITABLE : PageFlags := mkPageFlags (Z.shiftl 1 1).
Definition USER : PageFlags := mkPageFlags (Z.shiftl 1 2).
Definition NO_EXEC : PageFlags := mkPageFlags (Z.shiftl 1 63).

Definition PageFlags_contains (f g : PageFlags) : bool :=
  Z.land (bits f) (bits g) =? bits g.
Definition PageFlags_union (f g : PageFlags) : PageFlags :=
  mkPageFlags (Z.lor (bits f) (bits g)).

Inductive MemAction :=
  | Map (page : VirtPage) (frame : PhysFrame) (flags : PageFlags)
  | Unmap (page : VirtPage).

#[export] Instance MemAction_eq_dec : EqDecision MemAction.
Proof. solve_decision. Defined.

(** ** mem/layout.rs *)

Definition PML4_SLOT_SIZE : Z := Z.shiftl 1 39.
Definition layout_USER_PML4_INDEX : Z := 32.
Definition USER_SPACE_START : Z := layout_USER_PML4_INDEX * PML4_SLOT_SIZE.
Definition USER_SPACE_END : Z := USER_SPACE_START + (PML4_SLOT_SIZE - 1).
Definition KERNEL_SPACE_START : Z := 0xffff800000000000.
Definition PHYSMAP_START : Z := 0xffff800000000000.
Definition PHYSMAP_END : Z := 0xffff87ffffffffff.

(** ** arch/virt_layout.rs *)

Definition USER_PML4_INDEX : nat := 32.

(** Sign-extension of bit 47. *)
Definition canonicalize_virt (addr : Z) : Z :=
  let sign_bit := Z.shiftl 1 47 in
  if negb (Z.land addr sign_bit =? 0)
  then Z.lor addr 0xffff000000000000
  else Z.land addr 0x0000ffffffffffff.

(** [(index as u64) << 39]: the shift drops the bits above 63. *)
Definition pml4_index_base_addr (index : nat) : Z :=
  canonicalize_virt ((Z.shiftl (Z.of_nat index) 39) mod 2 ^ 64).

Definition USER_SPACE_BASE : Z := pml4_index_base_addr USER_PML4_INDEX.
Definition USER_SPACE_SIZE : Z := PML4_SLOT_SIZE.

Definition KERNEL_ALIAS_DST_PML4_BASE_INDEX : nat := 508.
Definition KERNEL_ALIAS_MAX_COPY_COUNT : nat := 512 - KERNEL_ALIAS_DST_PML4_BASE_INDEX.

Definition pml4_index (addr : Z) : nat :=
  Z.to_nat (Z.land (Z.shiftr addr 39) 0x1ff).

(** The [debug_assert!] is on in the debug profile. *)
Definition kernel_high_alias_of_low (low_addr : Z) : res Z :=
  let low_idx := pml4_index low_addr in
  let offset_in_slot := Z.land low_addr (PML4_SLOT_SIZE - 1) in
  if (low_idx <? KERNEL_ALIAS_MAX_COPY_COUNT)%nat then
    let high_idx := (KERNEL_ALIAS_DST_PML4_BASE_INDEX + low_idx)%nat in
    u64_add (pml4_index_base_addr high_idx) offset_in_slot
  else Panicked (PanicMsg "low pml4 index too large for alias window").

(** Feature [alias_copycount_auto]: the loop over the addresses keeps the
    largest index seen and whether an address was seen at all. *)
Definition alias_scan_step (acc : nat * bool) (a : Z) : nat * bool :=
  let '(max_idx, any) := acc in
  if a =? 0 then (max_idx, any)
  else
    let idx := pml4_index a in
    (if (max_idx <? idx)%nat then idx else max_idx, true).

Definition recommend_alias_copy_count_from_addrs (addrs : list Z) : nat :=
  let '(max_idx, any) := fold_left alias_scan_step addrs (0%nat, false) in
  let res := if any then (max_idx + 1)%nat else 1%nat in
  let res := if (res =? 0)%nat then 1%nat else res in
  if (KERNEL_ALIAS_MAX_COPY_COUNT <? res)%nat
  then KERNEL_ALIAS_MAX_COPY_COUNT else res.

Definition recommend_alias_copy_count_from_guards (code_low stack_low : Z) : nat :=
  recommend_alias_copy_count_from_addrs [code_low; stack_low].

Definition recommend_alias_copy_count_from_context (code_low rsp_low rbp_low : Z) : nat :=
  recommend_alias_copy_count_from_addrs [code_low; rsp_low; rbp_low].

(** arch/paging.rs: the user-slot test. *)
Definition is_user_space_addr_u64 (addr : Z) : bool :=
  (USER_SPACE_BASE <=? addr) && (addr <? USER_SPACE_BASE + USER_SPACE_SIZE).

(** ** Bit-level facts *)

(** Masking with a run of ones is a remainder. *)
Lemma land_mask_mod a n : 0 <= n -> Z.land a (2 ^ n - 1) = a mod 2 ^ n.
Proof. intros. rewrite <- Z.land_ones by lia. by rewrite Z.ones_equiv. Qed.

Lemma land_mask_mod' a n m : 0 <= n -> m = 2 ^ n - 1 -> Z.land a m = a mod 2 ^ n.
Proof. intros ? ->. by apply land_mask_mod. Qed.

(** A word split at bit [n]. *)
Lemma div_mod_pow2 a n : 0 <= n -> a = 2 ^ n * (a / 2 ^ n) + a mod 2 ^ n.
Proof. intros. apply Z.div_mod. pose proof (Z.pow_pos_nonneg 2 n). lia. Qed.

(** The low [n] bits of a word and a mask above bit [n] do not overlap. *)
Lemma land_low_high_mask a n k :
  0 <= n -> 0 <= k -> Z.land (Z.land a (Z.ones n)) (Z.shiftl (Z.ones k) n) = 0.
Proof.
  intros Hn Hk. apply Z.bits_inj'. intros i Hi.
  rewrite !Z.land_spec, Z.shiftl_spec, !Z.testbit_ones, Z.bits_0 by lia.
  destruct (Z.leb_spec 0 (i - n)), (Z.ltb_spec i n); try lia;
    by rewrite ?andb_false_r, ?andb_false_l.
Qed.

(** Setting the bits [n .. n+k) of a word below [2^(n+k)]. *)
Lemma lor_high_mask a n k :
  0 <= n -> 0 <= k -> 0 <= a < 2 ^ (n + k) ->
  Z.lor a (Z.shiftl (Z.ones k) n) = a mod 2 ^ n + (2 ^ (n + k) - 2 ^ n).
Proof.
  intros Hn Hk Ha.
  replace (2 ^ (n + k) - 2 ^ n) with (Z.shiftl (Z.ones k) n)
    by (rewrite Z.shiftl_mul_pow2, Z.ones_equiv, Z.pow_add_r by lia; nia).
  rewrite <- Z.land_ones by lia.
  rewrite Z.add_nocarry_lxor, Z.lxor_lor by (apply land_low_high_mask; lia).
  apply Z.bits_inj'. intros i Hi.
  rewrite !Z.lor_spec, Z.land_spec, Z.shiftl_spec, !Z.testbit_ones by lia.
  destruct (Z.ltb_spec i n) as [Hin|Hin].
  { rewrite (proj2 (Z.leb_gt 0 (i - n))), (proj2 (Z.leb_le 0 i)) by lia.
    by rewrite !andb_true_r. }
  rewrite (proj2 (Z.leb_le 0 (i - n))) by lia. simpl.
  destruct (Z.ltb_spec (i - n) k) as [|Hik]; [by rewrite !orb_true_r|].
  rewrite !orb_false_r, !andb_false_r.
  destruct (decide (a = 0)) as [->|]; [apply Z.bits_0|].
  apply Z.bits_above_log2; [lia|]. apply Z.log2_lt_pow2; [lia|].
  eapply Z.lt_le_trans; [apply Ha|]. apply Z.pow_le_mono_r; lia.
Qed.

(** The sign-bit test of [canonicalize_virt]. *)
Lemma land_pow2_testbit a n :
  0 <= n -> negb (Z.land a (Z.shiftl 1 n) =? 0) = Z.testbit a n.
Proof.
  intros Hn. rewrite Z.shiftl_1_l. destruct (Z.testbit a n) eqn:E.
  - destruct (Z.eqb_spec (Z.land a (2 ^ n)) 0) as [H|]; [|done].
    assert (Z.testbit (Z.land a (2 ^ n)) n = false) as H' by (rewrite H; apply Z.bits_0).
    by rewrite Z.land_spec, E, Z.pow2_bits_true in H' by lia.
  - replace (Z.land a (2 ^ n)) with 0; [done|]. symmetry. apply Z.bits_inj'.
    intros i Hi. rewrite Z.land_spec, Z.bits_0, Z.pow2_bits_eqb by lia.
    destruct (Z.eqb_spec n i) as [->|]; [by rewrite E|apply andb_false_r].
Qed.

Lemma testbit_47_mod48 a : Z.testbit a 47 = (2 ^ 47 <=? a mod 2 ^ 48).
Proof.
  rewrite <- (Z.mod_pow2_bits_low a 48 47) by lia.
  pose proof (Z.mod_pos_bound a (2 ^ 48) ltac:(lia)) as Hb.
  rewrite Z.testbit_eqb by lia.
  destruct (Z.leb_spec (2 ^ 47) (a mod 2 ^ 48)).
  - replace (a mod 2 ^ 48 / 2 ^ 47) with 1; [done|].
    apply (Z.div_unique _ _ _ (a mod 2 ^ 48 - 2 ^ 47)); lia.
  - by rewrite Z.div_small by lia.
Qed.

(** Arithmetic reading of [canonicalize_virt]. *)
Lemma canonicalize_virt_eq a :
  u64 a ->
  canonicalize_virt a =
    if 2 ^ 47 <=? a mod 2 ^ 48 then a mod 2 ^ 48 + (2 ^ 64 - 2 ^ 48) else a mod 2 ^ 48.
Proof.
  intros [H0 H1]. unfold canonicalize_virt, u64_max in *.
  rewrite land_pow2_testbit, testbit_47_mod48 by lia.
  destruct (2 ^ 47 <=? a mod 2 ^ 48).
  - change 0xffff000000000000 with (Z.shiftl (Z.ones 16) 48).
    rewrite lor_high_mask by lia. done.
  - by rewrite (land_mask_mod' a 48) by done.
Qed.

Lemma pml4_index_eq a : 0 <= a -> pml4_index a = Z.to_nat ((a / 2 ^ 39) mod 512).
Proof.
  intros. unfold pml4_index. rewrite Z.shiftr_div_pow2 by lia.
  by rewrite (land_mask_mod' _ 9) by done.
Qed.

Lemma pml4_index_base_addr_eq i :
  (i < 512)%nat ->
  pml4_index_base_addr i =
    if (256 <=? i)%nat then Z.of_nat i * 2 ^ 39 + (2 ^ 64 - 2 ^ 48) else Z.of_nat i * 2 ^ 39.
Proof.
  intros Hi. unfold pml4_index_base_addr. rewrite Z.shiftl_mul_pow2 by lia.
  rewrite (Z.mod_small (_ * _)) by lia.
  rewrite canonicalize_virt_eq by (unfold u64, u64_max; lia).
  rewrite Z.mod_small by lia.
  destruct (Nat.leb_spec 256 i), (Z.leb_spec (2 ^ 47) (Z.of_nat i * 2 ^ 39)); lia.
Qed.

(** Clearing the low [k] bits of a word. *)
Lemma high_mask_eq k a : 0 <= k <= 64 -> u64 a -> Z.land a (Z.shiftl (Z.ones (64 - k)) k) = 2 ^ k * (a / 2 ^ k).
Proof.
  intros Hk [H0 H1]. unfold u64_max in *. apply Z.bits_inj'. intros i Hi.
  rewrite Z.mul_comm, <- Z.shiftl_mul_pow2, <- Z.shiftr_div_pow2 by lia.
  rewrite Z.land_spec, !Z.shiftl_spec by lia.
  destruct (Z.ltb_spec i k).
  { rewrite !(Z.testbit_neg_r _ (i - k)) by lia. apply andb_false_r. }
  rewrite Z.shiftr_spec, Z.testbit_ones by lia.
  replace (i - k + k) with i by lia.
  rewrite (proj2 (Z.leb_le 0 (i - k))) by lia. simpl.
  destruct (Z.ltb_spec (i - k) (64 - k)); [apply andb_true_r|].
  rewrite andb_false_r. symmetry.
  destruct (decide (a = 0)) as [->|]; [apply Z.bits_0|].
  apply Z.bits_above_log2; [lia|]. apply Z.log2_lt_pow2; [lia|].
  assert (2 ^ 64 <= 2 ^ i) by (apply Z.pow_le_mono_r; lia). lia.
Qed.

Lemma page_mask_eq a : u64 a -> Z.land a (u64_not (PAGE_SIZE - 1)) = PAGE_SIZE * (a / PAGE_SIZE).
Proof. intros Ha. exact (high_mask_eq 12 a ltac:(lia) Ha). Qed.

(** ** Properties of the layout *)

(** A 48-bit canonical address: bits 47..63 are all equal. *)
Definition canonical (a : Z) : Prop :=
  0 <= a < 2 ^ 47 \/ 2 ^ 64 - 2 ^ 47 <= a < 2 ^ 64.

Lemma canonical_u64 a : canonical a -> u64 a.
Proof. unfold canonical, u64, u64_max. lia. Qed.

Lemma canonicalize_canonical a : canonical a -> canonicalize_virt a = a.
Proof.
  intros Ha. rewrite canonicalize_virt_eq by by apply canonical_u64.
  destruct Ha as [Ha|Ha].
  - rewrite Z.mod_small by lia. destruct (Z.leb_spec (2 ^ 47) a); lia.
  - replace (a mod 2 ^ 48) with (a - (2 ^ 64 - 2 ^ 48)).
    + destruct (Z.leb_spec (2 ^ 47) (a - (2 ^ 64 - 2 ^ 48))); lia.
    + apply (Z.mod_unique_pos a (2 ^ 48) (2 ^ 16 - 1)); lia.
Qed.

Lemma canonicalize_result a : u64 a -> canonical (canonicalize_virt a).
Proof.
  intros Ha. rewrite canonicalize_virt_eq by done.
  pose proof (Z.mod_pos_bound a (2 ^ 48) ltac:(lia)).
  unfold canonical. destruct (Z.leb_spec (2 ^ 47) (a mod 2 ^ 48)); lia.
Qed.

Lemma canonicalize_low48 a : u64 a -> canonicalize_virt a mod 2 ^ 48 = a mod 2 ^ 48.
Proof.
  intros Ha. rewrite canonicalize_virt_eq by done.
  pose proof (Z.mod_pos_bound a (2 ^ 48) ltac:(lia)).
  destruct (Z.leb_spec (2 ^ 47) (a mod 2 ^ 48)).
  - replace (a mod 2 ^ 48 + (2 ^ 64 - 2 ^ 48)) with (a mod 2 ^ 48 + (2 ^ 16 - 1) * 2 ^ 48) by lia.
    rewrite Z.mod_add, Z.mod_mod by lia. done.
  - by rewrite Z.mod_mod by lia.
Qed.

(** [canonicalize_virt] maps every 64-bit word to a canonical address with
    the same low 48 bits, and it is the identity exactly on the canonical
    addresses; so it is the projection onto the canonical addresses. *)
Theorem canonicalize_virt_projection (a : Z) (Ha : u64 a) :
  canonical (canonicalize_virt a) /\
  canonicalize_virt a mod 2 ^ 48 = a mod 2 ^ 48 /\
  canonicalize_virt (canonicalize_virt a) = canonicalize_virt a /\
  (canonicalize_virt a = a <-> canonical a).
Proof.
  pose proof (canonicalize_result a Ha) as Hc. repeat split; auto.
  - by apply canonicalize_low48.
  - by apply canonicalize_canonical.
  - by intros <-.
  - by apply canonicalize_canonical.
Qed.

Lemma canonicalize_virt_projection_witness :
  canonicalize_virt 0x0000f00000000123 = 0xfffff00000000123 /\
  canonical (canonicalize_virt 0x0000f00000000123).
Proof.
  split; [reflexivity|].
  apply (canonicalize_virt_projection 0x0000f00000000123). split; vm_compute; congruence.
Defined.

(** The PML4 index of any address of a slot. *)
Lemma pml4_index_of_slot i off :
  (i < 512)%nat -> 0 <= off < 2 ^ 39 -> pml4_index (pml4_index_base_addr i + off) = i.
Proof.
  intros Hi Hoff. rewrite pml4_index_base_addr_eq by done.
  rewrite pml4_index_eq by (destruct (256 <=? i)%nat; lia).
  set (h := if (256 <=? i)%nat then 2 ^ 16 - 1 else 0).
  replace ((if (256 <=? i)%nat then _ else _) + off)
    with (off + (Z.of_nat i + h * 512) * 2 ^ 39)
    by (unfold h; destruct (256 <=? i)%nat; lia).
  rewrite Z.div_add, (Z.div_small off) by lia. rewrite Z.add_0_l, Z.mod_add by lia.
  rewrite Z.mod_small by lia. lia.
Qed.

Lemma pml4_index_base_bound i :
  (i < 512)%nat -> 0 <= pml4_index_base_addr i <= 2 ^ 64 - 2 ^ 39.
Proof.
  intros Hi. rewrite pml4_index_base_addr_eq by done.
  destruct (Nat.leb_spec 256 i); lia.
Qed.

Lemma kernel_high_alias_eq low :
  u64 low -> (pml4_index low < 4)%nat ->
  kernel_high_alias_of_low low =
    Ok (pml4_index_base_addr (508 + pml4_index low) + low mod 2 ^ 39).
Proof.
  intros Hlow Hidx. unfold kernel_high_alias_of_low.
  unfold KERNEL_ALIAS_MAX_COPY_COUNT, KERNEL_ALIAS_DST_PML4_BASE_INDEX.
  rewrite (proj2 (Nat.ltb_lt _ _)) by (simpl; lia).
  rewrite (land_mask_mod' low 39) by done.
  rewrite u64_add_Ok; [done|].
  pose proof (pml4_index_base_bound (508 + pml4_index low) ltac:(lia)).
  pose proof (Z.mod_pos_bound low (2 ^ 39) ltac:(lia)). unfold u64_max. lia.
Qed.

(** The high alias of a kernel address whose PML4 index is one of the four
    copied slots: the computation does not panic, the alias lies in slot
    [508 + index] at the same offset, it is a canonical kernel-space address,
    and two low addresses of the window have the same alias only if they are
    equal.  For every other address the [debug_assert!] fires. *)
Theorem kernel_high_alias_correct (low : Z) (Hlow : u64 low) :
  ((pml4_index low < KERNEL_ALIAS_MAX_COPY_COUNT)%nat ->
     exists h, kernel_high_alias_of_low low = Ok h /\
       pml4_index h = (KERNEL_ALIAS_DST_PML4_BASE_INDEX + pml4_index low)%nat /\
       h mod PML4_SLOT_SIZE = low mod PML4_SLOT_SIZE /\
       canonical h /\ KERNEL_SPACE_START <= h /\
       (forall low', 0 <= low' < 2 ^ 48 -> low < 2 ^ 48 ->
          kernel_high_alias_of_low low' = Ok h -> low' = low)) /\
  ((KERNEL_ALIAS_MAX_COPY_COUNT <= pml4_index low)%nat ->
     exists m, kernel_high_alias_of_low low = Panicked (PanicMsg m)).
Proof.
  split; intros Hidx.
  2: { unfold kernel_high_alias_of_low.
       rewrite (proj2 (Nat.ltb_ge _ _)) by done. by eexists. }
  change (pml4_index low < 4)%nat in Hidx.
  exists (pml4_index_base_addr (508 + pml4_index low) + low mod 2 ^ 39).
  pose proof (Z.mod_pos_bound low (2 ^ 39) ltac:(lia)) as Hoff.
  assert (Hbase : pml4_index_base_addr (508 + pml4_index low)
                  = Z.of_nat (508 + pml4_index low) * 2 ^ 39 + (2 ^ 64 - 2 ^ 48)).
  { rewrite pml4_index_base_addr_eq by lia.
    by rewrite (proj2 (Nat.leb_le 256 _)) by lia. }
  split; [by apply kernel_high_alias_eq|].
  change KERNEL_ALIAS_DST_PML4_BASE_INDEX with 508%nat.
  split; [by apply pml4_index_of_slot; lia|]. rewrite Hbase.
  split; [|split; [|split]].
  - change PML4_SLOT_SIZE with (2 ^ 39).
    replace (_ + low mod 2 ^ 39) with
      (low mod 2 ^ 39 + (Z.of_nat (508 + pml4_index low) + (2 ^ 25 - 2 ^ 9)) * 2 ^ 39) by lia.
    by rewrite Z.mod_add, Z.mod_mod by lia.
  - right. lia.
  - unfold KERNEL_SPACE_START. lia.
  - intros low' Hlow' Hlow48 Heq.
    assert (Hidx' : (pml4_index low' < 4)%nat).
    { unfold kernel_high_alias_of_low in Heq.
      destruct (Nat.ltb_spec (pml4_index low') KERNEL_ALIAS_MAX_COPY_COUNT); done. }
    rewrite kernel_high_alias_eq in Heq by (unfold u64, u64_max; lia).
    injection Heq as Heq.
    rewrite pml4_index_base_addr_eq in Heq by lia.
    rewrite (proj2 (Nat.leb_le 256 _)) in Heq by lia.
    pose proof (Z.mod_pos_bound low' (2 ^ 39) ltac:(lia)) as Hoff'.
    assert (Hix : forall x, 0 <= x < 2 ^ 48 -> Z.of_nat (pml4_index x) = x / 2 ^ 39).
    { intros x Hx. rewrite pml4_index_eq by lia.
      pose proof (Z.div_pos x (2 ^ 39) ltac:(lia) ltac:(lia)).
      assert (x / 2 ^ 39 < 512) by (apply Z.div_lt_upper_bound; lia).
      rewrite Z.mod_small; lia. }
    pose proof (Hix low ltac:(destruct Hlow; lia)). pose proof (Hix low' Hlow').
    pose proof (div_mod_pow2 low 39 ltac:(lia)).
    pose proof (div_mod_pow2 low' 39 ltac:(lia)). lia.
Qed.

Lemma kernel_high_alias_correct_witness :
  exists h, kernel_high_alias_of_low 0x8000212345 = Ok h /\ pml4_index h = 509%nat.
Proof.
  destruct (kernel_high_alias_correct 0x8000212345) as [H _].
  { split; vm_compute; congruence. }
  destruct H as (h & Hh & Hidx & _); [vm_compute; lia|].
  exists h. split; [done|]. rewrite Hidx. reflexivity.
Defined.

Lemma user_space_base_value : USER_SPACE_BASE = 32 * 2 ^ 39.
Proof. reflexivity. Qed.

Lemma user_space_range a : is_user_space_addr_u64 a = true -> 32 * 2 ^ 39 <= a < 33 * 2 ^ 39.
Proof.
  unfold is_user_space_addr_u64. rewrite andb_true_iff, Z.leb_le, Z.ltb_lt.
  change USER_SPACE_SIZE with (2 ^ 39). rewrite user_space_base_value. lia.
Qed.

(** The address test is the index test. *)
Lemma user_slot_index a :
  canonical a -> is_user_space_addr_u64 a = true <-> pml4_index a = USER_PML4_INDEX.
Proof.
  intros Ha. unfold is_user_space_addr_u64. rewrite andb_true_iff, Z.leb_le, Z.ltb_lt.
  change USER_SPACE_SIZE with (2 ^ 39). rewrite user_space_base_value.
  rewrite pml4_index_eq by (destruct Ha; lia). unfold USER_PML4_INDEX.
  pose proof (div_mod_pow2 a 39 ltac:(lia)) as Hd.
  pose proof (Z.mod_pos_bound a (2 ^ 39) ltac:(lia)).
  pose proof (Z.mod_pos_bound (a / 2 ^ 39) 512 ltac:(lia)).
  assert (0 <= a / 2 ^ 39) by (apply Z.div_pos; destruct Ha; lia).
  destruct Ha as [Ha|Ha].
  - rewrite Z.mod_small by lia. lia.
  - assert ((a / 2 ^ 39) mod 512 = a / 2 ^ 39 - (2 ^ 16 - 1) * 512) as Hm.
    { symmetry. apply (Z.mod_unique_pos _ _ (2 ^ 16 - 1)); lia. }
    rewrite Hm. lia.
Qed.

(** The user slot.  The two independent definitions of the user region
    ([mem::layout] and [arch::virt_layout]) agree, a canonical address passes
    [is_user_space_addr_u64] exactly when its PML4 index is the reserved one,
    and then it is below the kernel half and outside the alias window. *)
Theorem user_slot_is_pml4_slot (a : Z) (Ha : canonical a) :
  USER_SPACE_BASE = USER_SPACE_START /\ USER_SPACE_SIZE = PML4_SLOT_SIZE /\
  (is_user_space_addr_u64 a = true <-> pml4_index a = USER_PML4_INDEX) /\
  (is_user_space_addr_u64 a = true ->
     USER_SPACE_START <= a <= USER_SPACE_END /\ a < KERNEL_SPACE_START /\
     (pml4_index a < KERNEL_ALIAS_DST_PML4_BASE_INDEX)%nat).
Proof.
  pose proof (user_slot_index a Ha) as Hiff.
  split; [reflexivity|]. split; [reflexivity|]. split; [exact Hiff|].
  intros Hu. rewrite (proj1 Hiff Hu).
  unfold is_user_space_addr_u64 in Hu. rewrite andb_true_iff, Z.leb_le, Z.ltb_lt in Hu.
  rewrite user_space_base_value in Hu. change USER_SPACE_SIZE with (2 ^ 39) in Hu.
  change USER_SPACE_START with (32 * 2 ^ 39).
  change USER_SPACE_END with (32 * 2 ^ 39 + (2 ^ 39 - 1)).
  unfold KERNEL_SPACE_START, USER_PML4_INDEX, KERNEL_ALIAS_DST_PML4_BASE_INDEX. lia.
Qed.

Lemma user_slot_is_pml4_slot_witness :
  is_user_space_addr_u64 0x100000110000 = true /\ pml4_index 0x100000110000 = USER_PML4_INDEX.
Proof.
  split; [reflexivity|].
  apply (user_slot_is_pml4_slot 0x100000110000); [left; vm_compute; intuition congruence|reflexivity].
Defined.

(** Pages and frames.  [align_down] is the start of the page an address
    belongs to, and page number and start address are inverse to each other:
    [start_address] does not panic for the page of a 64-bit address, and the
    page of a start address is the page itself. *)
Theorem page_address_roundtrip (a : VirtAddr) (Ha : u64 (virt_u64 a)) :
  VirtPage_start_address (VirtAddr_page a) = Ok (VirtAddr_align_down a) /\
  virt_u64 (VirtAddr_align_down a) <= virt_u64 a
    < virt_u64 (VirtAddr_align_down a) + PAGE_SIZE /\
  VirtAddr_page (VirtAddr_align_down a) = VirtAddr_page a /\
  VirtAddr_align_down (VirtAddr_align_down a) = VirtAddr_align_down a.
Proof.
  destruct a as [a]. simpl in Ha. unfold VirtAddr_align_down, VirtAddr_page. simpl.
  rewrite page_mask_eq by done.
  pose proof (Z.div_mod a PAGE_SIZE ltac:(done)) as Hd.
  pose proof (Z.mod_pos_bound a PAGE_SIZE ltac:(done)) as Hm.
  assert (Hpage : PAGE_SIZE * (a / PAGE_SIZE) / PAGE_SIZE = a / PAGE_SIZE)
    by (rewrite Z.mul_comm; by apply Z.div_mul).
  destruct Ha as [Ha0 Ha1].
  assert (0 <= a / PAGE_SIZE) by (by apply Z.div_pos).
  unfold VirtPage_start_address. simpl. repeat split; try lia.
  - by rewrite Z.mul_comm, u64_mul_Ok by lia.
  - by rewrite Hpage.
  - rewrite page_mask_eq, Hpage; [done|]. unfold u64, PAGE_SIZE in *. lia.
Qed.

Lemma page_address_roundtrip_witness :
  VirtPage_start_address (VirtAddr_page (mkVirtAddr 0x110abc)) = Ok (mkVirtAddr 0x110000).
Proof.
  rewrite (proj1 (page_address_roundtrip (mkVirtAddr 0x110abc)
    ltac:(split; vm_compute; congruence))). reflexivity.
Defined.
