(* ===== verification/AddressSpace.v ===== *)
(** * Logical address spaces (mem/address_space.rs)

    The table of at most 64 mappings of a task, its operations, and the
    refinement of the table to a finite map from pages to frames. *)

From stdpp Require Import base list option gmap.
From Stdlib Require Import ZArith Lia.
From S2P Require Import Prelude Addr.

Inductive AddressSpaceKind := Kernel | User.

#[export] Instance AddressSpaceKind_eq_dec : EqDecision AddressSpaceKind.
Proof. solve_decision. Defined.

Record Mapping := mkMapping {
  m_page : VirtPage;
  m_frame : PhysFrame;
  m_flags : PageFlags }.

#[export] Instance Mapping_eq_dec : EqDecision Mapping.
Proof. solve_decision. Defined.

Definition MAX_MAPPINGS : nat := 64.

Record AddressSpace := mkAddressSpace {
  as_kind : AddressSpaceKind;
  as_root_page_frame : option PhysFrame;
  as_mappings : list (option Mapping) }.

Inductive AddressSpaceError := AlreadyMapped | NotMapped | CapacityExceeded.

Definition AddressSpace_new_kernel : AddressSpace :=
  mkAddressSpace Kernel None (replicate MAX_MAPPINGS None).
Definition AddressSpace_new_user : AddressSpace :=
  mkAddressSpace User None (replicate MAX_MAPPINGS None).

(** The three loops of [apply] over the table. *)
Fixpoint page_in_table (page : VirtPage) (l : list (option Mapping)) : bool :=
  match l with
  | [] => false
  | Some m :: l' => if decide (m_page m = page) then true else page_in_table page l'
  | None :: l' => page_in_table page l'
  end.

Fixpoint fill_first_free (m : Mapping) (l : list (option Mapping)) :
    option (list (option Mapping)) :=
  match l with
  | [] => None
  | None :: l' => Some (Some m :: l')
  | Some x :: l' => (Some x ::.) <$> fill_first_free m l'
  end.

Fixpoint clear_first_page (page : VirtPage) (l : list (option Mapping)) :
    option (list (option Mapping)) :=
  match l with
  | [] => None
  | Some m :: l' =>
      if decide (m_page m = page) then Some (None :: l')
      else (Some m ::.) <$> clear_first_page page l'
  | None :: l' => (None ::.) <$> clear_first_page page l'
  end.

Definition AddressSpace_apply (action : MemAction) (a : AddressSpace) :
    result unit AddressSpaceError * AddressSpace :=
  match action with
  | Map page frame flags =>
      if page_in_table page (as_mappings a) then (Err AlreadyMapped, a)
      else
        match fill_first_free (mkMapping page frame flags) (as_mappings a) with
        | Some l => (Okay tt, {| a with as_mappings := l |})
        | None => (Err CapacityExceeded, a)
        end
  | Unmap page =>
      match clear_first_page page (as_mappings a) with
      | Some l => (Okay tt, {| a with as_mappings := l |})
      | None => (Err NotMapped, a)
      end
  end.

(** The mappings [for_each_mapping] visits, in table order. *)
Definition AddressSpace_mappings (a : AddressSpace) : list Mapping :=
  omap id (as_mappings a).

Definition AddressSpace_mapping_count (a : AddressSpace) : nat :=
  length (filter is_Some (as_mappings a)).

Definition is_user_mapping (m : Mapping) : bool := PageFlags_contains (m_flags m) USER.

(** The pages [for_each_user_mapping_page] visits. *)
Definition AddressSpace_user_mapping_pages (a : AddressSpace) : list VirtPage :=
  m_page <$> filter is_user_mapping (AddressSpace_mappings a).

Definition clear_user_entry (e : option Mapping) : option Mapping :=
  match e with
  | Some m => if is_user_mapping m then None else Some m
  | None => None
  end.

Definition AddressSpace_clear_user_mappings (a : AddressSpace) : AddressSpace :=
  {| a with as_mappings := clear_user_entry <$> as_mappings a |}.

(** ** Well-formed tables and their abstraction *)

Definition table_pages (l : list (option Mapping)) : list Z :=
  (fun m => page_number (m_page m)) <$> omap id l.

(** The table has its fixed size and maps no page twice. *)
Record AddressSpace_wf (a : AddressSpace) : Prop := {
  as_wf_len : length (as_mappings a) = MAX_MAPPINGS;
  as_wf_nodup : NoDup (table_pages (as_mappings a)) }.

(** The abstraction: page number to frame and flags. *)
Definition table_map (l : list (option Mapping)) : gmap Z (PhysFrame * PageFlags) :=
  list_to_map ((fun m => (page_number (m_page m), (m_frame m, m_flags m))) <$> omap id l).
Definition as_map (a : AddressSpace) : gmap Z (PhysFrame * PageFlags) :=
  table_map (as_mappings a).

Lemma table_pages_fst (l : list (option Mapping)) :
  ((fun m => (page_number (m_page m), (m_frame m, m_flags m))) <$> omap id l).*1
  = table_pages l.
Proof. unfold table_pages. by rewrite <- list_fmap_compose. Qed.

Lemma table_map_dom l : dom (table_map l) = list_to_set (table_pages l).
Proof. unfold table_map. by rewrite dom_list_to_map_L, table_pages_fst. Qed.

Lemma table_map_None l n : table_map l !! n = None <-> n ∉ table_pages l.
Proof.
  unfold table_map. rewrite <- table_pages_fst. symmetry.
  apply not_elem_of_list_to_map.
Qed.

Lemma table_map_cons m l :
  table_map (Some m :: l) = <[page_number (m_page m) := (m_frame m, m_flags m)]> (table_map l).
Proof. done. Qed.

Lemma page_number_inj p q : page_number p = page_number q -> p = q.
Proof. destruct p, q. simpl. congruence. Qed.

Lemma table_pages_Some m l : table_pages (Some m :: l) = page_number (m_page m) :: table_pages l.
Proof. done. Qed.

Lemma table_pages_None l : table_pages (None :: l) = table_pages l.
Proof. done. Qed.

Lemma table_pages_le l : length (table_pages l) <= length l.
Proof.
  induction l as [|[m|] l IH]; [done| |];
    rewrite ?table_pages_Some, ?table_pages_None; simpl; lia.
Qed.

Ltac table_simpl := rewrite ?table_pages_Some, ?table_pages_None, ?table_map_cons.

Lemma page_in_table_spec p l :
  page_in_table p l = true <-> page_number p ∈ table_pages l.
Proof.
  induction l as [|[m|] l IH]; table_simpl; simpl;
    [set_solver| |done].
  rewrite elem_of_cons, <- IH. case_decide as Hd; [naive_solver|].
  split; [auto|]. intros [H|H]; [|done]. by apply page_number_inj in H.
Qed.

(** The number of free slots decides whether a page can be added. *)
Lemma fill_first_free_None m l :
  fill_first_free m l = None <-> length (table_pages l) = length l.
Proof.
  induction l as [|[x|] l IH]; table_simpl; simpl; [done| |].
  - rewrite fmap_None, IH. lia.
  - pose proof (table_pages_le l). split; [done|lia].
Qed.

Lemma fill_first_free_Some m l l' :
  fill_first_free m l = Some l' ->
  page_number (m_page m) ∉ table_pages l ->
  length l' = length l /\
  table_pages l' ≡ₚ page_number (m_page m) :: table_pages l /\
  table_map l' = <[page_number (m_page m) := (m_frame m, m_flags m)]> (table_map l).
Proof.
  revert l'. induction l as [|[x|] l IH]; intros l' H Hni; simpl in H; [done| |].
  - apply fmap_Some in H as (l1 & H1 & ->). rewrite table_pages_Some in Hni. table_simpl.
    apply not_elem_of_cons in Hni as [Hne Hni].
    destruct (IH l1 H1 Hni) as (Hlen & Hp & Hm). repeat split.
    + simpl. by rewrite Hlen.
    + rewrite Hp. apply Permutation_swap.
    + rewrite Hm. by apply insert_insert_ne.
  - by simplify_eq.
Qed.

Lemma clear_first_page_None p l :
  clear_first_page p l = None <-> page_number p ∉ table_pages l.
Proof.
  induction l as [|[x|] l IH]; table_simpl; simpl; [set_solver| |].
  - case_decide as Hd; subst.
    + set_solver.
    + rewrite fmap_None, IH, not_elem_of_cons.
      split; [|naive_solver]. intros ?. split; [|done].
      intros Heq. apply Hd. by apply page_number_inj.
  - by rewrite fmap_None.
Qed.

Lemma clear_first_page_Some p l l' :
  clear_first_page p l = Some l' ->
  NoDup (table_pages l) ->
  length l' = length l /\
  table_pages l ≡ₚ page_number p :: table_pages l' /\
  table_map l' = delete (page_number p) (table_map l).
Proof.
  revert l'. induction l as [|[x|] l IH]; intros l' H Hnd; simpl in H; [done| |].
  - rewrite table_pages_Some in Hnd. apply NoDup_cons in Hnd as [Hni Hnd].
    case_decide as Hd; simplify_eq.
    + table_simpl. split; [done|split; [done|]].
      rewrite delete_insert_eq. symmetry. apply delete_id. by apply table_map_None.
    + apply fmap_Some in H as (l1 & H1 & ->). destruct (IH l1 H1 Hnd) as (Hlen & Hp & Hm).
      table_simpl. repeat split.
      * simpl. by rewrite Hlen.
      * rewrite Hp. apply Permutation_swap.
      * rewrite Hm. apply insert_delete_ne. intros Heq. apply Hd. by apply page_number_inj.
  - apply fmap_Some in H as (l1 & H1 & ->). destruct (IH l1 H1 Hnd) as (Hlen & Hp & Hm).
    repeat split; [simpl; by rewrite Hlen|by rewrite table_pages_None|done].
Qed.

Lemma table_map_size l : NoDup (table_pages l) -> size (table_map l) = length (table_pages l).
Proof.
  intros H. unfold table_map. rewrite <- table_pages_fst in H |- *.
  rewrite map_size_list_to_map by done. by rewrite !length_fmap.
Qed.

(** ** The contract of [apply]

    What a Map or Unmap promises in terms of the finite map alone. *)
Definition apply_spec (action : MemAction) (m : gmap Z (PhysFrame * PageFlags)) :
    result unit AddressSpaceError * gmap Z (PhysFrame * PageFlags) :=
  match action with
  | Map page frame flags =>
      match m !! page_number page with
      | Some _ => (Err AlreadyMapped, m)
      | None =>
          if decide (size m < MAX_MAPPINGS)
          then (Okay tt, <[page_number page := (frame, flags)]> m)
          else (Err CapacityExceeded, m)
      end
  | Unmap page =>
      match m !! page_number page with
      | Some _ => (Okay tt, delete (page_number page) m)
      | None => (Err NotMapped, m)
      end
  end.

Lemma apply_map_refines page frame flags a :
  AddressSpace_wf a ->
  let r := AddressSpace_apply (Map page frame flags) a in
  AddressSpace_wf r.2 /\ (r.1, as_map r.2) = apply_spec (Map page frame flags) (as_map a).
Proof.
  intros [Hlen Hnd]. unfold as_map. simpl.
  destruct (page_in_table page (as_mappings a)) eqn:Hin.
  - apply page_in_table_spec in Hin. simpl. split; [done|].
    destruct (table_map (as_mappings a) !! page_number page) eqn:E; [done|].
    by apply table_map_None in E.
  - assert (Hni : page_number page ∉ table_pages (as_mappings a)).
    { intros H. apply page_in_table_spec in H. congruence. }
    rewrite (proj2 (table_map_None _ _) Hni).
    rewrite table_map_size by done.
    destruct (fill_first_free _ _) as [l|] eqn:Hf; simpl.
    + rewrite decide_True.
      2: { rewrite <- Hlen. pose proof (table_pages_le (as_mappings a)).
           assert (length (table_pages (as_mappings a)) <> length (as_mappings a)); [|lia].
           intros H'. by rewrite (proj2 (fill_first_free_None _ _) H') in Hf. }
      apply fill_first_free_Some in Hf as (Hl & Hp & Hm); [|done].
      split; [|by rewrite Hm]. split; simpl; [congruence|].
      rewrite Hp. by constructor.
    + apply fill_first_free_None in Hf. rewrite decide_False by lia. done.
Qed.

Lemma apply_unmap_refines page a :
  AddressSpace_wf a ->
  let r := AddressSpace_apply (Unmap page) a in
  AddressSpace_wf r.2 /\ (r.1, as_map r.2) = apply_spec (Unmap page) (as_map a).
Proof.
  intros [Hlen Hnd]. unfold as_map. simpl.
  destruct (clear_first_page page (as_mappings a)) as [l|] eqn:Hc; simpl.
  - destruct (table_map (as_mappings a) !! page_number page) eqn:E.
    2: { apply table_map_None in E. by rewrite (proj2 (clear_first_page_None _ _) E) in Hc. }
    apply clear_first_page_Some in Hc as (Hl & Hp & Hm); [|done].
    split; [|by rewrite Hm]. split; simpl; [congruence|].
    rewrite Hp in Hnd. by apply NoDup_cons in Hnd as [].
  - apply clear_first_page_None in Hc. by rewrite (proj2 (table_map_None _ _) Hc).
Qed.

Lemma AddressSpace_apply_refines action a :
  AddressSpace_wf a ->
  let r := AddressSpace_apply action a in
  AddressSpace_wf r.2 /\ (r.1, as_map r.2) = apply_spec action (as_map a).
Proof.
  destruct action; [apply apply_map_refines|apply apply_unmap_refines].
Qed.

Lemma AddressSpace_apply_frame action a :
  let r := AddressSpace_apply action a in
  as_kind r.2 = as_kind a /\ as_root_page_frame r.2 = as_root_page_frame a /\
  (r.1 <> Okay tt -> r.2 = a).
Proof.
  destruct action; simpl; repeat (case_match; simpl); done.
Qed.

(** The behaviour of [apply] read off its contract. *)
Lemma AddressSpace_apply_by_spec action a r m :
  AddressSpace_wf a -> apply_spec action (as_map a) = (r, m) ->
  exists a', AddressSpace_apply action a = (r, a') /\ as_map a' = m /\
             (r <> Okay tt -> a' = a).
Proof.
  intros Hwf Hs. pose proof (AddressSpace_apply_refines action a Hwf) as [_ H].
  pose proof (AddressSpace_apply_frame action a) as (_ & _ & Hfr).
  rewrite Hs in H. destruct (AddressSpace_apply action a) as [r' a'].
  simpl in *. injection H as -> <-. by exists a'.
Qed.

Lemma new_wf a : as_mappings a = replicate MAX_MAPPINGS None -> AddressSpace_wf a /\ as_map a = ∅.
Proof.
  intros H. split; [split|]; [| |unfold as_map]; rewrite H.
  - apply length_replicate.
  - vm_compute. constructor.
  - reflexivity.
Qed.

(** ** Removing the user mappings *)

Definition not_user (x : Z * (PhysFrame * PageFlags)) : Prop :=
  PageFlags_contains x.2.2 USER = false.
#[export] Instance not_user_dec x : Decision (not_user x).
Proof. unfold not_user. apply _. Defined.

Lemma clear_user_pages_sublist l :
  table_pages (clear_user_entry <$> l) `sublist_of` table_pages l.
Proof.
  induction l as [|[m|] l IH]; csimpl; [done| |done].
  rewrite table_pages_Some. destruct (is_user_mapping m).
  - rewrite table_pages_None. by constructor.
  - rewrite table_pages_Some. by constructor.
Qed.

Lemma clear_user_table_map l :
  NoDup (table_pages l) ->
  table_map (clear_user_entry <$> l) = filter not_user (table_map l).
Proof.
  induction l as [|[m|] l IH]; intros Hnd; csimpl; [done| |by apply IH].
  rewrite table_pages_Some in Hnd. apply NoDup_cons in Hnd as [Hni Hnd].
  rewrite table_map_cons. destruct (is_user_mapping m) eqn:E.
  - change (table_map (None :: ?l)) with (table_map l). rewrite IH by done.
    symmetry. rewrite map_filter_insert_False.
    + by rewrite delete_id by by apply table_map_None.
    + unfold not_user. simpl. unfold is_user_mapping in E. by rewrite E.
  - rewrite table_map_cons, IH by done. symmetry. by apply map_filter_insert_True.
Qed.

Lemma clear_user_wf a : AddressSpace_wf a -> AddressSpace_wf (AddressSpace_clear_user_mappings a).
Proof.
  intros [Hlen Hnd]. split; simpl; [by rewrite length_fmap|].
  eapply sublist_NoDup; [done|apply clear_user_pages_sublist].
Qed.

Lemma clear_user_no_user a :
  Forall (fun m => is_user_mapping m = false)
    (AddressSpace_mappings (AddressSpace_clear_user_mappings a)).
Proof.
  unfold AddressSpace_mappings, AddressSpace_clear_user_mappings. simpl.
  induction (as_mappings a) as [|[m|] l IH]; csimpl; [done| |done].
  destruct (is_user_mapping m) eqn:E; csimpl; [done|by constructor].
Qed.

Lemma clear_user_frame a :
  as_kind (AddressSpace_clear_user_mappings a) = as_kind a /\
  as_root_page_frame (AddressSpace_clear_user_mappings a) = as_root_page_frame a.
Proof. done. Qed.

(** The user pages, when every mapping is a user mapping. *)
Lemma user_pages_all a :
  AddressSpace_wf a ->
  (forall p x, as_map a !! p = Some x -> PageFlags_contains x.2 USER = true) ->
  let ps := page_number <$> AddressSpace_user_mapping_pages a in
  NoDup ps /\ length ps <= MAX_MAPPINGS /\ (forall p, p ∈ ps <-> is_Some (as_map a !! p)).
Proof.
  intros [Hlen Hnd] Hall.
  assert (Hps : page_number <$> AddressSpace_user_mapping_pages a = table_pages (as_mappings a)).
  { unfold AddressSpace_user_mapping_pages, AddressSpace_mappings, table_pages.
    rewrite <- list_fmap_compose. f_equal. unfold as_map in Hall.
    revert Hnd Hall. clear Hlen. induction (as_mappings a) as [|[m|] l IH]; intros Hnd Hall; csimpl; try done.
    - rewrite table_pages_Some in Hnd. apply NoDup_cons in Hnd as [Hni Hnd].
      rewrite filter_cons_True.
      + f_equal. apply IH; [done|]. intros p x Hp. apply (Hall p x). rewrite table_map_cons.
        rewrite lookup_insert_ne; [done|]. intros <-. apply table_map_None in Hni. congruence.
      + assert (Hm : is_user_mapping m = true); [|by rewrite Hm].
        apply (Hall (page_number (m_page m)) (m_frame m, m_flags m)).
        by rewrite table_map_cons, lookup_insert_eq.
    - by apply IH. }
  cbv zeta. rewrite Hps. split; [done|]. split; [rewrite <- Hlen; apply table_pages_le|].
  intros p. unfold as_map. destruct (table_map (as_mappings a) !! p) eqn:E.
  - split; [by eexists|]. intros _. destruct (decide (p ∈ table_pages (as_mappings a))); [done|].
    exfalso. apply table_map_None in n. congruence.
  - apply table_map_None in E. split; [done|by intros []].
Qed.

Lemma clear_user_all a :
  AddressSpace_wf a ->
  (forall p x, as_map a !! p = Some x -> PageFlags_contains x.2 USER = true) ->
  as_map (AddressSpace_clear_user_mappings a) = ∅.
Proof.
  intros Hwf Hall. unfold as_map. simpl. rewrite clear_user_table_map by apply Hwf.
  apply map_empty. intros p. apply map_lookup_filter_None. right. intros x Hx Hnu.
  unfold not_user in Hnu. simpl in Hnu. apply Hall in Hx. congruence.
Qed.

(** ** Properties *)

(** C30: an address space refines a finite map.  On a well-formed table (64
    slots, no page twice) [apply] returns the result the map-level contract
    [apply_spec] gives, errors included, the table it leaves abstracts to the
    contract's map and is again well-formed, and neither the kind nor the root
    frame changes. *)
Theorem apply_refines_map (action : MemAction) (a : AddressSpace)
    (Hwf : AddressSpace_wf a) :
  let r := AddressSpace_apply action a in
  (r.1, as_map r.2) = apply_spec action (as_map a) /\ AddressSpace_wf r.2 /\
  as_kind r.2 = as_kind a /\ as_root_page_frame r.2 = as_root_page_frame a.
Proof.
  destruct (AddressSpace_apply_refines action a Hwf) as [Hwf' Heq].
  destruct (AddressSpace_apply_frame action a) as (Hk & Hr & _).
  split; [exact Heq|]. split; [exact Hwf'|]. by split.
Qed.

(** The safety rules of the memory layer.  A second Map of a mapped page is
    refused with [AlreadyMapped] whatever frame it names, an Unmap of a page
    that is not mapped with [NotMapped], a Map into a full table with
    [CapacityExceeded], and a refused action leaves the address space as it
    was; Map then Unmap of a fresh page gives back the same mappings. *)
Theorem apply_safety (page : VirtPage) (frame frame' : PhysFrame) (flags flags' : PageFlags)
    (a a' : AddressSpace) (Hwf : AddressSpace_wf a)
    (Hmap : AddressSpace_apply (Map page frame flags) a = (Okay tt, a')) :
  AddressSpace_apply (Map page frame' flags') a' = (Err AlreadyMapped, a') /\
  AddressSpace_apply (Unmap page) a = (Err NotMapped, a) /\
  AddressSpace_mapping_count a < MAX_MAPPINGS /\
  exists a'', AddressSpace_apply (Unmap page) a' = (Okay tt, a'') /\ as_map a'' = as_map a.
Proof.
  destruct (AddressSpace_apply_refines (Map page frame flags) a Hwf) as [Hwf' Heq].
  rewrite Hmap in Hwf', Heq. simpl in Hwf', Heq.
  destruct (as_map a !! page_number page) eqn:Hp; [done|].
  case_decide as Hsz; simplify_eq.
  assert (Hp' : as_map a' !! page_number page = Some (frame, flags))
    by (rewrite Heq; apply lookup_insert_eq).
  assert (Hcount : AddressSpace_mapping_count a = size (as_map a)).
  { unfold as_map. rewrite table_map_size by apply Hwf.
    unfold AddressSpace_mapping_count, table_pages. rewrite length_fmap.
    induction (as_mappings a) as [|[m|] l IH]; csimpl; auto. }
  split; [|split; [|split; [by rewrite Hcount|]]].
  - destruct (AddressSpace_apply_by_spec (Map page frame' flags') a'
      (Err AlreadyMapped) (as_map a')) as (b & -> & _ & Hb); [done| |by rewrite Hb].
    simpl. by rewrite Hp'.
  - destruct (AddressSpace_apply_by_spec (Unmap page) a (Err NotMapped) (as_map a))
      as (b & -> & _ & Hb); [done| |by rewrite Hb].
    simpl. by rewrite Hp.
  - destruct (AddressSpace_apply_by_spec (Unmap page) a' (Okay tt)
      (delete (page_number page) (as_map a'))) as (b & -> & Hb & _); [done| |].
    { simpl. by rewrite Hp'. }
    exists b. split; [done|]. rewrite Hb, Heq. by rewrite delete_insert_id.
Qed.

(** [clear_user_mappings] removes exactly the mappings with the USER flag:
    no mapping that remains has it, every other mapping is kept, and the table
    stays well-formed. *)
Theorem clear_user_mappings_exact (a : AddressSpace) (Hwf : AddressSpace_wf a) :
  let a' := AddressSpace_clear_user_mappings a in
  AddressSpace_user_mapping_pages a' = [] /\
  as_map a' = filter not_user (as_map a) /\ AddressSpace_wf a' /\
  as_kind a' = as_kind a /\ as_root_page_frame a' = as_root_page_frame a.
Proof.
  simpl. split; [|split; [|split; [by apply clear_user_wf|done]]].
  - unfold AddressSpace_user_mapping_pages.
    pose proof (clear_user_no_user a) as H.
    induction H as [|m l Hm H IH]; [done|].
    rewrite filter_cons_False; [done|]. rewrite Hm. by intros [].
  - apply clear_user_table_map, Hwf.
Qed.

Definition demo_flags : PageFlags := PageFlags_union (PageFlags_union PRESENT WRITABLE) USER.
Definition demo_aspace : AddressSpace :=
  (AddressSpace_apply (Map (mkVirtPage 0x110) (mkPhysFrame 7) demo_flags)
     AddressSpace_new_user).2.

Lemma demo_aspace_wf : AddressSpace_wf demo_aspace.
Proof.
  split; [reflexivity|]. change (NoDup [0x110%Z]). apply NoDup_singleton.
Qed.

Lemma apply_refines_map_witness :
  (AddressSpace_apply (Unmap (mkVirtPage 0x111)) demo_aspace).1 = Err NotMapped /\
  AddressSpace_wf (AddressSpace_apply (Unmap (mkVirtPage 0x111)) demo_aspace).2.
Proof.
  split; [reflexivity|].
  apply (apply_refines_map (Unmap (mkVirtPage 0x111)) demo_aspace demo_aspace_wf).
Defined.

Lemma apply_safety_witness :
  AddressSpace_apply (Map (mkVirtPage 0x110) (mkPhysFrame 8) demo_flags) demo_aspace
    = (Err AlreadyMapped, demo_aspace).
Proof.
  apply (apply_safety (mkVirtPage 0x110) (mkPhysFrame 7) (mkPhysFrame 8) demo_flags demo_flags
           AddressSpace_new_user demo_aspace); [by apply new_wf|reflexivity].
Defined.

Lemma clear_user_mappings_exact_witness :
  AddressSpace_user_mapping_pages demo_aspace = [mkVirtPage 0x110] /\
  AddressSpace_user_mapping_pages (AddressSpace_clear_user_mappings demo_aspace) = [].
Proof.
  split; [reflexivity|]. apply (clear_user_mappings_exact demo_aspace demo_aspace_wf).
Defined.
