(* ===== verification/FrameAlloc.v ===== *)
(** * The physical frame allocator (mm/mod.rs, kernel/pagetable_init.rs)

    [BootInfoFrameAllocator] walks the bootloader's memory map and hands out
    the 4 KiB frames of its usable regions one by one.  The file models the
    allocator's state and loops, and proves that the allocator is the lazy
    enumeration of a plain list, [usable_frames]. *)

From stdpp Require Import base list option strings sets.
From Stdlib Require Import ZArith Lia.
From S2P Require Import Prelude Addr.

#[local] Open Scope Z_scope.

(** The bootloader's description of memory: [region.range.start_addr()],
    [region.range.end_addr()] and [region.region_type]. *)
Inductive MemoryRegionType :=
  | Usable | Reserved | AcpiReclaimable | AcpiNvs | BadMemory | OtherRegion.

#[export] Instance MemoryRegionType_eq_dec : EqDecision MemoryRegionType.
Proof. solve_decision. Defined.

Record MemoryRegion := mkRegion {
  region_start : Z;
  region_end : Z;
  region_type : MemoryRegionType }.

(** ** State *)

Record BootInfoFrameAllocator := mkAlloc {
  memory_map : list MemoryRegion;
  region_index : nat;
  cur_addr : Z;
  cur_end : Z;
  has_region : bool }.

(** ** Operations *)

Definition align_up_4k (x : Z) : res Z :=
  y ← u64_add x (4096 - 1); mret (Z.land y (u64_not (4096 - 1))).

(** The [while] loop of [advance_to_next_usable_region]; [rest] holds the
    regions from [region_index] on. *)
Fixpoint advance_loop (rest : list MemoryRegion) (a : BootInfoFrameAllocator) :
    res BootInfoFrameAllocator :=
  match rest with
  | [] => mret a
  | region :: rest' =>
      let a := {| a with region_index := S (region_index a) |} in
      if decide (region_type region <> Usable) then advance_loop rest' a
      else
        cur ← align_up_4k (region_start region);
        if region_end region <=? cur then advance_loop rest' a
        else mret {| a with cur_addr := cur; cur_end := region_end region;
                            has_region := true |}
  end.

Definition advance_to_next_usable_region (a : BootInfoFrameAllocator) :
    res BootInfoFrameAllocator :=
  advance_loop (drop (region_index a) (memory_map a)) {| a with has_region := false |}.

Definition BootInfoFrameAllocator_new (map : list MemoryRegion) : res BootInfoFrameAllocator :=
  advance_to_next_usable_region (mkAlloc map 0 0 0 false).

(** [PhysAddr::new] refuses an address with one of the bits 52..63 set; a frame
    is represented by its start address. *)
Definition frame_containing (addr : Z) : res Z :=
  if addr <? 2 ^ 52 then mret (PAGE_SIZE * (addr / PAGE_SIZE))
  else Panicked (PanicMsg "physical address must not have any bits in the range 52 to 64 set").

(** The [loop] of [allocate_frame].  [None] is "out of fuel"; [allocate_frame]
    gives one unit per region that is left, and [allocate_loop_fuel] shows that
    this is always enough. *)
Fixpoint allocate_loop (fuel : nat) (a : BootInfoFrameAllocator) :
    option (res (option Z * BootInfoFrameAllocator)) :=
  match fuel with
  | O => None
  | S fuel =>
      if negb (has_region a) then Some (mret (None, a))
      else
        match u64_add (cur_addr a) 4096 with
        | Panicked p => Some (Panicked p)
        | Ok next =>
            if next <=? cur_end a then
              Some (f ← frame_containing (cur_addr a); mret (Some f, {| a with cur_addr := next |}))
            else
              match advance_to_next_usable_region a with
              | Panicked p => Some (Panicked p)
              | Ok a' => allocate_loop fuel a'
              end
        end
  end.

Definition allocate_fuel (a : BootInfoFrameAllocator) : nat :=
  2 + length (drop (region_index a) (memory_map a)).

Definition BootInfoFrameAllocator_allocate_frame (a : BootInfoFrameAllocator) :
    res (option Z * BootInfoFrameAllocator) :=
  default (Panicked (PanicMsg "allocate_frame: out of fuel")) (allocate_loop (allocate_fuel a) a).

(** The kernel-side manager is a wrapper around the allocator. *)
Record PhysicalMemoryManager := mkPhysMem { pmm_inner : BootInfoFrameAllocator }.

Definition PhysicalMemoryManager_new (map : list MemoryRegion) : res PhysicalMemoryManager :=
  inner ← BootInfoFrameAllocator_new map; mret (mkPhysMem inner).

Definition PhysicalMemoryManager_allocate_frame (p : PhysicalMemoryManager) :
    res (option Z * PhysicalMemoryManager) :=
  '(f, inner) ← BootInfoFrameAllocator_allocate_frame (pmm_inner p);
  mret (f, mkPhysMem inner).

(** kernel/pagetable_init.rs *)
Definition allocate_new_l4_table (p : PhysicalMemoryManager) :
    res (option PhysFrame * PhysicalMemoryManager) :=
  '(raw, p') ← PhysicalMemoryManager_allocate_frame p;
  match raw with
  | None => mret (None, p')
  | Some phys_u64 =>
      let index := phys_u64 / PAGE_SIZE in
      mret (Some (PhysFrame_from_index index), p')
  end.

(** ** Specification *)

Definition align_up (x : Z) : Z := 4096 * ((x + 4095) / 4096).

(** The frames of the half-open range [[s, e)] for an aligned [s]. *)
Definition frames_between (s e : Z) : list Z :=
  (fun k => s + 4096 * Z.of_nat k) <$> seq 0 (Z.to_nat ((e - s) / 4096)).

Definition region_frames (r : MemoryRegion) : list Z :=
  if decide (region_type r = Usable)
  then frames_between (align_up (region_start r)) (region_end r) else [].

Definition usable_frames (map : list MemoryRegion) : list Z := map ≫= region_frames.

(** Physical addresses have at most 52 bits. *)
Definition region_ok (r : MemoryRegion) : Prop :=
  0 <= region_start r <= 2 ^ 52 /\ 0 <= region_end r <= 2 ^ 52.

(** The frames the allocator has still to give. *)
Definition remaining (a : BootInfoFrameAllocator) : list Z :=
  if has_region a
  then frames_between (cur_addr a) (cur_end a)
         ++ usable_frames (drop (region_index a) (memory_map a))
  else [].

Record alloc_wf (a : BootInfoFrameAllocator) : Prop := {
  alloc_regions : Forall region_ok (memory_map a);
  alloc_cur : has_region a = true ->
    0 <= cur_addr a <= 2 ^ 52 /\ cur_addr a mod 4096 = 0 /\ cur_end a <= 2 ^ 52 }.

(** ** Lemmas *)

Lemma align_up_4k_eq x : 0 <= x <= 2 ^ 52 -> align_up_4k x = Ok (align_up x).
Proof.
  intros Hx. unfold align_up_4k. rewrite u64_add_Ok by (unfold u64_max; lia).
  simpl. unfold mret, res_mret. f_equal. change (4096 - 1) with (PAGE_SIZE - 1) at 2.
  rewrite page_mask_eq by (unfold u64, u64_max; lia).
  unfold align_up, PAGE_SIZE. f_equal.
Qed.

Lemma align_up_bounds x : 0 <= x -> x <= align_up x < x + 4096 /\ align_up x mod 4096 = 0.
Proof.
  intros Hx. unfold align_up. rewrite Z.mul_comm, Z.mod_mul by lia.
  pose proof (Z.div_mod (x + 4095) 4096 ltac:(lia)).
  pose proof (Z.mod_pos_bound (x + 4095) 4096 ltac:(lia)). lia.
Qed.

Lemma frames_between_nil s e : e < s + 4096 -> frames_between s e = [].
Proof.
  intros H. unfold frames_between.
  replace (Z.to_nat ((e - s) / 4096)) with O; [done|].
  assert ((e - s) / 4096 < 1) by (apply Z.div_lt_upper_bound; lia). lia.
Qed.

Lemma frames_between_cons s e :
  s + 4096 <= e -> frames_between s e = s :: frames_between (s + 4096) e.
Proof.
  intros H. unfold frames_between.
  replace ((e - s) / 4096) with (1 + (e - (s + 4096)) / 4096).
  2: { rewrite <- Z.div_add_l by lia. f_equal. lia. }
  assert (0 <= (e - (s + 4096)) / 4096) by (apply Z.div_pos; lia).
  rewrite Z2Nat.inj_add by lia. simpl. f_equal; [lia|].
  rewrite <- fmap_S_seq, <- list_fmap_compose. apply list_fmap_ext.
  intros i k Hk. simpl. lia.
Qed.

Lemma advance_loop_spec rest a :
  Forall region_ok rest -> has_region a = false ->
  exists a', advance_loop rest a = Ok a' /\
    memory_map a' = memory_map a /\
    (region_index a <= region_index a' <= region_index a + length rest)%nat /\
    (has_region a' = true ->
       (region_index a < region_index a')%nat /\
       0 <= cur_addr a' <= 2 ^ 52 /\ cur_addr a' mod 4096 = 0 /\ cur_end a' <= 2 ^ 52) /\
    usable_frames rest =
      (if has_region a'
       then frames_between (cur_addr a') (cur_end a')
              ++ usable_frames (drop (region_index a' - region_index a) rest)
       else []).
Proof.
  revert a. induction rest as [|r rest IH]; intros a Hok Hh; simpl.
  { exists a. rewrite Hh. repeat split; try done; lia. }
  apply Forall_cons in Hok as [[Hs He] Hok].
  pose proof (align_up_bounds (region_start r) ltac:(lia)) as [Hal Hmod].
  (* a region that is skipped contributes no frame *)
  assert (Hskip : region_frames r = [] ->
    exists a', advance_loop rest {| a with region_index := S (region_index a) |} = Ok a' /\
      memory_map a' = memory_map a /\
      (region_index a <= region_index a' <= region_index a + S (length rest))%nat /\
      (has_region a' = true ->
         (region_index a < region_index a')%nat /\
         0 <= cur_addr a' <= 2 ^ 52 /\ cur_addr a' mod 4096 = 0 /\ cur_end a' <= 2 ^ 52) /\
      region_frames r ++ usable_frames rest =
        (if has_region a'
         then frames_between (cur_addr a') (cur_end a')
                ++ usable_frames (drop (region_index a' - region_index a) (r :: rest))
         else [])).
  { intros Hnil. destruct (IH {| a with region_index := S (region_index a) |} Hok Hh)
      as (a' & Hadv & Hmap & Hidx & Hcur & Hfr).
    simpl in *. exists a'. rewrite Hnil. simpl.
    split; [done|]. split; [done|]. split; [lia|]. split.
    { intros H. destruct (Hcur H) as [Hlt Hrest]. split; [lia|exact Hrest]. }
    rewrite Hfr. destruct (has_region a') eqn:Ha'; [|done].
    destruct (Hcur eq_refl). do 2 f_equal.
    replace (region_index a' - region_index a)%nat
      with (S (region_index a' - S (region_index a))) by lia. done. }
  case_decide as Hu.
  { apply Hskip. unfold region_frames. by rewrite decide_False. }
  assert (Hty : region_type r = Usable) by (destruct (region_type r); naive_solver).
  rewrite align_up_4k_eq by done. simpl.
  destruct (Z.leb_spec (region_end r) (align_up (region_start r))).
  { apply Hskip. unfold region_frames. rewrite decide_True by done.
    apply frames_between_nil. lia. }
  eexists. split; [reflexivity|]. simpl.
  split; [done|]. split; [lia|]. split; [lia|].
  replace (S (region_index a) - region_index a)%nat with 1%nat by lia. simpl.
  unfold region_frames. by rewrite decide_True.
Qed.

Lemma advance_spec a :
  alloc_wf a ->
  exists a', advance_to_next_usable_region a = Ok a' /\ alloc_wf a' /\
    memory_map a' = memory_map a /\
    (region_index a <= region_index a')%nat /\
    (has_region a' = true ->
       (region_index a < region_index a' <= length (memory_map a))%nat) /\
    remaining a' = usable_frames (drop (region_index a) (memory_map a)).
Proof.
  intros [Hreg Hcur]. unfold advance_to_next_usable_region.
  destruct (advance_loop_spec (drop (region_index a) (memory_map a))
    {| a with has_region := false |}) as (a' & Hadv & Hmap & Hidx & Hc & Hfr).
  { by apply Forall_drop. } { done. }
  simpl in *. exists a'. rewrite length_drop in Hidx.
  split; [done|]. split.
  { split; [by rewrite Hmap|]. intros H. apply Hc in H. intuition. }
  split; [done|]. split; [lia|]. split.
  { intros H. destruct (Hc H). lia. }
  rewrite Hfr. unfold remaining. rewrite Hmap.
  destruct (has_region a') eqn:E; [|done]. destruct (Hc eq_refl).
  rewrite drop_drop. do 3 f_equal. lia.
Qed.

(** The loop returns with the fuel [allocate_frame] gives it, and yields the
    head of the remaining frames. *)
Lemma allocate_loop_spec fuel a :
  alloc_wf a ->
  (if has_region a then 2 + length (drop (region_index a) (memory_map a)) <= fuel
   else 1 <= fuel)%nat ->
  exists a', allocate_loop fuel a = Some (Ok (head (remaining a), a')) /\
    alloc_wf a' /\ remaining a' = tail (remaining a) /\ memory_map a' = memory_map a.
Proof.
  revert a. induction fuel as [|fuel IH]; intros a Hwf Hfuel.
  { destruct (has_region a); lia. }
  simpl. destruct (has_region a) eqn:Hh; simpl.
  2: { exists a. unfold remaining. by rewrite Hh. }
  assert (Hra : remaining a = frames_between (cur_addr a) (cur_end a)
      ++ usable_frames (drop (region_index a) (memory_map a)))
    by (unfold remaining; by rewrite Hh).
  destruct Hwf as [Hreg Hcur]. destruct (Hcur Hh) as (Hc & Hmod & He).
  rewrite u64_add_Ok by (unfold u64_max; lia).
  destruct (Z.leb_spec (cur_addr a + 4096) (cur_end a)) as [Hle|Hgt].
  - unfold frame_containing. rewrite (proj2 (Z.ltb_lt _ _)) by lia. simpl.
    rewrite Hra, frames_between_cons by done. simpl.
    exists {| a with cur_addr := cur_addr a + 4096 |}. split.
    { unfold mret, res_mret. do 4 f_equal; [|done]. unfold PAGE_SIZE.
      pose proof (Z.div_mod (cur_addr a) 4096 ltac:(lia)). lia. }
    split; [split; simpl; [done|]|].
    2: { unfold remaining. simpl. by rewrite Hh. }
    intros _. split; [lia|]. split; [|lia].
    replace (cur_addr a + 4096) with (cur_addr a + 1 * 4096) by lia.
    by rewrite Z.mod_add by lia.
  - rewrite Hra, frames_between_nil by lia. simpl.
    destruct (advance_spec a) as (a' & -> & Hwf' & Hmap & Hidx & Hlt & Hrem); [by split|].
    destruct (IH a' Hwf') as (a'' & Hloop & Hwf'' & Hrem'' & Hmap'').
    { destruct (has_region a'); [|lia]. rewrite Hmap, !length_drop in *. lia. }
    exists a''. rewrite Hloop, <- Hrem, Hmap''. done.
Qed.

Lemma allocate_frame_spec a :
  alloc_wf a ->
  exists a', BootInfoFrameAllocator_allocate_frame a = Ok (head (remaining a), a') /\
    alloc_wf a' /\ remaining a' = tail (remaining a) /\ memory_map a' = memory_map a.
Proof.
  intros Hwf. destruct (allocate_loop_spec (allocate_fuel a) a Hwf) as (a' & Hl & H).
  { unfold allocate_fuel. destruct (has_region a); lia. }
  exists a'. unfold BootInfoFrameAllocator_allocate_frame. rewrite Hl. done.
Qed.

Lemma BootInfoFrameAllocator_new_spec map :
  Forall region_ok map ->
  exists a, BootInfoFrameAllocator_new map = Ok a /\ alloc_wf a /\
    remaining a = usable_frames map /\ memory_map a = map.
Proof.
  intros Hok. destruct (advance_spec (mkAlloc map 0 0 0 false))
    as (a & Hadv & Hwf & Hmap & _ & _ & Hrem); [by split|].
  exists a. by rewrite drop_0 in Hrem.
Qed.

(** The manager, for the rest of the development. *)
Definition pmm_wf (p : PhysicalMemoryManager) : Prop := alloc_wf (pmm_inner p).
Definition pmm_remaining (p : PhysicalMemoryManager) : list Z := remaining (pmm_inner p).

Lemma pmm_allocate_spec p :
  pmm_wf p ->
  exists p', PhysicalMemoryManager_allocate_frame p = Ok (head (pmm_remaining p), p') /\
    pmm_wf p' /\ pmm_remaining p' = tail (pmm_remaining p).
Proof.
  intros Hwf. destruct (allocate_frame_spec (pmm_inner p) Hwf) as (a' & Ha & Hwf' & Hr & _).
  exists (mkPhysMem a'). unfold PhysicalMemoryManager_allocate_frame. by rewrite Ha.
Qed.

(** Allocating [n] times. *)
Fixpoint allocate_n (n : nat) (a : BootInfoFrameAllocator) :
    res (list (option Z) * BootInfoFrameAllocator) :=
  match n with
  | O => mret ([], a)
  | S n =>
      '(f, a) ← BootInfoFrameAllocator_allocate_frame a;
      '(fs, a) ← allocate_n n a;
      mret (f :: fs, a)
  end.

Lemma allocate_n_spec n a :
  alloc_wf a ->
  exists a', allocate_n n a
      = Ok ((Some <$> take n (remaining a)) ++ replicate (n - length (remaining a)) None, a') /\
    alloc_wf a' /\ remaining a' = drop n (remaining a).
Proof.
  revert a. induction n as [|n IH]; intros a Hwf; simpl.
  { exists a. by rewrite drop_0. }
  destruct (allocate_frame_spec a Hwf) as (a1 & -> & Hwf1 & Hr1 & _). simpl.
  destruct (IH a1 Hwf1) as (a2 & -> & Hwf2 & Hr2). simpl.
  exists a2. rewrite Hr2, Hr1. destruct (remaining a) as [|f fs]; simpl.
  - rewrite take_nil, drop_nil. rewrite Nat.sub_0_r. done.
  - done.
Qed.

Lemma frames_between_In s e f :
  0 <= s -> f ∈ frames_between s e <->
    s <= f /\ f + 4096 <= e /\ (f - s) mod 4096 = 0.
Proof.
  intros Hs. unfold frames_between. rewrite list_elem_of_fmap. split.
  - intros (k & -> & Hk). apply elem_of_seq in Hk.
    pose proof (Z.div_mod (e - s) 4096 ltac:(lia)).
    pose proof (Z.mod_pos_bound (e - s) 4096 ltac:(lia)).
    replace (s + 4096 * Z.of_nat k - s) with (Z.of_nat k * 4096) by lia.
    rewrite Z.mod_mul by lia. lia.
  - intros (H1 & H2 & H3).
    pose proof (Z.div_mod (f - s) 4096 ltac:(lia)) as Hd. rewrite H3 in Hd.
    assert (0 <= (f - s) / 4096) by (apply Z.div_pos; lia).
    exists (Z.to_nat ((f - s) / 4096)). split; [lia|]. apply elem_of_seq.
    split; [lia|]. apply Z2Nat.inj_lt; [lia|apply Z.div_pos; lia|].
    assert ((f - s) / 4096 + 1 <= (e - s) / 4096); [|lia].
    rewrite <- Z.div_add by lia. apply Z.div_le_mono; lia.
Qed.

Lemma frames_between_NoDup s e : NoDup (frames_between s e).
Proof.
  unfold frames_between. apply NoDup_fmap_2; [|apply NoDup_seq].
  intros x y H. lia.
Qed.

Lemma usable_frames_In map f :
  Forall region_ok map ->
  f ∈ usable_frames map <->
  exists r, r ∈ map /\ region_type r = Usable /\
    region_start r <= f /\ f + 4096 <= region_end r /\ f mod 4096 = 0.
Proof.
  intros Hok. unfold usable_frames. rewrite list_elem_of_bind.
  assert (Hr : forall r, r ∈ map -> f ∈ region_frames r <->
    region_type r = Usable /\ region_start r <= f /\ f + 4096 <= region_end r /\ f mod 4096 = 0).
  { intros r Hr. rewrite Forall_forall in Hok. destruct (Hok r Hr) as [Hs _].
    pose proof (align_up_bounds (region_start r) ltac:(lia)) as [Hal Hm].
    unfold region_frames. case_decide as Ht; [|set_solver].
    rewrite frames_between_In by lia.
    pose proof (Z.div_mod (align_up (region_start r)) 4096 ltac:(lia)) as Ha.
    pose proof (Z.div_mod f 4096 ltac:(lia)) as Hf.
    split.
    - intros (H1 & H2 & H3). pose proof (Z.div_mod (f - align_up (region_start r)) 4096 ltac:(lia)).
      split; [done|]. split; [lia|]. split; [lia|].
      replace f with (0 + ((f - align_up (region_start r)) / 4096
         + align_up (region_start r) / 4096) * 4096) by lia.
      by rewrite Z.mod_add by lia.
    - intros (_ & H1 & H2 & H3). split; [lia|]. split; [done|].
      replace (f - align_up (region_start r)) with
        (0 + (f / 4096 - align_up (region_start r) / 4096) * 4096) by lia.
      by rewrite Z.mod_add by lia. }
  split; [intros (r & H1 & H2)|intros (r & H1 & H2)]; exists r.
  - by apply Hr in H1.
  - split; [|done]. by apply Hr.
Qed.

(** Every frame still to come is a physical address. *)
Lemma remaining_bound a f : alloc_wf a -> f ∈ remaining a -> 0 <= f < 2 ^ 52.
Proof.
  intros [Hok Hcur] Hf. unfold remaining in Hf. destruct (has_region a); [|by apply elem_of_nil in Hf].
  destruct (Hcur eq_refl) as (H1 & H2 & H3). apply elem_of_app in Hf as [Hf|Hf].
  - apply frames_between_In in Hf; lia.
  - assert (Hok' : Forall region_ok (drop (region_index a) (memory_map a))) by by apply Forall_drop.
    apply (usable_frames_In _ _ Hok') in Hf as (r & Hr & _ & Hs & He & _).
    rewrite Forall_forall in Hok'. destruct (Hok' r Hr). lia.
Qed.

(** ** Properties *)

(** C31: the allocator enumerates the usable frames.  From a memory map of
    physical (52-bit) regions, construction and any number [n] of
    [allocate_frame] calls return without a panic; the calls yield the first
    [n] frames of [usable_frames], in order, and [None] from then on. *)
Theorem allocator_enumerates_usable_frames (map : list MemoryRegion) (n : nat)
    (Hmap : Forall region_ok map) :
  exists a a', BootInfoFrameAllocator_new map = Ok a /\
    allocate_n n a =
      Ok ((Some <$> take n (usable_frames map))
            ++ replicate (n - length (usable_frames map)) None, a').
Proof.
  destruct (BootInfoFrameAllocator_new_spec map Hmap) as (a & Hnew & Hwf & Hr & _).
  destruct (allocate_n_spec n a Hwf) as (a' & Hn & _).
  exists a, a'. by rewrite <- Hr.
Qed.

(** Termination of the allocation loop.  In every well-formed state one
    iteration per remaining region plus two are enough: the loop does not run
    out of fuel and does not panic, and it leaves a well-formed state. *)
Theorem allocate_loop_fuel (a : BootInfoFrameAllocator) (Hwf : alloc_wf a) :
  exists r a', allocate_loop (2 + length (drop (region_index a) (memory_map a))) a
                 = Some (Ok (r, a')) /\ alloc_wf a'.
Proof.
  destruct (allocate_loop_spec (allocate_fuel a) a Hwf) as (a' & Hl & Hwf' & _).
  { unfold allocate_fuel. destruct (has_region a); lia. }
  by exists (head (remaining a)), a'.
Qed.

(** Two regions share no byte. *)
Definition regions_disjoint (r1 r2 : MemoryRegion) : Prop :=
  region_end r1 <= region_start r2 \/ region_end r2 <= region_start r1.

Lemma usable_frames_NoDup map :
  Forall region_ok map ->
  (forall i j r1 r2, map !! i = Some r1 -> map !! j = Some r2 -> i <> j ->
     region_type r1 = Usable -> region_type r2 = Usable -> regions_disjoint r1 r2) ->
  NoDup (usable_frames map).
Proof.
  induction map as [|r map IH]; intros Hok Hdisj; [constructor|].
  pose proof Hok as [Hr Hok']%Forall_cons.
  change (usable_frames (r :: map)) with (region_frames r ++ usable_frames map).
  apply NoDup_app. split; [|split].
  - unfold region_frames. case_decide; [apply frames_between_NoDup|constructor].
  - intros f Hf Hf'.
    assert (Hf1 : f ∈ usable_frames [r]) by (unfold usable_frames; simpl; by rewrite app_nil_r).
    apply usable_frames_In in Hf1 as (r1 & Hin & Ht & H1 & H2 & H3); [|by constructor].
    apply list_elem_of_singleton in Hin as ->.
    apply usable_frames_In in Hf' as (r2 & Hin2 & Ht2 & H4 & H5 & _); [|done].
    apply list_elem_of_lookup in Hin2 as [j Hj].
    destruct (Hdisj 0%nat (S j) r r2); try done; lia.
  - apply IH; [done|]. intros i j r1 r2 Hi Hj Hne. apply (Hdisj (S i) (S j)); [done..|lia].
Qed.

(** C32: allocation safety.  If the usable regions of the memory map are
    pairwise disjoint, no frame is handed out twice, and every frame handed out
    is 4 KiB aligned and lies completely inside a usable region; conversely
    every such frame is eventually handed out. *)
Theorem allocated_frames_safe (map : list MemoryRegion) (Hmap : Forall region_ok map)
    (Hdisj : forall i j r1 r2, map !! i = Some r1 -> map !! j = Some r2 -> i <> j ->
       region_type r1 = Usable -> region_type r2 = Usable -> regions_disjoint r1 r2) :
  exists a, BootInfoFrameAllocator_new map = Ok a /\
    forall n fs a', allocate_n n a = Ok (fs, a') ->
      NoDup (omap id fs) /\
      (forall f, Some f ∈ fs ->
         exists r, r ∈ map /\ region_type r = Usable /\
           region_start r <= f /\ f + 4096 <= region_end r /\ f mod 4096 = 0) /\
      (forall f r, (length (usable_frames map) <= n)%nat ->
         r ∈ map -> region_type r = Usable ->
         region_start r <= f -> f + 4096 <= region_end r -> f mod 4096 = 0 ->
         Some f ∈ fs).
Proof.
  destruct (BootInfoFrameAllocator_new_spec map Hmap) as (a & Hnew & Hwf & Hr & _).
  exists a. split; [done|]. intros n fs a' Hn.
  destruct (allocate_n_spec n a Hwf) as (a1 & Hn' & _). rewrite Hr in Hn'.
  rewrite Hn in Hn'. injection Hn' as -> _.
  assert (Homap : forall (l : list Z) k, omap id ((Some <$> l) ++ replicate k None) = l).
  { intros l k. induction l as [|x l IH]; csimpl; [|by rewrite IH].
    induction k; csimpl; done. }
  split; [|split].
  - rewrite Homap. eapply sublist_NoDup; [by apply usable_frames_NoDup|apply sublist_take].
  - intros f Hf. apply usable_frames_In; [done|].
    apply elem_of_app in Hf as [Hf|Hf].
    + apply list_elem_of_fmap in Hf as (f' & [= <-] & Hf). by eapply elem_of_take in Hf as (? & Hf & _);
        apply list_elem_of_lookup_2 in Hf.
    + apply elem_of_replicate in Hf as [Hf _]. done.
  - intros f r Hlen Hin Ht H1 H2 H3. apply elem_of_app. left.
    rewrite take_ge by done. apply list_elem_of_fmap. exists f. split; [done|].
    apply usable_frames_In; [done|]. by exists r.
Qed.

Definition demo_map : list MemoryRegion :=
  [ mkRegion 0 0x1000 Reserved; mkRegion 0x1800 0x5000 Usable;
    mkRegion 0x5000 0x5800 Usable; mkRegion 0x6000 0x100000 Usable ].

Lemma demo_map_ok : Forall region_ok demo_map.
Proof. repeat constructor; vm_compute; congruence. Qed.

Lemma allocator_enumerates_usable_frames_witness :
  exists a a', BootInfoFrameAllocator_new demo_map = Ok a /\
    allocate_n 4 a = Ok ([Some 0x2000; Some 0x3000; Some 0x4000; Some 0x6000], a').
Proof.
  destruct (allocator_enumerates_usable_frames demo_map 4 demo_map_ok) as (a & a' & H1 & H2).
  exists a, a'. split; [done|]. rewrite H2. reflexivity.
Defined.

Lemma allocate_loop_fuel_witness :
  exists r a', allocate_loop 5 (mkAlloc demo_map 1 0 0 false) = Some (Ok (r, a')) /\ alloc_wf a'.
Proof.
  apply (allocate_loop_fuel (mkAlloc demo_map 1 0 0 false)).
  split; [apply demo_map_ok|done].
Defined.

Lemma allocated_frames_safe_witness :
  exists a, BootInfoFrameAllocator_new demo_map = Ok a /\
    forall fs a', allocate_n 9 a = Ok (fs, a') -> NoDup (omap id fs).
Proof.
  destruct (allocated_frames_safe demo_map demo_map_ok) as (a & H1 & H2).
  { intros i j r1 r2 Hi Hj Hne Ht1 Ht2.
    destruct i as [|[|[|[|i]]]], j as [|[|[|[|j]]]]; simplify_eq/=;
      vm_compute; first [left; congruence | right; congruence]. }
  exists a. split; [done|]. intros fs a' H. by apply (H2 9%nat fs a' H).
Defined.
