(* ===== verification/Queues.v ===== *)
(** * Fixed-size queues: an array and a length

    Every queue of the kernel (ready, wait, send and reply queue) is an array
    [[usize; MAX_TASKS]] with a separate length.  This file models the loops
    the sources run over such a pair, index checks included, and relates each
    loop to the list of the queued indices, [live arr len]. *)

From stdpp Require Import base list option sets.
From Stdlib Require Import Lia.
From S2P Require Import Prelude.

(** The queued elements. *)
Definition live (arr : list nat) (len : nat) : list nat := take len arr.
Arguments live : simpl never.

(** ** The loops *)

Definition read_at {A} (arr : list A) (i : nat) : res A :=
  match arr !! i with Some v => Ok v | None => Panicked PanicIndex end.

(** [arr[i] = v] *)
Definition write_at {A} (arr : list A) (i : nat) (v : A) : res (list A) :=
  if decide (i < length arr) then Ok (<[i := v]> arr) else Panicked PanicIndex.

(** [for pos in 0..len { if arr[pos] == idx { return true; } } false] *)
Fixpoint contains_loop (arr : list nat) (idx : nat) (positions : list nat) : res bool :=
  match positions with
  | [] => Ok false
  | pos :: rest =>
      v ← read_at arr pos;
      if v =? idx then Ok true else contains_loop arr idx rest
  end.
Definition queue_contains (arr : list nat) (len idx : nat) : res bool :=
  contains_loop arr idx (seq 0 len).

(** The compaction loop: keep the elements that satisfy [keep], in order, by
    copying them to the front; also whether an element was dropped. *)
Fixpoint compact_loop (keep : nat -> res bool) (positions : list nat)
    (arr : list nat) (write_pos : nat) (removed : bool) : res (list nat * nat * bool) :=
  match positions with
  | [] => Ok (arr, write_pos, removed)
  | read_pos :: rest =>
      v ← read_at arr read_pos;
      k ← keep v;
      if negb k then compact_loop keep rest arr write_pos true
      else
        arr' ← write_at arr write_pos v;
        compact_loop keep rest arr' (S write_pos) removed
  end.
Definition compact (keep : nat -> res bool) (arr : list nat) (len : nat) :
    res (list nat * nat * bool) :=
  compact_loop keep (seq 0 len) arr 0 false.

(** [arr[pos] = arr[len - 1]; len -= 1] *)
Definition swap_remove (arr : list nat) (len pos : nat) : res (list nat * nat) :=
  last ← read_at arr (len - 1);
  arr' ← write_at arr pos last;
  Ok (arr', len - 1).

(** [while pos < len { if arr[pos] == idx { swap-remove } else { pos += 1 } }];
    every iteration shortens [len - pos], so [len] iterations are enough. *)
Fixpoint swap_remove_loop (fuel : nat) (idx : nat) (arr : list nat) (len pos : nat) :
    res (list nat * nat) :=
  match fuel with
  | O => Ok (arr, len)
  | S fuel =>
      if pos <? len then
        v ← read_at arr pos;
        if v =? idx then
          '(arr', len') ← swap_remove arr len pos;
          swap_remove_loop fuel idx arr' len' pos
        else swap_remove_loop fuel idx arr len (S pos)
      else Ok (arr, len)
  end.
Definition swap_remove_all (idx : nat) (arr : list nat) (len : nat) : res (list nat * nat) :=
  swap_remove_loop len idx arr len 0.

(** [for pos in 0..len { if arr[pos] == idx { swap-remove; return true } } false] *)
Fixpoint swap_remove_first_loop (idx : nat) (arr : list nat) (len : nat)
    (positions : list nat) : res (option (list nat * nat)) :=
  match positions with
  | [] => Ok None
  | pos :: rest =>
      v ← read_at arr pos;
      if v =? idx then r ← swap_remove arr len pos; Ok (Some r)
      else swap_remove_first_loop idx arr len rest
  end.
Definition swap_remove_first (idx : nat) (arr : list nat) (len : nat) :
    res (option (list nat * nat)) :=
  swap_remove_first_loop idx arr len (seq 0 len).

(** ** Lemmas: reading and writing *)

Lemma read_at_Ok {A} (arr : list A) i v : arr !! i = Some v -> read_at arr i = Ok v.
Proof. unfold read_at. by intros ->. Qed.

Lemma write_at_Ok {A} (arr : list A) i v :
  i < length arr -> write_at arr i v = Ok (<[i := v]> arr).
Proof. intros. unfold write_at. by rewrite decide_True. Qed.

Lemma live_lookup arr len i v : live arr len !! i = Some v -> arr !! i = Some v /\ i < len.
Proof. unfold live. intros H%lookup_take_Some. done. Qed.

Lemma live_length arr len : len <= length arr -> length (live arr len) = len.
Proof. intros. unfold live. rewrite length_take. lia. Qed.

Lemma read_live arr len i :
  len <= length arr -> i < len -> exists v, arr !! i = Some v /\ live arr len !! i = Some v.
Proof.
  intros. destruct (lookup_lt_is_Some_2 arr i) as [v Hv]; [lia|].
  exists v. split; [done|]. unfold live. by rewrite lookup_take_lt.
Qed.

(** Appending at the end. *)
Lemma live_push arr len v :
  len < length arr -> live (<[len := v]> arr) (S len) = live arr len ++ [v].
Proof.
  intros H. unfold live. rewrite (take_S_r _ _ v) by by apply list_lookup_insert_eq.
  by rewrite take_insert_ge by lia.
Qed.

(** Dropping the last element. *)
Lemma live_pop arr len v :
  arr !! len = Some v -> live arr (S len) = live arr len ++ [v].
Proof. intros H. unfold live. by apply take_S_r. Qed.

Lemma queue_contains_spec arr len idx :
  len <= length arr -> queue_contains arr len idx = Ok (bool_decide (idx ∈ live arr len)).
Proof.
  intros Hlen. unfold queue_contains.
  assert (H : forall k, k <= len ->
    contains_loop arr idx (seq k (len - k)) = Ok (bool_decide (idx ∈ drop k (live arr len)))).
  { intros k. remember (len - k) as n eqn:Hn. revert k Hn.
    induction n as [|n IH]; intros k Hn Hk; simpl.
    { rewrite drop_ge by (rewrite live_length; lia). done. }
    destruct (read_live arr len k Hlen) as (v & Hv & Hl); [lia|].
    rewrite (read_at_Ok _ _ _ Hv). simpl.
    rewrite (drop_S _ _ _ Hl).
    destruct (Nat.eqb_spec v idx) as [->|Hne].
    - rewrite bool_decide_true by set_solver. done.
    - rewrite IH by lia. f_equal. apply bool_decide_ext. set_solver. }
  specialize (H 0 ltac:(lia)). by rewrite drop_0, Nat.sub_0_r in H.
Qed.

Lemma compact_loop_spec keep (k : nat -> bool) orig len pos arr write_pos removed :
  len <= length orig -> pos <= len -> write_pos <= pos ->
  (forall v, v ∈ live orig len -> keep v = Ok (k v)) ->
  length arr = length orig ->
  live arr write_pos = filter k (take pos orig) ->
  drop pos arr = drop pos orig ->
  exists arr' w b, compact_loop keep (seq pos (len - pos)) arr write_pos removed = Ok (arr', w, b) /\
    length arr' = length orig /\ w <= len /\ live arr' w = filter k (live orig len) /\
    (b = true <-> removed = true \/ exists v, v ∈ drop pos (live orig len) /\ k v = false).
Proof.
  intros Hlen. remember (len - pos) as n eqn:Hn. revert pos Hn arr write_pos removed.
  induction n as [|n IH]; intros pos Hn arr write_pos removed Hpos Hw Hkeep Hla Hlive Hdrop; simpl.
  { exists arr, write_pos, removed. assert (pos = len) as -> by lia.
    repeat split; try done; try lia; [auto|].
    intros [?|(v & Hv & _)]; [done|].
    rewrite drop_ge in Hv by (rewrite live_length; lia). set_solver. }
  destruct (read_live orig len pos Hlen) as (v & Hv & Hl); [lia|].
  assert (Hva : arr !! pos = Some v).
  { rewrite <- (Nat.add_0_r pos), <- lookup_drop, Hdrop, lookup_drop. by rewrite Nat.add_0_r. }
  rewrite (read_at_Ok _ _ _ Hva). simpl.
  rewrite Hkeep by (by eapply list_elem_of_lookup_2). simpl.
  assert (Hdrop' : drop (S pos) arr = drop (S pos) orig).
  { change (S pos) with (1 + pos). rewrite Nat.add_comm, <- !drop_drop. by rewrite Hdrop. }
  destruct (k v) eqn:Hk; simpl.
  - rewrite write_at_Ok by (rewrite Hla; lia). simpl.
    destruct (IH (S pos) ltac:(lia) (<[write_pos:=v]> arr) (S write_pos) removed)
      as (arr' & w & b & -> & H1 & H2 & H3 & H4).
    { lia. } { lia. } { done. } { by rewrite length_insert. }
    { rewrite live_push by lia. rewrite Hlive, (take_S_r _ _ _ Hv), filter_app.
      rewrite filter_cons_True by (by rewrite Hk). done. }
    { rewrite drop_insert_lt by lia. done. }
    exists arr', w, b. repeat split; try done.
    + rewrite H4, (drop_S _ _ _ Hl). intros [?|(u & ? & ?)]; [auto|].
      right. exists u. set_solver.
    + rewrite H4, (drop_S _ _ _ Hl). intros [?|(u & Hu & ?)]; [auto|].
      right. exists u. apply elem_of_cons in Hu as [->|]; [congruence|done].
  - destruct (IH (S pos) ltac:(lia) arr write_pos true)
      as (arr' & w & b & -> & H1 & H2 & H3 & H4); try done; try lia.
    { rewrite Hlive, (take_S_r _ _ _ Hv), filter_app.
      rewrite filter_cons_False by (rewrite Hk; by intros []).
      by rewrite app_nil_r. }
    exists arr', w, b. repeat split; try done.
    + intros _. right. exists v. rewrite (drop_S _ _ _ Hl). set_solver.
    + intros _. apply H4. by left.
Qed.

(** Compaction is filtering. *)
Lemma compact_spec keep (k : nat -> bool) arr len :
  len <= length arr ->
  (forall v, v ∈ live arr len -> keep v = Ok (k v)) ->
  exists arr' w b, compact keep arr len = Ok (arr', w, b) /\
    length arr' = length arr /\ w <= len /\ live arr' w = filter k (live arr len) /\
    (b = true <-> exists v, v ∈ live arr len /\ k v = false).
Proof.
  intros Hlen Hkeep. unfold compact.
  destruct (compact_loop_spec keep k arr len 0 arr 0 false) as (arr' & w & b & H & H1 & H2 & H3 & H4);
    try done; try lia.
  rewrite Nat.sub_0_r in H. exists arr', w, b. rewrite drop_0 in H4.
  repeat split; try done.
  - intros Hb. apply H4 in Hb as [?|?]; done.
  - intros. apply H4. by right.
Qed.

Lemma swap_remove_spec arr len pos v :
  len <= length arr -> pos < len -> arr !! pos = Some v ->
  exists arr', swap_remove arr len pos = Ok (arr', len - 1) /\
    length arr' = length arr /\ take pos arr' = take pos arr /\
    live arr len ≡ₚ v :: live arr' (len - 1).
Proof.
  intros Hlen Hpos Hv. destruct len as [|n]; [lia|].
  unfold swap_remove. replace (S n - 1) with n by lia.
  destruct (read_live arr (S n) n Hlen) as (last & Hlast & _); [lia|].
  rewrite (read_at_Ok _ _ _ Hlast). simpl. rewrite write_at_Ok by lia. simpl.
  exists (<[pos := last]> arr). split; [done|]. rewrite length_insert, take_insert_ge by lia.
  split; [done|]. split; [done|].
  rewrite (live_pop _ _ _ Hlast). unfold live.
  destruct (decide (pos = n)) as [->|Hne].
  - simplify_eq. rewrite take_insert_ge by lia. by rewrite Permutation_app_comm.
  - assert (Hl : take n arr !! pos = Some v) by (rewrite lookup_take_lt by lia; done).
    rewrite take_insert_lt by lia.
    rewrite (insert_take_drop _ _ last) by (by eapply lookup_lt_Some).
    rewrite <- (take_drop_middle _ _ _ Hl) at 1. solve_Permutation.
Qed.

Lemma filter_ne_id (idx : nat) (l : list nat) : idx ∉ l -> filter (.≠ idx) l = l.
Proof.
  induction l as [|x l IH]; intros H; [done|].
  rewrite filter_cons_True, IH; [done|set_solver|set_solver].
Qed.

Lemma filter_true_id (f : nat -> bool) (l : list nat) :
  (forall i, i ∈ l -> f i = true) -> filter f l = l.
Proof.
  induction l as [|x l IH]; intros H; [done|].
  rewrite filter_cons_True, IH; [done|set_solver|].
  rewrite H by set_solver. done.
Qed.

(** A queue of distinct indices below [n] has room for one that is not in it. *)
Lemma nodup_room (l : list nat) i n :
  NoDup l -> (forall j, j ∈ l -> j < n) -> i < n -> i ∉ l -> length l < n.
Proof.
  intros Hnd Hb Hi Hni. assert (length (i :: l) <= length (seq 0 n)) as H.
  { apply submseteq_length, NoDup_submseteq; [by constructor|].
    intros j Hj. apply elem_of_seq. apply list_elem_of_In in Hj as [<-|Hj%list_elem_of_In]; [lia|].
    pose proof (Hb j Hj). lia. }
  rewrite length_seq in H. simpl in H. lia.
Qed.

Lemma swap_remove_loop_spec fuel idx arr len pos :
  len <= length arr -> len - pos <= fuel -> idx ∉ take pos arr ->
  exists arr' len', swap_remove_loop fuel idx arr len pos = Ok (arr', len') /\
    length arr' = length arr /\ len' <= len /\
    live arr' len' ≡ₚ filter (.≠ idx) (live arr len).
Proof.
  revert arr len pos. induction fuel as [|fuel IH]; intros arr len pos Hlen Hf Hni; simpl.
  all: assert (Hdone : len <= pos -> idx ∉ live arr len) by
    (intros ? Hin; apply Hni; unfold live in Hin;
     apply elem_of_take in Hin as (i & ? & ?); apply elem_of_take; exists i; split; [done|lia]).
  { exists arr, len. rewrite filter_ne_id; [done|]. apply Hdone. lia. }
  destruct (Nat.ltb_spec pos len) as [Hlt|Hge].
  2: { exists arr, len. rewrite filter_ne_id; [done|]. by apply Hdone. }
  destruct (read_live arr len pos Hlen Hlt) as (v & Hv & Hl).
  rewrite (read_at_Ok _ _ _ Hv). simpl. destruct (Nat.eqb_spec v idx) as [->|Hne].
  - destruct (swap_remove_spec arr len pos idx Hlen Hlt Hv) as (arr1 & -> & H1 & H2 & H3). simpl.
    destruct (IH arr1 (len - 1) pos) as (arr' & len' & -> & H4 & H5 & H6).
    { lia. } { lia. } { by rewrite H2. }
    exists arr', len'. split; [done|]. split; [congruence|]. split; [lia|].
    rewrite H3, filter_cons_False by naive_solver. done.
  - destruct (IH arr len (S pos)) as (arr' & len' & -> & H4 & H5 & H6).
    { done. } { lia. }
    { rewrite (take_S_r _ _ _ Hv). set_solver. }
    by exists arr', len'.
Qed.

(** Swap-removal of every occurrence is filtering, up to order. *)
Lemma swap_remove_all_spec idx arr len :
  len <= length arr ->
  exists arr' len', swap_remove_all idx arr len = Ok (arr', len') /\
    length arr' = length arr /\ len' <= len /\
    live arr' len' ≡ₚ filter (.≠ idx) (live arr len).
Proof.
  intros. apply swap_remove_loop_spec; [done|lia|]. rewrite take_0. set_solver.
Qed.

Lemma swap_remove_first_spec idx arr len :
  len <= length arr ->
  (idx ∉ live arr len -> swap_remove_first idx arr len = Ok None) /\
  (idx ∈ live arr len -> exists arr',
     swap_remove_first idx arr len = Ok (Some (arr', len - 1)) /\
     length arr' = length arr /\ live arr len ≡ₚ idx :: live arr' (len - 1)).
Proof.
  intros Hlen. unfold swap_remove_first.
  assert (H : forall n k, n = len - k -> k <= len ->
    (idx ∉ drop k (live arr len) -> swap_remove_first_loop idx arr len (seq k n) = Ok None) /\
    (idx ∈ drop k (live arr len) -> exists arr',
      swap_remove_first_loop idx arr len (seq k n) = Ok (Some (arr', len - 1)) /\
      length arr' = length arr /\ live arr len ≡ₚ idx :: live arr' (len - 1))).
  { induction n as [|n IH]; intros k Hn Hk; simpl.
    { rewrite drop_ge by (rewrite live_length; lia). set_solver. }
    destruct (read_live arr len k Hlen) as (v & Hv & Hl); [lia|].
    rewrite (read_at_Ok _ _ _ Hv), (drop_S _ _ _ Hl). simpl.
    destruct (Nat.eqb_spec v idx) as [->|Hne].
    - split; [set_solver|]. intros _.
      destruct (swap_remove_spec arr len k idx Hlen ltac:(lia) Hv) as (arr1 & -> & H1 & _ & H3).
      by exists arr1.
    - destruct (IH (S k) ltac:(lia) ltac:(lia)) as [IH1 IH2].
      split; intros; [apply IH1|apply IH2]; set_solver. }
  destruct (H len 0 ltac:(lia) ltac:(lia)) as [H1 H2]. by rewrite drop_0 in H1, H2.
Qed.
