(* ===== verification/KTypes.v ===== *)
(** * Kernel data types (kernel/mod.rs, kernel/syscall.rs)

    Identifiers, task states, system calls, tasks, log events, counters, and
    the cargo features that select between variants of the code. *)

From stdpp Require Import base list option.
From Stdlib Require Import ZArith.
From S2P Require Import Prelude Addr.

Definition MAX_TASKS : nat := 3.
Definition EVENT_LOG_CAP : nat := 1024.
Definition MAX_ENDPOINTS : nat := 2.

Definition KERNEL_ASID_INDEX : nat := 0.
Definition FIRST_USER_ASID_INDEX : nat := 1.

Definition TASK0_INDEX : nat := 0.
Definition TASK1_INDEX : nat := 1.
Definition TASK2_INDEX : nat := 2.

(** The newtypes [TaskId(u64)], [AddressSpaceId(usize)], [EndpointId(usize)]. *)
Abbreviation TaskId := Z.
Abbreviation AddressSpaceId := nat.
Abbreviation EndpointId := nat.

Definition TASK0_ID : TaskId := 1%Z.
Definition TASK1_ID : TaskId := 2%Z.
Definition TASK2_ID : TaskId := 3%Z.

Definition DEMO_VIRT_PAGE_INDEX_TASK0 : Z := 0x100.
Definition DEMO_VIRT_PAGE_INDEX_USER : Z := 0x110.
Definition IPC_DEMO_EP0 : EndpointId := 0.

Inductive TaskState := Ready | Running | Blocked | Dead.
#[export] Instance TaskState_eq_dec : EqDecision TaskState.
Proof. solve_decision. Defined.

Inductive BlockedReason :=
  | Sleep
  | IpcRecv (ep : EndpointId)
  | IpcSend (ep : EndpointId)
  | IpcReply (partner : TaskId) (ep : EndpointId).
#[export] Instance BlockedReason_eq_dec : EqDecision BlockedReason.
Proof. solve_decision. Defined.

(** kernel/syscall.rs *)
Inductive Syscall :=
  | SysIpcRecv (ep : EndpointId)
  | SysIpcSend (ep : EndpointId) (msg : Z)
  | SysIpcReply (ep : EndpointId) (msg : Z)
  | SysPageMap (page : VirtPage) (flags : PageFlags)
  | SysPageUnmap (page : VirtPage).
#[export] Instance Syscall_eq_dec : EqDecision Syscall.
Proof. solve_decision. Defined.

Record Task := mkTask {
  t_id : TaskId;
  t_state : TaskState;
  t_priority : Z;
  t_runtime_ticks : Z;
  t_time_slice_used : Z;
  t_address_space_id : AddressSpaceId;
  t_blocked_reason : option BlockedReason;
  t_last_msg : option Z;
  t_last_reply : option Z;
  t_last_syscall_ret : option Z;
  t_last_syscall_ret_unread : bool;
  t_pending_send_msg : option Z;
  t_pending_syscall : option Syscall }.

Inductive TaskKillReason :=
  | UserPageFault (addr err rip : Z)
  | DemoInjected (code : Z).

Inductive LogEvent :=
  | TickStarted (n : Z)
  | TimerUpdated (n : Z)
  | FrameAllocated
  | TaskSwitched (task : TaskId)
  | TaskStateChanged (task : TaskId) (st : TaskState)
  | ReadyQueued (task : TaskId)
  | ReadyDequeued (task : TaskId)
  | WaitQueued (task : TaskId)
  | WaitDequeued (task : TaskId)
  | RuntimeUpdated (task : TaskId) (runtime : Z)
  | QuantumExpired (task : TaskId) (used : Z)
  | MemActionApplied (task : TaskId) (address_space : AddressSpaceId) (action : MemAction)
  | SyscallIssued (task : TaskId)
  | SyscallHandled (task : TaskId)
  | IpcRecvCalled (task : TaskId) (ep : EndpointId)
  | IpcRecvBlocked (task : TaskId) (ep : EndpointId)
  | IpcSendCalled (task : TaskId) (ep : EndpointId) (msg : Z)
  | IpcSendBlocked (task : TaskId) (ep : EndpointId)
  | IpcDelivered (from to : TaskId) (ep : EndpointId) (msg : Z)
  | IpcReplyCalled (task : TaskId) (ep : EndpointId) (to : TaskId)
  | IpcReplyDelivered (from to : TaskId) (ep : EndpointId)
  | TaskKilled (task : TaskId) (reason : TaskKillReason).

Inductive KernelActivity := Idle | UpdatingTimer | AllocatingFrame | MappingDemoPage.
Inductive KernelAction := ActionNone | UpdateTimer | AllocateFrame | MemDemo.
#[export] Instance KernelAction_eq_dec : EqDecision KernelAction.
Proof. solve_decision. Defined.

Definition next_activity_and_action (current : KernelActivity) : KernelActivity * KernelAction :=
  match current with
  | Idle => (UpdatingTimer, ActionNone)
  | UpdatingTimer => (AllocatingFrame, UpdateTimer)
  | AllocatingFrame => (MappingDemoPage, AllocateFrame)
  | MappingDemoPage => (Idle, MemDemo)
  end.

Record KernelCounters := mkCounters {
  sched_switches : Z;
  ipc_send_fast : Z;
  ipc_send_slow : Z;
  ipc_recv_fast : Z;
  ipc_recv_slow : Z;
  ipc_reply_delivered : Z;
  task_killed_user_pf : Z;
  task_killed_demo_injected : Z }.

Definition KernelCounters_new : KernelCounters := mkCounters 0 0 0 0 0 0 0 0.

(** The cargo features the modelled code is compiled under ([cfg(feature)]). *)
Record Features := mkFeatures {
  evil_double_map : bool;
  evil_unmap_not_mapped : bool;
  pf_demo : bool;
  ipc_demo_single_slow : bool;
  dead_partner_test : bool;
  endpoint_close_test : bool;
  ring3_mailbox : bool;
  ring3_mailbox_loop : bool;
  ignore_user_pf_demo : bool }.

(** [default = []] *)
Definition default_features : Features :=
  mkFeatures false false false false false false false false false.

(** ipc.rs: the error values a task finds in [last_reply]. *)
Definition IPC_ERR_DEAD_PARTNER : Z := 0xDEADDEADDEADDEAD.
Definition IPC_ERR_ENDPOINT_CLOSED : Z := 0xC105ED00C105ED00.
Definition IPC_ERR_CAPACITY : Z := 0xC0DEC0DEC0DEC0DE.
Definition IPC_ERR_RECV_ALREADY_WAITING : Z := 0xBADC0FFEBADC0FFE.

(** syscall.rs: the return codes of the memory system calls. *)
Definition SYSCALL_OK : Z := 0.
Definition SYSCALL_ERR_ALREADY_MAPPED : Z := 1.
Definition SYSCALL_ERR_NOT_MAPPED : Z := 2.
Definition SYSCALL_ERR_CAPACITY : Z := 3.
Definition SYSCALL_ERR_ARCH_FAILED : Z := 10.
Definition SYSCALL_ERR_BAD_ASPACE : Z := 11.

(** ** The pure transition of the tick automaton *)

(** The activity automaton cycles through its four activities, one per
    tick, and performs each action exactly once per cycle, in the order None,
    UpdateTimer, AllocateFrame, MemDemo when it starts from Idle. *)
Theorem activity_cycle (a : KernelActivity) :
  let n1 := next_activity_and_action a in
  let n2 := next_activity_and_action n1.1 in
  let n3 := next_activity_and_action n2.1 in
  let n4 := next_activity_and_action n3.1 in
  n4.1 = a /\ NoDup [n1.2; n2.2; n3.2; n4.2] /\
  (a = Idle -> [n1.2; n2.2; n3.2; n4.2] = [ActionNone; UpdateTimer; AllocateFrame; MemDemo]).
Proof.
  destruct a; simpl; (split; [done|split; [|done]]);
    apply (bool_decide_unpack _); vm_compute; done.
Qed.
