(* ===== verification/Endpoint.v ===== *)
(** * IPC endpoints (kernel/ipc.rs, [impl Endpoint])

    The data structure of an endpoint and its queue operations. *)

From stdpp Require Import base list option sets.
From Stdlib Require Import ZArith Lia.
From S2P Require Import Prelude Queues KTypes.

Record Endpoint := mkEndpoint {
  ep_id : EndpointId;
  ep_owner : option TaskId;
  is_closed : bool;
  recv_waiter : option nat;
  send_queue : list nat;
  sq_len : nat;
  reply_queue : list nat;
  ep_rq_len : nat }.

Definition Endpoint_new (id : EndpointId) : Endpoint :=
  mkEndpoint id None false None (replicate MAX_TASKS 0) 0 (replicate MAX_TASKS 0) 0.

Definition send_queue_contains (e : Endpoint) (idx : nat) : res bool :=
  queue_contains (send_queue e) (sq_len e) idx.
Definition reply_queue_contains (e : Endpoint) (idx : nat) : res bool :=
  queue_contains (reply_queue e) (ep_rq_len e) idx.

Definition try_enqueue_sender (e : Endpoint) (idx : nat) : res (bool * Endpoint) :=
  if MAX_TASKS <=? sq_len e then Ok (false, e)
  else
    b ← send_queue_contains e idx;
    if b : bool then Ok (true, e)
    else
      q ← write_at (send_queue e) (sq_len e) idx;
      Ok (true, {| e with send_queue := q; sq_len := S (sq_len e) |}).

Definition dequeue_sender (e : Endpoint) : res (option nat * Endpoint) :=
  if sq_len e =? 0 then Ok (None, e)
  else
    let last := sq_len e - 1 in
    idx ← read_at (send_queue e) last;
    Ok (Some idx, {| e with sq_len := sq_len e - 1 |}).

Definition try_enqueue_reply_waiter (e : Endpoint) (idx : nat) : res (bool * Endpoint) :=
  if MAX_TASKS <=? ep_rq_len e then Ok (false, e)
  else
    b ← reply_queue_contains e idx;
    if b : bool then Ok (true, e)
    else
      q ← write_at (reply_queue e) (ep_rq_len e) idx;
      Ok (true, {| e with reply_queue := q; ep_rq_len := S (ep_rq_len e) |}).

Definition remove_reply_waiter_at (e : Endpoint) (pos : nat) : res (option nat * Endpoint) :=
  if ep_rq_len e <=? pos then Ok (None, e)
  else
    idx ← read_at (reply_queue e) pos;
    '(q, len) ← swap_remove (reply_queue e) (ep_rq_len e) pos;
    Ok (Some idx, {| e with reply_queue := q; ep_rq_len := len |}).

Definition remove_sender_idx (e : Endpoint) (idx : nat) : res (bool * Endpoint) :=
  r ← swap_remove_first idx (send_queue e) (sq_len e);
  match r with
  | Some (q, len) => Ok (true, {| e with send_queue := q; sq_len := len |})
  | None => Ok (false, e)
  end.

(** ** Views and well-formedness *)

Definition senders (e : Endpoint) : list nat := live (send_queue e) (sq_len e).
Definition reply_waiters (e : Endpoint) : list nat := live (reply_queue e) (ep_rq_len e).

(** The arrays have their fixed size and the lengths stay inside them. *)
Record Endpoint_wf (e : Endpoint) : Prop := {
  ep_sq_arr : length (send_queue e) = MAX_TASKS;
  ep_sq_len : sq_len e <= MAX_TASKS;
  ep_rq_arr : length (reply_queue e) = MAX_TASKS;
  ep_rq_le : ep_rq_len e <= MAX_TASKS }.

Lemma Endpoint_new_wf i : Endpoint_wf (Endpoint_new i).
Proof. split; simpl; unfold MAX_TASKS; lia. Qed.

Lemma senders_length e : Endpoint_wf e -> length (senders e) = sq_len e.
Proof. intros []. apply live_length. lia. Qed.

Lemma reply_waiters_length e : Endpoint_wf e -> length (reply_waiters e) = ep_rq_len e.
Proof. intros []. apply live_length. lia. Qed.

Lemma try_enqueue_sender_spec e idx :
  Endpoint_wf e -> sq_len e < MAX_TASKS -> idx ∉ senders e ->
  exists e', try_enqueue_sender e idx = Ok (true, e') /\ Endpoint_wf e' /\
    senders e' = senders e ++ [idx] /\
    e' = {| e with send_queue := send_queue e'; sq_len := S (sq_len e) |}.
Proof.
  intros Hwf Hlen Hni. pose proof Hwf as [H1 H2 H3 H4]. unfold try_enqueue_sender.
  rewrite (proj2 (Nat.leb_gt _ _)) by done.
  unfold send_queue_contains. rewrite queue_contains_spec by lia.
  simpl. rewrite bool_decide_false by done. rewrite write_at_Ok by lia. simpl.
  eexists. split; [done|]. split.
  { split; simpl; rewrite ?length_insert; lia. }
  split; [|done]. unfold senders. simpl. apply live_push. lia.
Qed.

Lemma dequeue_sender_spec e :
  Endpoint_wf e ->
  (sq_len e = 0 -> dequeue_sender e = Ok (None, e)) /\
  (sq_len e <> 0 -> exists idx e', dequeue_sender e = Ok (Some idx, e') /\ Endpoint_wf e' /\
     senders e = senders e' ++ [idx] /\ e' = {| e with sq_len := sq_len e - 1 |}).
Proof.
  intros Hwf. pose proof Hwf as [H1 H2 H3 H4]. unfold dequeue_sender. split; intros H.
  { by rewrite H. }
  rewrite (proj2 (Nat.eqb_neq _ _)) by done.
  destruct (read_live (send_queue e) (sq_len e) (sq_len e - 1)) as (v & Hv & _); [lia..|].
  rewrite (read_at_Ok _ _ _ Hv). simpl.
  exists v. eexists. split; [done|]. split; [split; simpl; lia|]. split; [|done].
  unfold senders. simpl. replace (sq_len e) with (S (sq_len e - 1)) at 1 by lia.
  by apply live_pop.
Qed.

Lemma try_enqueue_reply_spec e idx :
  Endpoint_wf e -> ep_rq_len e < MAX_TASKS -> idx ∉ reply_waiters e ->
  exists e', try_enqueue_reply_waiter e idx = Ok (true, e') /\ Endpoint_wf e' /\
    reply_waiters e' = reply_waiters e ++ [idx] /\
    e' = {| e with reply_queue := reply_queue e'; ep_rq_len := S (ep_rq_len e) |}.
Proof.
  intros Hwf Hlen Hni. pose proof Hwf as [H1 H2 H3 H4]. unfold try_enqueue_reply_waiter.
  rewrite (proj2 (Nat.leb_gt _ _)) by done.
  unfold reply_queue_contains. rewrite queue_contains_spec by lia.
  simpl. rewrite bool_decide_false by done. rewrite write_at_Ok by lia. simpl.
  eexists. split; [done|]. split.
  { split; simpl; rewrite ?length_insert; lia. }
  split; [|done]. unfold reply_waiters. simpl. apply live_push. lia.
Qed.

Lemma remove_reply_waiter_at_spec e pos idx :
  Endpoint_wf e -> reply_waiters e !! pos = Some idx ->
  exists e', remove_reply_waiter_at e pos = Ok (Some idx, e') /\ Endpoint_wf e' /\
    reply_waiters e ≡ₚ idx :: reply_waiters e' /\
    take pos (reply_waiters e') = take pos (reply_waiters e) /\
    e' = {| e with reply_queue := reply_queue e'; ep_rq_len := ep_rq_len e - 1 |}.
Proof.
  intros Hwf Hpos. pose proof Hwf as [H1 H2 H3 H4].
  apply live_lookup in Hpos as [Hv Hlt]. unfold remove_reply_waiter_at.
  rewrite (proj2 (Nat.leb_gt _ _)) by done.
  rewrite (read_at_Ok _ _ _ Hv). simpl.
  destruct (swap_remove_spec (reply_queue e) (ep_rq_len e) pos idx) as (q & -> & Hl & Ht & Hp);
    [lia|done|done|]. simpl.
  eexists. split; [done|]. split; [split; simpl; lia|].
  split; [done|]. split; [|done]. unfold reply_waiters, live. simpl.
  rewrite !take_take, !Nat.min_l by lia. done.
Qed.
