(* ===== verification/EventLog.v ===== *)
(** * The event log: a ring buffer (kernel/mod.rs, [push_event], [dump_events])

    The log keeps the most recent events.  The buffer is modelled for any
    element type and capacity; the kernel instantiates it with [LogEvent] and
    [EVENT_LOG_CAP]. *)

From stdpp Require Import base list option.
From Stdlib Require Import Lia.
From S2P Require Import Prelude.

Section ring.
Context {A : Type} (cap : nat).

Record Ring := mkRing {
  ring_log : list (option A);
  ring_head : nat;
  ring_len : nat }.

(** The body of [push_event]. *)
Definition ring_push (ev : A) (r : Ring) : Ring :=
  if cap =? 0 then r
  else
    let pos := (ring_head r + ring_len r) mod cap in
    let log := <[pos := Some ev]> (ring_log r) in
    if ring_len r <? cap
    then mkRing log (ring_head r) (S (ring_len r))
    else mkRing log ((ring_head r + 1) mod cap) (ring_len r).

(** The slot the dump loop reads in iteration [i]. *)
Definition ring_slot (r : Ring) (i : nat) : option A :=
  mjoin (ring_log r !! ((ring_head r + i) mod cap)).

(** What the loop of [dump_events] prints, in order. *)
Definition ring_events (r : Ring) : list A := omap (ring_slot r) (seq 0 (ring_len r)).

Definition ring_empty : Ring := mkRing (replicate cap None) 0 0.

Record ring_wf (r : Ring) : Prop := {
  ring_wf_log : length (ring_log r) = cap;
  ring_wf_head : ring_head r < cap;
  ring_wf_len : ring_len r <= cap;
  ring_wf_slot : forall i, i < ring_len r -> is_Some (ring_slot r i) }.

Lemma ring_empty_wf : 0 < cap -> ring_wf ring_empty.
Proof. split; simpl; try lia. apply length_replicate. Qed.

Lemma mod_add_ne h i j : h < cap -> i < cap -> j < cap -> i <> j ->
  (h + i) mod cap <> (h + j) mod cap.
Proof.
  intros Hh Hi Hj Hne H.
  destruct (decide (h + i < cap)), (decide (h + j < cap)).
  - rewrite !Nat.mod_small in H by lia. lia.
  - rewrite (Nat.mod_small (h + i)) in H by lia.
    rewrite <- (Nat.mod_unique (h + j) cap 1 (h + j - cap)) in H by lia. lia.
  - rewrite (Nat.mod_small (h + j)) in H by lia.
    rewrite <- (Nat.mod_unique (h + i) cap 1 (h + i - cap)) in H by lia. lia.
  - rewrite <- (Nat.mod_unique (h + i) cap 1 (h + i - cap)) in H by lia.
    rewrite <- (Nat.mod_unique (h + j) cap 1 (h + j - cap)) in H by lia. lia.
Qed.

Lemma omap_ext_seq {B} (f g : nat -> option B) a b n :
  (forall i, i < n -> f (a + i) = g (b + i)) -> omap f (seq a n) = omap g (seq b n).
Proof.
  revert a b. induction n as [|n IH]; intros a b H; csimpl; [done|].
  pose proof (H 0 ltac:(lia)) as H0. rewrite !Nat.add_0_r in H0. rewrite H0.
  rewrite (IH (S a) (S b)); [done|]. intros i Hi.
  replace (S a + i) with (a + S i) by lia. replace (S b + i) with (b + S i) by lia.
  apply H. lia.
Qed.

Lemma slot_push r ev i :
  ring_wf r -> ring_slot (mkRing (<[(ring_head r + ring_len r) mod cap := Some ev]> (ring_log r))
                            (ring_head r) (ring_len r)) i
    = if decide ((ring_head r + i) mod cap = (ring_head r + ring_len r) mod cap)
      then Some ev else ring_slot r i.
Proof.
  intros [Hl Hh _ _]. unfold ring_slot. simpl. case_decide as Hd.
  - rewrite Hd, list_lookup_insert_eq; [done|]. rewrite Hl. apply Nat.mod_upper_bound. lia.
  - by rewrite list_lookup_insert_ne.
Qed.

(** One push: the new event comes last, and the oldest one leaves a full log. *)
Lemma ring_push_spec ev r :
  ring_wf r ->
  ring_wf (ring_push ev r) /\
  ring_events (ring_push ev r) =
    (if ring_len r <? cap then ring_events r else tail (ring_events r)) ++ [ev].
Proof.
  intros Hwf. pose proof Hwf as [Hl Hh Hn Hs].
  unfold ring_push. rewrite (proj2 (Nat.eqb_neq cap 0)) by lia.
  pose proof (fun i => slot_push r ev i Hwf) as Hslot.
  destruct (Nat.ltb_spec (ring_len r) cap) as [Hlt|Hge].
  - assert (Hsl : forall i, ring_slot (mkRing (<[(ring_head r + ring_len r) mod cap := Some ev]>
        (ring_log r)) (ring_head r) (S (ring_len r))) i
        = if decide ((ring_head r + i) mod cap = (ring_head r + ring_len r) mod cap)
          then Some ev else ring_slot r i) by exact Hslot.
    split.
    + split; simpl; [by rewrite length_insert|done|lia|]. intros i Hi. rewrite Hsl.
      case_decide as Hd; [done|]. apply Hs.
      destruct (decide (i = ring_len r)) as [->|]; [done|lia].
    + unfold ring_events at 1. cbn [ring_len]. rewrite seq_S, omap_app. f_equal.
      * apply omap_ext_seq. intros i Hi. rewrite Hsl, decide_False; [done|].
        apply mod_add_ne; lia.
      * csimpl. rewrite Hsl, decide_True; [done|lia].
  - assert (ring_len r = cap) as Hcap by lia.
    assert (Hpos : (ring_head r + ring_len r) mod cap = ring_head r).
    { rewrite Hcap. rewrite <- (Nat.mul_1_l cap) at 1. rewrite Nat.Div0.mod_add.
      by apply Nat.mod_small. }
    set (r' := mkRing _ ((ring_head r + 1) mod cap) (ring_len r)).
    assert (Hsl : forall i, ring_slot r' i
        = if decide ((ring_head r + S i) mod cap = (ring_head r + ring_len r) mod cap)
          then Some ev else ring_slot r (S i)).
    { intros i. etransitivity; [|apply (Hslot (S i))]. unfold ring_slot, r'. simpl.
      rewrite Nat.Div0.add_mod_idemp_l. do 3 f_equal. lia. }
    assert (Hne : forall i, S i < cap ->
        (ring_head r + S i) mod cap <> (ring_head r + ring_len r) mod cap).
    { intros i Hi. rewrite Hpos. rewrite <- (Nat.mod_small (ring_head r) cap) at 2 by done.
      rewrite <- (Nat.add_0_r (ring_head r)) at 2. apply mod_add_ne; lia. }
    split.
    + split; simpl; [by rewrite length_insert|apply Nat.mod_upper_bound; lia|lia|].
      intros i Hi. rewrite Hsl. case_decide as Hd; [done|]. apply Hs.
      destruct (decide (S i = cap)) as [He|]; [|lia]. exfalso. apply Hd.
      rewrite He, <- Hcap. done.
    + unfold ring_events. change (ring_len r') with (ring_len r).
      assert (exists c, ring_len r = S c) as [c Hc] by (destruct (ring_len r); [lia|eauto]).
      rewrite Hc. rewrite seq_S at 1. rewrite omap_app.
      change (seq 0 (S c)) with (0 :: seq 1 c). csimpl.
      destruct (Hs 0 ltac:(lia)) as [e0 He0]. rewrite He0. simpl. f_equal.
      * apply omap_ext_seq. intros i Hi. rewrite Hsl, decide_False; [done|].
        apply Hne. lia.
      * rewrite Hsl, decide_True; [done|]. by rewrite Hc.
Qed.

Lemma ring_events_length r : ring_wf r -> length (ring_events r) = ring_len r.
Proof.
  intros [_ _ _ Hs]. unfold ring_events.
  assert (H : forall k n, (forall i, k <= i < k + n -> is_Some (ring_slot r i)) ->
    length (omap (ring_slot r) (seq k n)) = n).
  { intros k n. revert k. induction n as [|n IH]; intros k H; csimpl; [done|].
    destruct (H k ltac:(lia)) as [e ->]. simpl. rewrite IH; [done|].
    intros i Hi. apply H. lia. }
  apply H. intros i Hi. apply Hs. lia.
Qed.

(** Only the last [cap] of all pushed events are kept, in order. *)
Lemma ring_push_all_spec evs r :
  ring_wf r ->
  let all := ring_events r ++ evs in
  ring_wf (fold_left (fun r e => ring_push e r) evs r) /\
  ring_events (fold_left (fun r e => ring_push e r) evs r) = drop (length all - cap) all.
Proof.
  revert r. induction evs as [|e evs IH]; intros r Hwf; simpl.
  { split; [done|]. rewrite app_nil_r, ring_events_length by done.
    destruct Hwf. replace (_ - cap) with 0 by lia. done. }
  destruct (ring_push_spec e r Hwf) as [Hwf' Hev].
  destruct (IH _ Hwf') as [Hw He]. split; [done|]. rewrite He, Hev.
  pose proof (ring_events_length r Hwf) as Hlen.
  destruct Hwf as [_ Hh Hn _]. destruct (Nat.ltb_spec (ring_len r) cap).
  - rewrite <- app_assoc. done.
  - destruct (ring_events r) as [|e0 l]; simpl in *; [lia|].
    rewrite <- app_assoc, length_app. simpl.
    replace (S (length (l ++ e :: evs)) - cap) with (S (length l + S (length evs) - cap)).
    + done.
    + rewrite length_app. simpl. lia.
Qed.

End ring.
Arguments Ring A : clear implicits.
