(* ===== verification/Console.v ===== *)
(** * Log output (logging/mod.rs, logging/vga.rs, logging/serial.rs)

    The text the kernel prints: decimal and hexadecimal numbers, the VGA writer
    with its scrolling, and the log lines on both devices.  Bytes are [Z]; the
    serial line is the list of bytes sent, which the driver of Serial.v
    implements on the ports. *)

From stdpp Require Import base list option strings.
From Stdlib Require Import ZArith Lia.
From S2P Require Import Prelude.
#[local] Open Scope Z_scope.

(** ** Numbers *)

(** The bytes of a literal. *)
Definition bytes_of_string (s : string) : list Z :=
  (fun a => Z.of_nat (Ascii.nat_of_ascii a)) <$> String.list_ascii_of_string s.

Definition ascii_0 : Z := 48.
Definition ascii_a : Z := 97.

(** [buf[i] = b] *)
Definition buf_set (buf : list Z) (i : nat) (b : Z) : res (list Z) :=
  if (i <? length buf)%nat then Ok (<[i := b]> buf) else Panicked PanicIndex.

(** [while value > 0]: the digits are written from the end of the buffer; at most
    20 of them, so the fuel of [u64_to_decimal] never runs out. *)
Fixpoint decimal_loop (fuel : nat) (value : Z) (i : nat) (buf : list Z) : res (nat * list Z) :=
  if value <=? 0 then Ok (i, buf)
  else
    match fuel with
    | O => Ok (i, buf)
    | S fuel =>
        match i with
        | O => Panicked PanicOverflow
        | S i' =>
            buf ← buf_set buf i' (ascii_0 + value mod 10);
            decimal_loop fuel (value / 10) i' buf
        end
    end.

Definition DECIMAL_BUF : nat := 21.

Definition u64_to_decimal (value : Z) : res (list Z) :=
  let buf := replicate DECIMAL_BUF 0 in
  if value =? 0 then
    let last := (DECIMAL_BUF - 1)%nat in
    buf ← buf_set buf last ascii_0;
    Ok (drop last buf)
  else
    '(i, buf) ← decimal_loop DECIMAL_BUF value DECIMAL_BUF buf;
    Ok (drop i buf).

Definition hex_digit (n : Z) : Z := if n <? 10 then ascii_0 + n else ascii_a + (n - 10).

(** [emergency_write_hex_u64]: "0x" and sixteen digits. *)
Definition hex_u64 (v : Z) : list Z :=
  [48; 120] ++ ((fun i => hex_digit (Z.land (Z.shiftr v (Z.of_nat i * 4)) 0xF)) <$> rev (seq 0 16)).

(** ** The VGA writer *)

Definition BUFFER_HEIGHT : nat := 25.
Definition BUFFER_WIDTH : nat := 80.

Record ScreenChar := mkScreenChar { ascii_character : Z; char_color : Z }.

Record Writer := mkWriter { col : nat; color_code : Z; chars : list (list ScreenChar) }.

(** [chars[row][col].read()] and [.write(ch)]: an index out of range panics. *)
Definition screen_read (row c : nat) : ST Writer ScreenChar :=
  w ← get;
  line ← at_index (chars w) row;
  at_index line c.
Definition screen_write (row c : nat) (ch : ScreenChar) : ST Writer unit :=
  w ← get;
  line ← at_index (chars w) row;
  if (c <? length line)%nat
  then put {| w with chars := <[row := <[c := ch]> line]> (chars w) |}
  else panic_with PanicIndex.

Definition clear_row (row : nat) : ST Writer unit :=
  w ← get;
  let blank := mkScreenChar 32 (color_code w) in
  for_each (seq 0 BUFFER_WIDTH) (fun c => screen_write row c blank).

Definition new_line : ST Writer unit :=
  for_each (seq 1 (BUFFER_HEIGHT - 1)) (fun row =>
    for_each (seq 0 BUFFER_WIDTH) (fun c =>
      ch ← screen_read row c;
      screen_write (row - 1)%nat c ch)) ;;
  clear_row (BUFFER_HEIGHT - 1)%nat ;;
  modify (fun w => {| w with col := 0%nat |}).

Definition write_byte (byte : Z) : ST Writer unit :=
  if byte =? 10 then new_line
  else
    w ← get;
    (if (BUFFER_WIDTH <=? col w)%nat then new_line else mret tt) ;;
    w ← get;
    screen_write (BUFFER_HEIGHT - 1)%nat (col w) (mkScreenChar byte (color_code w)) ;;
    modify (fun w => {| w with col := S (col w) |}).

Definition writer_write_str (s : list Z) : ST Writer unit := for_each s write_byte.

(** ** Log lines *)

(** [WRITER], [VGA_ENABLED] and what went out on COM1. *)
Record Console := mkConsole { vga_writer : option Writer; VGA_ENABLED : bool; serial_out : list Z }.

Definition Color_Black : Z := 0x0.
Definition Color_LightGray : Z := 0x7.

(** [vga::init]: the writer starts in the last row; the screen keeps what it shows. *)
Definition vga_init (screen : list (list ScreenChar)) (c : Console) : Console :=
  {| c with vga_writer := Some (mkWriter 0 (Z.lor Color_LightGray (Z.shiftl Color_Black 4)) screen) |}.

Definition vga_str (s : list Z) : ST Console unit :=
  c ← get;
  if negb (VGA_ENABLED c) then mret tt
  else
    match vga_writer c with
    | None => mret tt
    | Some w =>
        '(_, w') ← lift_res (writer_write_str s w);
        put {| c with vga_writer := Some w' |}
    end.
Definition vga_line (s : list Z) : ST Console unit := vga_str (s ++ [10]).
Definition vga_prefixed_line (prefix msg : list Z) : ST Console unit := vga_str (prefix ++ msg ++ [10]).

Definition serial_str (s : list Z) : ST Console unit :=
  modify (fun c => {| c with serial_out := serial_out c ++ s |}).
Definition serial_line (s : list Z) : ST Console unit := serial_str s ;; serial_str [13; 10].
Definition serial_prefixed_line (prefix msg : list Z) : ST Console unit := serial_str prefix ;; serial_line msg.

(** "[INFO] ", "[ERROR] ", " = " *)
Definition INFO_PREFIX : list Z := [91; 73; 78; 70; 79; 93; 32].
Definition ERROR_PREFIX : list Z := [91; 69; 82; 82; 79; 82; 93; 32].
Definition KV_SEP : list Z := [32; 61; 32].

Definition log_info (msg : list Z) : ST Console unit :=
  vga_prefixed_line INFO_PREFIX msg ;; serial_prefixed_line INFO_PREFIX msg.
Definition log_error (msg : list Z) : ST Console unit :=
  vga_prefixed_line ERROR_PREFIX msg ;; serial_prefixed_line ERROR_PREFIX msg.

Definition info_kv (key : list Z) (value : Z) : ST Console unit :=
  s ← lift_res (u64_to_decimal value);
  match key with
  | [] =>
      vga_str INFO_PREFIX ;; vga_line s ;;
      serial_str INFO_PREFIX ;; serial_line s
  | _ =>
      vga_str INFO_PREFIX ;; vga_str key ;; vga_str KV_SEP ;; vga_line s ;;
      serial_str INFO_PREFIX ;; serial_str key ;; serial_str KV_SEP ;; serial_line s
  end.

(** Only the serial line, for exception handlers. *)
Definition emergency_error (msg : list Z) : ST Console unit := serial_prefixed_line ERROR_PREFIX msg.
Definition emergency_info_kv (key : list Z) (value : Z) : ST Console unit :=
  s ← lift_res (u64_to_decimal value);
  match key with
  | [] => serial_str INFO_PREFIX ;; serial_line s
  | _ => serial_str INFO_PREFIX ;; serial_str key ;; serial_str KV_SEP ;; serial_line s
  end.

(** ** Decimal numbers *)

(** The digits of a number, most significant first. *)
Fixpoint digits (n : nat) (v : Z) : list Z :=
  match n with
  | O => []
  | S n => if v <=? 0 then [] else digits n (v / 10) ++ [ascii_0 + v mod 10]
  end.

Definition decimal_value (s : list Z) : Z := fold_left (fun acc d => 10 * acc + (d - ascii_0)) s 0.

Lemma div10_bound v k : 0 <= v < 10 ^ Z.of_nat (S k) -> 0 <= v / 10 < 10 ^ Z.of_nat k.
Proof.
  rewrite Nat2Z.inj_succ, Z.pow_succ_r by lia. intros Hv.
  split; [apply Z.div_pos; lia|apply Z.div_lt_upper_bound; lia].
Qed.

Lemma decimal_loop_digits i fuel v buf :
  0 <= v < 10 ^ Z.of_nat i -> (i <= fuel)%nat -> (i <= length buf)%nat ->
  exists j buf', decimal_loop fuel v i buf = Ok (j, buf') /\ drop j buf' = digits i v ++ drop i buf.
Proof.
  revert fuel v buf. induction i as [|i IH]; intros fuel v buf Hv Hf Hb.
  { exists 0%nat, buf. simpl in Hv. split; [|done]. destruct fuel; simpl; by rewrite (proj2 (Z.leb_le _ _)) by lia. }
  simpl digits. destruct (Z.leb_spec v 0) as [H0|H0].
  { exists (S i), buf. split; [|done]. destruct fuel; simpl; by rewrite (proj2 (Z.leb_le _ _)) by lia. }
  destruct fuel as [|fuel]; [lia|]. cbn [decimal_loop]. rewrite (proj2 (Z.leb_gt _ _)) by lia.
  unfold buf_set. rewrite (proj2 (Nat.ltb_lt _ _)) by lia. rewrite Ok_bind.
  destruct (IH fuel (v / 10) (<[i := ascii_0 + v mod 10]> buf)) as (j & buf' & Hrun & Hd);
    [by apply div10_bound|lia|rewrite length_insert; lia|].
  exists j, buf'. split; [done|]. rewrite Hd, <- app_assoc. f_equal.
  rewrite (drop_S _ (ascii_0 + v mod 10) i) by (apply list_lookup_insert_eq; lia). simpl.
  by rewrite drop_insert_lt by lia.
Qed.

Lemma decimal_value_app s d : decimal_value (s ++ [d]) = 10 * decimal_value s + (d - ascii_0).
Proof. unfold decimal_value. by rewrite fold_left_app. Qed.

Lemma digits_spec n v :
  0 <= v < 10 ^ Z.of_nat n ->
  decimal_value (digits n v) = v /\ Forall (fun d => ascii_0 <= d <= ascii_0 + 9) (digits n v) /\
  (forall k, v < 10 ^ Z.of_nat k -> (length (digits n v) <= k)%nat) /\
  (0 < v -> exists d s, digits n v = d :: s /\ d <> ascii_0).
Proof.
  revert v. induction n as [|n IH]; intros v Hv.
  { simpl in *. assert (v = 0) as -> by lia. split_and!; [done|constructor|simpl; lia|lia]. }
  simpl. destruct (Z.leb_spec v 0) as [H0|H0].
  { assert (v = 0) as -> by lia. split_and!; [done|constructor|simpl; lia|lia]. }
  destruct (IH (v / 10) (div10_bound _ _ Hv)) as (E & Hd & Hlen & Hlead).
  pose proof (Z.mod_pos_bound v 10 ltac:(lia)) as Hm. pose proof (Z.div_mod v 10 ltac:(lia)) as Hdm. split_and!.
  - rewrite decimal_value_app, E. lia.
  - apply Forall_app. split; [done|]. constructor; [lia|constructor].
  - intros k Hk. rewrite length_app. simpl. destruct k as [|k]; [simpl in Hk; lia|].
    specialize (Hlen k (proj2 (div10_bound v k ltac:(lia)))). lia.
  - intros _. destruct (Z.eq_dec (v / 10) 0) as [Ez|Hz].
    + rewrite Ez. exists (ascii_0 + v mod 10), []. split; [by destruct n|lia].
    + destruct Hlead as (d & s & -> & Hne); [pose proof (Z.div_pos v 10); lia|].
      exists d, (s ++ [ascii_0 + v mod 10]). by split.
Qed.

Lemma u64_to_decimal_digits v : u64 v ->
  u64_to_decimal v = Ok (if v =? 0 then [ascii_0] else digits DECIMAL_BUF v).
Proof.
  unfold u64, u64_max, u64_to_decimal. intros Hv. destruct (Z.eqb_spec v 0) as [->|Hne]; [done|].
  destruct (decimal_loop_digits DECIMAL_BUF DECIMAL_BUF v (replicate DECIMAL_BUF 0)) as (j & buf & Hrun & Hd);
    [unfold DECIMAL_BUF; lia|lia|by rewrite length_replicate|].
  rewrite Hrun, Ok_bind, Hd. by rewrite drop_ge, app_nil_r by (by rewrite length_replicate).
Qed.

Lemma u64_to_decimal_Ok v : u64 v -> exists s, u64_to_decimal v = Ok s.
Proof. intros Hv. rewrite u64_to_decimal_digits by done. eauto. Qed.

(** C37: decimal output.  For every 64-bit number the conversion returns (no index
    out of the 21-byte buffer, no underflow), the text consists of at most 20
    digits, reads back as the number, and has no leading zero except for 0
    itself. *)
Theorem decimal_prints_number (v : Z) (Hv : u64 v) :
  exists s, u64_to_decimal v = Ok s /\ decimal_value s = v /\
    Forall (fun d => ascii_0 <= d <= ascii_0 + 9) s /\ (1 <= length s <= 20)%nat /\
    (head s = Some ascii_0 -> v = 0).
Proof.
  rewrite u64_to_decimal_digits by done. unfold u64, u64_max in Hv. destruct (Z.eqb_spec v 0) as [->|Hne].
  { exists [ascii_0]. split; [done|]. split; [done|]. split; [repeat constructor; lia|]. simpl. split; [lia|done]. }
  destruct (digits_spec DECIMAL_BUF v) as (E & Hf & Hlen & Hlead); [unfold DECIMAL_BUF; lia|].
  destruct Hlead as (d & s & Es & Hd0); [lia|].
  exists (digits DECIMAL_BUF v). split; [done|]. split; [done|]. split; [done|].
  split; [|rewrite Es; simpl; congruence].
  split; [rewrite Es; simpl; lia|apply Hlen; lia].
Qed.

Lemma decimal_prints_number_witness :
  exists s, u64_to_decimal u64_max = Ok s /\ decimal_value s = u64_max /\ length s = 20%nat.
Proof.
  destruct (decimal_prints_number u64_max) as (s & Hs & Hval & _); [split; vm_compute; congruence|].
  exists s. split; [exact Hs|]. split; [exact Hval|]. vm_compute in Hs. injection Hs as <-. reflexivity.
Defined.

(** ** Hexadecimal numbers *)

Definition hex_value (d : Z) : Z := if d <? ascii_a then d - ascii_0 else d - ascii_a + 10.
Definition hex_number (s : list Z) : Z := fold_left (fun acc d => 16 * acc + hex_value d) s 0.

Lemma hex_digit_value n : 0 <= n < 16 -> hex_value (hex_digit n) = n.
Proof. intros Hn. unfold hex_value, hex_digit, ascii_0, ascii_a. repeat case_test; lia. Qed.

Lemma hex_fold v n acc :
  fold_left (fun acc d => 16 * acc + hex_value d)
    ((fun i => hex_digit (Z.land (Z.shiftr v (Z.of_nat i * 4)) 0xF)) <$> rev (seq 0 n)) acc
  = acc * 16 ^ Z.of_nat n + v mod 16 ^ Z.of_nat n.
Proof.
  revert acc. induction n as [|n IH]; intros acc; [simpl; rewrite Z.mod_1_r; lia|].
  rewrite seq_S, rev_app_distr, fmap_app. cbn [rev app fmap list_fmap fold_left]. rewrite IH.
  assert (En : Z.land (Z.shiftr v (Z.of_nat n * 4)) 0xF = (v / 16 ^ Z.of_nat n) mod 16).
  { rewrite Z.shiftr_div_pow2 by lia. change 0xF with (Z.ones 4). rewrite Z.land_ones by lia.
    replace (2 ^ (Z.of_nat n * 4)) with (16 ^ Z.of_nat n); [done|].
    rewrite Z.mul_comm, Z.pow_mul_r by lia. done. }
  cbn [Nat.add]. rewrite En, hex_digit_value by (apply Z.mod_pos_bound; lia).
  assert (0 < 16 ^ Z.of_nat n) by (apply Z.pow_pos_nonneg; lia).
  rewrite Nat2Z.inj_succ, Z.pow_succ_r, (Z.mul_comm 16 (16 ^ _)), Z.rem_mul_r by lia. lia.
Qed.

(** Hexadecimal output of the emergency path: "0x" and sixteen digits that
    read back as the number. *)
Theorem hex_prints_number (v : Z) (Hv : u64 v) :
  exists s, hex_u64 v = [48; 120] ++ s /\ length s = 16%nat /\ hex_number s = v.
Proof.
  eexists. split; [done|]. split; [done|]. unfold hex_number. rewrite hex_fold, Z.mul_0_l, Z.add_0_l.
  apply Z.mod_small. unfold u64, u64_max in Hv. change (16 ^ Z.of_nat 16) with (2 ^ 64). lia.
Qed.

Lemma hex_prints_number_witness :
  exists s, hex_u64 0xDEADBEEF = [48; 120] ++ s /\ hex_number s = 0xDEADBEEF.
Proof.
  destruct (hex_prints_number 0xDEADBEEF) as (s & Hs & _ & Hv); [split; vm_compute; congruence|].
  exists s. exact (conj Hs Hv).
Defined.

(** ** The screen *)

Record Writer_wf (w : Writer) : Prop := {
  ww_rows : length (chars w) = BUFFER_HEIGHT;
  ww_cols r line : chars w !! r = Some line -> length line = BUFFER_WIDTH;
  ww_col : (col w <= BUFFER_WIDTH)%nat }.

Definition with_chars (w : Writer) (cs : list (list ScreenChar)) : Writer := {| w with chars := cs |}.

Lemma screen_write_Ok w r c ch line :
  chars w !! r = Some line -> (c < length line)%nat ->
  screen_write r c ch w = Ok (tt, with_chars w (<[r := <[c := ch]> line]> (chars w))).
Proof.
  intros Hl Hc. unfold screen_write. rewrite bind_get, (bind_at_index _ _ _ _ _ Hl).
  by rewrite (proj2 (Nat.ltb_lt _ _) Hc).
Qed.

(** Filling the columns of row [r] one by one, from [line] to [goal]. *)
Lemma fill_row (body : nat -> ST Writer unit) w r line goal :
  chars w !! r = Some line -> length line = BUFFER_WIDTH -> length goal = BUFFER_WIDTH ->
  (forall c ch dst, (c < BUFFER_WIDTH)%nat -> goal !! c = Some ch -> length dst = BUFFER_WIDTH ->
     body c (with_chars w (<[r := dst]> (chars w)))
     = Ok (tt, with_chars w (<[r := <[c := ch]> dst]> (chars w)))) ->
  for_each (seq 0 BUFFER_WIDTH) body w = Ok (tt, with_chars w (<[r := goal]> (chars w))).
Proof.
  intros Hl Hlen Hg Hbody.
  assert (Hgen : forall n k dst, (k + n = BUFFER_WIDTH)%nat -> length dst = BUFFER_WIDTH ->
    for_each (seq k n) body (with_chars w (<[r := dst]> (chars w)))
    = Ok (tt, with_chars w (<[r := take k dst ++ drop k goal]> (chars w)))).
  { induction n as [|n IH]; intros k dst Hk Hd; simpl.
    - rewrite take_ge, drop_ge, app_nil_r by lia. done.
    - destruct (lookup_lt_is_Some_2 goal k) as [ch Hch]; [lia|].
      rewrite (bind_Ok _ _ _ _ _ (Hbody k ch dst ltac:(lia) Hch Hd)), IH by (rewrite ?length_insert; lia).
      do 4 f_equal. rewrite (take_S_r _ _ ch) by (apply list_lookup_insert_eq; lia).
      rewrite take_insert_ge, <- app_assoc by lia. simpl. by rewrite (drop_S goal ch k). }
  specialize (Hgen BUFFER_WIDTH 0%nat line eq_refl Hlen). rewrite take_0, drop_0 in Hgen.
  rewrite list_insert_id in Hgen by done. by destruct w.
Qed.

(** One row of the scrolling loop: row [r] goes to row [r - 1]. *)
Lemma copy_row_Ok w r src dst :
  (0 < r)%nat -> chars w !! r = Some src -> chars w !! (r - 1)%nat = Some dst ->
  length src = BUFFER_WIDTH -> length dst = BUFFER_WIDTH ->
  for_each (seq 0 BUFFER_WIDTH) (fun c => ch ← screen_read r c; screen_write (r - 1)%nat c ch) w
  = Ok (tt, with_chars w (<[(r - 1)%nat := src]> (chars w))).
Proof.
  intros Hr Hs Hd Hls Hld. apply (fill_row _ w (r - 1)%nat dst); try done.
  intros c ch d Hc Hch Hdl.
  assert (Hread : screen_read r c (with_chars w (<[(r - 1)%nat := d]> (chars w)))
    = Ok (ch, with_chars w (<[(r - 1)%nat := d]> (chars w)))).
  { unfold screen_read. rewrite bind_get. simpl. rewrite (bind_at_index _ _ src); [by apply at_index_Ok|].
    by rewrite list_lookup_insert_ne by lia. }
  rewrite (bind_Ok _ _ _ _ _ Hread).
  rewrite (screen_write_Ok _ _ _ _ d) by (simpl; (apply list_lookup_insert_eq; by eapply lookup_lt_Some) || lia).
  simpl. unfold with_chars. simpl. by rewrite list_insert_insert_eq.
Qed.

Lemma scroll_rows n a w :
  (1 <= a)%nat -> (a + n = BUFFER_HEIGHT)%nat -> length (chars w) = BUFFER_HEIGHT ->
  (forall r line, chars w !! r = Some line -> length line = BUFFER_WIDTH) ->
  for_each (seq a n) (fun row => for_each (seq 0 BUFFER_WIDTH) (fun c =>
      ch ← screen_read row c; screen_write (row - 1)%nat c ch)) w
  = Ok (tt, with_chars w (take (a - 1) (chars w) ++ drop a (chars w) ++ drop (BUFFER_HEIGHT - 1) (chars w))).
Proof.
  revert a w. induction n as [|n IH]; intros a w Ha Hn Hl Hc.
  { simpl. rewrite (drop_ge (chars w) a) by lia. replace (a - 1)%nat with (BUFFER_HEIGHT - 1)%nat by lia.
    rewrite app_nil_l, take_drop. by destruct w. }
  destruct (lookup_lt_is_Some_2 (chars w) a) as [src Hs]; [lia|].
  destruct (lookup_lt_is_Some_2 (chars w) (a - 1)) as [dst Hd]; [lia|].
  cbn [seq for_each]. rewrite (bind_Ok _ _ _ _ _ (copy_row_Ok w a src dst ltac:(lia) Hs Hd (Hc _ _ Hs) (Hc _ _ Hd))).
  rewrite IH; simpl chars.
  - unfold with_chars. simpl. do 3 f_equal. replace (S a - 1)%nat with a by lia.
    rewrite (drop_insert_lt _ (S a)), (drop_insert_lt _ (BUFFER_HEIGHT - 1)) by lia.
    assert (Et : take a (<[(a - 1)%nat := src]> (chars w)) = take (a - 1) (chars w) ++ [src]).
    { destruct a as [|b]; [lia|]. replace (S b - 1)%nat with b by lia.
      rewrite (take_S_r _ _ src) by (apply list_lookup_insert_eq; lia). by rewrite take_insert_ge by lia. }
    rewrite Nat.sub_0_r, Et, <- app_assoc. simpl. by rewrite (drop_S _ src a).
  - lia.
  - lia.
  - by rewrite length_insert.
  - intros r line [(<- & <- & _)|[_ Hr]]%list_lookup_insert_Some; eauto.
Qed.

Lemma clear_row_Ok w r line :
  chars w !! r = Some line -> length line = BUFFER_WIDTH ->
  clear_row r w = Ok (tt, with_chars w (<[r := replicate BUFFER_WIDTH (mkScreenChar 32 (color_code w))]> (chars w))).
Proof.
  intros Hl Hlen. unfold clear_row. rewrite bind_get. cbv zeta.
  apply (fill_row _ w r line); [done|done|apply length_replicate|].
  intros c ch dst Hc Hch Hd. apply lookup_replicate in Hch as [-> _].
  rewrite (screen_write_Ok _ _ _ _ dst); [|simpl; apply list_lookup_insert_eq; by eapply lookup_lt_Some|lia].
  unfold with_chars. simpl. by rewrite list_insert_insert_eq.
Qed.

(** The scrolled screen: without its first row, with a blank row at the end. *)
Definition scrolled (w : Writer) : Writer :=
  mkWriter 0 (color_code w)
    (drop 1 (chars w) ++ [replicate BUFFER_WIDTH (mkScreenChar 32 (color_code w))]).

Lemma new_line_Ok w : Writer_wf w -> new_line w = Ok (tt, scrolled w).
Proof.
  intros [Hr Hc _]. unfold new_line.
  rewrite (bind_Ok _ _ _ _ _ (scroll_rows (BUFFER_HEIGHT - 1) 1 w ltac:(lia) eq_refl Hr Hc)).
  set (cs := take (1 - 1) (chars w) ++ drop 1 (chars w) ++ drop (BUFFER_HEIGHT - 1) (chars w)).
  destruct (lookup_lt_is_Some_2 (chars w) (BUFFER_HEIGHT - 1)) as [last Hlast]; [rewrite Hr; unfold BUFFER_HEIGHT; lia|].
  assert (Hcs : cs = drop 1 (chars w) ++ [last]).
  { unfold cs. rewrite app_nil_l, (drop_S _ last (BUFFER_HEIGHT - 1)) by done. f_equal. f_equal. apply drop_ge.
    rewrite Hr. unfold BUFFER_HEIGHT. lia. }
  assert (Hl : cs !! (BUFFER_HEIGHT - 1)%nat = Some last).
  { rewrite Hcs. apply list_lookup_middle. rewrite length_drop, Hr. unfold BUFFER_HEIGHT. lia. }
  rewrite (bind_Ok _ _ _ _ _ (clear_row_Ok (with_chars w cs) (BUFFER_HEIGHT - 1) last Hl (Hc _ _ Hlast))).
  unfold modify, scrolled. simpl. do 3 f_equal. rewrite Hcs.
  rewrite insert_app_r_alt by (rewrite length_drop, Hr; unfold BUFFER_HEIGHT; lia).
  rewrite length_drop, Hr. done.
Qed.

(** The scrolling loop.  [new_line], which copies 24 rows of 80 characters one
    by one and blanks the last row, is exactly the removal of the first row; it
    never leaves the buffer. *)
Theorem new_line_scrolls (w : Writer) (Hw : Writer_wf w) :
  new_line w = Ok (tt, mkWriter 0 (color_code w)
    (drop 1 (chars w) ++ [replicate BUFFER_WIDTH (mkScreenChar 32 (color_code w))])).
Proof. by apply new_line_Ok. Qed.

Lemma scrolled_wf w : Writer_wf w -> Writer_wf (scrolled w).
Proof.
  intros [Hr Hc _]. split; cbn [chars col scrolled]; [|intros r line|unfold BUFFER_WIDTH; lia].
  - rewrite length_app, length_drop, Hr. cbn [length]. unfold BUFFER_HEIGHT. lia.
  - rewrite lookup_app_Some, lookup_drop. intros [Hl|[_ Hl]]; [by eapply Hc|].
    apply list_lookup_singleton_Some in Hl as [_ <-]. apply length_replicate.
Qed.

(** The character [b] at the cursor of the last row. *)
Definition put_char (b : Z) (w : Writer) : Writer :=
  let row := (BUFFER_HEIGHT - 1)%nat in
  mkWriter (S (col w)) (color_code w)
    (<[row := <[col w := mkScreenChar b (color_code w)]> (default [] (chars w !! row))]> (chars w)).

Lemma put_char_Ok b w : Writer_wf w -> (col w < BUFFER_WIDTH)%nat -> b <> 10 ->
  write_byte b w = Ok (tt, put_char b w) /\ Writer_wf (put_char b w).
Proof.
  intros [Hr Hc _] Hcol Hb. destruct (lookup_lt_is_Some_2 (chars w) (BUFFER_HEIGHT - 1)) as [last Hl].
  { rewrite Hr. unfold BUFFER_HEIGHT. lia. }
  split.
  - unfold write_byte, put_char. rewrite (proj2 (Z.eqb_neq _ _) Hb), bind_get.
    rewrite (proj2 (Nat.leb_gt _ _)) by done. rewrite bind_ret, bind_get.
    rewrite (bind_Ok _ _ _ _ _ (screen_write_Ok w _ _ _ last Hl ltac:(by rewrite (Hc _ _ Hl)))). by rewrite Hl.
  - split; unfold put_char; cbn [chars col]; [by rewrite length_insert| |lia].
    intros r line [(<- & <- & _)|[_ Hr']]%list_lookup_insert_Some; [|by eapply Hc].
    rewrite length_insert, Hl. by eapply Hc.
Qed.

Lemma write_byte_wf b w : Writer_wf w -> returns (write_byte b) w (fun _ w' => Writer_wf w').
Proof.
  intros Hw. destruct (Z.eq_dec b 10) as [->|Hb].
  { eapply returns_Ok; [by apply new_line_Ok|]. by apply scrolled_wf. }
  destruct (Nat.le_gt_cases BUFFER_WIDTH (col w)) as [Hc|Hc].
  - destruct (put_char_Ok b (scrolled w) (scrolled_wf w Hw) ltac:(cbn [col scrolled]; unfold BUFFER_WIDTH; lia) Hb) as [Hrun Hwf].
    eapply returns_Ok; [|exact Hwf]. rewrite <- Hrun. unfold write_byte.
    rewrite (proj2 (Z.eqb_neq _ _) Hb), !bind_get, (proj2 (Nat.leb_le _ _)) by done.
    by rewrite (bind_Ok _ _ _ _ _ (new_line_Ok w Hw)).
  - destruct (put_char_Ok b w Hw Hc Hb) as [Hrun Hwf]. by eapply returns_Ok.
Qed.

Lemma write_str_wf s w : Writer_wf w -> returns (writer_write_str s) w (fun _ w' => Writer_wf w').
Proof.
  intros Hw. unfold writer_write_str. eapply (returns_for_each (fun _ => Writer_wf)); [done|].
  intros b l w' Hw'. by apply write_byte_wf.
Qed.

(** The text [s] over the cells of [line] from column [c] on. *)
Definition overwrite (s : list Z) (color : Z) (c : nat) (line : list ScreenChar) : list ScreenChar :=
  take c line ++ ((fun b => mkScreenChar b color) <$> s) ++ drop (c + length s) line.

Lemma write_str_fits s w last :
  Writer_wf w -> (col w + length s <= BUFFER_WIDTH)%nat -> Forall (fun b => b <> 10) s ->
  chars w !! (BUFFER_HEIGHT - 1)%nat = Some last ->
  writer_write_str s w = Ok (tt, mkWriter (col w + length s) (color_code w)
    (<[(BUFFER_HEIGHT - 1)%nat := overwrite s (color_code w) (col w) last]> (chars w))).
Proof.
  revert w last. induction s as [|b s IH]; intros w last Hw Hfit Hs Hl.
  { unfold overwrite. simpl. rewrite Nat.add_0_r, take_drop, list_insert_id by done. by destruct w. }
  apply Forall_cons_1 in Hs as [Hb Hs]. simpl in Hfit.
  destruct (put_char_Ok b w Hw ltac:(lia) Hb) as [Hrun Hwf].
  change (writer_write_str (b :: s) w) with ((write_byte b ≫= fun _ => writer_write_str s) w).
  rewrite (bind_Ok _ _ _ _ _ Hrun).
  assert (Hlast : chars (put_char b w) !! (BUFFER_HEIGHT - 1)%nat
    = Some (<[col w := mkScreenChar b (color_code w)]> last)).
  { unfold put_char. cbn [chars]. rewrite Hl. apply list_lookup_insert_eq. by eapply lookup_lt_Some. }
  rewrite (IH _ _ Hwf ltac:(simpl; lia) Hs Hlast). unfold put_char. cbn [col color_code chars length].
  rewrite Hl, list_insert_insert_eq. do 3 f_equal; [lia|]. f_equal.
  pose proof (ww_cols _ Hw _ _ Hl) as Hlen. unfold overwrite. cbn [fmap list_fmap length].
  rewrite (take_S_r _ _ (mkScreenChar b (color_code w))) by (apply list_lookup_insert_eq; lia).
  rewrite take_insert_ge, drop_insert_lt, <- app_assoc by lia. simpl. do 3 f_equal. f_equal. lia.
Qed.

(** C36: the writer stays in the screen.  Whatever bytes are written, no access is
    out of the 25 by 80 buffer and the cursor stays within the row; text without
    a line feed that fits in the rest of the row is stored in the last row at the
    cursor, and nothing else changes. *)
Theorem vga_writer_in_bounds (w : Writer) (s : list Z) (Hw : Writer_wf w) :
  (exists w', writer_write_str s w = Ok (tt, w') /\ Writer_wf w') /\
  ((col w + length s <= BUFFER_WIDTH)%nat -> Forall (fun b => b <> 10) s ->
   exists last, chars w !! (BUFFER_HEIGHT - 1)%nat = Some last /\
     writer_write_str s w = Ok (tt, mkWriter (col w + length s) (color_code w)
       (<[(BUFFER_HEIGHT - 1)%nat := overwrite s (color_code w) (col w) last]> (chars w)))).
Proof.
  split.
  - destruct (write_str_wf s w Hw) as ([] & w' & ? & ?). eauto.
  - intros Hfit Hs. destruct (lookup_lt_is_Some_2 (chars w) (BUFFER_HEIGHT - 1)) as [last Hl].
    { rewrite (ww_rows _ Hw). unfold BUFFER_HEIGHT. lia. }
    exists last. split; [done|]. by apply write_str_fits.
Qed.

(** The screen after [init]. *)
Definition blank_writer : Writer :=
  mkWriter 0 0x7 (replicate BUFFER_HEIGHT (replicate BUFFER_WIDTH (mkScreenChar 32 0x7))).

Lemma blank_writer_wf : Writer_wf blank_writer.
Proof.
  split; [reflexivity| |simpl; unfold BUFFER_WIDTH; lia].
  intros r line Hr. apply lookup_replicate in Hr as [-> _]. apply length_replicate.
Qed.

Lemma new_line_scrolls_witness : new_line blank_writer = Ok (tt, blank_writer).
Proof. rewrite (new_line_scrolls blank_writer blank_writer_wf). reflexivity. Defined.

Lemma vga_writer_in_bounds_witness :
  exists w', writer_write_str (replicate 200 65) blank_writer = Ok (tt, w') /\ col w' = 40%nat.
Proof.
  destruct (proj1 (vga_writer_in_bounds blank_writer (replicate 200 65) blank_writer_wf)) as (w' & Hrun & _).
  exists w'. split; [exact Hrun|].
  assert (Hc : match writer_write_str (replicate 200 65) blank_writer with
               | Ok (_, w) => col w = 40%nat | Panicked _ => True end) by (vm_compute; reflexivity).
  rewrite Hrun in Hc. exact Hc.
Defined.

(** ** Log lines *)

Definition Console_wf (c : Console) : Prop := forall w, vga_writer c = Some w -> Writer_wf w.

(** What a line adds to the serial output; the screen stays well-formed, and is
    untouched when it is switched off. *)
Definition logged (c : Console) (bytes : list Z) (c' : Console) : Prop :=
  serial_out c' = serial_out c ++ bytes /\ Console_wf c' /\ VGA_ENABLED c' = VGA_ENABLED c /\
  (VGA_ENABLED c = false -> vga_writer c' = vga_writer c).

Lemma vga_str_logged s c : Console_wf c -> returns (vga_str s) c (fun _ c' => logged c [] c').
Proof.
  intros Hc. unfold vga_str. mstep_basic. destruct (VGA_ENABLED c) eqn:Ev; simpl.
  2: { mstep_basic. split; [by rewrite app_nil_r|]. by rewrite Ev. }
  destruct (vga_writer c) as [w|] eqn:Ew.
  2: { mstep_basic. split; [by rewrite app_nil_r|]. by rewrite Ev. }
  destruct (write_str_wf s w (Hc w Ew)) as ([] & w' & Hrun & Hw'). rewrite Hrun. mstep_basic. mstep_basic.
  split; [by rewrite app_nil_r|]. split; [by intros ? [= <-]|]. split; [done|]. by rewrite Ev.
Qed.

Lemma serial_str_logged s c : Console_wf c -> returns (serial_str s) c (fun _ c' => logged c s c').
Proof. intros Hc. unfold serial_str. mstep_basic. by split. Qed.

Lemma logged_trans c1 c2 c3 s1 s2 : logged c1 s1 c2 -> logged c2 s2 c3 -> logged c1 (s1 ++ s2) c3.
Proof.
  intros (E1 & W1 & V1 & U1) (E2 & W2 & V2 & U2). split; [by rewrite E2, E1, app_assoc|]. split; [done|].
  split; [by rewrite V2|]. intros Hv. rewrite U2, U1 by congruence. done.
Qed.

(** Running one part of a line after another. *)
Lemma logged_seq {X Y} (m : ST Console X) (f : X -> ST Console Y) c s1 s2 :
  returns m c (fun _ c' => logged c s1 c') ->
  (forall x c', Console_wf c' -> returns (f x) c' (fun _ c2 => logged c' s2 c2)) ->
  returns (m ≫= f) c (fun _ c' => logged c (s1 ++ s2) c').
Proof.
  intros Hm Hf. apply returns_bind. eapply returns_mono; [exact Hm|]. intros x c1 H1.
  eapply returns_mono; [apply Hf, H1|]. intros y c2 H2. exact (logged_trans _ _ _ _ _ H1 H2).
Qed.

(** A log line.  [info_kv] with a key and a 64-bit value returns; the serial
    line gets exactly the prefix, the key, " = ", the decimal value and CR LF;
    the screen stays within its bounds and is untouched when VGA output is
    switched off. *)
Theorem info_kv_line (c : Console) (key : list Z) (value : Z) (Hc : Console_wf c) (Hv : u64 value) (Hk : key <> []) :
  exists s c', u64_to_decimal value = Ok s /\ info_kv key value c = Ok (tt, c') /\
    logged c (INFO_PREFIX ++ key ++ KV_SEP ++ s ++ [13; 10]) c'.
Proof.
  destruct (u64_to_decimal_Ok value Hv) as [s Hs].
  assert (Hrun : returns (info_kv key value) c (fun _ c' => logged c ([] ++ [] ++ [] ++ [] ++ INFO_PREFIX ++ key ++ KV_SEP ++ s ++ [13; 10]) c')).
  { unfold info_kv. rewrite Hs. mstep_basic. destruct key as [|k key]; [done|].
    repeat (eapply logged_seq; [by apply vga_str_logged|intros _ ? ?]).
    repeat (eapply logged_seq; [by apply serial_str_logged|intros _ ? ?]).
    by apply serial_str_logged. }
  destruct Hrun as ([] & c' & Hrun & Hl). by exists s, c'.
Qed.

Lemma info_kv_line_witness :
  exists c', info_kv [116] 42 (mkConsole (Some blank_writer) true []) = Ok (tt, c') /\
    serial_out c' = [91; 73; 78; 70; 79; 93; 32; 116; 32; 61; 32; 52; 50; 13; 10].
Proof.
  destruct (info_kv_line (mkConsole (Some blank_writer) true []) [116] 42) as (s & c' & Hs & Hrun & Hser & _);
    [intros w [= <-]; exact blank_writer_wf|split; vm_compute; congruence|congruence|].
  exists c'. split; [exact Hrun|]. rewrite Hser. vm_compute in Hs. injection Hs as <-. reflexivity.
Defined.
