(* ===== verification/Serial.v ===== *)
(** * Ports, the serial driver and the panic handler (logging/serial.rs, panic.rs)

    Device code reads and writes I/O ports.  A program of port operations is a
    tree ([io]): it continues on every answer a device can give, so what is
    proved of a tree holds for every device.  A device is an instance of
    [Ports]; [Uart] lists what the driver relies on of a 16550 (COM1), and
    [UartState] is an instance.  The driver is shown to refine the list of
    bytes of Console.v, the panic handler to stop on every device. *)

From stdpp Require Import base list option strings.
From Stdlib Require Import ZArith Lia.
From S2P Require Import Prelude Console.
#[local] Open Scope Z_scope.

(** ** Programs of port operations *)

Inductive io (A : Type) :=
  | Ret (a : A)
  | In (port : Z) (k : Z -> io A)
  | Out (port v : Z) (k : io A)
  | Spinning.   (** a busy loop that has used up its fuel *)
Arguments Ret {A} a.
Arguments In {A} port k.
Arguments Out {A} port v k.
Arguments Spinning {A}.

Fixpoint io_bind {A B} (f : A -> io B) (m : io A) : io B :=
  match m with
  | Ret a => f a
  | In p k => In p (fun v => io_bind f (k v))
  | Out p v k => Out p v (io_bind f k)
  | Spinning => Spinning
  end.

#[export] Instance io_mret : MRet io := @Ret.
#[export] Instance io_mbind : MBind io := @io_bind.

Definition inb (port : Z) : io Z := In port Ret.
Definition outb (port v : Z) : io unit := Out port v (Ret tt).

Fixpoint io_for_each {A} (l : list A) (body : A -> io unit) : io unit :=
  match l with
  | [] => Ret tt
  | x :: l => body x ;; io_for_each l body
  end.

(** A device answers reads and takes writes. *)
Class Ports (D : Type) := {
  port_in : Z -> D -> Z * D;
  port_out : Z -> Z -> D -> D }.

(** [None]: the program is still in a busy loop. *)
Fixpoint exec {D} `{Ports D} {A} (m : io A) (d : D) : option (A * D) :=
  match m with
  | Ret a => Some (a, d)
  | In p k => let '(v, d') := port_in p d in exec (k v) d'
  | Out p v k => exec k (port_out p v d)
  | Spinning => None
  end.

(** ** COM1 (logging/serial.rs) *)

Definition COM1_DATA : Z := 0x3F8.
Definition COM1_INT_EN : Z := 0x3F8 + 1.
Definition COM1_FIFO_CTRL : Z := 0x3F8 + 2.
Definition COM1_LINE_CTRL : Z := 0x3F8 + 3.
Definition COM1_MODEM_CTRL : Z := 0x3F8 + 4.
Definition COM1_LINE_STATUS : Z := 0x3F8 + 5.
Definition DEBUGCON : Z := 0xE9.

(** [SERIAL_INITIALIZED.swap(true)] decides; the result is the new flag. *)
Definition serial_init (SERIAL_INITIALIZED : bool) : io bool :=
  if SERIAL_INITIALIZED then Ret true
  else
    outb COM1_INT_EN 0x00 ;;
    outb COM1_LINE_CTRL 0x80 ;;
    outb COM1_DATA 0x01 ;;
    outb COM1_INT_EN 0x00 ;;
    outb COM1_LINE_CTRL 0x03 ;;
    outb COM1_FIFO_CTRL 0xC7 ;;
    outb COM1_MODEM_CTRL 0x0B ;;
    Ret true.

(** [logging::init]: the screen, then the serial line. *)
Definition logging_init (screen : list (list ScreenChar)) (c : Console) (SERIAL_INITIALIZED : bool) : io (Console * bool) :=
  let c' := vga_init screen c in
  flag ← serial_init SERIAL_INITIALIZED;
  Ret (c', flag).

(** Bit 5 of the line status: the transmit buffer is empty. *)
Definition thr_empty (status : Z) : bool := negb (Z.land status 0x20 =? 0).

(** [while (line_status.read() & 0x20) == 0 {}]: nothing in the code bounds it. *)
Fixpoint wait_thr (fuel : nat) : io unit :=
  match fuel with
  | O => Spinning
  | S fuel => v ← inb COM1_LINE_STATUS; if thr_empty v then Ret tt else wait_thr fuel
  end.

Definition serial_write_byte (fuel : nat) (byte : Z) : io unit :=
  wait_thr fuel ;; outb COM1_DATA byte.
Definition serial_write_str (fuel : nat) (s : list Z) : io unit :=
  io_for_each s (serial_write_byte fuel).
Definition serial_write_line (fuel : nat) (s : list Z) : io unit :=
  serial_write_str fuel s ;; serial_write_str fuel [13; 10].
Definition serial_write_prefixed_line (fuel : nat) (prefix msg : list Z) : io unit :=
  serial_write_str fuel prefix ;; serial_write_line fuel msg.

(** ** Emergency output and the panic handler (panic.rs, interrupts.rs) *)

Definition EMERGENCY_POLLS : nat := N.to_nat 10000.

(** [for _ in 0..10_000 { if (lsr.read() & 0x20) != 0 { break; } }] *)
Fixpoint emergency_poll (n : nat) : io unit :=
  match n with
  | O => Ret tt
  | S n => v ← inb COM1_LINE_STATUS; if thr_empty v then Ret tt else emergency_poll n
  end.

Definition emergency_byte (b : Z) : io unit :=
  outb DEBUGCON b ;; emergency_poll EMERGENCY_POLLS ;; outb COM1_DATA b.
Definition emergency_str (s : list Z) : io unit := io_for_each s emergency_byte.

Definition emergency_hex_u64 (v : Z) : io unit :=
  emergency_str (bytes_of_string "0x") ;;
  io_for_each (rev (seq 0 16)) (fun i =>
    let n := Z.land (Z.shiftr v (Z.of_nat i * 4)) 0xF in
    emergency_byte (if n <? 10 then 48 + n else 97 + (n - 10))).

(** The flags the handler uses; it ends in [halt_loop]. *)
Record PanicState := mkPanicState { interrupts_on : bool; PANIC_IN_PROGRESS : bool }.

(** [location]: line and column of [info.location()]. *)
Definition panic_handler (location : option (Z * Z)) (s : PanicState) : io PanicState :=
  let s' := mkPanicState false true in
  if PANIC_IN_PROGRESS s then
    emergency_str (bytes_of_string "[PANIC] re-entered => halt" ++ [10]) ;; Ret s'
  else
    emergency_str (bytes_of_string "[PANIC] kernel panic" ++ [10]) ;;
    (match location with
     | Some (line, column) =>
         emergency_str (bytes_of_string "[PANIC] location line=") ;;
         emergency_hex_u64 line ;;
         emergency_str (bytes_of_string " col=") ;;
         emergency_hex_u64 column ;;
         emergency_str [10]
     | None => emergency_str (bytes_of_string "[PANIC] location unknown" ++ [10])
     end) ;;
    Ret s'.

(** ** Equations of the interpreter *)

Section Exec.
Context {D : Type} `{Ports D}.

Lemma exec_bind {A B} (m : io A) (f : A -> io B) d :
  exec (m ≫= f) d = match exec m d with Some (a, d') => exec (f a) d' | None => None end.
Proof.
  revert d. induction m as [a|p k IH|p v k IH|]; intros d; try done.
  - simpl. destruct (port_in p d) as [v d']. apply IH.
  - apply IH.
Qed.

Lemma exec_bind_Some {A B} (m : io A) (f : A -> io B) d a d' :
  exec m d = Some (a, d') -> exec (m ≫= f) d = exec (f a) d'.
Proof. rewrite exec_bind. by intros ->. Qed.

Lemma exec_app_for {A} (l1 l2 : list A) (body : A -> io unit) d :
  exec (io_for_each (l1 ++ l2) body) d = exec (io_for_each l1 body ;; io_for_each l2 body) d.
Proof.
  revert d. induction l1 as [|x l1 IH]; intros d; [done|]. simpl. rewrite !exec_bind.
  destruct (exec (body x) d) as [[[] d']|]; [|done]. by rewrite IH, exec_bind.
Qed.

(** Two writes of strings are one write of their concatenation. *)
Lemma exec_for_seq {A B} (l1 l2 : list A) (body : A -> io unit) (k : io B) d :
  exec (io_for_each l1 body ;; (io_for_each l2 body ;; k)) d = exec (io_for_each (l1 ++ l2) body ;; k) d.
Proof.
  rewrite !exec_bind, exec_app_for, exec_bind. destruct (exec (io_for_each l1 body) d) as [[[] d1]|]; [|done].
  by rewrite exec_bind.
Qed.
End Exec.

(** ** Traces

    A device that records every operation: the same programs then give the list
    of the operations they perform. *)

Inductive PortOp :=
  | OpIn (port v : Z)
  | OpOut (port v : Z).

Definition Traced (D : Type) : Type := D * list PortOp.

#[export] Instance Traced_Ports {D} `{Ports D} : Ports (Traced D) := {
  port_in p '(d, tr) := let '(v, d') := port_in p d in (v, (d', tr ++ [OpIn p v]));
  port_out p v '(d, tr) := (port_out p v d, tr ++ [OpOut p v]) }.

(** The bytes written to a port. *)
Definition written (port : Z) (tr : list PortOp) : list Z :=
  omap (fun o => match o with OpOut p v => if p =? port then Some v else None | OpIn _ _ => None end) tr.

Lemma written_app port tr1 tr2 : written port (tr1 ++ tr2) = written port tr1 ++ written port tr2.
Proof. unfold written. apply omap_app. Qed.

Definition EMERGENCY_PORTS : list Z := [DEBUGCON; COM1_LINE_STATUS; COM1_DATA].
Definition op_port (o : PortOp) : Z := match o with OpIn p _ | OpOut p _ => p end.

(** Operations one emergency byte can take: the debug port, the polls, the data port. *)
Definition BYTE_OPS : nat := S (S EMERGENCY_POLLS).

(** What an emergency write of [bs] may do on the ports. *)
Record emits (bs : list Z) (ops : list PortOp) : Prop := {
  em_debug : written DEBUGCON ops = bs;
  em_com1 : written COM1_DATA ops = bs;
  em_ports : Forall (fun o => op_port o ∈ EMERGENCY_PORTS) ops;
  em_bound : (length ops <= BYTE_OPS * length bs)%nat }.

Lemma emits_app bs1 bs2 ops1 ops2 : emits bs1 ops1 -> emits bs2 ops2 -> emits (bs1 ++ bs2) (ops1 ++ ops2).
Proof.
  intros [H1 H2 H3 H4] [H1' H2' H3' H4']. split.
  - by rewrite written_app, H1, H1'.
  - by rewrite written_app, H2, H2'.
  - by apply Forall_app.
  - rewrite !length_app. lia.
Qed.

Section Panic.
Context {D : Type} `{Ports D}.
Implicit Types (d : D) (tr : list PortOp).

Lemma emergency_poll_spec n d tr :
  exists d' ops, exec (emergency_poll n) ((d, tr) : Traced D) = Some (tt, (d', tr ++ ops)) /\
    Forall (fun o => op_port o = COM1_LINE_STATUS /\ exists v, o = OpIn COM1_LINE_STATUS v) ops /\ (length ops <= n)%nat.
Proof.
  revert d tr. induction n as [|n IH]; intros d tr.
  { exists d, []. by rewrite app_nil_r. }
  simpl. destruct (port_in COM1_LINE_STATUS d) as [v d1]. destruct (thr_empty v).
  { exists d1, [OpIn COM1_LINE_STATUS v]. split; [done|]. split; [repeat constructor; eauto|simpl; lia]. }
  destruct (IH d1 (tr ++ [OpIn COM1_LINE_STATUS v])) as (d' & ops & Hrun & Hops & Hlen).
  exists d', (OpIn COM1_LINE_STATUS v :: ops). rewrite Hrun, <- app_assoc. split; [done|].
  split; [constructor; eauto|simpl; lia].
Qed.

Lemma written_polls port ops :
  Forall (fun o => op_port o = COM1_LINE_STATUS /\ exists v, o = OpIn COM1_LINE_STATUS v) ops -> written port ops = [].
Proof. induction 1 as [|o ops [_ [v ->]] _ IH]; done. Qed.

Lemma emergency_byte_spec b d tr :
  exists d' ops, exec (emergency_byte b) ((d, tr) : Traced D) = Some (tt, (d', tr ++ ops)) /\ emits [b] ops.
Proof.
  unfold emergency_byte. generalize (eq_refl BYTE_OPS). unfold BYTE_OPS at 1. generalize EMERGENCY_POLLS as n. intros n Hn.
  destruct (emergency_poll_spec n (port_out DEBUGCON b d) (tr ++ [OpOut DEBUGCON b])) as (d' & ops & Hrun & Hops & Hlen).
  exists (port_out COM1_DATA b d'), (OpOut DEBUGCON b :: ops ++ [OpOut COM1_DATA b]). split.
  - rewrite (exec_bind_Some _ _ _ tt (port_out DEBUGCON b d, tr ++ [OpOut DEBUGCON b])) by done.
    rewrite (exec_bind_Some _ _ _ _ _ Hrun). simpl. do 2 f_equal. by rewrite <- !app_assoc.
  - split.
    + change (written DEBUGCON (?o :: ?l)) with (b :: written DEBUGCON l). by rewrite written_app, written_polls.
    + change (written COM1_DATA (?o :: ?l)) with (written COM1_DATA l). by rewrite written_app, written_polls.
    + constructor; [by repeat constructor|]. apply Forall_app. split; [|constructor; [by repeat constructor|constructor]].
      eapply Forall_impl; [exact Hops|]. intros o [-> _]. by repeat constructor.
    + cbn [length]. rewrite length_app. cbn [length]. lia.
Qed.

Lemma emergency_str_spec bs d tr :
  exists d' ops, exec (emergency_str bs) ((d, tr) : Traced D) = Some (tt, (d', tr ++ ops)) /\ emits bs ops.
Proof.
  unfold emergency_str. revert d tr. induction bs as [|b bs IH]; intros d tr.
  { exists d, []. rewrite app_nil_r. split; [done|]. split; try done; constructor. }
  destruct (emergency_byte_spec b d tr) as (d1 & ops1 & Hrun1 & He1).
  destruct (IH d1 (tr ++ ops1)) as (d2 & ops2 & Hrun2 & He2).
  exists d2, (ops1 ++ ops2). cbn [io_for_each]. rewrite (exec_bind_Some _ _ _ _ _ Hrun1), Hrun2, <- app_assoc.
  split; [done|]. by apply (emits_app [b]).
Qed.

(** The digits are those of [hex_u64]. *)
Lemma emergency_hex_u64_str {E} `{Ports E} v (e : E) : exec (emergency_hex_u64 v) e = exec (emergency_str (hex_u64 v)) e.
Proof.
  unfold emergency_hex_u64, emergency_str, hex_u64. rewrite exec_app_for, !exec_bind.
  destruct (exec _ e) as [[[] e1]|]; [|done]. clear. revert e1. generalize (rev (seq 0 16)) as l.
  induction l as [|i l IH]; intros e1; [done|]. cbn [io_for_each fmap list_fmap]. rewrite !exec_bind.
  unfold hex_digit, ascii_0, ascii_a. destruct (exec _ e1) as [[[] e2]|]; [apply IH|done].
Qed.

(** The text of the handler. *)
Definition panic_text (location : option (Z * Z)) (again : bool) : list Z :=
  if again then bytes_of_string "[PANIC] re-entered => halt" ++ [10]
  else
    bytes_of_string "[PANIC] kernel panic" ++ [10] ++
    match location with
    | Some (line, column) =>
        bytes_of_string "[PANIC] location line=" ++ hex_u64 line ++
        bytes_of_string " col=" ++ hex_u64 column ++ [10]
    | None => bytes_of_string "[PANIC] location unknown" ++ [10]
    end.

(** [m] returns [a] on every device and writes [bs]. *)
Definition runs_emitting {A} (m : io A) (bs : list Z) (a : A) : Prop :=
  forall d tr, exists d' ops, exec m ((d, tr) : Traced D) = Some (a, (d', tr ++ ops)) /\ emits bs ops.

Lemma runs_emitting_seq {A} (m : io unit) (k : io A) bs1 bs2 a :
  runs_emitting m bs1 tt -> runs_emitting k bs2 a -> runs_emitting (m ;; k) (bs1 ++ bs2) a.
Proof.
  intros Hm Hk d tr. destruct (Hm d tr) as (d1 & ops1 & Hrun1 & He1).
  destruct (Hk d1 (tr ++ ops1)) as (d2 & ops2 & Hrun2 & He2).
  exists d2, (ops1 ++ ops2). rewrite (exec_bind_Some _ _ _ _ _ Hrun1), Hrun2, <- app_assoc.
  split; [done|]. by apply emits_app.
Qed.

Lemma runs_emitting_ret {A} (a : A) : runs_emitting (Ret a) [] a.
Proof. intros d tr. exists d, []. rewrite app_nil_r. split; [done|]. split; try done; constructor. Qed.

Lemma runs_emitting_str bs : runs_emitting (emergency_str bs) bs tt.
Proof. intros d tr. apply emergency_str_spec. Qed.

Lemma runs_emitting_hex v : runs_emitting (emergency_hex_u64 v) (hex_u64 v) tt.
Proof. intros d tr. rewrite emergency_hex_u64_str. apply emergency_str_spec. Qed.

#[local] Hint Resolve runs_emitting_seq runs_emitting_ret runs_emitting_str runs_emitting_hex : core.

Lemma panic_handler_runs location s :
  runs_emitting (panic_handler location s) (panic_text location (PANIC_IN_PROGRESS s)) (mkPanicState false true).
Proof.
  unfold panic_handler, panic_text. destruct (PANIC_IN_PROGRESS s).
  - rewrite <- (app_nil_r (_ ++ [10])). auto.
  - rewrite app_assoc. apply runs_emitting_seq; [auto|].
    rewrite <- (app_nil_r (match location with Some _ => _ | None => _ end)).
    apply runs_emitting_seq; [|auto]. destruct location as [[line column]|]; auto 8.
Qed.

(** C24: the panic handler stops.  On every device, with whatever answers on the line
    status port, the handler reaches its halt loop: it never spins, it uses at
    most 10 002 port operations per byte and no port but the debug port and
    COM1, and the text (the location in hexadecimal, or the short text of a
    second panic) goes out completely and in order on both. *)
Theorem panic_handler_stops (location : option (Z * Z)) (s : PanicState) (d : D) :
  exists d' ops,
    exec (panic_handler location s) ((d, []) : Traced D) = Some (mkPanicState false true, (d', ops)) /\
    let text := panic_text location (PANIC_IN_PROGRESS s) in
    written DEBUGCON ops = text /\ written COM1_DATA ops = text /\
    Forall (fun o => op_port o ∈ EMERGENCY_PORTS) ops /\ (length ops <= BYTE_OPS * length text)%nat.
Proof.
  destruct (panic_handler_runs location s d []) as (d' & ops & Hrun & [H1 H2 H3 H4]).
  exists d', ops. by split_and!.
Qed.
End Panic.

(** ** A 16550 *)

(** What the driver relies on: the views of the device are the line control
    register, the divisor latch, the bytes the transmitter has taken and how many
    more status reads it takes until the transmit buffer is empty. *)
Class Uart (D : Type) `{Ports D} := {
  u_lcr : D -> Z;
  u_divisor : D -> Z * Z;
  u_sent : D -> list Z;
  u_wait : D -> nat;
  (** the rest of the device's configuration does not change *)
  u_status d : let '(v, d') := port_in COM1_LINE_STATUS d in
    Z.testbit v 5 = (u_wait d =? 0)%nat /\ u_wait d' = pred (u_wait d) /\
    u_lcr d' = u_lcr d /\ u_divisor d' = u_divisor d /\ u_sent d' = u_sent d;
  u_line_ctrl v d : let d' := port_out COM1_LINE_CTRL v d in
    u_lcr d' = v /\ u_divisor d' = u_divisor d /\ u_sent d' = u_sent d;
  (** with the divisor latch access bit set, ports 0 and 1 are the latch *)
  u_latch_low v d : Z.testbit (u_lcr d) 7 = true -> let d' := port_out COM1_DATA v d in
    u_lcr d' = u_lcr d /\ u_divisor d' = (v, (u_divisor d).2) /\ u_sent d' = u_sent d;
  u_latch_high v d : Z.testbit (u_lcr d) 7 = true -> let d' := port_out COM1_INT_EN v d in
    u_lcr d' = u_lcr d /\ u_divisor d' = ((u_divisor d).1, v) /\ u_sent d' = u_sent d;
  (** without it, port 0 is the transmit buffer *)
  u_data v d : Z.testbit (u_lcr d) 7 = false -> u_wait d = 0%nat -> let d' := port_out COM1_DATA v d in
    u_lcr d' = u_lcr d /\ u_divisor d' = u_divisor d /\ u_sent d' = u_sent d ++ [v];
  u_int_en v d : let d' := port_out COM1_INT_EN v d in u_lcr d' = u_lcr d /\ u_sent d' = u_sent d;
  u_config p v d : p = COM1_FIFO_CTRL \/ p = COM1_MODEM_CTRL -> let d' := port_out p v d in
    u_lcr d' = u_lcr d /\ u_divisor d' = u_divisor d /\ u_sent d' = u_sent d }.

(** ** The driver refines the byte list of Console.v *)

Lemma thr_empty_testbit v : thr_empty v = Z.testbit v 5.
Proof.
  unfold thr_empty. change 0x20 with (2 ^ 5). destruct (Z.testbit v 5) eqn:Hb.
  - apply negb_true_iff, Z.eqb_neq. intros E. apply (f_equal (fun z => Z.testbit z 5)) in E.
    by rewrite Z.land_spec, Hb, Z.pow2_bits_true, Z.bits_0 in E by lia.
  - apply negb_false_iff, Z.eqb_eq, Z.bits_inj_0. intros k. rewrite Z.land_spec.
    destruct (Z.eq_dec k 5) as [->|Hne]; [by rewrite Hb|]. by rewrite (Z.pow2_bits_false 5 k), andb_false_r by lia.
Qed.

Section Driver.
Context {D : Type} `{Uart D}.
Implicit Types (d : D).

(** With enough fuel the program returns, always with the same result. *)
Definition delivers (m : nat -> io unit) d (Q : D -> Prop) : Prop :=
  exists n d', (forall fuel, (n <= fuel)%nat -> exec (m fuel) d = Some (tt, d')) /\ Q d'.

Lemma delivers_seq (m1 m2 : nat -> io unit) d (R Q : D -> Prop) :
  delivers m1 d R -> (forall d', R d' -> delivers m2 d' Q) -> delivers (fun n => m1 n ;; m2 n) d Q.
Proof.
  intros (n1 & d1 & Hrun1 & HR) Hk. destruct (Hk _ HR) as (n2 & d2 & Hrun2 & HQ).
  exists (n1 + n2)%nat, d2. split; [|done]. intros fuel Hf.
  rewrite (exec_bind_Some _ _ _ _ _ (Hrun1 fuel ltac:(lia))). apply Hrun2. lia.
Qed.

(** The line is set to 8N1 at 115200 baud and [bs] has gone out. *)
Record line_ready (bs : list Z) d : Prop := {
  lr_lcr : u_lcr d = 0x03;
  lr_divisor : u_divisor d = (0x01, 0x00);
  lr_sent : u_sent d = bs }.

Lemma wait_thr_delivers bs d :
  line_ready bs d -> delivers wait_thr d (fun d' => line_ready bs d' /\ u_wait d' = 0%nat).
Proof.
  remember (u_wait d) as n eqn:Hn. revert d Hn. induction n as [|n IH]; intros d Hn [H1 H2 H3].
  all: pose proof (u_status d) as Hs; destruct (port_in COM1_LINE_STATUS d) as [v d1] eqn:Ein;
    destruct Hs as (Hb & Hw & E1 & E2 & E3); rewrite <- Hn in Hb, Hw; cbn [Nat.eqb Nat.pred] in Hb, Hw.
  - exists 1%nat, d1. split; [|by split; [split; congruence|]]. intros [|fuel] Hf; [lia|].
    simpl. by rewrite Ein, thr_empty_testbit, Hb.
  - destruct (IH d1) as (k & d2 & Hrun & HQ); [done|split; congruence|].
    exists (S k), d2. split; [|done]. intros [|fuel] Hf; [lia|].
    simpl. rewrite Ein, thr_empty_testbit, Hb. apply Hrun. lia.
Qed.

Lemma write_byte_delivers bs b d :
  line_ready bs d -> delivers (fun n => serial_write_byte n b) d (line_ready (bs ++ [b])).
Proof.
  intros Hd. eapply delivers_seq; [by apply wait_thr_delivers|]. intros d' [[H1 H2 H3] Hw].
  destruct (u_data b d') as (E1 & E2 & E3); [by rewrite H1|done|].
  exists 0%nat, (port_out COM1_DATA b d'). split; [done|]. split; congruence.
Qed.

Lemma write_str_delivers bs s d :
  line_ready bs d -> delivers (fun n => serial_write_str n s) d (line_ready (bs ++ s)).
Proof.
  revert bs d. induction s as [|b s IH]; intros bs d Hd.
  { exists 0%nat, d. rewrite app_nil_r. split; [done|done]. }
  apply (delivers_seq (fun n => serial_write_byte n b) (fun n => serial_write_str n s) d (line_ready (bs ++ [b])));
    [by apply write_byte_delivers|].
  intros d' Hd'. replace (bs ++ b :: s) with ((bs ++ [b]) ++ s) by by rewrite <- app_assoc. by apply IH.
Qed.

Lemma write_prefixed_delivers bs prefix msg d :
  line_ready bs d ->
  delivers (fun n => serial_write_prefixed_line n prefix msg) d (line_ready (bs ++ prefix ++ msg ++ [13; 10])).
Proof.
  intros Hd. eapply delivers_seq; [by apply write_str_delivers|]. intros d1 Hd1.
  eapply delivers_seq; [by apply write_str_delivers|]. intros d2 Hd2.
  rewrite !app_assoc. by apply write_str_delivers.
Qed.

Lemma init_delivers bs d : u_sent d = bs -> exists d', exec (serial_init false) d = Some (true, d') /\ line_ready bs d'.
Proof.
  intros Hs. eexists. split; [reflexivity|].
  set (d1 := port_out COM1_INT_EN 0x00 d). set (d2 := port_out COM1_LINE_CTRL 0x80 d1).
  set (d3 := port_out COM1_DATA 0x01 d2). set (d4 := port_out COM1_INT_EN 0x00 d3).
  set (d5 := port_out COM1_LINE_CTRL 0x03 d4). set (d6 := port_out COM1_FIFO_CTRL 0xC7 d5).
  destruct (u_int_en 0x00 d) as [L1 S1]. destruct (u_line_ctrl 0x80 d1) as (L2 & D2 & S2).
  fold d1 in L1, S1. cbv zeta in *. fold d2 in L2, D2, S2.
  destruct (u_latch_low 0x01 d2) as (L3 & D3 & S3); [by rewrite L2|]. cbv zeta in *. fold d3 in L3, D3, S3.
  destruct (u_latch_high 0x00 d3) as (L4 & D4 & S4); [by rewrite L3, L2|]. cbv zeta in *. fold d4 in L4, D4, S4.
  destruct (u_line_ctrl 0x03 d4) as (L5 & D5 & S5). cbv zeta in *. fold d5 in L5, D5, S5.
  destruct (u_config COM1_FIFO_CTRL 0xC7 d5) as (L6 & D6 & S6); [by left|]. fold d6 in L6, D6, S6.
  destruct (u_config COM1_MODEM_CTRL 0x0B d6) as (L7 & D7 & S7); [by right|].
  split; [congruence| |congruence]. rewrite D7, D6, D5, D4, D3. done.
Qed.

Lemma serial_prefixed_line_out prefix msg c :
  serial_prefixed_line prefix msg c = Ok (tt, {| c with serial_out := serial_out c ++ prefix ++ msg ++ [13; 10] |}).
Proof. unfold serial_prefixed_line, serial_line, serial_str. rewrite !bind_modify. unfold modify. simpl. by rewrite <- !app_assoc. Qed.

Lemma lines_deliver (lines : list (list Z * list Z)) c d :
  line_ready (serial_out c) d ->
  exists c', for_each lines (fun '(p, m) => serial_prefixed_line p m) c = Ok (tt, c') /\
    delivers (fun n => io_for_each lines (fun '(p, m) => serial_write_prefixed_line n p m)) d (line_ready (serial_out c')).
Proof.
  revert c d. induction lines as [|[p m] lines IH]; intros c d Hd.
  { exists c. split; [done|]. exists 0%nat, d. by split. }
  destruct (write_prefixed_delivers _ p m d Hd) as (n1 & d1 & Hrun1 & Hd1).
  destruct (IH {| c with serial_out := serial_out c ++ p ++ m ++ [13; 10] |} d1 Hd1) as (c' & Hc & n2 & d2 & Hrun2 & Hd2).
  exists c'. split; [by rewrite <- Hc; cbn [for_each]; rewrite (bind_Ok _ _ _ _ _ (serial_prefixed_line_out p m c))|].
  exists (n1 + n2)%nat, d2. split; [|done]. intros fuel Hf. cbn [io_for_each].
  rewrite (exec_bind_Some _ _ _ _ _ (Hrun1 fuel ltac:(lia))). apply Hrun2. lia.
Qed.

(** C25: the serial driver refines the byte list of the log.  On every 16550 that
    eventually empties its transmit buffer, and whatever its registers hold
    before, initialisation sets 8N1 and divisor 1 and then any sequence of log
    lines is written completely: the busy loops end, no byte is dropped or goes
    to the divisor latch, and the bytes on the line are those the log functions
    append to [serial_out], in that order. *)
Theorem serial_driver_refines (lines : list (list Z * list Z)) (c : Console) (d : D)
    (Hsent : u_sent d = serial_out c) :
  exists c' n d',
    for_each lines (fun '(p, m) => serial_prefixed_line p m) c = Ok (tt, c') /\
    (forall fuel, (n <= fuel)%nat ->
       exec (serial_init false ≫= fun _ => io_for_each lines (fun '(p, m) => serial_write_prefixed_line fuel p m)) d
       = Some (tt, d')) /\
    u_sent d' = serial_out c' /\ u_lcr d' = 0x03 /\ u_divisor d' = (0x01, 0x00).
Proof.
  destruct (init_delivers _ d Hsent) as (d0 & Hinit & Hd0).
  destruct (lines_deliver lines c d0 Hd0) as (c' & Hc & n & d' & Hrun & [H1 H2 H3]).
  exists c', n, d'. split; [done|]. split; [|done]. intros fuel Hf.
  rewrite (exec_bind_Some _ _ _ _ _ Hinit). by apply Hrun.
Qed.
End Driver.

(** ** An instance *)

(** After each byte the transmit buffer is full for [us_delay] status reads; a byte
    written meanwhile is lost. *)
Record UartState := mkUartState {
  us_lcr : Z; us_divisor : Z * Z; us_sent : list Z; us_wait : nat; us_delay : nat }.

#[export] Instance UartState_Ports : Ports UartState := {
  port_in p d :=
    if p =? COM1_LINE_STATUS then ((if (us_wait d =? 0)%nat then 0x60 else 0x00), {| d with us_wait := pred (us_wait d) |})
    else (0xFF, d);
  port_out p v d :=
    if p =? COM1_LINE_CTRL then {| d with us_lcr := v |}
    else if p =? COM1_DATA then
      if Z.testbit (us_lcr d) 7 then {| d with us_divisor := (v, (us_divisor d).2) |}
      else if (us_wait d =? 0)%nat then {| d with us_sent := us_sent d ++ [v]; us_wait := us_delay d |} else d
    else if p =? COM1_INT_EN then
      if Z.testbit (us_lcr d) 7 then {| d with us_divisor := ((us_divisor d).1, v) |} else d
    else d }.

#[export] Program Instance UartState_Uart : Uart UartState := {
  u_lcr := us_lcr; u_divisor := us_divisor; u_sent := us_sent; u_wait := us_wait }.
Next Obligation. intros d. simpl. by destruct (us_wait d). Qed.
Next Obligation. done. Qed.
Next Obligation. intros v d Hb. cbn -[Z.testbit]. by rewrite Hb. Qed.
Next Obligation. intros v d Hb. cbn -[Z.testbit]. by rewrite Hb. Qed.
Next Obligation. intros v d Hb Hw. cbn -[Z.testbit]. by rewrite Hb, Hw. Qed.
Next Obligation. intros v d. cbn -[Z.testbit]. by destruct (Z.testbit _ _). Qed.
Next Obligation. intros p v d [-> | ->]; done. Qed.

Lemma serial_driver_refines_witness :
  exists n d', (forall fuel, (n <= fuel)%nat ->
    exec (serial_init false ≫= fun _ => io_for_each [(INFO_PREFIX, [72; 105])]
            (fun '(p, m) => serial_write_prefixed_line fuel p m)) (mkUartState 0x80 (12, 0) [] 3 5) = Some (tt, d')) /\
    us_sent d' = INFO_PREFIX ++ [72; 105; 13; 10].
Proof.
  destruct (@serial_driver_refines UartState UartState_Ports UartState_Uart [(INFO_PREFIX, [72; 105])] (mkConsole None true []) (mkUartState 0x80 (12, 0) [] 3 5)
    eq_refl) as (c' & n & d' & Hc & Hrun & Hs & _).
  exists n, d'. split; [exact Hrun|]. vm_compute in Hc. injection Hc as <-. exact Hs.
Defined.

(** ** A transmitter that never empties its buffer *)

(** Why the emergency path counts its polls: on such a device the driver never
    returns, whatever the fuel, while the panic handler stops on every device. *)
Definition DeadUart : Type := unit.
#[export] Instance DeadUart_Ports : Ports DeadUart := { port_in _ d := (0, d); port_out _ _ d := d }.

Lemma dead_uart_spins fuel (b : Z) (d : DeadUart) : exec (serial_write_byte fuel b) d = None.
Proof.
  unfold serial_write_byte. rewrite exec_bind. assert (exec (wait_thr fuel) d = None) as ->; [|done].
  by induction fuel.
Qed.
