(* ===== verification/Trace.v ===== *)
(** * IPC traces (kernel/trace.rs)

    The lines the trace features print, and the hash they print in place of the
    identifiers. *)

From stdpp Require Import base list option strings.
From Stdlib Require Import ZArith Lia.
From S2P Require Import Prelude Console.
#[local] Open Scope Z_scope.

(** ** The traces *)

Inductive IpcSyscallKind := TraceRecv | TraceSend | TraceReply.
Inductive IpcPathEvent := SendFast | SendSlow | RecvFast | RecvSlow | ReplyDelivered | ReplyNoWaiter.

(** The feature ipc_trace_paths. *)
Definition trace_ipc_path (enabled : bool) (ev : IpcPathEvent) : ST Console unit :=
  if enabled then
    log_info (bytes_of_string
      match ev with
      | SendFast => "ipc_trace_paths send=fast"
      | SendSlow => "ipc_trace_paths send=slow"
      | RecvFast => "ipc_trace_paths recv=fast"
      | RecvSlow => "ipc_trace_paths recv=slow"
      | ReplyDelivered => "ipc_trace_paths reply=delivered"
      | ReplyNoWaiter => "ipc_trace_paths reply=no_waiter"
      end)
  else mret tt.

Definition FNV_OFFSET : Z := 0xcbf29ce484222325.
Definition FNV_PRIME : Z := 0x100000001b3.

Definition fnv_step (h b : Z) : Z := u64_wrapping_mul (Z.lxor h b) FNV_PRIME.
Definition stable_hash64_of_bytes (bytes : list Z) : Z := fold_left fnv_step bytes FNV_OFFSET.

(** The memory representation of a [u64] (and of a 64-bit [usize]). *)
Definition u64_bytes (v : Z) : list Z := (fun i => Z.land (Z.shiftr v (8 * Z.of_nat i)) 0xFF) <$> seq 0 8.

Definition trace_ipc_syscall (kind : IpcSyscallKind) (tid ep : Z) (msg : option Z) : ST Console unit :=
  log_info (bytes_of_string
    match kind with
    | TraceRecv => "ipc_trace kind=ipc_recv"
    | TraceSend => "ipc_trace kind=ipc_send"
    | TraceReply => "ipc_trace kind=ipc_reply"
    end) ;;
  info_kv (bytes_of_string "task_id_hash") (stable_hash64_of_bytes (u64_bytes tid)) ;;
  info_kv (bytes_of_string "ep_id_hash") (stable_hash64_of_bytes (u64_bytes ep)) ;;
  match msg with
  | Some m => info_kv (bytes_of_string "msg") m
  | None => mret tt
  end.

(** syscall.rs [trace_ipc]: the same lines with the identifiers themselves. *)
Definition trace_ipc (kind : IpcSyscallKind) (tid ep : Z) (msg : option Z) : ST Console unit :=
  log_info (bytes_of_string
    match kind with
    | TraceRecv => "ipc_trace kind=ipc_recv"
    | TraceSend => "ipc_trace kind=ipc_send"
    | TraceReply => "ipc_trace kind=ipc_reply"
    end) ;;
  info_kv (bytes_of_string "task_id") tid ;;
  info_kv (bytes_of_string "ep_id") ep ;;
  match msg with
  | Some m => info_kv (bytes_of_string "msg") m
  | None => mret tt
  end.

(** The feature ipc_trace_syscall. *)
Definition trace_ipc_syscall_recv (enabled : bool) (tid ep : Z) : ST Console unit :=
  if enabled then trace_ipc_syscall TraceRecv tid ep None else mret tt.
Definition trace_ipc_syscall_send (enabled : bool) (tid ep msg : Z) : ST Console unit :=
  if enabled then trace_ipc_syscall TraceSend tid ep (Some msg) else mret tt.
Definition trace_ipc_syscall_reply (enabled : bool) (tid ep msg : Z) : ST Console unit :=
  if enabled then trace_ipc_syscall TraceReply tid ep (Some msg) else mret tt.

(** ** The hash *)

(** The inverse of the prime modulo 2^64. *)
Definition FNV_INVERSE : Z := 0xce965057aff6957b.

Lemma fnv_mul_inj a b : u64 a -> u64 b -> u64_wrapping_mul a FNV_PRIME = u64_wrapping_mul b FNV_PRIME -> a = b.
Proof.
  unfold u64, u64_max, u64_wrapping_mul. intros Ha Hb E.
  assert (Hinv : forall x, 0 <= x < 2 ^ 64 -> ((x * FNV_PRIME) mod 2 ^ 64 * FNV_INVERSE) mod 2 ^ 64 = x).
  { intros x Hx. rewrite Z.mul_mod_idemp_l, <- Z.mul_assoc by lia.
    rewrite <- Z.mul_mod_idemp_r by lia. change ((FNV_PRIME * FNV_INVERSE) mod 2 ^ 64) with 1.
    rewrite Z.mul_1_r. by apply Z.mod_small. }
  rewrite <- (Hinv a), <- (Hinv b) by lia. by rewrite E.
Qed.

Definition byte (b : Z) : Prop := 0 <= b < 256.

Lemma lxor_u64 h b : u64 h -> byte b -> u64 (Z.lxor h b).
Proof.
  unfold u64, u64_max, byte. intros Hh Hb.
  assert (E : Z.lxor h b = Z.lxor h b mod 2 ^ 64).
  { apply Z.bits_inj'. intros i Hi. destruct (Z.lt_ge_cases i 64); [by rewrite Z.mod_pow2_bits_low|].
    rewrite (Z.mod_pow2_bits_high (Z.lxor h b)), Z.lxor_spec by lia.
    rewrite <- (Z.mod_small h (2 ^ 64)), <- (Z.mod_small b (2 ^ 64)) by lia.
    by rewrite !Z.mod_pow2_bits_high by lia. }
  pose proof (Z.mod_pos_bound (Z.lxor h b) (2 ^ 64) ltac:(lia)). lia.
Qed.

Lemma fnv_step_u64 h b : u64 (fnv_step h b).
Proof.
  unfold fnv_step, u64_wrapping_mul, u64, u64_max.
  pose proof (Z.mod_pos_bound (Z.lxor h b * FNV_PRIME) (2 ^ 64) ltac:(lia)). lia.
Qed.

(** A step loses neither the state nor the byte. *)
Lemma fnv_step_inj h h' b b' : u64 h -> u64 h' -> byte b -> byte b' ->
  fnv_step h b = fnv_step h' b' -> Z.lxor h b = Z.lxor h' b'.
Proof. intros Hh Hh' Hb Hb' E. apply fnv_mul_inj; [by apply lxor_u64|by apply lxor_u64|done]. Qed.

Lemma lxor_cancel_r h h' b : Z.lxor h b = Z.lxor h' b -> h = h'.
Proof.
  intros E. rewrite <- (Z.lxor_0_r h), <- (Z.lxor_0_r h'), <- (Z.lxor_nilpotent b), <- !Z.lxor_assoc. by rewrite E.
Qed.

Lemma fnv_suffix_inj suffix h h' : Forall byte suffix -> u64 h -> u64 h' ->
  fold_left fnv_step suffix h = fold_left fnv_step suffix h' -> h = h'.
Proof.
  intros Hs. revert h h'. induction Hs as [|b suffix Hb Hs IH]; intros h h' Hh Hh' E; [done|]. simpl in E.
  apply IH in E; [|apply fnv_step_u64..]. by eapply lxor_cancel_r, fnv_step_inj.
Qed.

Lemma fnv_fold_u64 bytes h : u64 h -> u64 (fold_left fnv_step bytes h).
Proof. revert h. induction bytes as [|b bytes IH]; intros h Hh; [done|]. apply IH, fnv_step_u64. Qed.

(** The hash of the traces.  Two values whose representations differ in a
    single byte never get the same hash, whatever the other bytes are; so the
    hashes of identifiers below 256, all there are, are distinct. *)
Theorem hash_separates_bytes (prefix suffix : list Z) (b b' : Z)
    (Hp : Forall byte prefix) (Hs : Forall byte suffix) (Hb : byte b) (Hb' : byte b') (Hne : b <> b') :
  u64 (stable_hash64_of_bytes (prefix ++ b :: suffix)) /\
  stable_hash64_of_bytes (prefix ++ b :: suffix) <> stable_hash64_of_bytes (prefix ++ b' :: suffix).
Proof.
  assert (H0 : u64 FNV_OFFSET) by (split; vm_compute; congruence).
  split; [by apply fnv_fold_u64|]. unfold stable_hash64_of_bytes. rewrite !fold_left_app. simpl.
  set (h := fold_left fnv_step prefix FNV_OFFSET). assert (Hh : u64 h) by by apply fnv_fold_u64.
  intros E%fnv_suffix_inj; [|done|apply fnv_step_u64..]. apply Hne.
  apply fnv_step_inj in E; try done. rewrite !(Z.lxor_comm h) in E. by apply lxor_cancel_r in E.
Qed.

Lemma hash_separates_bytes_witness :
  stable_hash64_of_bytes (u64_bytes 1) <> stable_hash64_of_bytes (u64_bytes 2).
Proof.
  refine (proj2 (hash_separates_bytes [] [0; 0; 0; 0; 0; 0; 0] 1 2 _ _ _ _ _)); try done.
  repeat constructor; unfold byte; lia.
Defined.
