(* ===== verification/KState.v ===== *)
(** * The kernel state (kernel/mod.rs, [struct KernelState])

    The state record, the monad its methods run in, and the event log. *)

From stdpp Require Import base list option strings.
From Stdlib Require Import ZArith Lia.
From S2P Require Import Prelude Addr AddressSpace FrameAlloc Queues KTypes Endpoint EventLog.

Record KernelState := mkKernelState {
  phys_mem : PhysicalMemoryManager;

  tick_count : Z;
  time_ticks : Z;
  should_halt : bool;
  activity : KernelActivity;

  address_spaces : list AddressSpace;

  tasks : list Task;
  num_tasks : nat;
  current_task : nat;

  ready_queue : list nat;
  rq_len : nat;

  wait_queue : list nat;
  wq_len : nat;

  event_log : list (option LogEvent);
  event_log_head : nat;
  event_log_len : nat;

  quantum : Z;

  mem_demo_mapped : list bool;
  mem_demo_stage : list Z;
  mem_demo_frame : list (option PhysFrame);

  endpoints : list Endpoint;

  demo_msgs_delivered : Z;
  demo_replies_sent : Z;
  demo_sent_by_task2 : bool;
  demo_sent_by_task1 : bool;
  demo_early_sent_by_task0 : bool;

  counters : KernelCounters;
  halt_dumped_no_user_tasks : bool }.

(** Methods on the kernel state alone. *)
Abbreviation K := (ST KernelState).

(** ** Access to the arrays of the state; an index out of range panics *)

Definition task_at (i : nat) : K Task := s ← get; at_index (tasks s) i.
Definition set_task (i : nat) (t : Task) : K unit :=
  s ← get; l ← lift_res (write_at (tasks s) i t); put {| s with tasks := l |}.
(** [self.tasks[i].field = ...] *)
Definition upd_task (i : nat) (f : Task -> Task) : K unit :=
  t ← task_at i; set_task i (f t).

Definition endpoint_at (i : nat) : K Endpoint := s ← get; at_index (endpoints s) i.
Definition set_endpoint (i : nat) (e : Endpoint) : K unit :=
  s ← get; l ← lift_res (write_at (endpoints s) i e); put {| s with endpoints := l |}.
(** A call of an [&mut self] method of the endpoint. *)
Definition with_endpoint {A} (i : nat) (f : Endpoint -> res (A * Endpoint)) : K A :=
  e ← endpoint_at i; '(a, e') ← lift_res (f e); set_endpoint i e' ;; mret a.

Definition address_space_at (i : nat) : K AddressSpace := s ← get; at_index (address_spaces s) i.
Definition set_address_space (i : nat) (a : AddressSpace) : K unit :=
  s ← get; l ← lift_res (write_at (address_spaces s) i a); put {| s with address_spaces := l |}.

Definition set_mem_demo_stage (i : nat) (v : Z) : K unit :=
  s ← get; l ← lift_res (write_at (mem_demo_stage s) i v); put {| s with mem_demo_stage := l |}.
Definition set_mem_demo_mapped (i : nat) (v : bool) : K unit :=
  s ← get; l ← lift_res (write_at (mem_demo_mapped s) i v); put {| s with mem_demo_mapped := l |}.
Definition set_mem_demo_frame (i : nat) (v : option PhysFrame) : K unit :=
  s ← get; l ← lift_res (write_at (mem_demo_frame s) i v); put {| s with mem_demo_frame := l |}.

(** [self.counters.c += 1] *)
Definition bump (get_c : KernelCounters -> Z) (set_c : KernelCounters -> Z -> KernelCounters) :
    K unit :=
  s ← get;
  v ← lift_res (u64_add (get_c (counters s)) 1);
  put {| s with counters := set_c (counters s) v |}.

(** ** The event log *)

Definition log_ring (s : KernelState) : Ring LogEvent :=
  mkRing (event_log s) (event_log_head s) (event_log_len s).

Definition push_event_fn (ev : LogEvent) (s : KernelState) : KernelState :=
  let r := ring_push EVENT_LOG_CAP ev (log_ring s) in
  {| s with event_log := ring_log r; event_log_head := ring_head r;
            event_log_len := ring_len r |}.

Definition push_event (ev : LogEvent) : K unit := modify (push_event_fn ev).

(** The events [dump_events] prints. *)
Definition dumped_events (s : KernelState) : list LogEvent :=
  ring_events EVENT_LOG_CAP (log_ring s).

(** ** System-call return values *)

Definition set_last_syscall_ret_for_current (ret : Z) : K unit :=
  s ← get;
  let idx := current_task s in
  if num_tasks s <=? idx then mret tt
  else
    t ← task_at idx;
    if decide (t_state t = Dead) then mret tt
    else
      upd_task idx (fun t => {| t with t_last_syscall_ret := Some ret;
                                       t_last_syscall_ret_unread := true |}).

Definition take_unread_last_syscall_ret (idx : nat) : K (option Z) :=
  s ← get;
  if num_tasks s <=? idx then mret None
  else
    t ← task_at idx;
    if decide (t_state t = Dead) then mret None
    else if negb (t_last_syscall_ret_unread t) then mret None
    else
      set_task idx {| t with t_last_syscall_ret_unread := false; t_last_syscall_ret := None |} ;;
      mret (t_last_syscall_ret t).

(** ** Symbolic execution *)

Lemma task_at_Ok i t s : tasks s !! i = Some t -> task_at i s = Ok (t, s).
Proof. intros H. unfold task_at. rewrite bind_get. by apply at_index_Ok. Qed.

Lemma set_task_Ok i t s :
  i < length (tasks s) -> set_task i t s = Ok (tt, {| s with tasks := <[i := t]> (tasks s) |}).
Proof.
  intros H. unfold set_task. rewrite bind_get, write_at_Ok by done. done.
Qed.

Lemma upd_task_Ok i f t s :
  tasks s !! i = Some t ->
  upd_task i f s = Ok (tt, {| s with tasks := <[i := f t]> (tasks s) |}).
Proof.
  intros H. unfold upd_task. rewrite (bind_Ok _ _ _ _ _ (task_at_Ok _ _ _ H)).
  apply set_task_Ok. by eapply lookup_lt_Some.
Qed.

Lemma endpoint_at_Ok i e s : endpoints s !! i = Some e -> endpoint_at i s = Ok (e, s).
Proof. intros H. unfold endpoint_at. rewrite bind_get. by apply at_index_Ok. Qed.

Lemma set_endpoint_Ok i e s :
  i < length (endpoints s) ->
  set_endpoint i e s = Ok (tt, {| s with endpoints := <[i := e]> (endpoints s) |}).
Proof. intros H. unfold set_endpoint. rewrite bind_get, write_at_Ok by done. done. Qed.

Lemma with_endpoint_Ok {A} i (f : Endpoint -> res (A * Endpoint)) e a e' s :
  endpoints s !! i = Some e -> f e = Ok (a, e') ->
  with_endpoint i f s = Ok (a, {| s with endpoints := <[i := e']> (endpoints s) |}).
Proof.
  intros He Hf. unfold with_endpoint. rewrite (bind_Ok _ _ _ _ _ (endpoint_at_Ok _ _ _ He)).
  rewrite Hf. etransitivity; [apply bind_lift_Ok|].
  rewrite (bind_Ok _ _ _ _ _ (set_endpoint_Ok i e' s ltac:(by eapply lookup_lt_Some))). done.
Qed.

Lemma address_space_at_Ok i a s :
  address_spaces s !! i = Some a -> address_space_at i s = Ok (a, s).
Proof. intros H. unfold address_space_at. rewrite bind_get. by apply at_index_Ok. Qed.

Lemma set_address_space_Ok i a s :
  i < length (address_spaces s) ->
  set_address_space i a s = Ok (tt, {| s with address_spaces := <[i := a]> (address_spaces s) |}).
Proof. intros H. unfold set_address_space. rewrite bind_get, write_at_Ok by done. done. Qed.

(** Projections of an updated state. *)
Ltac ksimpl :=
  cbn [phys_mem tick_count time_ticks should_halt activity address_spaces tasks num_tasks
       current_task ready_queue rq_len wait_queue wq_len event_log event_log_head event_log_len
       quantum mem_demo_mapped mem_demo_stage mem_demo_frame endpoints demo_msgs_delivered
       demo_replies_sent demo_sent_by_task2 demo_sent_by_task1 demo_early_sent_by_task0 counters
       halt_dumped_no_user_tasks push_event_fn
       t_id t_state t_priority t_runtime_ticks t_time_slice_used t_address_space_id
       t_blocked_reason t_last_msg t_last_reply t_last_syscall_ret t_last_syscall_ret_unread
       t_pending_send_msg t_pending_syscall
       ep_id ep_owner is_closed recv_waiter send_queue sq_len reply_queue ep_rq_len
       as_kind as_root_page_frame as_mappings].

(** Pushing an event changes the three fields of the log only. *)
Lemma push_event_ret ev s :
  exists l h n, push_event_fn ev s
    = {| s with event_log := l; event_log_head := h; event_log_len := n |}.
Proof. unfold push_event_fn. eauto. Qed.

(** One step of symbolic execution of a method of the kernel state; array
    accesses are discharged by a hypothesis on the lookup. *)
Ltac kstep :=
  first
  [ mstep_basic
  | match goal with
    | |- returns (task_at _ ≫= _) _ _ =>
        eapply returns_step; [apply task_at_Ok; ksimpl; eassumption|]
    | |- returns (upd_task _ _ ≫= _) _ _ =>
        eapply returns_step; [apply upd_task_Ok; ksimpl; eassumption|]
    | |- returns (upd_task _ _) _ _ =>
        eapply returns_Ok; [apply upd_task_Ok; ksimpl; eassumption|]
    | |- returns (endpoint_at _ ≫= _) _ _ =>
        eapply returns_step; [apply endpoint_at_Ok; ksimpl; eassumption|]
    | |- returns (address_space_at _ ≫= _) _ _ =>
        eapply returns_step; [apply address_space_at_Ok; ksimpl; eassumption|]
    | |- returns (task_at _) _ _ =>
        eapply returns_Ok; [apply task_at_Ok; ksimpl; eassumption|]
    | |- returns (endpoint_at _) _ _ =>
        eapply returns_Ok; [apply endpoint_at_Ok; ksimpl; eassumption|]
    | |- returns (address_space_at _) _ _ =>
        eapply returns_Ok; [apply address_space_at_Ok; ksimpl; eassumption|]
    | |- returns (push_event ?ev ≫= _) ?s _ =>
        destruct (push_event_ret ev s) as (? & ? & ? & ?Hpush);
        eapply returns_step; [unfold push_event, modify; rewrite Hpush; reflexivity|];
        clear Hpush
    | |- returns (push_event ?ev) ?s _ =>
        destruct (push_event_ret ev s) as (? & ? & ? & ?Hpush);
        eapply returns_Ok; [unfold push_event, modify; rewrite Hpush; reflexivity|];
        clear Hpush
    end ]; cbv beta iota; ksimpl.

(** ** Properties *)

Lemma log_ring_push ev s : log_ring (push_event_fn ev s) = ring_push EVENT_LOG_CAP ev (log_ring s).
Proof. unfold log_ring, push_event_fn. simpl. by destruct (ring_push _ _ _). Qed.

Definition push_events (evs : list LogEvent) (s : KernelState) : KernelState :=
  fold_left (fun s ev => push_event_fn ev s) evs s.

Lemma log_ring_push_events evs s :
  log_ring (push_events evs s)
    = fold_left (fun r e => ring_push EVENT_LOG_CAP e r) evs (log_ring s).
Proof.
  revert s. induction evs as [|e evs IH]; intros s; [done|]. simpl.
  unfold push_events in *. simpl. by rewrite IH, log_ring_push.
Qed.

(** C35: the event log is a faithful window.  From a well-formed log, whatever
    sequence of events is pushed, the dump prints exactly the most recent
    [EVENT_LOG_CAP] of all events pushed so far, oldest first, and the log
    stays well-formed; in particular no push writes outside the buffer and
    nothing is lost or reordered before the buffer is full. *)
Theorem event_log_keeps_latest (evs : list LogEvent) (s : KernelState)
    (Hwf : ring_wf EVENT_LOG_CAP (log_ring s)) :
  let all := dumped_events s ++ evs in
  dumped_events (push_events evs s) = drop (length all - EVENT_LOG_CAP) all /\
  ring_wf EVENT_LOG_CAP (log_ring (push_events evs s)).
Proof.
  unfold dumped_events. rewrite log_ring_push_events.
  destruct (ring_push_all_spec EVENT_LOG_CAP evs (log_ring s) Hwf). done.
Qed.
