(* ===== verification/Dump.v ===== *)
(** * The final dump ([KernelState::dump_events] and [log_event_to_vga])

    Everything the kernel prints when it stops, as the lines it hands to the
    logger: the event log, the tasks, the address spaces, the endpoints and the
    counters.  A reader of the event section is given next to the printer. *)

From stdpp Require Import base list option strings.
From Stdlib Require Import ZArith Lia.
From S2P Require Import Prelude Addr AddressSpace Queues KTypes Endpoint EventLog KState Console.
#[local] Open Scope Z_scope.

(** [logging::info], [logging::info_u64] and [logging::error]. *)
Inductive Line := Info (msg : string) | InfoU64 (label : string) (value : Z) | ErrorLine (msg : string).
#[export] Instance Line_eq_dec : EqDecision Line.
Proof. solve_decision. Defined.

(** The lines printed so far. *)
Abbreviation Out := (ST (list Line)).
Definition emit (ls : list Line) : Out unit := modify (fun out => out ++ ls).

Definition print_line (l : Line) : ST Console unit :=
  match l with
  | Info msg => log_info (bytes_of_string msg)
  | InfoU64 label v => info_kv (bytes_of_string label) v
  | ErrorLine msg => log_error (bytes_of_string msg)
  end.

(** ** Events *)

Definition state_line (prefix : string) (st : TaskState) : Line :=
  Info (prefix ++ match st with Ready => "READY" | Running => "RUNNING" | Blocked => "BLOCKED" | Dead => "DEAD" end)%string.

Definition mem_action_lines (action : MemAction) : list Line :=
  match action with
  | Map page frame flags =>
      [Info "mem_action = Map"; InfoU64 "virt_page_index" (page_number page);
       InfoU64 "phys_frame_index" (frame_number frame); InfoU64 "flags_bits" (bits flags)]
  | Unmap page => [Info "mem_action = Unmap"; InfoU64 "virt_page_index" (page_number page)]
  end.

Definition kill_reason_lines (reason : TaskKillReason) : list Line :=
  match reason with
  | UserPageFault addr err rip =>
      [Info "reason = UserPageFault"; InfoU64 "addr" addr; InfoU64 "err" err; InfoU64 "rip" rip]
  | DemoInjected code => [Info "reason = DemoInjected"; InfoU64 "code" code]
  end.

(** What [kill_task] prints. *)
Definition log_task_killed (dead_id : TaskId) (reason : TaskKillReason) : ST Console unit :=
  log_error (bytes_of_string "TASK KILLED") ;;
  info_kv (bytes_of_string "task_id") dead_id ;;
  match reason with
  | UserPageFault addr err rip =>
      log_info (bytes_of_string "reason = UserPageFault") ;;
      info_kv (bytes_of_string "addr") addr ;;
      info_kv (bytes_of_string "err") err ;;
      info_kv (bytes_of_string "rip") rip
  | DemoInjected code =>
      log_info (bytes_of_string "reason = DemoInjected") ;;
      info_kv (bytes_of_string "demo_code") code
  end.

Definition task_kv (task : TaskId) : Line := InfoU64 "task" task.
Definition ep_kv (ep : EndpointId) : Line := InfoU64 "ep" (Z.of_nat ep).

Definition log_event_to_vga (ev : LogEvent) : list Line :=
  match ev with
  | TickStarted n => [Info "EVENT: TickStarted"; InfoU64 "tick" n]
  | TimerUpdated n => [Info "EVENT: TimerUpdated"; InfoU64 "time" n]
  | FrameAllocated => [Info "EVENT: FrameAllocated"]
  | TaskSwitched tid => [Info "EVENT: TaskSwitched"; task_kv tid]
  | TaskStateChanged tid st => [Info "EVENT: TaskStateChanged"; task_kv tid; state_line "to " st]
  | ReadyQueued tid => [Info "EVENT: ReadyQueued"; task_kv tid]
  | ReadyDequeued tid => [Info "EVENT: ReadyDequeued"; task_kv tid]
  | WaitQueued tid => [Info "EVENT: WaitQueued"; task_kv tid]
  | WaitDequeued tid => [Info "EVENT: WaitDequeued"; task_kv tid]
  | RuntimeUpdated tid rt => [Info "EVENT: RuntimeUpdated"; task_kv tid; InfoU64 "runtime" rt]
  | QuantumExpired tid used => [Info "EVENT: QuantumExpired"; task_kv tid; InfoU64 "used_ticks" used]
  | MemActionApplied task asid action =>
      [Info "EVENT: MemActionApplied"; task_kv task; InfoU64 "address_space_id" (Z.of_nat asid)] ++ mem_action_lines action
  | SyscallIssued task => [Info "EVENT: SyscallIssued"; task_kv task]
  | SyscallHandled task => [Info "EVENT: SyscallHandled"; task_kv task]
  | IpcRecvCalled task ep => [Info "EVENT: IpcRecvCalled"; task_kv task; ep_kv ep]
  | IpcRecvBlocked task ep => [Info "EVENT: IpcRecvBlocked"; task_kv task; ep_kv ep]
  | IpcSendCalled task ep msg => [Info "EVENT: IpcSendCalled"; task_kv task; ep_kv ep; InfoU64 "msg" msg]
  | IpcSendBlocked task ep => [Info "EVENT: IpcSendBlocked"; task_kv task; ep_kv ep]
  | IpcDelivered from to ep msg =>
      [Info "EVENT: IpcDelivered"; InfoU64 "from" from; InfoU64 "to" to; ep_kv ep; InfoU64 "msg" msg]
  | IpcReplyCalled task ep to => [Info "EVENT: IpcReplyCalled"; task_kv task; ep_kv ep; InfoU64 "to" to]
  | IpcReplyDelivered from to ep => [Info "EVENT: IpcReplyDelivered"; InfoU64 "from" from; InfoU64 "to" to; ep_kv ep]
  | TaskKilled task reason => [Info "EVENT: TaskKilled"; task_kv task] ++ kill_reason_lines reason
  end.

(** ** Tasks, address spaces, endpoints, counters *)

Definition option_lines (name value_name : string) (v : option Z) : list Line :=
  match v with
  | Some v => [Info (name ++ " = Some"); InfoU64 value_name v]
  | None => [Info (name ++ " = None")]
  end%string.

Definition blocked_reason_lines (r : option BlockedReason) : list Line :=
  match r with
  | None => [Info "blocked_reason = None"]
  | Some Sleep => [Info "blocked_reason = Sleep"]
  | Some (IpcRecv ep) => [Info "blocked_reason = IpcRecv"; InfoU64 "blocked_ep" (Z.of_nat ep)]
  | Some (IpcSend ep) => [Info "blocked_reason = IpcSend"; InfoU64 "blocked_ep" (Z.of_nat ep)]
  | Some (IpcReply partner ep) =>
      [Info "blocked_reason = IpcReply"; InfoU64 "blocked_ep" (Z.of_nat ep); InfoU64 "blocked_partner_task_id" partner]
  end.

Definition task_lines (i : nat) (t : Task) : list Line :=
  [Info "TASK:"; InfoU64 "task_index" (Z.of_nat i); InfoU64 "task_id" (t_id t);
   Info match t_state t with
        | Ready => "state = Ready" | Running => "state = Running"
        | Blocked => "state = Blocked" | Dead => "state = Dead"
        end;
   InfoU64 "address_space_id" (Z.of_nat (t_address_space_id t))] ++
  blocked_reason_lines (t_blocked_reason t) ++
  [Info match t_pending_syscall t with Some _ => "pending_syscall = Some" | None => "pending_syscall = None" end] ++
  option_lines "pending_send_msg" "pending_send_msg_value" (t_pending_send_msg t) ++
  option_lines "last_msg" "last_msg_value" (t_last_msg t) ++
  option_lines "last_reply" "last_reply_value" (t_last_reply t) ++
  option_lines "last_syscall_ret" "last_syscall_ret_value" (t_last_syscall_ret t).

Definition mapping_lines (m : Mapping) : list Line :=
  [Info "MAPPING:"; InfoU64 "virt_page_index" (page_number (m_page m));
   InfoU64 "phys_frame_index" (frame_number (m_frame m)); InfoU64 "flags_bits" (bits (m_flags m))].

Definition address_space_lines (i : nat) (t : Task) (a : AddressSpace) : list Line :=
  [Info match as_kind a with Kernel => "kind = Kernel" | User => "kind = User" end;
   match as_root_page_frame a with
   | Some root => InfoU64 "root_page_frame_index" (frame_number root)
   | None => Info "root_page_frame_index = None"
   end;
   InfoU64 "address_space_id" (Z.of_nat (t_address_space_id t));
   InfoU64 "mapping_count" (Z.of_nat (AddressSpace_mapping_count a))] ++
  (AddressSpace_mappings a ≫= mapping_lines) ++
  match t_last_msg t with
  | Some m => [Info "IPC:"; InfoU64 "last_msg" m]
  | None => []
  end.

Section dump.
Context (s : KernelState).

Definition dump_task (i : nat) : Out unit :=
  t ← at_index (tasks s) i;
  emit (task_lines i t).

Definition dump_address_space (i : nat) : Out unit :=
  t ← at_index (tasks s) i;
  emit [Info "Task AddressSpace:"; InfoU64 "task_index" (Z.of_nat i); InfoU64 "task_id" (t_id t)] ;;
  a ← at_index (address_spaces s) (t_address_space_id t);
  emit (address_space_lines i t a).

(** The index of a task, and its id if there is such a task. *)
Definition dump_task_ref (index_label id_label : string) (tidx : nat) : Out unit :=
  emit [InfoU64 index_label (Z.of_nat tidx)] ;;
  if (tidx <? num_tasks s)%nat then
    t ← at_index (tasks s) tidx;
    emit [InfoU64 id_label (t_id t)]
  else mret tt.

Definition dump_endpoint (ep : Endpoint) : Out unit :=
  emit [Info "ENDPOINT:"; InfoU64 "ep_id" (Z.of_nat (ep_id ep))] ;;
  match recv_waiter ep with
  | Some tidx => dump_task_ref "recv_waiter_task_index" "recv_waiter_task_id" tidx
  | None => emit [Info "recv_waiter_task_index = None"]
  end ;;
  emit [InfoU64 "send_queue_len" (Z.of_nat (sq_len ep))] ;;
  for_each (seq 0 (sq_len ep)) (fun pos =>
    tidx ← at_index (send_queue ep) pos;
    dump_task_ref "send_queue_task_index" "send_queue_task_id" tidx) ;;
  emit [InfoU64 "reply_queue_len" (Z.of_nat (ep_rq_len ep))] ;;
  for_each (seq 0 (ep_rq_len ep)) (fun pos =>
    tidx ← at_index (reply_queue ep) pos;
    dump_task_ref "reply_queue_task_index" "reply_queue_task_id" tidx).

Definition counter_lines : list Line :=
  let c := counters s in
  [InfoU64 "sched_switches" (sched_switches c);
   InfoU64 "ipc_send_fast" (ipc_send_fast c); InfoU64 "ipc_send_slow" (ipc_send_slow c);
   InfoU64 "ipc_recv_fast" (ipc_recv_fast c); InfoU64 "ipc_recv_slow" (ipc_recv_slow c);
   InfoU64 "ipc_reply_delivered" (ipc_reply_delivered c);
   InfoU64 "task_killed_user_pf" (task_killed_user_pf c);
   InfoU64 "task_killed_demo_injected" (task_killed_demo_injected c)].

Definition DUMP_START : string := "=== KernelState Event Log Dump ===".
Definition DUMP_END : string := "=== End of Event Log ===".

Definition dump_events : Out unit :=
  emit [Info DUMP_START] ;;
  for_each (dumped_events s) (fun ev => emit (log_event_to_vga ev)) ;;
  emit [Info DUMP_END] ;;
  emit [Info "=== Task Dump ==="] ;;
  for_each (seq 0 (num_tasks s)) dump_task ;;
  emit [Info "=== End of Task Dump ==="] ;;
  emit [Info "=== AddressSpace Dump (per task) ==="] ;;
  for_each (seq 0 (num_tasks s)) dump_address_space ;;
  emit [Info "=== End of AddressSpace Dump ==="] ;;
  emit [Info "=== Endpoint Dump ==="] ;;
  for_each (endpoints s) dump_endpoint ;;
  emit [Info "=== End of Endpoint Dump ==="] ;;
  emit [Info "=== Counters Dump ==="] ;;
  emit counter_lines ;;
  emit [Info "=== End of Counters Dump ==="].

End dump.

(** ** Reading the event section back *)

Definition read_text (ls : list Line) : option (string * list Line) :=
  match ls with
  | Info msg :: rest => Some (msg, rest)
  | _ => None
  end.
Definition read_u64 (label : string) (ls : list Line) : option (Z * list Line) :=
  match ls with
  | InfoU64 l v :: rest => if String.eqb l label then Some (v, rest) else None
  | _ => None
  end.
Definition read_nat (label : string) (ls : list Line) : option (nat * list Line) :=
  '(v, rest) ← read_u64 label ls; Some (Z.to_nat v, rest).

Definition read_state (ls : list Line) : option (TaskState * list Line) :=
  '(t, rest) ← read_text ls;
  if String.eqb t "to READY" then Some (Ready, rest)
  else if String.eqb t "to RUNNING" then Some (Running, rest)
  else if String.eqb t "to BLOCKED" then Some (Blocked, rest)
  else if String.eqb t "to DEAD" then Some (Dead, rest)
  else None.

Definition read_action (ls : list Line) : option (MemAction * list Line) :=
  '(t, ls) ← read_text ls;
  '(page, ls) ← read_u64 "virt_page_index" ls;
  if String.eqb t "mem_action = Map" then
    '(frame, ls) ← read_u64 "phys_frame_index" ls;
    '(flags, ls) ← read_u64 "flags_bits" ls;
    Some (Map (mkVirtPage page) (mkPhysFrame frame) (mkPageFlags flags), ls)
  else if String.eqb t "mem_action = Unmap" then Some (Unmap (mkVirtPage page), ls)
  else None.

Definition read_reason (ls : list Line) : option (TaskKillReason * list Line) :=
  '(t, ls) ← read_text ls;
  if String.eqb t "reason = UserPageFault" then
    '(addr, ls) ← read_u64 "addr" ls; '(err, ls) ← read_u64 "err" ls; '(rip, ls) ← read_u64 "rip" ls;
    Some (UserPageFault addr err rip, ls)
  else if String.eqb t "reason = DemoInjected" then '(code, ls) ← read_u64 "code" ls; Some (DemoInjected code, ls)
  else None.

(** The events about one task, and those about a task and an endpoint. *)
Definition task_events : list (string * (TaskId -> LogEvent)) :=
  [("EVENT: TaskSwitched", TaskSwitched); ("EVENT: ReadyQueued", ReadyQueued); ("EVENT: ReadyDequeued", ReadyDequeued);
   ("EVENT: WaitQueued", WaitQueued); ("EVENT: WaitDequeued", WaitDequeued);
   ("EVENT: SyscallIssued", SyscallIssued); ("EVENT: SyscallHandled", SyscallHandled)].
Definition endpoint_events : list (string * (TaskId -> EndpointId -> LogEvent)) :=
  [("EVENT: IpcRecvCalled", IpcRecvCalled); ("EVENT: IpcRecvBlocked", IpcRecvBlocked);
   ("EVENT: IpcSendBlocked", IpcSendBlocked)].

Definition named {A} (name : string) (l : list (string * A)) : option A :=
  snd <$> List.find (fun p => String.eqb p.1 name) l.

Definition read_other_event (name : string) (ls : list Line) : option (LogEvent * list Line) :=
  if String.eqb name "EVENT: TickStarted" then '(n, ls) ← read_u64 "tick" ls; Some (TickStarted n, ls)
  else if String.eqb name "EVENT: TimerUpdated" then '(n, ls) ← read_u64 "time" ls; Some (TimerUpdated n, ls)
  else if String.eqb name "EVENT: FrameAllocated" then Some (FrameAllocated, ls)
  else if String.eqb name "EVENT: IpcDelivered" then
    '(from, ls) ← read_u64 "from" ls; '(to, ls) ← read_u64 "to" ls; '(ep, ls) ← read_nat "ep" ls;
    '(msg, ls) ← read_u64 "msg" ls; Some (IpcDelivered from to ep msg, ls)
  else if String.eqb name "EVENT: IpcReplyDelivered" then
    '(from, ls) ← read_u64 "from" ls; '(to, ls) ← read_u64 "to" ls; '(ep, ls) ← read_nat "ep" ls;
    Some (IpcReplyDelivered from to ep, ls)
  else
    '(task, ls) ← read_u64 "task" ls;
    if String.eqb name "EVENT: TaskStateChanged" then '(st, ls) ← read_state ls; Some (TaskStateChanged task st, ls)
    else if String.eqb name "EVENT: RuntimeUpdated" then
      '(rt, ls) ← read_u64 "runtime" ls; Some (RuntimeUpdated task rt, ls)
    else if String.eqb name "EVENT: QuantumExpired" then
      '(used, ls) ← read_u64 "used_ticks" ls; Some (QuantumExpired task used, ls)
    else if String.eqb name "EVENT: MemActionApplied" then
      '(asid, ls) ← read_nat "address_space_id" ls; '(a, ls) ← read_action ls; Some (MemActionApplied task asid a, ls)
    else if String.eqb name "EVENT: IpcSendCalled" then
      '(ep, ls) ← read_nat "ep" ls; '(msg, ls) ← read_u64 "msg" ls; Some (IpcSendCalled task ep msg, ls)
    else if String.eqb name "EVENT: IpcReplyCalled" then
      '(ep, ls) ← read_nat "ep" ls; '(to, ls) ← read_u64 "to" ls; Some (IpcReplyCalled task ep to, ls)
    else if String.eqb name "EVENT: TaskKilled" then '(r, ls) ← read_reason ls; Some (TaskKilled task r, ls)
    else None.

Definition read_event (ls : list Line) : option (LogEvent * list Line) :=
  '(name, ls) ← read_text ls;
  match named name task_events, named name endpoint_events with
  | Some mk, _ => '(task, ls) ← read_u64 "task" ls; Some (mk task, ls)
  | _, Some mk => '(task, ls) ← read_u64 "task" ls; '(ep, ls) ← read_nat "ep" ls; Some (mk task ep, ls)
  | None, None => read_other_event name ls
  end.

(** Events up to the closing line. *)
Fixpoint read_events (fuel : nat) (ls : list Line) : option (list LogEvent) :=
  match fuel, ls with
  | O, _ => None
  | S fuel, Info msg :: _ =>
      if String.eqb msg DUMP_END then Some []
      else '(ev, ls) ← read_event ls; evs ← read_events fuel ls; Some (ev :: evs)
  | _, _ => None
  end.

(** The event section of a dump. *)
Definition read_dump (ls : list Line) : option (list LogEvent) :=
  '(msg, ls) ← read_text ls;
  if String.eqb msg DUMP_START then read_events (length ls) ls else None.

Lemma read_event_printed ev rest : read_event (log_event_to_vga ev ++ rest) = Some (ev, rest).
Proof.
  destruct ev; repeat match goal with
    | x : TaskState |- _ => destruct x
    | x : TaskKillReason |- _ => destruct x
    | x : MemAction |- _ => destruct x as [[] [] []|[]]
    end; cbn; rewrite ?Nat2Z.id; reflexivity.
Qed.

Lemma event_not_end ev : exists msg tl, log_event_to_vga ev = Info msg :: tl /\ String.eqb msg DUMP_END = false.
Proof. by destruct ev; eexists _, _. Qed.

Lemma read_events_printed evs rest fuel :
  (length evs < fuel)%nat ->
  read_events fuel ((evs ≫= log_event_to_vga) ++ Info DUMP_END :: rest) = Some evs.
Proof.
  revert fuel. induction evs as [|ev evs IH]; intros [|fuel] Hf; cbn [length] in Hf; try lia; [done|].
  destruct (event_not_end ev) as (msg & tl & E & Hne).
  pose proof (read_event_printed ev ((evs ≫= log_event_to_vga) ++ Info DUMP_END :: rest)) as Hr.
  change ((ev :: evs) ≫= log_event_to_vga) with (log_event_to_vga ev ++ (evs ≫= log_event_to_vga)).
  rewrite <- app_assoc. rewrite E in *. cbn [app read_events] in *. rewrite Hne, Hr.
  cbn [mbind option_bind]. by rewrite IH by lia.
Qed.
