(* ===== verification/ArchIface.v ===== *)
(** * What the kernel needs from the architecture

    The kernel proper (kernel/*.rs) uses arch/paging.rs through a handful of
    functions.  [ArchOps] is that interface and [ArchLaws] states what the
    kernel relies on; the kernel's theorems are proved against both.  The file
    also has the [World] the kernel runs in: its own state, the architecture's,
    the VGA switch of logging, and the statics of the demo modules. *)

From stdpp Require Import base list option gmap.
From Stdlib Require Import ZArith.
From S2P Require Import Prelude Addr AddressSpace FrameAlloc KTypes KState.

(** arch/paging.rs *)
Record PageFaultInfo := mkPageFaultInfo {
  pf_addr : Z; pf_err : Z; pf_rip : Z; pf_rsp : Z; is_user_fault : bool }.

Inductive PagingApplyError := MapFailed | UnmapFailed.

Class ArchOps (A : Type) := {
  (** the root frame in CR3 *)
  Cr3_read : A -> PhysFrame;
  switch_address_space : option PhysFrame -> ST A unit;
  switch_address_space_quiet : PhysFrame -> ST A unit;
  (** [apply_mem_action] (no root: the current CR3) and
      [apply_mem_action_in_root]; both may take frames for page tables *)
  apply_mem_action_with_mapper : MemAction -> option PhysFrame ->
    ST (PhysicalMemoryManager * A) (result unit PagingApplyError);
  (** user root, kernel root, address, value *)
  guarded_user_rw_u64_in_root : PhysFrame -> PhysFrame -> Z -> Z ->
    ST A (result Z PageFaultInfo);
  (** only logs, but [VirtAddr::new] checks its argument *)
  debug_translate_in_root : PhysFrame -> Z -> ST A unit;
  init_user_pml4_from_current : PhysFrame -> ST A unit }.

Record World (A : Type) := mkWorld {
  w_ks : KernelState;
  w_arch : A;
  (** logging::VGA_ENABLED *)
  w_vga : bool;
  (** demo/ipc_faults.rs and demo/mem_faults.rs: [FIRED], [STAGE], [FIRED] *)
  w_dead_partner_fired : bool;
  w_double_map_stage : Z;
  w_unmap_fired : bool }.
Arguments mkWorld {A}.
Arguments w_ks {A}.
Arguments w_arch {A}.
Arguments w_vga {A}.
Arguments w_dead_partner_fired {A}.
Arguments w_double_map_stage {A}.
Arguments w_unmap_fired {A}.

(** Methods that also touch the world outside the kernel state. *)
Abbreviation W A := (ST (World A)).

Section world.
Context {A : Type}.

Definition ks {X} (m : K X) : W A X := zoom w_ks (fun w s => {| w with w_ks := s |}) m.
Definition arch {X} (m : ST A X) : W A X := zoom w_arch (fun w a => {| w with w_arch := a |}) m.
Definition kget : W A KernelState := gets w_ks.
Definition kmodify (f : KernelState -> KernelState) : W A unit := ks (modify f).
Definition set_vga_enabled (b : bool) : W A unit := modify (fun w => {| w with w_vga := b |}).

(** [&mut self.phys_mem] passed to the architecture. *)
Definition arch_with_phys_mem {X} (m : ST (PhysicalMemoryManager * A) X) : W A X :=
  zoom (fun w => (phys_mem (w_ks w), w_arch w))
       (fun w pa => let s := w_ks w in
          {| w with w_ks := {| s with phys_mem := pa.1 |}; w_arch := pa.2 |}) m.

Lemma returns_ks {X} (m : K X) w Q :
  returns m (w_ks w) (fun a s' => Q a {| w with w_ks := s' |}) -> returns (ks m) w Q.
Proof. intros H. by apply returns_zoom. Qed.

Lemma returns_arch {X} (m : ST A X) w Q :
  returns m (w_arch w) (fun x a' => Q x {| w with w_arch := a' |}) -> returns (arch m) w Q.
Proof. intros H. by apply returns_zoom. Qed.

Lemma returns_phys_mem {X} (m : ST (PhysicalMemoryManager * A) X) w Q :
  returns m (phys_mem (w_ks w), w_arch w) (fun x pa => let s := w_ks w in
    Q x {| w with w_ks := {| s with phys_mem := pa.1 |}; w_arch := pa.2 |}) ->
  returns (arch_with_phys_mem m) w Q.
Proof. intros H. by apply returns_zoom. Qed.

End world.

Ltac wsimpl :=
  cbn [w_ks w_arch w_vga w_dead_partner_fired w_double_map_stage w_unmap_fired]; ksimpl.

(** One step of symbolic execution of a method in the world. *)
Ltac wstep :=
  first
  [ match goal with
    | |- returns (kget ≫= _) ?w _ =>
        apply (returns_step _ _ w (w_ks w) w); [reflexivity|]
    | |- returns (set_vga_enabled ?b ≫= _) ?w _ =>
        eapply returns_step; [reflexivity|]
    | |- returns (set_vga_enabled ?b) ?w _ => eapply returns_Ok; [reflexivity|]
    | |- returns (ks _ ≫= _) _ _ => apply returns_bind, returns_ks
    | |- returns (ks _) _ _ => apply returns_ks
    | |- returns (kmodify _ ≫= _) _ _ => apply returns_bind, returns_ks
    | |- returns (kmodify _) _ _ => apply returns_ks
    | |- returns (arch _ ≫= _) _ _ => apply returns_bind, returns_arch
    | |- returns (arch _) _ _ => apply returns_arch
    end
  | kstep ]; cbv beta iota; wsimpl.

(** ** What the kernel relies on

    [arch_ready kr us a]: the kernel root [kr] and the user roots [us] are set
    up.  [user_map a r] is what the page tables under the user root [r] map in
    the user slot, by page offset; [kern_map kr a] is what the kernel mapped
    under its root in the low half, by page number.  [arch_tables kr us a f]:
    the frame [f] holds one of the page tables of these roots.  [phys_ok f]: the
    frame [f] can be reached through the physical-memory window.
    [kern_page_ok p]: the page [p] of the low half is not one of those the
    bootloader mapped (code, data, stack). *)

(** Mapping a page needs at most three frames for page tables. *)
Definition PAGE_TABLE_FRAMES : nat := 3.

(** Offsets inside the 512 GiB user slot. *)
Definition page_ok (p : VirtPage) : Prop := (0 <= page_number p < 2 ^ 27)%Z.
(** Frames below the 52-bit limit of physical addresses. *)
Definition frame_ok (f : PhysFrame) : Prop := (0 <= frame_number f < 2 ^ 40)%Z.

(** Flags of a mapping: known ones, and present. *)
Definition flags_ok (fl : PageFlags) : Prop :=
  Z.land (bits fl) (bits (PageFlags_union (PageFlags_union (PageFlags_union PRESENT WRITABLE) USER) NO_EXEC))
    = bits fl /\ PageFlags_contains fl PRESENT = true.
Definition user_flags (fl : PageFlags) : Prop := flags_ok fl /\ PageFlags_contains fl USER = true.

(** The frame of a physical address, and the frames still to be handed out. *)
Definition phys_frame (phys : Z) : PhysFrame := PhysFrame_from_index (phys / PAGE_SIZE).
Definition free_frames (pm : PhysicalMemoryManager) : list PhysFrame := phys_frame <$> pmm_remaining pm.

(** A manager whose frames are distinct, reachable and not in use as tables. *)
Record frames_free (reachable in_use : PhysFrame -> Prop) (pm : PhysicalMemoryManager) : Prop := {
  ff_wf : pmm_wf pm;
  ff_nodup : NoDup (free_frames pm);
  ff_reach f : f ∈ free_frames pm -> reachable f;
  ff_unused f : f ∈ free_frames pm -> ~ in_use f }.

(** [k] frames were taken for page tables, at most three. *)
Definition frames_taken (k : nat) (pm pm' : PhysicalMemoryManager) : Prop :=
  k <= PAGE_TABLE_FRAMES /\ pmm_wf pm' /\ pmm_remaining pm' = drop k (pmm_remaining pm).

Class ArchLaws (A : Type) `{ArchOps A} := {
  arch_ready : PhysFrame -> list PhysFrame -> A -> Prop;
  user_map : A -> PhysFrame -> gmap Z (PhysFrame * PageFlags);
  kern_map : PhysFrame -> A -> gmap Z (PhysFrame * PageFlags);
  arch_tables : PhysFrame -> list PhysFrame -> A -> PhysFrame -> Prop;
  phys_ok : PhysFrame -> Prop;
  kern_page_ok : VirtPage -> Prop;

  law_switch kr us a r :
    arch_ready kr us a -> r ∈ us ->
    returns (switch_address_space (Some r)) a (fun _ a' =>
      arch_ready kr us a' /\ (forall u, u ∈ us -> user_map a' u = user_map a u) /\
      kern_map kr a' = kern_map kr a /\ forall f, arch_tables kr us a' f -> arch_tables kr us a f);

  law_switch_quiet kr us a r :
    arch_ready kr us a -> r ∈ kr :: us ->
    returns (switch_address_space_quiet r) a (fun _ a' =>
      arch_ready kr us a' /\ (forall u, u ∈ us -> user_map a' u = user_map a u) /\
      kern_map kr a' = kern_map kr a /\ (forall f, arch_tables kr us a' f -> arch_tables kr us a f) /\
      Cr3_read a' = r);

  (** an access through a user root; the frames it may write hold no tables *)
  law_rw kr us a r addr v :
    arch_ready kr us a -> r ∈ us -> is_user_space_addr_u64 addr = true -> (addr mod 8 = 0)%Z ->
    (forall p f fl, user_map a r !! p = Some (f, fl) -> ~ arch_tables kr us a f) ->
    returns (guarded_user_rw_u64_in_root r kr addr v) a (fun _ a' =>
      arch_ready kr us a' /\ (forall u, u ∈ us -> user_map a' u = user_map a u) /\
      kern_map kr a' = kern_map kr a /\ (forall f, arch_tables kr us a' f -> arch_tables kr us a f) /\
      Cr3_read a' = kr);

  law_debug_translate kr us a r addr :
    arch_ready kr us a -> r ∈ us -> is_user_space_addr_u64 addr = true ->
    debug_translate_in_root r addr a = Ok (tt, a);

  law_map_user kr us a r p f fl pm :
    arch_ready kr us a -> r ∈ us -> page_ok p -> frame_ok f ->
    user_flags fl -> user_map a r !! page_number p = None ->
    frames_free phys_ok (arch_tables kr us a) pm -> PAGE_TABLE_FRAMES <= length (pmm_remaining pm) ->
    returns (apply_mem_action_with_mapper (Map p f fl) (Some r)) (pm, a) (fun res pa =>
      res = Okay tt /\ arch_ready kr us pa.2 /\ Cr3_read pa.2 = Cr3_read a /\
      user_map pa.2 r = <[page_number p := (f, fl)]> (user_map a r) /\
      (forall u, u ∈ us -> u <> r -> user_map pa.2 u = user_map a u) /\
      kern_map kr pa.2 = kern_map kr a /\
      exists k, frames_taken k pm pa.1 /\
        forall g, arch_tables kr us pa.2 g -> arch_tables kr us a g \/ g ∈ take k (free_frames pm));

  law_unmap_user kr us a r p pm :
    arch_ready kr us a -> r ∈ us -> page_ok p -> is_Some (user_map a r !! page_number p) ->
    returns (apply_mem_action_with_mapper (Unmap p) (Some r)) (pm, a) (fun res pa =>
      res = Okay tt /\ arch_ready kr us pa.2 /\ Cr3_read pa.2 = Cr3_read a /\
      user_map pa.2 r = delete (page_number p) (user_map a r) /\
      (forall u, u ∈ us -> u <> r -> user_map pa.2 u = user_map a u) /\
      kern_map kr pa.2 = kern_map kr a /\ pa.1 = pm /\
      forall g, arch_tables kr us pa.2 g -> arch_tables kr us a g);

  law_map_kernel kr us a p f fl pm :
    arch_ready kr us a -> Cr3_read a = kr -> page_ok p -> kern_page_ok p -> frame_ok f ->
    flags_ok fl -> PageFlags_contains fl USER = false -> kern_map kr a !! page_number p = None ->
    frames_free phys_ok (arch_tables kr us a) pm -> PAGE_TABLE_FRAMES <= length (pmm_remaining pm) ->
    returns (apply_mem_action_with_mapper (Map p f fl) None) (pm, a) (fun res pa =>
      res = Okay tt /\ arch_ready kr us pa.2 /\ Cr3_read pa.2 = Cr3_read a /\
      kern_map kr pa.2 = <[page_number p := (f, fl)]> (kern_map kr a) /\
      (forall u, u ∈ us -> user_map pa.2 u = user_map a u) /\
      exists k, frames_taken k pm pa.1 /\
        forall g, arch_tables kr us pa.2 g -> arch_tables kr us a g \/ g ∈ take k (free_frames pm));

  law_unmap_kernel kr us a p pm :
    arch_ready kr us a -> Cr3_read a = kr -> page_ok p -> is_Some (kern_map kr a !! page_number p) ->
    returns (apply_mem_action_with_mapper (Unmap p) None) (pm, a) (fun res pa =>
      res = Okay tt /\ arch_ready kr us pa.2 /\ Cr3_read pa.2 = Cr3_read a /\
      kern_map kr pa.2 = delete (page_number p) (kern_map kr a) /\
      (forall u, u ∈ us -> user_map pa.2 u = user_map a u) /\ pa.1 = pm /\
      forall g, arch_tables kr us pa.2 g -> arch_tables kr us a g);

  (** a fresh root shares the kernel's part and has an empty user slot *)
  law_init_user kr us a r :
    arch_ready kr us a -> Cr3_read a = kr -> phys_ok r -> ~ arch_tables kr us a r ->
    returns (init_user_pml4_from_current r) a (fun _ a' =>
      arch_ready kr (us ++ [r]) a' /\ Cr3_read a' = Cr3_read a /\ user_map a' r = ∅ /\
      (forall u, u ∈ us -> user_map a' u = user_map a u) /\ kern_map kr a' = kern_map kr a /\
      forall g, arch_tables kr (us ++ [r]) a' g -> arch_tables kr us a g \/ g = r) }.

(** The maps are unchanged. *)
Definition arch_same {A} `{ArchLaws A} (kr : PhysFrame) (us : list PhysFrame) (a a' : A) : Prop :=
  arch_ready kr us a' /\ (forall u, u ∈ us -> user_map a' u = user_map a u) /\
  kern_map kr a' = kern_map kr a /\ forall f, arch_tables kr us a' f -> arch_tables kr us a f.
