(* ===== verification/X86.v ===== *)
(** * The machine and the x86_64 crate

    arch/paging.rs works on the page tables through the [x86_64] crate and the
    CPU, neither of which is part of the repository.  [X86] is what it uses of
    them: level-4 entries, the mapper of [OffsetPageTable], the walk of the CPU
    and the memory accesses.  [X86Laws] is the documented behaviour paging.rs
    relies on, in terms of what a table maps ([below]) and of the frames that
    hold it and the tables under it ([tables]). *)

From stdpp Require Import base list option gmap strings.
From Stdlib Require Import ZArith.
From S2P Require Import Prelude Addr AddressSpace FrameAlloc KTypes KState ArchIface.
#[local] Open Scope Z_scope.

(** ** Entries and addresses *)

(** A level-4 entry: the physical address of a table and flag bits. *)
Record PageTableEntry := mkPte { pte_addr : Z; pte_flags : Z }.

#[export] Instance PageTableEntry_eq_dec : EqDecision PageTableEntry.
Proof. solve_decision. Defined.

Definition pte_unused : PageTableEntry := mkPte 0 0.
Definition is_unused (e : PageTableEntry) : bool := (pte_addr e =? 0) && (pte_flags e =? 0).

(** [PageTableFlags] *)
Definition X86_PRESENT : Z := 0x1.
Definition X86_WRITABLE : Z := 0x2.
Definition X86_USER_ACCESSIBLE : Z := 0x4.
Definition X86_NO_EXECUTE : Z := 0x8000000000000000.
Definition x86_contains (flags f : Z) : bool := Z.land flags f =? f.

Definition present (e : PageTableEntry) : bool := x86_contains (pte_flags e) X86_PRESENT.

(** The crate's addresses: [VirtAddr::new] takes the canonical ones and panics on
    others, [PhysAddr::new] takes those of at most 52 bits. *)
Class X86Addr := {
  x86_VirtAddr_new : Z -> res Z;
  x86_PhysAddr_new : Z -> res Z;
  x86_virt_canonical a : canonicalize_virt a = a -> x86_VirtAddr_new a = Ok a;
  x86_virt_other a : canonicalize_virt a <> a -> exists p, x86_VirtAddr_new a = Panicked p;
  x86_phys_52 a : 0 <= a < 2 ^ 52 -> x86_PhysAddr_new a = Ok a }.

(** What an address that was taken is. *)
Lemma x86_virt_inv `{X86Addr} a b : x86_VirtAddr_new a = Ok b -> b = a /\ canonicalize_virt a = a.
Proof.
  intros Hn. destruct (Z.eq_dec (canonicalize_virt a) a) as [Hc|Hc].
  - rewrite x86_virt_canonical in Hn by done. by injection Hn as ->.
  - destruct (x86_virt_other a Hc) as [p Hp]. by rewrite Hp in Hn.
Qed.

Inductive MapToError := FrameAllocationFailed | ParentEntryHugePage | PageAlreadyMapped (f : PhysFrame).
Inductive UnmapError := UnmapParentHugePage | PageNotMapped | InvalidFrameAddress (a : Z).

(** The page inside the 512 GiB of its level-4 entry. *)
Definition slot_page (va : Z) : Z := (va / PAGE_SIZE) mod 2 ^ 27.

(** A root is the frame of a level-4 table. *)
Class X86 (M : Type) {XA : X86Addr} := {
  read_entry : M -> PhysFrame -> nat -> PageTableEntry;
  write_entry : PhysFrame -> nat -> PageTableEntry -> M -> M;
  (** [OffsetPageTable] over a root; [map_to] takes the frames of new tables
      from the allocator it is given *)
  translate_addr : M -> PhysFrame -> Z -> option Z;
  map_to : ST PhysicalMemoryManager (option Z) -> PhysFrame -> Z -> PhysFrame -> Z ->
    ST (PhysicalMemoryManager * M) (result unit MapToError);
  unmap : PhysFrame -> Z -> ST M (result PhysFrame UnmapError);
  (** the walk of the CPU: the frame and the flags of the page *)
  hw_walk : M -> PhysFrame -> Z -> option (PhysFrame * Z);
  (** physical memory *)
  hw_load : M -> Z -> Z;
  hw_store : Z -> Z -> M -> M;
  hw_store_byte : Z -> Z -> M -> M }.

(** ** Laws *)

(** A mapped page; [leaf_4k] when it is mapped by its own entry and not as a
    part of a huge page. *)
Record Leaf := mkLeaf { leaf_frame : PhysFrame; leaf_flags : Z; leaf_4k : bool }.

(** The contract of a frame allocator. *)
Definition allocates (alloc : ST PhysicalMemoryManager (option Z)) : Prop :=
  forall pm, pmm_wf pm -> exists pm', alloc pm = Ok (head (pmm_remaining pm), pm') /\
    pmm_wf pm' /\ pmm_remaining pm' = tail (pmm_remaining pm).

Section views.
Context {M : Type} `{X86 M} (below : M -> Z -> gmap Z Leaf) (tables : M -> Z -> PhysFrame -> Prop).

(** The pages mapped through entry [i] of root [r], and the frames of its tables. *)
Definition slot_of (m : M) (r : PhysFrame) (i : nat) : gmap Z Leaf :=
  let e := read_entry m r i in if present e then below m (pte_addr e) else ∅.
Definition tables_of (m : M) (r : PhysFrame) (i : nat) (g : PhysFrame) : Prop :=
  let e := read_entry m r i in present e = true /\ tables m (pte_addr e) g.

(** The table [t] and everything under it is the same in [m'] as in [m]. *)
Definition table_same (m m' : M) (t : Z) : Prop :=
  below m' t = below m t /\ forall g, tables m' t g <-> tables m t g.

(** The page [p] of entry [i] of root [r] now maps to [l]; the frames [new] hold
    new tables. *)
Record map_effect (m m' : M) (r : PhysFrame) (i : nat) (p : Z) (l : Leaf) (new : list PhysFrame) : Prop := {
  me_present : present (read_entry m' r i) = true;
  me_addr : present (read_entry m r i) = true ->
    pte_addr (read_entry m' r i) = pte_addr (read_entry m r i);
  me_slot : slot_of m' r i = <[p := l]> (slot_of m r i);
  me_tables g : tables_of m' r i g -> tables_of m r i g \/ g ∈ new;
  me_entries r' j : r' <> r \/ j <> i -> ~ tables_of m r i r' -> r' ∉ new ->
    read_entry m' r' j = read_entry m r' j;
  me_same t : (forall g, tables m t g -> g <> r /\ ~ tables_of m r i g /\ g ∉ new) -> table_same m m' t }.

(** The page [p] of the table at [t] is no longer mapped. *)
Record unmap_effect (m m' : M) (t p : Z) : Prop := {
  ue_below : below m' t = delete p (below m t);
  ue_tables g : tables m' t g <-> tables m t g;
  ue_entries r j : ~ tables m t r -> read_entry m' r j = read_entry m r j;
  ue_same t' : (forall g, tables m t' g -> ~ tables m t g) -> table_same m m' t' }.

End views.

Class X86Laws (M : Type) `{X86 M} := {
  below : M -> Z -> gmap Z Leaf;
  tables : M -> Z -> PhysFrame -> Prop;

  x86_read_write m r i e r' j : (i < 512)%nat ->
    read_entry (write_entry r i e m) r' j
    = if decide (r' = r /\ j = i) then e else read_entry m r' j;
  x86_write_same m r i e t : ~ tables m t r -> table_same below tables m (write_entry r i e m) t;

  x86_translate m r va : canonical va ->
    translate_addr m r va
    = (fun l => frame_number (leaf_frame l) * PAGE_SIZE + va mod PAGE_SIZE)
        <$> slot_of below m r (pml4_index va) !! slot_page va;
  x86_walk m r va : canonical va ->
    hw_walk m r va
    = (fun l => (leaf_frame l, leaf_flags l)) <$> slot_of below m r (pml4_index va) !! slot_page va;

  (** [map_to] of a page that is not mapped, with frames for the tables *)
  x86_map_to alloc m r va f fl pm (reachable in_use : PhysFrame -> Prop) :
    canonical va -> va mod PAGE_SIZE = 0 -> frame_ok f -> x86_contains fl X86_PRESENT = true ->
    let i := pml4_index va in
    (present (read_entry m r i) = true \/ read_entry m r i = pte_unused) ->
    slot_of below m r i !! slot_page va = None ->
    allocates alloc -> frames_free reachable in_use pm ->
    in_use r -> (forall g, tables_of tables m r i g -> in_use g) ->
    (PAGE_TABLE_FRAMES <= length (pmm_remaining pm))%nat ->
    returns (map_to alloc r va f fl) (pm, m) (fun res pm' =>
      res = Okay tt /\ exists k, frames_taken k pm pm'.1 /\
      map_effect below tables m pm'.2 r i (slot_page va) (mkLeaf f fl true) (take k (free_frames pm)));

  (** [unmap] of a page that has its own entry *)
  x86_unmap m r va l :
    canonical va -> va mod PAGE_SIZE = 0 ->
    slot_of below m r (pml4_index va) !! slot_page va = Some l -> leaf_4k l = true ->
    returns (unmap r va) m (fun res m' => res = Okay (leaf_frame l) /\
      unmap_effect below tables m m' (pte_addr (read_entry m r (pml4_index va))) (slot_page va));

  (** an aligned store changes no table unless it hits its frame *)
  x86_store_same m pa v t : pa mod 8 = 0 -> ~ tables m t (phys_frame pa) -> table_same below tables m (hw_store pa v m) t;
  x86_store_entry m pa v r i : pa mod 8 = 0 -> r <> phys_frame pa ->
    read_entry (hw_store pa v m) r i = read_entry m r i;
  x86_store_byte_same m pa b t : ~ tables m t (phys_frame pa) ->
    table_same below tables m (hw_store_byte pa b m) t;
  x86_store_byte_entry m pa b r i : r <> phys_frame pa ->
    read_entry (hw_store_byte pa b m) r i = read_entry m r i;
  x86_load_store m pa v : pa mod 8 = 0 -> u64 v -> hw_load (hw_store pa v m) pa = v;
  x86_load_other m pa v pa' : pa mod 8 = 0 -> pa' mod 8 = 0 -> pa' <> pa ->
    hw_load (hw_store pa v m) pa' = hw_load m pa' }.
