(* ===== verification/RefMem.v ===== *)
(** * A reference machine

    The smallest memory that satisfies [X86Laws]: level-4 entries by frame and
    index, the pages below a table as a finite map kept at the address of the
    table (whose frame is the only one it occupies), and 64-bit words.  It shows
    that the laws can hold together and makes the kernel executable down to its
    page tables. *)

From stdpp Require Import base list option gmap sets strings.
From Stdlib Require Import ZArith Lia.
From S2P Require Import Prelude Addr AddressSpace FrameAlloc KTypes KState ArchIface X86.
#[local] Open Scope Z_scope.

Record RefMem := mkRefMem {
  rm_entries : gmap (Z * nat) PageTableEntry;
  rm_below : gmap Z (gmap Z Leaf);
  rm_words : gmap Z Z }.

Definition rm_entry (m : RefMem) (r : PhysFrame) (i : nat) : PageTableEntry :=
  default pte_unused (rm_entries m !! (frame_number r, i)).
Definition rm_set_entry (r : PhysFrame) (i : nat) (e : PageTableEntry) (m : RefMem) : RefMem :=
  {| m with rm_entries := <[(frame_number r, i) := e]> (rm_entries m) |}.
Definition rm_pages (m : RefMem) (t : Z) : gmap Z Leaf := default ∅ (rm_below m !! t).
Definition rm_set_pages (t : Z) (b : gmap Z Leaf) (m : RefMem) : RefMem :=
  {| m with rm_below := <[t := b]> (rm_below m) |}.
Definition rm_tables (m : RefMem) (t : Z) (g : PhysFrame) : Prop := g = phys_frame t.

(** The pages below an entry. *)
Definition rm_slot (m : RefMem) (r : PhysFrame) (i : nat) : gmap Z Leaf :=
  let e := rm_entry m r i in if present e then rm_pages m (pte_addr e) else ∅.

(** A new table takes one frame. *)
Definition rm_map_to (alloc : ST PhysicalMemoryManager (option Z)) (r : PhysFrame) (va : Z)
    (f : PhysFrame) (fl : Z) : ST (PhysicalMemoryManager * RefMem) (result unit MapToError) := fun pm =>
  let '(p, m) := pm in
  let i := pml4_index va in
  let e := rm_entry m r i in
  match rm_slot m r i !! slot_page va with
  | Some l => Ok (Err (PageAlreadyMapped (leaf_frame l)), pm)
  | None =>
      let l := mkLeaf f fl true in
      if present e then
        Ok (Okay tt, (p, rm_set_pages (pte_addr e) (<[slot_page va := l]> (rm_pages m (pte_addr e))) m))
      else
        match alloc p with
        | Ok (Some t, p') =>
            Ok (Okay tt, (p', rm_set_pages t {[slot_page va := l]} (rm_set_entry r i (mkPte t fl) m)))
        | Ok (None, p') => Ok (Err FrameAllocationFailed, (p', m))
        | Panicked x => Panicked x
        end
  end.

Definition rm_unmap (r : PhysFrame) (va : Z) : ST RefMem (result PhysFrame UnmapError) := fun m =>
  let i := pml4_index va in
  let t := pte_addr (rm_entry m r i) in
  match rm_slot m r i !! slot_page va with
  | Some l =>
      if leaf_4k l then Ok (Okay (leaf_frame l), rm_set_pages t (delete (slot_page va) (rm_pages m t)) m)
      else Ok (Err UnmapParentHugePage, m)
  | None => Ok (Err PageNotMapped, m)
  end.

#[export, program] Instance Ref_addr : X86Addr := {
  x86_VirtAddr_new a := if canonicalize_virt a =? a then Ok a else Panicked (PanicMsg "not canonical");
  x86_PhysAddr_new a := if a <? 2 ^ 52 then Ok a else Panicked (PanicMsg "more than 52 bits") }.
Next Obligation. intros a E. simpl. by rewrite E, Z.eqb_refl. Qed.
Next Obligation. intros a E. simpl. rewrite (proj2 (Z.eqb_neq _ _) E). eauto. Qed.
Next Obligation. intros a E. simpl. by rewrite (proj2 (Z.ltb_lt _ _)) by lia. Qed.

#[export] Instance RefMem_x86 : X86 RefMem := {
  read_entry := rm_entry;
  write_entry := rm_set_entry;
  translate_addr m r va :=
    (fun l => frame_number (leaf_frame l) * PAGE_SIZE + va mod PAGE_SIZE)
      <$> rm_slot m r (pml4_index va) !! slot_page va;
  map_to := rm_map_to;
  unmap := rm_unmap;
  hw_walk m r va := (fun l => (leaf_frame l, leaf_flags l)) <$> rm_slot m r (pml4_index va) !! slot_page va;
  hw_load m pa := default 0 (rm_words m !! pa);
  hw_store pa v m := {| m with rm_words := <[pa := v]> (rm_words m) |};
  hw_store_byte pa b m :=
    let w := 8 * (pa / 8) in
    let sh := 8 * (pa mod 8) in
    let old := default 0 (rm_words m !! w) in
    {| m with rm_words := <[w := Z.lor (Z.ldiff old (Z.shiftl 0xFF sh)) (Z.shiftl b sh)]> (rm_words m) |} }.

Lemma rm_entry_set r i e m r' j :
  rm_entry (rm_set_entry r i e m) r' j = if decide (r' = r /\ j = i) then e else rm_entry m r' j.
Proof.
  unfold rm_entry, rm_set_entry. simpl. case_decide as Hd.
  - destruct Hd as [-> ->]. by rewrite lookup_insert_eq.
  - rewrite lookup_insert_ne; [done|]. intros [= E1 E2]. apply Hd. destruct r, r'. simpl in *. by subst.
Qed.

Lemma rm_pages_set t b m t' : rm_pages (rm_set_pages t b m) t' = if decide (t' = t) then b else rm_pages m t'.
Proof.
  unfold rm_pages, rm_set_pages. simpl. case_decide as Hd; [subst; by rewrite lookup_insert_eq|].
  by rewrite lookup_insert_ne.
Qed.

Lemma rm_tables_same m m' t : rm_pages m' t = rm_pages m t -> table_same rm_pages rm_tables m m' t.
Proof. by split. Qed.

Lemma rm_map_present m r va l :
  let i := pml4_index va in let t := pte_addr (rm_entry m r i) in
  present (rm_entry m r i) = true -> rm_slot m r i !! slot_page va = None ->
  map_effect rm_pages rm_tables m (rm_set_pages t (<[slot_page va := l]> (rm_pages m t)) m) r i (slot_page va) l [].
Proof.
  intros i t Hp Hn. split; try done.
  - unfold slot_of. simpl.
    change (rm_entry (rm_set_pages _ _ m) r i) with (rm_entry m r i). rewrite Hp. fold t.
    by rewrite rm_pages_set, decide_True.
  - intros g Hg. by left.
  - intros t' Ht. apply rm_tables_same. rewrite rm_pages_set, decide_False; [done|]. intros ->.
    destruct (Ht (phys_frame t) eq_refl) as (_ & Hno & _). by apply Hno.
Qed.

Lemma rm_map_new m r va t l fl :
  let i := pml4_index va in
  present (rm_entry m r i) = false -> x86_contains fl X86_PRESENT = true ->
  map_effect rm_pages rm_tables m (rm_set_pages t {[slot_page va := l]} (rm_set_entry r i (mkPte t fl) m))
    r i (slot_page va) l [phys_frame t].
Proof.
  intros i Hp Hfl. set (m' := rm_set_pages _ _ _).
  assert (He : rm_entry m' r i = mkPte t fl).
  { change (rm_entry (rm_set_entry r i (mkPte t fl) m) r i = mkPte t fl). by rewrite rm_entry_set, decide_True. }
  split.
  - simpl. by rewrite He.
  - simpl. by rewrite Hp.
  - unfold slot_of. simpl. rewrite He, Hp. unfold present. simpl. rewrite Hfl. unfold m'.
    by rewrite rm_pages_set, decide_True.
  - intros g [_ Hg]. right. simpl in Hg. rewrite He in Hg. unfold rm_tables in Hg. simpl in Hg. subst g. by left.
  - intros r' j Hd _ _. change (rm_entry (rm_set_entry r i (mkPte t fl) m) r' j = rm_entry m r' j).
    rewrite rm_entry_set, decide_False; [done|]. tauto.
  - intros t' Ht. apply rm_tables_same. unfold m'. rewrite rm_pages_set, decide_False; [done|]. intros ->.
    destruct (Ht (phys_frame t) eq_refl) as (_ & _ & Hno). apply Hno. by left.
Qed.

Lemma rm_unmap_effect m r va :
  let i := pml4_index va in let t := pte_addr (rm_entry m r i) in
  unmap_effect rm_pages rm_tables m (rm_set_pages t (delete (slot_page va) (rm_pages m t)) m) t (slot_page va).
Proof.
  intros i t. split; try done.
  - by rewrite rm_pages_set, decide_True.
  - intros t' Ht. apply rm_tables_same. rewrite rm_pages_set, decide_False; [done|]. intros ->.
    by apply (Ht (phys_frame t) eq_refl).
Qed.

#[export] Instance RefMem_laws : X86Laws RefMem.
Proof.
  refine {| below := rm_pages; tables := rm_tables |}.
  - intros m r i e r' j _. apply rm_entry_set.
  - done.
  - done.
  - done.
  - intros alloc m r va f fl pm reachable in_use Hc Hmod Hf Hfl i He Hn Hal Hff Hr Htab Hlen.
    unfold returns. simpl. unfold rm_map_to. fold i. change (rm_slot m r i) with (slot_of rm_pages m r i).
    rewrite Hn. destruct (present (rm_entry m r i)) eqn:Hp.
    + exists (Okay tt). eexists. split; [done|]. split; [done|]. exists 0%nat. split.
      * split; [unfold PAGE_TABLE_FRAMES; lia|]. split; [apply Hff|done].
      * by apply rm_map_present.
    + destruct (Hal pm (ff_wf _ _ _ Hff)) as (pm' & Ha & Hwf & Hrem). rewrite Ha. unfold free_frames.
      destruct (pmm_remaining pm) as [|t rest] eqn:Er; [simpl in Hlen; unfold PAGE_TABLE_FRAMES in Hlen; lia|].
      simpl. exists (Okay tt). eexists. split; [done|]. split; [done|]. exists 1%nat. split.
      * split; [unfold PAGE_TABLE_FRAMES; lia|]. split; [done|]. by rewrite Er.
      * by apply rm_map_new.
  - intros m r va l Hc Hmod Hl H4. unfold returns. simpl. unfold rm_unmap.
    change (rm_slot m r (pml4_index va)) with (slot_of rm_pages m r (pml4_index va)). rewrite Hl, H4.
    exists (Okay (leaf_frame l)). eexists. split; [done|]. split; [done|]. apply rm_unmap_effect.
  - done.
  - done.
  - done.
  - done.
  - intros m pa v _ _. simpl. by rewrite lookup_insert_eq.
  - intros m pa v pa' _ _ Hne. simpl. by rewrite lookup_insert_ne.
Defined.
