(* ===== verification/Paging.v ===== *)
(** * Paging (arch/paging.rs) and the page-fault handler (arch/interrupts.rs)

    The state is CR3, the memory of the machine and the statics of paging.rs.
    Log output is left out.  The registers [read_rip_rsp_rbp] returns are an
    arbitrary stream; the addresses the linker gives to the fault statics, to the
    recovery labels and to the test function are parameters. *)

From stdpp Require Import base list option gmap strings.
From Stdlib Require Import ZArith.
From S2P Require Import Prelude Addr AddressSpace FrameAlloc KTypes KState ArchIface X86.
#[local] Open Scope Z_scope.

Definition ENABLE_REAL_PAGING : bool := true.
Definition ENABLE_HIGH_ALIAS_EXEC_TEST : bool := true.
Definition ENABLE_CR3_PREFLIGHT : bool := true.
Definition PHYSMAP_PML4_COPY_COUNT : nat := 4.

(** The statics of the #PF guard, accessed by address. *)
Inductive PfStatic :=
  | PF_GUARD_ACTIVE | PF_GUARD_RECOVER_RIP | PF_GUARD_HIT
  | LAST_PF_VALID | LAST_PF_ADDR | LAST_PF_ERR | LAST_PF_RIP | LAST_PF_RSP | LAST_PF_IS_USER.

#[export] Instance PfStatic_eq_dec : EqDecision PfStatic.
Proof. solve_decision. Defined.

Record Paging (M : Type) := mkPaging {
  pg_mem : M;
  pg_cr3 : PhysFrame;
  (** what the next [read_rip_rsp_rbp] returns *)
  pg_context : nat -> Z * Z * Z;
  PHYSICAL_MEMORY_OFFSET : Z;
  ALLOW_REAL_CR3_SWITCH : bool;
  GUARD_CODE_VIRT : Z;
  GUARD_STACK_VIRT : Z;
  GUARD_CODE_PHYS : Z;
  GUARD_STACK_PHYS : Z;
  GUARD_CODE_HIGH_VIRT : Z;
  GUARD_STACK_HIGH_VIRT : Z;
  ALIAS_COPY_COUNT : nat;
  RING3_DEMO_USER_ROOT_PHYS : Z;
  RING3_DEMO_KERNEL_ROOT_PHYS : Z;
  pg_static : PfStatic -> Z }.
Arguments mkPaging {M}.
Arguments pg_mem {M}.
Arguments pg_cr3 {M}.
Arguments pg_context {M}.
Arguments PHYSICAL_MEMORY_OFFSET {M}.
Arguments ALLOW_REAL_CR3_SWITCH {M}.
Arguments GUARD_CODE_VIRT {M}.
Arguments GUARD_STACK_VIRT {M}.
Arguments GUARD_CODE_PHYS {M}.
Arguments GUARD_STACK_PHYS {M}.
Arguments GUARD_CODE_HIGH_VIRT {M}.
Arguments GUARD_STACK_HIGH_VIRT {M}.
Arguments ALIAS_COPY_COUNT {M}.
Arguments RING3_DEMO_USER_ROOT_PHYS {M}.
Arguments RING3_DEMO_KERNEL_ROOT_PHYS {M}.
Arguments pg_static {M}.

(** The addresses fixed by the linker. *)
Record Image := mkImage {
  im_static : PfStatic -> Z;
  im_recover : Z;
  im_exec_test : Z }.

(** ** Pure parts *)

(** Addresses of the alias source are moved to the high alias. *)
Definition guard_u64_ptr (addr : Z) : res Z :=
  if (pml4_index addr <? KERNEL_ALIAS_MAX_COPY_COUNT)%nat then kernel_high_alias_of_low addr
  else Ok addr.

Definition to_x86_flags (flags : PageFlags) : Z :=
  let res := 0 in
  let res := if PageFlags_contains flags PRESENT then Z.lor res X86_PRESENT else res in
  let res := if PageFlags_contains flags WRITABLE then Z.lor res X86_WRITABLE else res in
  let res := if PageFlags_contains flags USER then Z.lor res X86_USER_ACCESSIBLE else res in
  if PageFlags_contains flags NO_EXEC then Z.lor res X86_NO_EXECUTE else res.

Definition enforce_user_mapping_policy (virt flags : Z) : res unit :=
  let in_user_slot := is_user_space_addr_u64 virt in
  let user_accessible := x86_contains flags X86_USER_ACCESSIBLE in
  if user_accessible && negb in_user_slot
  then Panicked (PanicMsg "USER mapping outside reserved user slot")
  else if negb user_accessible && in_user_slot
  then Panicked (PanicMsg "KERNEL mapping inside reserved user slot")
  else Ok tt.

Definition physmap_copy_end (physmap_pml4 : nat) : nat :=
  Nat.min (physmap_pml4 + PHYSMAP_PML4_COPY_COUNT) 256.

Definition assert_no_physmap_user_slot_collision (physmap_off : Z) : res unit :=
  let physmap_pml4 := pml4_index physmap_off in
  if (256 <=? USER_PML4_INDEX)%nat then Panicked (PanicMsg "USER_PML4_INDEX must be < 256")
  else if (physmap_pml4 =? USER_PML4_INDEX)%nat
  then Panicked (PanicMsg "physmap collides with USER slot (PML4 index)")
  else if (physmap_pml4 <? 256)%nat && (physmap_pml4 <=? USER_PML4_INDEX)%nat
          && (USER_PML4_INDEX <? physmap_copy_end physmap_pml4)%nat
  then Panicked (PanicMsg "physmap copy range overlaps USER slot")
  else Ok tt.

Section paging.
Context {M : Type} `{X86 M} (im : Image).
Abbreviation P := (ST (Paging M)).

(** ** Access to the statics of the guard

    A plain access of the kernel: a page that is not mapped in the current root
    is a #PF outside the guard, which stops the machine. *)
Definition kernel_access (va : Z) : P unit :=
  s ← get;
  match hw_walk (pg_mem s) (pg_cr3 s) va with
  | Some _ => mret tt
  | None => panic_with (PanicMsg "#PF unguarded")
  end.

Definition read_static (k : PfStatic) : P Z :=
  p ← lift_res (guard_u64_ptr (im_static im k));
  kernel_access p ;;
  gets (fun s => pg_static s k).
Definition write_static (k : PfStatic) (v : Z) : P unit :=
  p ← lift_res (guard_u64_ptr (im_static im k));
  kernel_access p ;;
  modify (fun s => {| s with pg_static := fun j => if decide (j = k) then v else pg_static s j |}).

Definition record_page_fault (info : PageFaultInfo) : P unit :=
  write_static LAST_PF_ADDR (pf_addr info) ;;
  write_static LAST_PF_ERR (pf_err info) ;;
  write_static LAST_PF_RIP (pf_rip info) ;;
  write_static LAST_PF_RSP (pf_rsp info) ;;
  write_static LAST_PF_IS_USER (if is_user_fault info then 1 else 0) ;;
  write_static LAST_PF_VALID 1.

Definition take_last_page_fault : P (option PageFaultInfo) :=
  was_valid ← read_static LAST_PF_VALID;
  if was_valid =? 0 then mret None
  else
    write_static LAST_PF_VALID 0 ;;
    addr ← read_static LAST_PF_ADDR;
    err ← read_static LAST_PF_ERR;
    rip ← read_static LAST_PF_RIP;
    rsp ← read_static LAST_PF_RSP;
    isu ← read_static LAST_PF_IS_USER;
    mret (Some (mkPageFaultInfo addr err rip rsp (negb (isu =? 0)))).

Definition pf_guard_try_fixup : P (option Z) :=
  active ← read_static PF_GUARD_ACTIVE;
  if active =? 0 then mret None
  else
    rip ← read_static PF_GUARD_RECOVER_RIP;
    if rip =? 0 then mret None
    else
      write_static PF_GUARD_HIT 1 ;;
      write_static PF_GUARD_ACTIVE 0 ;;
      mret (Some rip).

Definition read_rip_rsp_rbp : P (Z * Z * Z) :=
  s ← get;
  put {| s with pg_context := fun n => pg_context s (S n) |} ;;
  mret (pg_context s 0%nat).

(** interrupts.rs [page_fault_handler]: the instruction pointer to resume at.
    RIP and RSP are those of the interrupted code, which the CPU pushed in the
    interrupt stack frame: the next context.  Without a fixup the handler
    halts. *)
Definition page_fault_handler (cr2 error_code : Z) : P Z :=
  '(rip, rsp, _) ← read_rip_rsp_rbp;
  record_page_fault (mkPageFaultInfo cr2 error_code rip rsp false) ;;
  r ← pf_guard_try_fixup;
  match r with
  | Some recover_rip => lift_res (x86_VirtAddr_new recover_rip)
  | None => panic_with (PanicMsg "#PF unguarded")
  end.

(** ** Guarded accesses

    A load or store of the kernel through the current root, or the error code
    of the page fault it raises: bit 0 for a protection violation (a write to a
    read-only page), bit 1 for a write.  The eight bytes lie in one page, as those
    of an aligned word do; the theorems are about aligned addresses.  An address that is not canonical raises
    #GP, whose handler halts. *)
Definition gp_check (va : Z) : P unit :=
  if canonicalize_virt va =? va then mret tt else panic_with (PanicMsg "#GP").

Definition mov_store (va v : Z) : P (option Z) :=
  gp_check va ;;
  s ← get;
  match hw_walk (pg_mem s) (pg_cr3 s) va with
  | None => mret (Some 0x2)
  | Some (f, fl) =>
      if x86_contains fl X86_WRITABLE then
        put {| s with pg_mem := hw_store (frame_number f * PAGE_SIZE + va mod PAGE_SIZE) v (pg_mem s) |} ;;
        mret None
      else mret (Some 0x3)
  end.
Definition mov_load (va : Z) : P (result Z Z) :=
  gp_check va ;;
  s ← get;
  match hw_walk (pg_mem s) (pg_cr3 s) va with
  | None => mret (Err 0x0)
  | Some (f, _) => mret (Okay (hw_load (pg_mem s) (frame_number f * PAGE_SIZE + va mod PAGE_SIZE)))
  end.

(** The handler resumes at the label [2:], the end of the block, which leaves
    the output register undefined. *)
Definition fault_in_block (va err : Z) : P Z :=
  page_fault_handler va err ;; mret 0.

(** The asm block of [guarded_user_rw_u64] and its variant with a root. *)
Definition guarded_rw_block (va v : Z) : P Z :=
  write_static PF_GUARD_RECOVER_RIP (im_recover im) ;;
  write_static PF_GUARD_ACTIVE 1 ;;
  f ← mov_store va v;
  match f with
  | Some err => fault_in_block va err
  | None =>
      l ← mov_load va;
      match l with
      | Err err => fault_in_block va err
      | Okay out => write_static PF_GUARD_ACTIVE 0 ;; mret out
      end
  end.

(** The asm block of [guarded_user_read_u64_in_root]. *)
Definition guarded_read_block (va : Z) : P Z :=
  write_static PF_GUARD_RECOVER_RIP (im_recover im) ;;
  write_static PF_GUARD_ACTIVE 1 ;;
  l ← mov_load va;
  match l with
  | Err err => fault_in_block va err
  | Okay out => write_static PF_GUARD_ACTIVE 0 ;; mret out
  end.

(** The code before and after the block. *)
Definition guard_reset : P unit :=
  write_static LAST_PF_VALID 0 ;; write_static PF_GUARD_HIT 0.
Definition guard_outcome (read_back : Z) : P (result Z PageFaultInfo) :=
  hit ← read_static PF_GUARD_HIT;
  if negb (hit =? 0) then
    r ← take_last_page_fault;
    match r with
    | Some info => mret (Err info)
    | None => mret (Err (mkPageFaultInfo 0 0 0 0 true))
    end
  else mret (Okay read_back).

Definition guarded_user_rw_u64 (ptr value : Z) : P (result Z PageFaultInfo) :=
  guard_reset ;;
  out ← guarded_rw_block ptr value;
  guard_outcome out.

(** ** CR3 *)

Definition Cr3_write (f : PhysFrame) : P unit := modify (fun s => {| s with pg_cr3 := f |}).

(** [PhysFrame::containing_address] of the checked start address. *)
Definition x86_frame (frame : PhysFrame) : res PhysFrame :=
  a ← PhysFrame_start_address frame;
  pa ← x86_PhysAddr_new (phys_u64 a);
  Ok (mkPhysFrame (pa / PAGE_SIZE)).

Definition paging_switch_address_space_quiet (frame : PhysFrame) : P unit :=
  f ← lift_res (x86_frame frame);
  Cr3_write f ;;
  s ← get;
  now ← lift_res (PhysFrame_start_address (pg_cr3 s));
  want ← lift_res (PhysFrame_start_address frame);
  if negb (phys_u64 now =? phys_u64 want)
  then panic_with (PanicMsg "CR3 write failed (readback mismatch)")
  else mret tt.

Definition paging_switch_address_space_quiet_nocheck (frame : PhysFrame) : P unit :=
  f ← lift_res (x86_frame frame);
  Cr3_write f.

Definition paging_guarded_user_rw_u64_in_root (user_root kernel_root : PhysFrame) (ptr value : Z) :
    P (result Z PageFaultInfo) :=
  guard_reset ;;
  paging_switch_address_space_quiet user_root ;;
  out ← guarded_rw_block ptr value;
  paging_switch_address_space_quiet kernel_root ;;
  guard_outcome out.

Definition guarded_user_read_u64_in_root (user_root kernel_root : PhysFrame) (ptr : Z) :
    P (result Z PageFaultInfo) :=
  guard_reset ;;
  paging_switch_address_space_quiet user_root ;;
  out ← guarded_read_block ptr;
  paging_switch_address_space_quiet kernel_root ;;
  guard_outcome out.

Definition set_ring3_demo_roots (user_root kernel_root : PhysFrame) : P unit :=
  u ← lift_res (PhysFrame_start_address user_root);
  modify (fun s => {| s with RING3_DEMO_USER_ROOT_PHYS := phys_u64 u |}) ;;
  k ← lift_res (PhysFrame_start_address kernel_root);
  modify (fun s => {| s with RING3_DEMO_KERNEL_ROOT_PHYS := phys_u64 k |}).

Definition peek_ring3_demo_roots (s : Paging M) : option (PhysFrame * PhysFrame) :=
  let u_phys := RING3_DEMO_USER_ROOT_PHYS s in
  let k_phys := RING3_DEMO_KERNEL_ROOT_PHYS s in
  if (u_phys =? 0) || (k_phys =? 0) then None
  else Some (PhysFrame_from_index (u_phys / PAGE_SIZE), PhysFrame_from_index (k_phys / PAGE_SIZE)).

(** ** Mappers

    The mapper of a root is the root: building it checks its addresses. *)
Definition phys_to_virt (phys : Z) : P Z :=
  s ← get;
  a ← lift_res (u64_add (PHYSICAL_MEMORY_OFFSET s) phys);
  lift_res (x86_VirtAddr_new a).

Definition active_level_4_table : P PhysFrame :=
  s ← get;
  a ← lift_res (PhysFrame_start_address (pg_cr3 s));
  phys_to_virt (phys_u64 a) ;;
  mret (pg_cr3 s).

Definition check_offset : P unit :=
  s ← get; lift_res (x86_VirtAddr_new (PHYSICAL_MEMORY_OFFSET s)) ;; mret tt.

Definition init_offset_page_table : P PhysFrame :=
  l4 ← active_level_4_table; check_offset ;; mret l4.

Definition init_offset_page_table_for_root (root : PhysFrame) : P PhysFrame :=
  a ← lift_res (PhysFrame_start_address root);
  pml4_phys ← lift_res (x86_PhysAddr_new (phys_u64 a));
  phys_to_virt pml4_phys ;;
  check_offset ;;
  mret root.

Definition translate_u64 (mapper : PhysFrame) (v : Z) : P Z :=
  a ← lift_res (x86_VirtAddr_new v);
  gets (fun s => default 0 (translate_addr (pg_mem s) mapper a)).

Definition entry_at (root : PhysFrame) (i : nat) : P PageTableEntry :=
  gets (fun s => read_entry (pg_mem s) root i).
Definition set_entry (root : PhysFrame) (i : nat) (e : PageTableEntry) : P unit :=
  modify (fun s => {| s with pg_mem := write_entry root i e (pg_mem s) |}).

(** [init]: the offset of the bootloader (the rest logs the memory map). *)
Definition paging_init (physical_memory_offset : Z) : P unit :=
  modify (fun s => {| s with PHYSICAL_MEMORY_OFFSET := physical_memory_offset |}) ;;
  lift_res (assert_no_physmap_user_slot_collision physical_memory_offset).

Definition debug_physmap_can_access_phys (phys : Z) : P bool :=
  if negb ENABLE_REAL_PAGING then mret true
  else
    virt ← phys_to_virt phys;
    mapper ← init_offset_page_table;
    gets (fun s => bool_decide (is_Some (translate_addr (pg_mem s) mapper virt))).

(** ** The checks before a switch *)

(** The physmap entries of the current and of the target root. *)
Definition preflight_physmap (target : PhysFrame) : P unit :=
  s ← get;
  let physmap_pml4 := pml4_index (PHYSICAL_MEMORY_OFFSET s) in
  cur ← active_level_4_table;
  a ← lift_res (PhysFrame_start_address target);
  tgt_phys ← lift_res (x86_PhysAddr_new (phys_u64 a));
  phys_to_virt tgt_phys ;;
  cur_e ← entry_at cur physmap_pml4;
  tgt_e ← entry_at target physmap_pml4;
  if is_unused cur_e || negb (present cur_e)
  then panic_with (PanicMsg "CR3 preflight failed (current physmap missing)")
  else if is_unused tgt_e || negb (present tgt_e)
  then panic_with (PanicMsg "CR3 preflight failed (target physmap missing)")
  else if x86_contains (pte_flags tgt_e) X86_USER_ACCESSIBLE
  then panic_with (PanicMsg "CR3 preflight failed (physmap user bit)")
  else if negb (pte_addr tgt_e =? pte_addr cur_e) || negb (pte_flags tgt_e =? pte_flags cur_e)
  then panic_with (PanicMsg "CR3 preflight failed (physmap pml4 mismatch)")
  else mret tt.

(** Two addresses translate to the expected ones. *)
Definition preflight_guard (mapper : PhysFrame) (code stack exp_code exp_stack : Z) (msg : string) : P unit :=
  code_phys ← translate_u64 mapper code;
  stack_phys ← translate_u64 mapper stack;
  if negb (code_phys =? exp_code) || negb (stack_phys =? exp_stack)
  then panic_with (PanicMsg msg) else mret tt.

(** The low guard exists in a kernel root only, the high guard in every root. *)
Definition preflight_guards (mapper : PhysFrame) : P unit :=
  s ← get;
  let code_low := GUARD_CODE_VIRT s in
  let stack_low := GUARD_STACK_VIRT s in
  let code_high := GUARD_CODE_HIGH_VIRT s in
  let stack_high := GUARD_STACK_HIGH_VIRT s in
  let exp_code := GUARD_CODE_PHYS s in
  let exp_stack := GUARD_STACK_PHYS s in
  let low_set := negb (code_low =? 0) && negb (stack_low =? 0) in
  let exp_set := negb (exp_code =? 0) && negb (exp_stack =? 0) in
  is_user_root ←
    (if low_set then
       code_phys ← translate_u64 mapper code_low;
       stack_phys ← translate_u64 mapper stack_low;
       mret ((code_phys =? 0) && (stack_phys =? 0))
     else mret false);
  (if negb is_user_root && low_set && exp_set
   then preflight_guard mapper code_low stack_low exp_code exp_stack
          "CR3 preflight failed (guard low mismatch)"
   else mret tt) ;;
  if negb (code_high =? 0) && negb (stack_high =? 0) && exp_set
  then preflight_guard mapper code_high stack_high exp_code exp_stack
         "CR3 preflight failed (guard high mismatch)"
  else mret tt.

Definition preflight_check_before_cr3_write (target : PhysFrame) : P unit :=
  if negb ENABLE_REAL_PAGING || negb ENABLE_CR3_PREFLIGHT then mret tt
  else
    s ← get;
    lift_res (assert_no_physmap_user_slot_collision (PHYSICAL_MEMORY_OFFSET s)) ;;
    target_phys ← lift_res (PhysFrame_start_address target);
    cur_phys ← lift_res (PhysFrame_start_address (pg_cr3 s));
    if phys_u64 cur_phys =? phys_u64 target_phys then mret tt
    else
      '(rip, rsp, rbp) ← read_rip_rsp_rbp;
      tgt_mapper ← init_offset_page_table_for_root target;
      rip_phys ← translate_u64 tgt_mapper rip;
      rsp_phys ← translate_u64 tgt_mapper rsp;
      translate_u64 tgt_mapper rbp ;;
      if (rip_phys =? 0) || (rsp_phys =? 0)
      then panic_with (PanicMsg "CR3 preflight failed (target missing RIP/RSP mapping)")
      else
        preflight_physmap target ;;
        preflight_guards tgt_mapper.

Definition configure_cr3_switch_safety (code_addr stack_addr : Z) : P unit :=
  if negb ENABLE_REAL_PAGING then modify (fun s => {| s with ALLOW_REAL_CR3_SWITCH := false |})
  else
    mapper ← init_offset_page_table;
    code_p ← translate_u64 mapper code_addr;
    stack_p ← translate_u64 mapper stack_addr;
    if (code_p =? 0) || (stack_p =? 0)
    then modify (fun s => {| s with ALLOW_REAL_CR3_SWITCH := false |})
    else
      modify (fun s => {| s with GUARD_CODE_VIRT := code_addr; GUARD_STACK_VIRT := stack_addr;
                                 GUARD_CODE_PHYS := code_p; GUARD_STACK_PHYS := stack_p |}) ;;
      code_high ← lift_res (kernel_high_alias_of_low code_addr);
      modify (fun s => {| s with GUARD_CODE_HIGH_VIRT := code_high |}) ;;
      stack_high ← lift_res (kernel_high_alias_of_low stack_addr);
      modify (fun s => {| s with GUARD_STACK_HIGH_VIRT := stack_high |}) ;;
      modify (fun s => {| s with ALLOW_REAL_CR3_SWITCH := true |}).

Definition paging_switch_address_space (root : option PhysFrame) : P unit :=
  match root with
  | Some frame =>
      s ← get;
      if negb (ALLOW_REAL_CR3_SWITCH s) then mret tt
      else
        preflight_check_before_cr3_write frame ;;
        paging_switch_address_space_quiet frame
  | None => mret tt
  end.

Definition paging_debug_translate_in_root (root : PhysFrame) (virt : Z) : P unit :=
  if negb ENABLE_REAL_PAGING then mret tt
  else
    init_offset_page_table_for_root root ;;
    lift_res (x86_VirtAddr_new virt) ;;
    mret tt.

(** ** The high alias of the kernel *)

(** One iteration of the copy loop. *)
Definition alias_copy (pml4 : PhysFrame) (src : nat) : P unit :=
  e ← entry_at pml4 src;
  if is_unused e then mret tt
  else if x86_contains (pte_flags e) X86_USER_ACCESSIBLE
  then panic_with (PanicMsg "kernel alias source contains USER_ACCESSIBLE")
  else set_entry pml4 (KERNEL_ALIAS_DST_PML4_BASE_INDEX + src)%nat e.

(** The test function gives the expected value through its alias when both
    addresses lead to the same code. *)
Definition run_kernel_high_alias_exec_test : P unit :=
  high ← lift_res (kernel_high_alias_of_low (im_exec_test im));
  kernel_access high ;;
  s ← get;
  if decide (fst <$> hw_walk (pg_mem s) (pg_cr3 s) high
             = fst <$> hw_walk (pg_mem s) (pg_cr3 s) (im_exec_test im))
  then mret tt else panic_with (PanicMsg "kernel high-alias exec test failed").

Definition install_kernel_high_alias_from_current : P unit :=
  if negb ENABLE_REAL_PAGING then mret tt
  else
    read_rip_rsp_rbp ;;
    let copy_count := KERNEL_ALIAS_MAX_COPY_COUNT in
    modify (fun s => {| s with ALIAS_COPY_COUNT := copy_count |}) ;;
    pml4 ← active_level_4_table;
    for_each (seq 0 copy_count) (alias_copy pml4) ;;
    Cr3_write pml4 ;;
    s ← get;
    (if negb (GUARD_CODE_VIRT s =? 0) && negb (GUARD_STACK_VIRT s =? 0)
        && negb (GUARD_CODE_PHYS s =? 0) && negb (GUARD_STACK_PHYS s =? 0) then
       code_high ← lift_res (kernel_high_alias_of_low (GUARD_CODE_VIRT s));
       stack_high ← lift_res (kernel_high_alias_of_low (GUARD_STACK_VIRT s));
       mapper ← init_offset_page_table;
       preflight_guard mapper code_high stack_high (GUARD_CODE_PHYS s) (GUARD_STACK_PHYS s)
         "kernel high-alias mapping mismatch"
     else mret tt) ;;
    if ENABLE_HIGH_ALIAS_EXEC_TEST then run_kernel_high_alias_exec_test else mret tt.

(** [enter_kernel_high_alias]: the entry address and the stack registers of the
    kernel behind the alias. *)
Definition enter_kernel_high_alias (entry : Z) : P (Z * Z * Z) :=
  high_entry ← lift_res (kernel_high_alias_of_low entry);
  '(_, rsp_low, rbp_low) ← read_rip_rsp_rbp;
  rsp_high ← lift_res (kernel_high_alias_of_low rsp_low);
  rbp_high ← lift_res (kernel_high_alias_of_low rbp_low);
  mret (high_entry, Z.land rsp_high (u64_not 0xF), rbp_high).

(** ** Map and unmap *)

Definition KernelFrameAllocator_allocate_frame : ST PhysicalMemoryManager (option Z) :=
  fun pm => PhysicalMemoryManager_allocate_frame pm.

(** Running on the paging state alone, or on its memory alone. *)
Definition on_paging {X} (m : P X) : ST (PhysicalMemoryManager * Paging M) X :=
  zoom snd (fun pa a => (pa.1, a)) m.

Definition mapper_of (root : option PhysFrame) : P PhysFrame :=
  match root with
  | Some r => init_offset_page_table_for_root r
  | None => init_offset_page_table
  end.

(** The address of a Map: the user slot when the flags say so. *)
Definition map_address (virt xflags : Z) : res Z :=
  if x86_contains xflags X86_USER_ACCESSIBLE then u64_add USER_SPACE_BASE virt else Ok virt.

(** The address of an Unmap: the user slot when a root is given. *)
Definition unmap_address (page : VirtPage) (root : option PhysFrame) : res Z :=
  va ← VirtPage_start_address page;
  match root with
  | Some _ => u64_add USER_SPACE_BASE (virt_u64 va)
  | None => Ok (virt_u64 va)
  end.

Definition map_with_mapper (page : VirtPage) (frame : PhysFrame) (flags : PageFlags) (root : option PhysFrame) :
    ST (PhysicalMemoryManager * Paging M) (result unit PagingApplyError) :=
  page_addr ← lift_res (VirtPage_start_address page);
  frame_addr ← lift_res (PhysFrame_start_address frame);
  let xflags := to_x86_flags flags in
  virt ← lift_res (map_address (virt_u64 page_addr) xflags);
  virt ← lift_res (x86_VirtAddr_new virt);
  lift_res (enforce_user_mapping_policy virt xflags) ;;
  phys ← lift_res (x86_PhysAddr_new (phys_u64 frame_addr));
  let frame4k := mkPhysFrame (phys / PAGE_SIZE) in
  if ENABLE_REAL_PAGING then
    mapper ← on_paging (mapper_of root);
    r ← zoom (fun pa => (pa.1, pg_mem pa.2))
             (fun pa pm => let s := pa.2 in (pm.1, {| s with pg_mem := pm.2 |}))
             (map_to KernelFrameAllocator_allocate_frame mapper (PAGE_SIZE * (virt / PAGE_SIZE)) frame4k xflags);
    mret (match r with Okay _ => Okay tt | Err _ => Err MapFailed end)
  else mret (Okay tt).

Definition unmap_with_mapper (page : VirtPage) (root : option PhysFrame) :
    ST (PhysicalMemoryManager * Paging M) (result unit PagingApplyError) :=
  virt ← lift_res (unmap_address page root);
  virt ← lift_res (x86_VirtAddr_new virt);
  if ENABLE_REAL_PAGING then
    mapper ← on_paging (mapper_of root);
    r ← on_paging (zoom pg_mem (fun s m => {| s with pg_mem := m |})
          (unmap mapper (PAGE_SIZE * (virt / PAGE_SIZE))));
    mret (match r with Okay _ => Okay tt | Err _ => Err UnmapFailed end)
  else mret (Okay tt).

Definition paging_apply_mem_action (action : MemAction) (root : option PhysFrame) :
    ST (PhysicalMemoryManager * Paging M) (result unit PagingApplyError) :=
  match action with
  | Map page frame flags => map_with_mapper page frame flags root
  | Unmap page => unmap_with_mapper page root
  end.

(** ** The root of a user *)

(** One iteration of a copy loop; [msg] when the entry is for users. *)
Definition copy_entry (cur new : PhysFrame) (msg : string) (i : nat) : P unit :=
  e ← entry_at cur i;
  if is_unused e then mret tt
  else if x86_contains (pte_flags e) X86_USER_ACCESSIBLE then panic_with (PanicMsg msg)
  else set_entry new i e.

Definition paging_init_user_pml4_from_current (new_root : PhysFrame) : P unit :=
  s ← get;
  let cur := pg_cr3 s in
  cur_phys ← lift_res (PhysFrame_start_address cur);
  new_phys ← lift_res (PhysFrame_start_address new_root);
  lift_res (u64_add (PHYSICAL_MEMORY_OFFSET s) (phys_u64 cur_phys)) ;;
  lift_res (u64_add (PHYSICAL_MEMORY_OFFSET s) (phys_u64 new_phys)) ;;
  let physmap_pml4 := pml4_index (PHYSICAL_MEMORY_OFFSET s) in
  lift_res (assert_no_physmap_user_slot_collision (PHYSICAL_MEMORY_OFFSET s)) ;;
  let alias_base := KERNEL_ALIAS_DST_PML4_BASE_INDEX in
  let alias_cnt := if (ALIAS_COPY_COUNT s =? 0)%nat then KERNEL_ALIAS_MAX_COPY_COUNT
                   else Nat.min (ALIAS_COPY_COUNT s) KERNEL_ALIAS_MAX_COPY_COUNT in
  for_each (seq 0 512) (fun i => set_entry new_root i pte_unused) ;;
  for_each (seq physmap_pml4 (physmap_copy_end physmap_pml4 - physmap_pml4))
    (copy_entry cur new_root "physmap pml4 entry contains USER_ACCESSIBLE") ;;
  e ← entry_at new_root physmap_pml4;
  if is_unused e || negb (present e)
  then panic_with (PanicMsg "init_user_pml4_from_current: physmap entry missing (post-check)")
  else
    for_each (seq 256 256) (copy_entry cur new_root "kernel pml4 entry contains USER_ACCESSIBLE") ;;
    (* [if idx >= 512 { break; }] *)
    for_each (filter (fun idx => idx < 512)%nat ((fun i => alias_base + i)%nat <$> seq 0 alias_cnt))
      (copy_entry cur new_root "alias window pml4 entry contains USER_ACCESSIBLE") ;;
    set_entry new_root USER_PML4_INDEX pte_unused.

(** ** The interface of the kernel *)

Definition paging_ops : ArchOps (Paging M) := {|
  Cr3_read := pg_cr3;
  switch_address_space := paging_switch_address_space;
  switch_address_space_quiet := paging_switch_address_space_quiet;
  apply_mem_action_with_mapper := paging_apply_mem_action;
  guarded_user_rw_u64_in_root := paging_guarded_user_rw_u64_in_root;
  debug_translate_in_root := paging_debug_translate_in_root;
  init_user_pml4_from_current := paging_init_user_pml4_from_current |}.

End paging.
