(* ===== verification/PagingInv.v ===== *)
(** * Paging implements the interface of the kernel

    [paging_ready] is the state of arch/paging.rs the kernel runs in: the user
    roots share the kernel's upper half and the physical-memory window, their
    tables are separate, and the addresses the kernel executes from stay mapped
    in every root.  The operations of [Paging] then satisfy [ArchLaws]. *)

From stdpp Require Import base list option gmap sets strings.
From Stdlib Require Import ZArith Lia.
From S2P Require Import Prelude Addr AddressSpace FrameAlloc KTypes KState ArchIface X86 Paging.
#[local] Open Scope Z_scope.

Section ready.
Context {M : Type} `{X86Laws M} (im : Image) (poff : Z) (boot : gset Z).

(** Views of the memory [m]. *)
Definition slot (m : M) : PhysFrame -> nat -> gmap Z Leaf := slot_of below m.
Definition tabs (m : M) : PhysFrame -> nat -> PhysFrame -> Prop := tables_of tables m.

(** The entries a user root shares with the kernel's. *)
Definition shared (j : nat) : bool :=
  ((pml4_index poff <=? j) && (j <? physmap_copy_end (pml4_index poff)) || (256 <=? j))%nat.

(** The physical-memory window: in the lower half, in a slot other than the
    kernel's (index 3 in the log that arch/virt_layout.rs quotes), and the four
    slots copied from there on away from the user slot, which
    [assert_no_physmap_user_slot_collision] checks. *)
Record layout_ok : Prop := {
  lo_off : 0 <= poff < 2 ^ 47;
  lo_physmap : (1 <= pml4_index poff < 256)%nat;
  lo_user : ~ (pml4_index poff <= USER_PML4_INDEX < physmap_copy_end (pml4_index poff))%nat }.

(** A frame the window reaches. *)
Definition window_ok (f : PhysFrame) : Prop :=
  0 <= frame_number f /\ poff + frame_number f * PAGE_SIZE < 2 ^ 47.

Record mem_ready (kr : PhysFrame) (us : list PhysFrame) (m : M) : Prop := {
  mr_window r : r ∈ kr :: us -> window_ok r;
  mr_nodup : NoDup (kr :: us);
  mr_physmap : present (read_entry m kr (pml4_index poff)) = true;
  mr_shared j : (j < 512)%nat -> shared j = true ->
    x86_contains (pte_flags (read_entry m kr j)) X86_USER_ACCESSIBLE = false;
  mr_copy u j : u ∈ us -> (j < 512)%nat -> j <> USER_PML4_INDEX ->
    read_entry m u j = if shared j then read_entry m kr j else pte_unused;
  mr_user u : u ∈ us -> present (read_entry m u USER_PML4_INDEX) = true \/
    read_entry m u USER_PML4_INDEX = pte_unused;
  mr_zero : present (read_entry m kr 0) = true;
  (** no root is below a root, and the tables of the user slots are separate *)
  mr_root r j : r ∈ kr :: us -> (j < 512)%nat -> ~ tabs m kr j r;
  mr_root_user r u : r ∈ kr :: us -> u ∈ us -> ~ tabs m u USER_PML4_INDEX r;
  mr_sep u j g : u ∈ us -> (j < 512)%nat -> tabs m u USER_PML4_INDEX g -> ~ tabs m kr j g;
  mr_users u v g : u ∈ us -> v ∈ us -> u <> v ->
    tabs m u USER_PML4_INDEX g -> ~ tabs m v USER_PML4_INDEX g;
  (** the other entries of the kernel alias entry 0 or are separate from it *)
  mr_zero_sep j : (j < 512)%nat -> present (read_entry m kr j) = true ->
    pte_addr (read_entry m kr j) = pte_addr (read_entry m kr 0) \/
    forall g, tabs m kr j g -> ~ tabs m kr 0 g;
  (** only the bootloader made huge pages *)
  mr_small p l : p ∉ boot -> slot m kr 0 !! p = Some l -> leaf_4k l = true;
  mr_user_small u p l : u ∈ us -> slot m u USER_PML4_INDEX !! p = Some l -> leaf_4k l = true }.

(** The address [va] of the alias window leads to [pa] in the kernel's root, and
    the kernel does not unmap it. *)
Definition reaches (m : M) (kr : PhysFrame) (va pa : Z) : Prop :=
  canonical va /\ (508 <= pml4_index va < 512)%nat /\
  (exists l, slot m kr (pml4_index va) !! slot_page va = Some l /\
     frame_number (leaf_frame l) * PAGE_SIZE + va mod PAGE_SIZE = pa) /\
  (pte_addr (read_entry m kr (pml4_index va)) = pte_addr (read_entry m kr 0) -> slot_page va ∈ boot).

(** A context to switch roots from. *)
Definition context_ok (m : M) (kr : PhysFrame) (c : Z * Z * Z) : Prop :=
  let '(rip, rsp, rbp) := c in
  (exists pa, pa <> 0 /\ reaches m kr rip pa) /\ (exists pa, pa <> 0 /\ reaches m kr rsp pa) /\
  canonical rbp.

(** The low guards lie in the alias source and outside the slots a user root
    shares, the high guards lead to the expected addresses. *)
Record guards_ok (m : M) (kr : PhysFrame) (s : Paging M) : Prop := {
  go_code : canonical (GUARD_CODE_VIRT s) /\ (pml4_index (GUARD_CODE_VIRT s) < 4)%nat /\
    shared (pml4_index (GUARD_CODE_VIRT s)) = false;
  go_stack : canonical (GUARD_STACK_VIRT s) /\ (pml4_index (GUARD_STACK_VIRT s) < 4)%nat /\
    shared (pml4_index (GUARD_STACK_VIRT s)) = false;
  go_high : GUARD_CODE_PHYS s = 0 \/
    (reaches m kr (GUARD_CODE_HIGH_VIRT s) (GUARD_CODE_PHYS s) /\
     reaches m kr (GUARD_STACK_HIGH_VIRT s) (GUARD_STACK_PHYS s)) }.

Record paging_ready (kr : PhysFrame) (us : list PhysFrame) (s : Paging M) : Prop := {
  pr_layout : layout_ok;
  pr_off : PHYSICAL_MEMORY_OFFSET s = poff;
  pr_cr3 : pg_cr3 s ∈ kr :: us;
  pr_mem : mem_ready kr us (pg_mem s);
  pr_context n : context_ok (pg_mem s) kr (pg_context s n);
  pr_static k : exists p pa, guard_u64_ptr (im_static im k) = Ok p /\ reaches (pg_mem s) kr p pa;
  pr_recover : canonical (im_recover im) /\ im_recover im <> 0;
  pr_guards : guards_ok (pg_mem s) kr s }.

(** ** What the kernel sees *)

Definition of_x86_flags (fl : Z) : PageFlags :=
  mkPageFlags (Z.land fl
    (bits (PageFlags_union (PageFlags_union (PageFlags_union PRESENT WRITABLE) USER) NO_EXEC))).
Definition leaf_view (l : Leaf) : PhysFrame * PageFlags := (leaf_frame l, of_x86_flags (leaf_flags l)).

Definition paging_user_map (s : Paging M) (r : PhysFrame) : gmap Z (PhysFrame * PageFlags) :=
  leaf_view <$> slot (pg_mem s) r USER_PML4_INDEX.
Definition paging_kern_map (kr : PhysFrame) (s : Paging M) : gmap Z (PhysFrame * PageFlags) :=
  leaf_view <$> filter (fun pl => pl.1 ∉ boot) (slot (pg_mem s) kr 0).
(** The frames of the roots and of the tables under them. *)
Definition root_tables (kr : PhysFrame) (us : list PhysFrame) (m : M) (g : PhysFrame) : Prop :=
  g ∈ kr :: us \/ (exists j, (j < 512)%nat /\ tabs m kr j g) \/
  (exists u, u ∈ us /\ tabs m u USER_PML4_INDEX g).
Definition paging_tables (kr : PhysFrame) (us : list PhysFrame) (s : Paging M) : PhysFrame -> Prop :=
  root_tables kr us (pg_mem s).

(** ** Addresses *)

Lemma low_canonical a : 0 <= a < 2 ^ 47 -> canonical a.
Proof. intros Ha. left. lia. Qed.

Lemma VirtAddr_new_Ok `{X86Addr} a : canonical a -> x86_VirtAddr_new a = Ok a.
Proof. intros Ha. by apply x86_virt_canonical, canonicalize_canonical. Qed.

Lemma window_frame f : 0 <= poff -> window_ok f -> frame_ok f.
Proof. unfold window_ok, frame_ok, PAGE_SIZE. lia. Qed.

Lemma frame_start f : frame_ok f -> PhysFrame_start_address f = Ok (mkPhysAddr (frame_number f * PAGE_SIZE)).
Proof.
  unfold frame_ok, PhysFrame_start_address, PAGE_SIZE. intros Hf.
  by rewrite u64_mul_Ok by (unfold u64_max; lia).
Qed.

Lemma PhysAddr_new_Ok `{X86Addr} f : frame_ok f -> x86_PhysAddr_new (frame_number f * PAGE_SIZE) = Ok (frame_number f * PAGE_SIZE).
Proof.
  unfold frame_ok, PAGE_SIZE. intros Hf. apply x86_phys_52. lia.
Qed.

Lemma frame_div f : mkPhysFrame (frame_number f * PAGE_SIZE / PAGE_SIZE) = f.
Proof. destruct f. simpl. f_equal. apply Z.div_mul. done. Qed.

Lemma x86_frame_Ok f : frame_ok f -> x86_frame f = Ok f.
Proof.
  intros Hf. unfold x86_frame. rewrite frame_start, Ok_bind by done. simpl phys_u64.
  rewrite PhysAddr_new_Ok, Ok_bind by done. by rewrite frame_div.
Qed.

(** ** Running the small operations *)

Lemma check_offset_Ok (s : Paging M) : layout_ok -> PHYSICAL_MEMORY_OFFSET s = poff -> check_offset s = Ok (tt, s).
Proof.
  intros Hl Ho. unfold check_offset. rewrite bind_get, Ho, VirtAddr_new_Ok; [done|].
  apply low_canonical, Hl.
Qed.

Lemma phys_to_virt_Ok (s : Paging M) f :
  layout_ok -> PHYSICAL_MEMORY_OFFSET s = poff -> window_ok f ->
  phys_to_virt (frame_number f * PAGE_SIZE) s = Ok (poff + frame_number f * PAGE_SIZE, s).
Proof.
  intros [Hl _ _] Ho [Hf0 Hf]. unfold phys_to_virt. rewrite bind_get, Ho. unfold PAGE_SIZE in *.
  rewrite u64_add_Ok by (unfold u64_max; lia). rewrite bind_lift_Ok, VirtAddr_new_Ok; [done|].
  apply low_canonical. lia.
Qed.

Lemma for_root_Ok (s : Paging M) r :
  layout_ok -> PHYSICAL_MEMORY_OFFSET s = poff -> window_ok r ->
  init_offset_page_table_for_root r s = Ok (r, s).
Proof.
  intros Hl Ho Hr. pose proof (window_frame r (proj1 (lo_off Hl)) Hr) as Hf.
  unfold init_offset_page_table_for_root. rewrite frame_start, bind_lift_Ok by done. simpl phys_u64.
  rewrite PhysAddr_new_Ok, bind_lift_Ok by done.
  rewrite (bind_Ok _ _ _ _ _ (phys_to_virt_Ok s r Hl Ho Hr)).
  by rewrite (bind_Ok _ _ _ _ _ (check_offset_Ok s Hl Ho)).
Qed.

Lemma active_table_Ok (s : Paging M) :
  layout_ok -> PHYSICAL_MEMORY_OFFSET s = poff -> window_ok (pg_cr3 s) ->
  active_level_4_table s = Ok (pg_cr3 s, s).
Proof.
  intros Hl Ho Hr. pose proof (window_frame _ (proj1 (lo_off Hl)) Hr) as Hf.
  unfold active_level_4_table. rewrite bind_get, frame_start, bind_lift_Ok by done. simpl phys_u64.
  by rewrite (bind_Ok _ _ _ _ _ (phys_to_virt_Ok s _ Hl Ho Hr)).
Qed.

Lemma offset_table_Ok (s : Paging M) :
  layout_ok -> PHYSICAL_MEMORY_OFFSET s = poff -> window_ok (pg_cr3 s) ->
  init_offset_page_table s = Ok (pg_cr3 s, s).
Proof.
  intros Hl Ho Hr. unfold init_offset_page_table.
  rewrite (bind_Ok _ _ _ _ _ (active_table_Ok s Hl Ho Hr)).
  by rewrite (bind_Ok _ _ _ _ _ (check_offset_Ok s Hl Ho)).
Qed.

Lemma collision_Ok : layout_ok -> assert_no_physmap_user_slot_collision poff = Ok tt.
Proof.
  intros [_ Hp Hu]. unfold assert_no_physmap_user_slot_collision.
  revert Hp Hu. generalize (pml4_index poff) as n. intros n Hp Hu.
  rewrite (proj2 (Nat.leb_gt 256 USER_PML4_INDEX)) by (unfold USER_PML4_INDEX; lia).
  assert (Hn : n <> USER_PML4_INDEX).
  { intros ->. apply Hu. unfold physmap_copy_end, PHYSMAP_PML4_COPY_COUNT. lia. }
  rewrite (proj2 (Nat.eqb_neq _ _) Hn).
  destruct (Nat.ltb_spec n 256), (Nat.leb_spec n USER_PML4_INDEX),
    (Nat.ltb_spec USER_PML4_INDEX (physmap_copy_end n)); simpl; try done.
  destruct Hu. done.
Qed.

Lemma quiet_Ok (s : Paging M) r :
  frame_ok r -> paging_switch_address_space_quiet r s = Ok (tt, {| s with pg_cr3 := r |}).
Proof.
  intros Hr. unfold paging_switch_address_space_quiet. rewrite x86_frame_Ok, bind_lift_Ok by done.
  unfold Cr3_write. rewrite bind_modify, bind_get. simpl pg_cr3.
  rewrite !frame_start, !bind_lift_Ok by done. simpl. by rewrite Z.eqb_refl.
Qed.

Lemma translate_Ok (s : Paging M) r va :
  canonical va -> translate_u64 r va s = Ok (default 0 (translate_addr (pg_mem s) r va), s).
Proof. intros Ha. unfold translate_u64. by rewrite VirtAddr_new_Ok. Qed.

(** ** Memories that agree *)

(** Entry [j] of root [r] and everything under it is the same. *)
Definition slot_same (m m' : M) (r : PhysFrame) (j : nat) : Prop :=
  read_entry m' r j = read_entry m r j /\
  (present (read_entry m r j) = true -> table_same below tables m m' (pte_addr (read_entry m r j))).

Lemma slot_same_slot m m' r j : slot_same m m' r j -> slot m' r j = slot m r j.
Proof.
  intros [He Ht]. unfold slot, slot_of. rewrite He.
  destruct (present _); [|done]. by apply Ht.
Qed.

Lemma slot_same_tabs m m' r j g : slot_same m m' r j -> tabs m' r j g <-> tabs m r j g.
Proof.
  intros [He Ht]. unfold tabs, tables_of. rewrite He.
  split; intros [Hp Hg]; (split; [done|]); by apply (Ht Hp).
Qed.

(** The roots [kr] and [us] see the same. *)
Record roots_same (kr : PhysFrame) (us : list PhysFrame) (m m' : M) : Prop := {
  rs_kernel j : (j < 512)%nat -> slot_same m m' kr j;
  rs_user u : u ∈ us -> slot_same m m' u USER_PML4_INDEX;
  rs_copy u j : u ∈ us -> (j < 512)%nat -> j <> USER_PML4_INDEX -> read_entry m' u j = read_entry m u j }.

Lemma reaches_kernel kr m m' va pa :
  (forall j, (j < 512)%nat -> slot_same m m' kr j) -> reaches m kr va pa -> reaches m' kr va pa.
Proof.
  intros Hs (Hc & Hi & (l & Hl & Hpa) & Hb).
  assert (H512 : (pml4_index va < 512)%nat) by lia.
  split; [done|]. split; [done|]. split.
  - exists l. by rewrite (slot_same_slot _ _ _ _ (Hs _ H512)).
  - rewrite (proj1 (Hs _ H512)), (proj1 (Hs 0%nat ltac:(lia))). done.
Qed.

Lemma user_lt_512 : (USER_PML4_INDEX < 512)%nat.
Proof. unfold USER_PML4_INDEX. lia. Qed.

Lemma pml4_index_lt va : (pml4_index va < 512)%nat.
Proof.
  unfold pml4_index. rewrite (land_mask_mod' _ 9 0x1ff) by lia.
  pose proof (Z.mod_pos_bound (Z.shiftr va 39) (2 ^ 9)). lia.
Qed.

Lemma mem_ready_same kr us m m' : mem_ready kr us m -> roots_same kr us m m' -> mem_ready kr us m'.
Proof.
  intros Hr [Hk Hu Hc]. destruct Hr. pose proof user_lt_512 as H512.
  assert (Hz : (0 < 512)%nat) by lia.
  assert (Tk : forall j g, (j < 512)%nat -> tabs m' kr j g <-> tabs m kr j g)
    by (intros; apply slot_same_tabs; auto).
  assert (Tu : forall u g, u ∈ us -> tabs m' u USER_PML4_INDEX g <-> tabs m u USER_PML4_INDEX g)
    by (intros; apply slot_same_tabs; auto).
  split; try done.
  - by rewrite (proj1 (Hk _ (pml4_index_lt poff))).
  - intros j Hj. rewrite (proj1 (Hk _ Hj)). auto.
  - intros u j Hin Hj Hne. rewrite Hc, (proj1 (Hk _ Hj)) by done. auto.
  - intros u Hin. rewrite (proj1 (Hu _ Hin)). auto.
  - by rewrite (proj1 (Hk _ Hz)).
  - intros r j Hin Hj. rewrite Tk by done. auto.
  - intros r u Hr Hin. rewrite Tu by done. auto.
  - intros u j g Hin Hj. rewrite Tu, Tk by done. by apply mr_sep0.
  - intros u v g Hin Hv Hne. rewrite !Tu by done. by apply mr_users0.
  - intros j Hj. rewrite (proj1 (Hk _ Hj)), (proj1 (Hk _ Hz)). intros Hp.
    destruct (mr_zero_sep0 j Hj Hp) as [?|Hs]; [by left|right].
    intros g. rewrite !Tk by done. auto.
  - intros p l. rewrite (slot_same_slot _ _ _ _ (Hk _ Hz)). by apply mr_small0.
  - intros u p l Hin. rewrite (slot_same_slot _ _ _ _ (Hu _ Hin)). eauto.
Qed.

(** What the operations of the kernel may change. *)
Record pg_frame (s s' : Paging M) : Prop := {
  pf_eq : s' = {| s with pg_mem := pg_mem s'; pg_cr3 := pg_cr3 s'; pg_context := pg_context s';
                         pg_static := pg_static s' |};
  pf_context : exists k, forall n, pg_context s' n = pg_context s (k + n)%nat }.

#[export] Instance pg_frame_preorder : PreOrder pg_frame.
Proof.
  split.
  - intros []. split; [done|]. by exists 0%nat.
  - intros s1 s2 s3 [H12 [k1 C1]] [H23 [k2 C2]]. split; [rewrite H23, H12; done|].
    exists (k1 + k2)%nat. intros n. rewrite C2, C1. f_equal. lia.
Qed.

Lemma ready_frame kr us us' s s' :
  paging_ready kr us s -> pg_frame s s' -> pg_cr3 s' ∈ kr :: us' -> mem_ready kr us' (pg_mem s') ->
  (forall va pa, reaches (pg_mem s) kr va pa -> reaches (pg_mem s') kr va pa) ->
  paging_ready kr us' s'.
Proof.
  intros [Hl Ho _ _ Hc Hst Hre [Hg1 Hg2 Hg3]] [Hf [k Hk]] Hcr Hm Hreach. split; try done.
  - by rewrite Hf.
  - intros n. rewrite Hk. specialize (Hc (k + n)%nat). unfold context_ok in *.
    destruct (pg_context s (k + n)%nat) as [[rip rsp] rbp]. naive_solver.
  - intros j. destruct (Hst j) as (p & pa & ? & ?). eauto.
  - rewrite Hf. split; simpl; try done. naive_solver.
Qed.

(** Only the registers and the fault statics changed. *)
Lemma ready_registers kr us s s' :
  paging_ready kr us s -> pg_frame s s' -> pg_cr3 s' ∈ kr :: us -> pg_mem s' = pg_mem s ->
  paging_ready kr us s'.
Proof.
  intros Hr Hf Hc Hm. eapply ready_frame; [done|done|done|rewrite Hm; apply Hr|by rewrite Hm].
Qed.

Lemma ready_roots_same kr us s s' :
  paging_ready kr us s -> pg_frame s s' -> pg_cr3 s' ∈ kr :: us ->
  roots_same kr us (pg_mem s) (pg_mem s') -> paging_ready kr us s'.
Proof.
  intros Hr Hf Hc Hs. eapply ready_frame; [done|done|done| |].
  - eapply mem_ready_same; [apply Hr|done].
  - intros va pa. apply reaches_kernel, Hs.
Qed.

Lemma roots_same_refl kr us m : roots_same kr us m m.
Proof. split; [|intros u _|]; try done. Qed.

(** The maps the kernel sees follow. *)
Lemma views_same kr us s s' :
  roots_same kr us (pg_mem s) (pg_mem s') ->
  (forall u, u ∈ us -> paging_user_map s' u = paging_user_map s u) /\
  paging_kern_map kr s' = paging_kern_map kr s /\
  (forall f, paging_tables kr us s' f -> paging_tables kr us s f).
Proof.
  intros [Hk Hu _]. split; [|split].
  - intros u Hin. unfold paging_user_map. by rewrite (slot_same_slot _ _ _ _ (Hu _ Hin)).
  - unfold paging_kern_map. by rewrite (slot_same_slot _ _ _ _ (Hk 0%nat ltac:(lia))).
  - intros f [?|[(j & Hj & Ht)|(u & Hin & Ht)]]; [by left|right; left|right; right].
    + exists j. split; [done|]. by rewrite slot_same_tabs in Ht by auto.
    + exists u. split; [done|]. by rewrite slot_same_tabs in Ht by auto.
Qed.

(** ** The window of the kernel in every root *)

Lemma shared_high j : (256 <= j)%nat -> shared j = true.
Proof. intros Hj. unfold shared. rewrite (proj2 (Nat.leb_le _ _) Hj). by rewrite orb_true_r. Qed.

Lemma slot_shared kr us m r j :
  mem_ready kr us m -> r ∈ kr :: us -> (j < 512)%nat -> j <> USER_PML4_INDEX -> shared j = true ->
  read_entry m r j = read_entry m kr j /\ slot m r j = slot m kr j.
Proof.
  intros Hm Hr Hj Hne Hs. assert (He : read_entry m r j = read_entry m kr j).
  { apply elem_of_cons in Hr as [->|Hr]; [done|]. by rewrite (mr_copy _ _ _ Hm r j Hr Hj Hne), Hs. }
  split; [done|]. unfold slot, slot_of. by rewrite He.
Qed.

Lemma reaches_in_root kr us m r va pa :
  mem_ready kr us m -> r ∈ kr :: us -> reaches m kr va pa ->
  is_Some (hw_walk m r va) /\ translate_addr m r va = Some pa.
Proof.
  intros Hm Hr (Hc & Hi & (l & Hl & Hpa) & _).
  destruct (slot_shared kr us m r (pml4_index va) Hm Hr) as [_ Hs]; [lia|unfold USER_PML4_INDEX; lia|apply shared_high; lia|].
  rewrite x86_walk, x86_translate by done. unfold slot in *. rewrite Hs, Hl. simpl. rewrite Hpa. eauto.
Qed.

Lemma kernel_access_Ok kr us (s : Paging M) va pa :
  paging_ready kr us s -> reaches (pg_mem s) kr va pa -> kernel_access va s = Ok (tt, s).
Proof.
  intros Hr Hv. destruct (reaches_in_root kr us (pg_mem s) (pg_cr3 s) va pa) as [[x Hx] _];
    [apply Hr|apply Hr|done|].
  unfold kernel_access. by rewrite bind_get, Hx.
Qed.

(** ** The fault statics *)

Definition set_static (k : PfStatic) (v : Z) (s : Paging M) : Paging M :=
  {| s with pg_static := fun j => if decide (j = k) then v else pg_static s j |}.

Lemma ready_static kr us k v s : paging_ready kr us s -> paging_ready kr us (set_static k v s).
Proof.
  intros Hr. eapply ready_registers; [done| |apply Hr|done]. split; [done|]. by exists 0%nat.
Qed.

Lemma read_static_Ok kr us s k :
  paging_ready kr us s -> read_static im k s = Ok (pg_static s k, s).
Proof.
  intros Hr. destruct (pr_static _ _ _ Hr k) as (p & pa & Hp & Hre). unfold read_static.
  rewrite Hp, bind_lift_Ok. by rewrite (bind_Ok _ _ _ _ _ (kernel_access_Ok _ _ _ _ _ Hr Hre)).
Qed.

Lemma write_static_Ok kr us s k v :
  paging_ready kr us s -> write_static im k v s = Ok (tt, set_static k v s).
Proof.
  intros Hr. destruct (pr_static _ _ _ Hr k) as (p & pa & Hp & Hre). unfold write_static.
  rewrite Hp, bind_lift_Ok. by rewrite (bind_Ok _ _ _ _ _ (kernel_access_Ok _ _ _ _ _ Hr Hre)).
Qed.

End ready.
