(* ===== verification/PagingLaws.v ===== *)
(** * The operations of paging on a ready state

    Each operation of arch/paging.rs the kernel calls, run from a state that
    satisfies [paging_ready]: it returns, it keeps the state ready, and it does
    to the maps what [ArchLaws] says.  The file ends with the instance. *)

From stdpp Require Import base list option gmap sets strings.
From Stdlib Require Import ZArith Lia.
From S2P Require Import Prelude Addr AddressSpace FrameAlloc KTypes KState ArchIface X86 Paging PagingInv.
#[local] Open Scope Z_scope.

Create HintDb paging.

Section laws.
Context {M : Type} `{X86Laws M} (im : Image) (poff : Z) (boot : gset Z).
Abbreviation ready := (paging_ready im poff boot).

(** ** Switching roots *)

Lemma ready_window kr us (s : Paging M) r : ready kr us s -> r ∈ kr :: us -> window_ok poff r.
Proof. intros Hs. apply Hs. Qed.

Lemma ready_root_frame kr us (s : Paging M) r : ready kr us s -> r ∈ kr :: us -> frame_ok r.
Proof.
  intros Hs Hr. eapply window_frame; [apply (lo_off _ (pr_layout _ _ _ _ _ _ Hs))|].
  by eapply ready_window.
Qed.

Lemma ready_window_cr3 kr us (s : Paging M) : ready kr us s -> window_ok poff (pg_cr3 s).
Proof. intros Hs. eapply ready_window; [done|apply Hs]. Qed.

(** A user root maps nothing of the alias source but the window. *)
Lemma user_low_unmapped kr us (m : M) u va :
  mem_ready poff boot kr us m -> u ∈ us -> canonical va -> (pml4_index va < 4)%nat ->
  shared poff (pml4_index va) = false -> translate_addr m u va = None.
Proof.
  intros Hm Hu Hc Hi Hsh. rewrite x86_translate by done.
  assert (He : read_entry m u (pml4_index va) = pte_unused).
  { rewrite (mr_copy _ _ _ _ _ Hm u) by (try done; unfold USER_PML4_INDEX; lia). by rewrite Hsh. }
  unfold slot_of. rewrite He. simpl. by rewrite lookup_empty.
Qed.

Lemma contains_unused e : present e = true -> is_unused e = false.
Proof.
  unfold present, is_unused, x86_contains, X86_PRESENT. intros Hp.
  destruct (Z.eqb_spec (pte_flags e) 0) as [E|]; [|by rewrite andb_false_r].
  by rewrite E in Hp.
Qed.

Lemma preflight_physmap_Ok kr us (s : Paging M) r :
  ready kr us s -> r ∈ kr :: us -> preflight_physmap r s = Ok (tt, s).
Proof.
  intros Hs Hr. pose proof (pr_layout _ _ _ _ _ _ Hs) as Hl. pose proof (pr_mem _ _ _ _ _ _ Hs) as Hm.
  assert (Hsh : forall r', r' ∈ kr :: us ->
    read_entry (pg_mem s) r' (pml4_index poff) = read_entry (pg_mem s) kr (pml4_index poff)).
  { intros r' Hr'. apply (slot_shared poff boot kr us (pg_mem s) r' (pml4_index poff) Hm Hr').
    - destruct Hl. lia.
    - intros E. apply (lo_user _ Hl). rewrite E. unfold physmap_copy_end, PHYSMAP_PML4_COPY_COUNT, USER_PML4_INDEX. lia.
    - unfold shared, physmap_copy_end, PHYSMAP_PML4_COPY_COUNT. destruct Hl as [_ Hp _].
      rewrite (proj2 (Nat.leb_le _ _)), (proj2 (Nat.ltb_lt _ _)) by lia. done. }
  unfold preflight_physmap. rewrite bind_get.
  rewrite (bind_Ok _ _ _ _ _ (active_table_Ok poff s Hl (pr_off _ _ _ _ _ _ Hs) (ready_window_cr3 _ _ _ Hs))).
  pose proof (ready_root_frame _ _ _ _ Hs Hr) as Hf.
  rewrite frame_start, bind_lift_Ok by done. simpl phys_u64. rewrite PhysAddr_new_Ok, bind_lift_Ok by done.
  rewrite (bind_Ok _ _ _ _ _ (phys_to_virt_Ok poff s r Hl (pr_off _ _ _ _ _ _ Hs) (ready_window _ _ _ _ Hs Hr))).
  unfold entry_at. rewrite !bind_gets, (pr_off _ _ _ _ _ _ Hs), (Hsh r Hr), (Hsh _ (pr_cr3 _ _ _ _ _ _ Hs)).
  pose proof (mr_physmap _ _ _ _ _ Hm) as Hp. rewrite contains_unused, Hp by done. cbn [orb negb].
  rewrite (mr_shared _ _ _ _ _ Hm), !Z.eqb_refl; [done|apply pml4_index_lt|].
  unfold shared, physmap_copy_end, PHYSMAP_PML4_COPY_COUNT. destruct Hl as [_ Hlp _].
  rewrite (proj2 (Nat.leb_le _ _)), (proj2 (Nat.ltb_lt _ _)) by lia. done.
Qed.

Lemma preflight_guard_Ok (s : Paging M) r code stack pc ps msg :
  canonical code -> canonical stack ->
  translate_addr (pg_mem s) r code = Some pc -> translate_addr (pg_mem s) r stack = Some ps ->
  preflight_guard r code stack pc ps msg s = Ok (tt, s).
Proof.
  intros Hc Hst Ec Es. unfold preflight_guard.
  rewrite (bind_Ok _ _ _ _ _ (translate_Ok s r code Hc)), (bind_Ok _ _ _ _ _ (translate_Ok s r stack Hst)).
  by rewrite Ec, Es; simpl; rewrite !Z.eqb_refl.
Qed.

Lemma preflight_guards_Ok kr us (s : Paging M) r :
  ready kr us s -> r ∈ us -> preflight_guards r s = Ok (tt, s).
Proof.
  intros Hs Hr. pose proof (pr_layout _ _ _ _ _ _ Hs) as Hl. pose proof (pr_mem _ _ _ _ _ _ Hs) as Hm.
  destruct (pr_guards _ _ _ _ _ _ Hs) as [(Cc & Ic & Sc) (Cs & Is & Ss) Hh].
  unfold preflight_guards. rewrite bind_get. cbv zeta.
  set (low := negb (GUARD_CODE_VIRT s =? 0) && negb (GUARD_STACK_VIRT s =? 0)).
  assert (Hu : (if low then
       code_phys ← translate_u64 r (GUARD_CODE_VIRT s);
       stack_phys ← translate_u64 r (GUARD_STACK_VIRT s);
       mret ((code_phys =? 0) && (stack_phys =? 0))
     else mret false) s = Ok (low, s)).
  { destruct low; [|done].
    rewrite (bind_Ok _ _ _ _ _ (translate_Ok s r _ Cc)), (bind_Ok _ _ _ _ _ (translate_Ok s r _ Cs)).
    by rewrite !(user_low_unmapped kr us) by done. }
  rewrite (bind_Ok _ _ _ _ _ Hu). replace (negb low && low) with false by by destruct low.
  simpl. rewrite bind_ret. destruct Hh as [->|[Rc Rs]].
  { simpl. by rewrite !andb_false_r. }
  match goal with |- (if ?b then _ else _) _ = _ => destruct b; [|done] end.
  assert (Hin : r ∈ kr :: us) by by right.
  destruct (reaches_in_root poff boot kr us (pg_mem s) r _ _ Hm Hin Rc) as [_ Ec].
  destruct (reaches_in_root poff boot kr us (pg_mem s) r _ _ Hm Hin Rs) as [_ Es].
  apply preflight_guard_Ok; [apply Rc|apply Rs|done|done].
Qed.

(** The checks before a switch pass and leave everything but the registers. *)
Lemma preflight_Ok kr us (s : Paging M) r :
  ready kr us s -> r ∈ us ->
  exists s', preflight_check_before_cr3_write r s = Ok (tt, s') /\
    pg_frame s s' /\ pg_mem s' = pg_mem s /\ pg_cr3 s' = pg_cr3 s.
Proof.
  intros Hs Hr. assert (Hin : r ∈ kr :: us) by by right.
  pose proof (pr_layout _ _ _ _ _ _ Hs) as Hl. pose proof (pr_mem _ _ _ _ _ _ Hs) as Hm.
  unfold preflight_check_before_cr3_write. change (negb ENABLE_REAL_PAGING || negb ENABLE_CR3_PREFLIGHT) with false. cbv iota. rewrite bind_get, (pr_off _ _ _ _ _ _ Hs), collision_Ok, bind_lift_Ok by done.
  rewrite !frame_start, !bind_lift_Ok by (eapply ready_root_frame; [done|apply Hs || done]).
  destruct (_ =? _). { exists s. split; [done|]. split; [reflexivity|done]. }
  unfold read_rip_rsp_rbp. rewrite bind_assoc, bind_get.
  set (s1 := {| s with pg_context := fun n => pg_context s (S n) |}).
  assert (Hf : pg_frame s s1) by (split; [done|by exists 1%nat]).
  assert (Hs1 : ready kr us s1) by (eapply ready_registers; [done|done|apply Hs|done]).
  rewrite bind_assoc. rewrite (bind_Ok (put s1) _ s tt s1) by done. rewrite bind_ret.
  pose proof (pr_context _ _ _ _ _ _ Hs 0%nat) as Hc.
  destruct (pg_context s 0%nat) as [[rip rsp] rbp]. destruct Hc as ((pi & Hpi & Ri) & (pp & Hpp & Rp) & Cb).
  rewrite (bind_Ok _ _ _ _ _ (for_root_Ok poff s1 r Hl (pr_off _ _ _ _ _ _ Hs1) (ready_window _ _ _ _ Hs Hin))).
  rewrite (bind_Ok _ _ _ _ _ (translate_Ok s1 r rip (proj1 Ri))).
  rewrite (bind_Ok _ _ _ _ _ (translate_Ok s1 r rsp (proj1 Rp))).
  rewrite (bind_Ok _ _ _ _ _ (translate_Ok s1 r rbp Cb)).
  change (pg_mem s1) with (pg_mem s).
  destruct (reaches_in_root poff boot kr us (pg_mem s) r _ _ Hm Hin Ri) as [_ ->].
  destruct (reaches_in_root poff boot kr us (pg_mem s) r _ _ Hm Hin Rp) as [_ ->].
  cbn [default from_option id]. rewrite (proj2 (Z.eqb_neq _ _) Hpi), (proj2 (Z.eqb_neq _ _) Hpp). simpl.
  rewrite (bind_Ok _ _ _ _ _ (preflight_physmap_Ok kr us s1 r Hs1 Hin)).
  exists s1. split; [by eapply preflight_guards_Ok|done].
Qed.

Lemma ready_cr3 kr us (s : Paging M) r : ready kr us s -> r ∈ kr :: us -> ready kr us {| s with pg_cr3 := r |}.
Proof. intros Hs Hr. eapply ready_registers; [done|split; [done|by exists 0%nat]|done|done]. Qed.

(** Two states with the same memory have the same maps. *)
Lemma views_mem kr us (s s' : Paging M) :
  pg_mem s' = pg_mem s ->
  (forall u, u ∈ us -> paging_user_map s' u = paging_user_map s u) /\
  paging_kern_map boot kr s' = paging_kern_map boot kr s /\
  (forall f, paging_tables kr us s' f -> paging_tables kr us s f).
Proof. intros E. apply views_same. rewrite E. apply roots_same_refl. Qed.

Lemma paging_switch kr us (s : Paging M) r :
  ready kr us s -> r ∈ us ->
  returns (paging_switch_address_space (Some r)) s (fun _ s' =>
    ready kr us s' /\ (forall u, u ∈ us -> paging_user_map s' u = paging_user_map s u) /\
    paging_kern_map boot kr s' = paging_kern_map boot kr s /\
    (forall f, paging_tables kr us s' f -> paging_tables kr us s f) /\
    (ALLOW_REAL_CR3_SWITCH s = true -> pg_cr3 s' = r)).
Proof.
  intros Hs Hr. unfold paging_switch_address_space. mstep_basic.
  destruct (ALLOW_REAL_CR3_SWITCH s) eqn:Ea; simpl.
  2: { mstep_basic. split; [done|]. by pose proof (views_mem kr us s s eq_refl) as (? & ? & ?). }
  destruct (preflight_Ok kr us s r Hs Hr) as (s1 & E1 & Hf & Em & Ec).
  eapply returns_step; [done|].
  assert (Hs1 : ready kr us s1) by (eapply ready_registers; [done|done|rewrite Ec; apply Hs|done]).
  eapply returns_Ok; [apply quiet_Ok; eapply ready_root_frame; [done|by right]|].
  split; [apply ready_cr3; [done|by right]|].
  destruct (views_mem kr us s {| s1 with pg_cr3 := r |} Em) as (? & ? & ?). done.
Qed.

Lemma paging_switch_quiet kr us (s : Paging M) r :
  ready kr us s -> r ∈ kr :: us ->
  returns (paging_switch_address_space_quiet r) s (fun _ s' =>
    ready kr us s' /\ (forall u, u ∈ us -> paging_user_map s' u = paging_user_map s u) /\
    paging_kern_map boot kr s' = paging_kern_map boot kr s /\
    (forall f, paging_tables kr us s' f -> paging_tables kr us s f) /\ pg_cr3 s' = r).
Proof.
  intros Hs Hr. eapply returns_Ok; [apply quiet_Ok; by eapply ready_root_frame|].
  split; [by apply ready_cr3|]. by destruct (views_mem kr us s {| s with pg_cr3 := r |} eq_refl) as (? & ? & ?).
Qed.

Lemma paging_debug_translate kr us (s : Paging M) r addr :
  ready kr us s -> r ∈ us -> is_user_space_addr_u64 addr = true ->
  paging_debug_translate_in_root r addr s = Ok (tt, s).
Proof.
  intros Hs Hr Ha. unfold paging_debug_translate_in_root. simpl.
  rewrite (bind_Ok _ _ _ _ _ (for_root_Ok poff s r (pr_layout _ _ _ _ _ _ Hs) (pr_off _ _ _ _ _ _ Hs)
    (ready_window _ _ _ _ Hs ltac:(by right)))).
  rewrite VirtAddr_new_Ok; [done|]. apply user_space_range in Ha. left. lia.
Qed.

(** ** Guarded accesses *)

Lemma ready_context kr us (s : Paging M) :
  ready kr us s -> ready kr us {| s with pg_context := fun n => pg_context s (S n) |}.
Proof. intros Hs. eapply ready_registers; [done|split; [done|by exists 1%nat]|apply Hs|done]. Qed.

#[local] Hint Resolve ready_static ready_cr3 ready_context : paging.

(** The state of a ready system, step by step. *)
Ltac pstep :=
  match goal with
  | |- returns (write_static _ _ _ ≫= _) _ _ =>
      eapply returns_step; [eapply write_static_Ok; solve [eauto 30 with paging]|]
  | |- returns (write_static _ _ _) _ _ =>
      eapply returns_Ok; [eapply write_static_Ok; solve [eauto 30 with paging]|]
  | |- returns (read_static _ _ ≫= _) _ _ =>
      eapply returns_step; [eapply read_static_Ok; solve [eauto 30 with paging]|]
  | _ => mstep_basic
  end.

(** What an access raises: the page is absent or read-only. *)
Definition store_fault (w : option (PhysFrame * Z)) : option Z :=
  match w with
  | None => Some 0x2
  | Some (_, fl) => if x86_contains fl X86_WRITABLE then None else Some 0x3
  end.

Definition fault_info (va err : Z) (c : Z * Z * Z) : PageFaultInfo :=
  mkPageFaultInfo va err c.1.1 c.1.2 false.

(** The statics hold the fault [info] that a guarded access hit. *)
Record fault_pending (s : Paging M) (info : PageFaultInfo) : Prop := {
  fp_hit : pg_static s PF_GUARD_HIT = 1;
  fp_valid : pg_static s LAST_PF_VALID = 1;
  fp_addr : pg_static s LAST_PF_ADDR = pf_addr info;
  fp_err : pg_static s LAST_PF_ERR = pf_err info;
  fp_rip : pg_static s LAST_PF_RIP = pf_rip info;
  fp_rsp : pg_static s LAST_PF_RSP = pf_rsp info;
  fp_user : negb (pg_static s LAST_PF_IS_USER =? 0) = is_user_fault info }.

(** The handler of a fault inside the guarded block records it and resumes at
    the recovery label, with the guard off. *)
Lemma fault_in_block_spec kr us (s : Paging M) va err :
  ready kr us s -> pg_static s PF_GUARD_ACTIVE = 1 -> pg_static s PF_GUARD_RECOVER_RIP = im_recover im ->
  returns (fault_in_block im va err) s (fun _ s' =>
    ready kr us s' /\ pg_mem s' = pg_mem s /\ pg_static s' PF_GUARD_ACTIVE = 0 /\
    fault_pending s' (fault_info va err (pg_context s 0%nat))).
Proof.
  intros Hs Ha Hre. pose proof (pr_recover _ _ _ _ _ _ Hs) as [Hrc Hr0].
  unfold fault_in_block, page_fault_handler, read_rip_rsp_rbp, record_page_fault, pf_guard_try_fixup.
  do 4 mstep_basic. destruct (pg_context s 0%nat) as [[rip rsp] rbp]. repeat pstep.
  simpl. rewrite Ha. simpl. pstep. pstep. simpl. rewrite Hre, (proj2 (Z.eqb_neq _ _) Hr0).
  repeat pstep. rewrite VirtAddr_new_Ok by done. repeat pstep.
  split; [eauto 30 with paging|]. done.
Qed.

Lemma guard_outcome_fault kr us (s : Paging M) out info :
  ready kr us s -> fault_pending s info ->
  returns (guard_outcome im out) s (fun r s' =>
    r = Err info /\ ready kr us s' /\ pg_mem s' = pg_mem s /\ pg_cr3 s' = pg_cr3 s).
Proof.
  intros Hs [F1 F2 F3 F4 F5 F6 F7]. unfold guard_outcome, take_last_page_fault.
  pstep. rewrite F1. simpl. do 2 pstep. rewrite F2. simpl. repeat pstep. simpl in *.
  split; [|eauto 30 with paging]. rewrite F3, F4, F5, F6, F7. by destruct info.
Qed.

Lemma guard_outcome_value kr us (s : Paging M) out :
  ready kr us s -> pg_static s PF_GUARD_HIT = 0 -> guard_outcome im out s = Ok (Okay out, s).
Proof.
  intros Hs Hh. unfold guard_outcome. rewrite (bind_Ok _ _ _ _ _ (read_static_Ok _ _ _ _ _ _ _ Hs)).
  by rewrite Hh.
Qed.

(** The physical address of an aligned word is aligned. *)
Lemma frame_word_aligned n addr : addr mod 8 = 0 -> (n * PAGE_SIZE + addr mod PAGE_SIZE) mod 8 = 0.
Proof.
  intros Ha. rewrite Z.add_mod, Z.mul_mod by lia. unfold PAGE_SIZE. change (4096 mod 8) with 0. rewrite Z.mul_0_r.
  rewrite Z.mod_mod_divide, Ha by (by exists 512). done.
Qed.

(** A store to a frame that holds no table. *)
Lemma store_same kr us (s : Paging M) f off v :
  ~ paging_tables kr us s f -> 0 <= off < PAGE_SIZE -> (frame_number f * PAGE_SIZE + off) mod 8 = 0 ->
  roots_same kr us (pg_mem s) (hw_store (frame_number f * PAGE_SIZE + off) v (pg_mem s)).
Proof.
  intros Hf Hoff Hal.
  assert (Ef : phys_frame (frame_number f * PAGE_SIZE + off) = f).
  { unfold phys_frame, PhysFrame_from_index. rewrite Z.add_comm, Z.div_add, Z.div_small by done.
    by destruct f. }
  assert (Hr : forall r, r ∈ kr :: us -> r <> f) by (intros r Hr ->; apply Hf; by left).
  split.
  - intros j Hj. split; [apply x86_store_entry; [done|]; rewrite Ef; apply Hr; by left|].
    intros Hp. apply x86_store_same; [done|]. rewrite Ef. intros Ht. apply Hf. right. left. by exists j.
  - intros u Hu. split; [apply x86_store_entry; [done|]; rewrite Ef; apply Hr; by right|].
    intros Hp. apply x86_store_same; [done|]. rewrite Ef. intros Ht. apply Hf. right. right. by exists u.
  - intros u j Hu _ _. apply x86_store_entry; [done|]. rewrite Ef. apply Hr. by right.
Qed.

(** The page of the user slot an address leads to. *)
Lemma user_addr_slot a :
  is_user_space_addr_u64 a = true -> canonical a /\ pml4_index a = USER_PML4_INDEX.
Proof.
  intros Ha%user_space_range. assert (Hc : canonical a) by (left; lia). split; [done|].
  replace a with (pml4_index_base_addr USER_PML4_INDEX + (a - 32 * 2 ^ 39))
    by (change (pml4_index_base_addr USER_PML4_INDEX) with (32 * 2 ^ 39); lia).
  apply pml4_index_of_slot; [unfold USER_PML4_INDEX; lia|lia].
Qed.

(** What a guarded write through the root [r] returns: the value it reads back,
    or the fault it hit. *)
Definition rw_result (s : Paging M) (r : PhysFrame) (addr v : Z) : result Z PageFaultInfo :=
  match slot (pg_mem s) r (pml4_index addr) !! slot_page addr with
  | Some l =>
      if x86_contains (leaf_flags l) X86_WRITABLE then
        let pa := frame_number (leaf_frame l) * PAGE_SIZE + addr mod PAGE_SIZE in
        Okay (hw_load (hw_store pa v (pg_mem s)) pa)
      else Err (fault_info addr 0x3 (pg_context s 0%nat))
  | None => Err (fault_info addr 0x2 (pg_context s 0%nat))
  end.

(** The memory afterwards. *)
Definition rw_memory (s : Paging M) (r : PhysFrame) (addr v : Z) : M :=
  match slot (pg_mem s) r (pml4_index addr) !! slot_page addr with
  | Some l =>
      if x86_contains (leaf_flags l) X86_WRITABLE
      then hw_store (frame_number (leaf_frame l) * PAGE_SIZE + addr mod PAGE_SIZE) v (pg_mem s)
      else pg_mem s
  | None => pg_mem s
  end.

(** A store outside the tables leaves every slot of every root as it is. *)
Lemma roots_same_slot kr us m m' u j :
  mem_ready poff boot kr us m -> roots_same kr us m m' -> u ∈ us -> (j < 512)%nat -> slot m' u j = slot m u j.
Proof.
  intros Hm Hst Hu Hj. destruct (decide (j = USER_PML4_INDEX)) as [->|Hne]; [by apply slot_same_slot, Hst|].
  destruct (shared poff j) eqn:Hsh.
  - assert (Hin : u ∈ kr :: us) by (by right). pose proof (mem_ready_same poff boot kr us m m' Hm Hst) as Hm'.
    rewrite (proj2 (slot_shared poff boot kr us m u j Hm Hin Hj Hne Hsh)),
      (proj2 (slot_shared poff boot kr us m' u j Hm' Hin Hj Hne Hsh)).
    by apply slot_same_slot, Hst.
  - assert (E : read_entry m u j = pte_unused) by (by rewrite (mr_copy _ _ _ _ _ Hm u j), Hsh by done).
    unfold slot, slot_of. by rewrite (rs_copy _ _ _ _ Hst u j), E by done.
Qed.

Lemma gp_check_Ok va (s : Paging M) : canonical va -> gp_check va s = Ok (tt, s).
Proof. intros Hc. unfold gp_check. by rewrite (canonicalize_canonical _ Hc), Z.eqb_refl. Qed.

Lemma guarded_rw_block_spec kr us (s : Paging M) addr v :
  ready kr us s -> pg_cr3 s ∈ us -> canonical addr -> addr mod 8 = 0 ->
  (forall l, slot (pg_mem s) (pg_cr3 s) (pml4_index addr) !! slot_page addr = Some l -> ~ paging_tables kr us s (leaf_frame l)) ->
  pg_static s PF_GUARD_HIT = 0 ->
  returns (guarded_rw_block im addr v) s (fun out s' =>
    ready kr us s' /\ (pg_mem s' = rw_memory s (pg_cr3 s) addr v /\ roots_same kr us (pg_mem s) (pg_mem s')) /\
    match rw_result s (pg_cr3 s) addr v with
    | Okay x => out = x /\ pg_static s' PF_GUARD_HIT = 0
    | Err info => fault_pending s' info
    end).
Proof.
  intros Hs Hc Hca Hal Hdata Hh.
  unfold guarded_rw_block, mov_store. repeat pstep. eapply returns_step; [by apply gp_check_Ok|].
  repeat pstep. simpl pg_mem. simpl pg_cr3.
  rewrite x86_walk by done. unfold rw_result, rw_memory, slot in *.
  set (s1 := set_static PF_GUARD_ACTIVE 1 _).
  assert (Hs1 : ready kr us s1) by (unfold s1; eauto with paging).
  assert (Hfault : forall err, returns (fault_in_block im addr err) s1 (fun _ s' =>
    ready kr us s' /\ (pg_mem s' = pg_mem s /\ roots_same kr us (pg_mem s) (pg_mem s')) /\
    fault_pending s' (fault_info addr err (pg_context s 0%nat)))).
  { intros err. eapply returns_mono; [by eapply fault_in_block_spec|].
    intros _ s' (H1 & H2 & _ & H3). split; [done|]. rewrite H2. split; [split; [done|apply roots_same_refl]|done]. }
  destruct (slot_of _ _ _ _ !! _) as [l|] eqn:El; simpl; [|by repeat pstep].
  destruct (x86_contains (leaf_flags l) X86_WRITABLE); [|by repeat pstep].
  specialize (Hdata _ eq_refl).
  pose proof (store_same kr us s (leaf_frame l) (addr mod PAGE_SIZE) v Hdata) as Hst.
  specialize (Hst ltac:(apply Z.mod_pos_bound; done) (frame_word_aligned _ _ Hal)).
  repeat pstep. unfold mov_load. repeat pstep. eapply returns_step; [by apply gp_check_Ok|].
  repeat pstep. simpl pg_mem. simpl pg_cr3. rewrite x86_walk by done.
  assert (E2 : slot_of below (hw_store (frame_number (leaf_frame l) * PAGE_SIZE + addr mod PAGE_SIZE) v (pg_mem s))
     (pg_cr3 s) (pml4_index addr) = slot_of below (pg_mem s) (pg_cr3 s) (pml4_index addr)).
  { apply (roots_same_slot kr us); [apply Hs|exact Hst|done|apply pml4_index_lt]. }
  rewrite E2, El. cbn [fmap option_fmap option_map]. pstep.
  match goal with |- returns _ ?s2 _ => assert (Hs2 : ready kr us s2) end.
  { eapply ready_roots_same; [exact Hs1|split; [done|by exists 0%nat]|apply Hs|exact Hst]. }
  repeat pstep. split; [eauto with paging|]. split; [split; [done|exact Hst]|]. done.
Qed.

(** The frame of both guarded accesses: the statics are reset, the block runs in
    the user root, and the outcome is read back in the kernel root. *)
Lemma guarded_in_root_spec kr us (s : Paging M) r (block : ST (Paging M) Z) expected (R : M -> Prop) :
  ready kr us s -> r ∈ us ->
  (forall s1, ready kr us s1 -> pg_cr3 s1 = r -> pg_mem s1 = pg_mem s -> pg_context s1 = pg_context s ->
    pg_static s1 PF_GUARD_HIT = 0 ->
    returns block s1 (fun out s' => ready kr us s' /\ R (pg_mem s') /\
      match expected with
      | Okay x => out = x /\ pg_static s' PF_GUARD_HIT = 0
      | Err info => fault_pending s' info
      end)) ->
  returns (guard_reset im ;; paging_switch_address_space_quiet r ;; out ← block;
           paging_switch_address_space_quiet kr ;; guard_outcome im out) s (fun res s' =>
    res = expected /\ ready kr us s' /\ R (pg_mem s') /\ pg_cr3 s' = kr).
Proof.
  intros Hs Hr Hblock. unfold guard_reset. repeat pstep.
  assert (Hrf : frame_ok r) by (eapply ready_root_frame; [done|by right]).
  assert (Hkf : frame_ok kr) by (eapply ready_root_frame; [done|by left]).
  eapply returns_step; [by apply quiet_Ok|].
  match goal with |- returns _ ?s1 _ => assert (Hs1 : ready kr us s1) end.
  { apply ready_cr3; [eauto with paging|by right]. }
  eapply returns_seq; [by apply Hblock|].
  intros out s2 (Hs2 & HR & Hres). eapply returns_step; [by apply quiet_Ok|].
  assert (Hs3 : ready kr us {| s2 with pg_cr3 := kr |}) by (apply ready_cr3; [done|by left]).
  destruct expected as [x|info].
  - destruct Hres as [-> Hh]. eapply returns_Ok; [by eapply guard_outcome_value|]. done.
  - eapply returns_mono; [eapply guard_outcome_fault; [exact Hs3|by destruct Hres; split]|].
    intros res s4 (-> & Hs4 & Em & Ec). split; [done|]. split; [done|]. by rewrite Em.
Qed.

Lemma paging_rw_spec kr us (s : Paging M) r addr v :
  ready kr us s -> r ∈ us -> canonical addr -> addr mod 8 = 0 ->
  (forall l, slot (pg_mem s) r (pml4_index addr) !! slot_page addr = Some l -> ~ paging_tables kr us s (leaf_frame l)) ->
  returns (paging_guarded_user_rw_u64_in_root im r kr addr v) s (fun res s' =>
    res = rw_result s r addr v /\ ready kr us s' /\ pg_mem s' = rw_memory s r addr v /\
    roots_same kr us (pg_mem s) (pg_mem s') /\ pg_cr3 s' = kr).
Proof.
  intros Hs Hr Ha Hal Hdata. eapply returns_mono.
  - apply (guarded_in_root_spec kr us s r _ (rw_result s r addr v)
      (fun m => m = rw_memory s r addr v /\ roots_same kr us (pg_mem s) m) Hs Hr).
    intros s1 Hs1 <- Em Ec Hh. unfold rw_result, rw_memory. rewrite <- Em, <- Ec.
    assert (Ht : forall f, paging_tables kr us s1 f <-> paging_tables kr us s f).
    { intros f. unfold paging_tables. by rewrite Em. }
    eapply returns_mono; [eapply guarded_rw_block_spec; try done|].
    + intros l. rewrite Em, Ht. apply Hdata.
    + intros out s' Hx. exact Hx.
  - intros res s' (? & ? & [? ?] & ?). done.
Qed.

(** The case of the user slot. *)
Lemma user_rw_spec kr us (s : Paging M) r addr v :
  ready kr us s -> r ∈ us -> is_user_space_addr_u64 addr = true -> addr mod 8 = 0 ->
  (forall p l, slot (pg_mem s) r USER_PML4_INDEX !! p = Some l -> ~ paging_tables kr us s (leaf_frame l)) ->
  returns (paging_guarded_user_rw_u64_in_root im r kr addr v) s (fun res s' =>
    res = rw_result s r addr v /\ ready kr us s' /\ pg_mem s' = rw_memory s r addr v /\
    roots_same kr us (pg_mem s) (pg_mem s') /\ pg_cr3 s' = kr).
Proof.
  intros Hs Hr Ha Hal Hdata. destruct (user_addr_slot addr Ha) as [Hc Hi].
  apply paging_rw_spec; try done. intros l. rewrite Hi. apply Hdata.
Qed.

(** What a guarded read through the root [r] returns. *)
Definition read_result (s : Paging M) (r : PhysFrame) (addr : Z) : result Z PageFaultInfo :=
  match slot (pg_mem s) r (pml4_index addr) !! slot_page addr with
  | Some l => Okay (hw_load (pg_mem s) (frame_number (leaf_frame l) * PAGE_SIZE + addr mod PAGE_SIZE))
  | None => Err (fault_info addr 0x0 (pg_context s 0%nat))
  end.

Lemma guarded_read_block_spec kr us (s : Paging M) addr :
  ready kr us s -> canonical addr -> pg_static s PF_GUARD_HIT = 0 ->
  returns (guarded_read_block im addr) s (fun out s' =>
    ready kr us s' /\ pg_mem s' = pg_mem s /\
    match read_result s (pg_cr3 s) addr with
    | Okay x => out = x /\ pg_static s' PF_GUARD_HIT = 0
    | Err info => fault_pending s' info
    end).
Proof.
  intros Hs Hca Hh.
  unfold guarded_read_block, mov_load. repeat pstep. eapply returns_step; [by apply gp_check_Ok|].
  repeat pstep. simpl pg_mem. simpl pg_cr3.
  rewrite x86_walk by done. unfold read_result, slot.
  set (s1 := set_static PF_GUARD_ACTIVE 1 _).
  assert (Hs1 : ready kr us s1) by (unfold s1; eauto with paging).
  destruct (slot_of _ _ _ _ !! _) as [l|] eqn:El; simpl.
  - repeat pstep. split; [eauto with paging|]. done.
  - repeat pstep. eapply returns_mono; [by eapply fault_in_block_spec|].
    intros _ s' (H1 & H2 & _ & H3). split; [done|]. by rewrite H2.
Qed.

Lemma paging_read_spec kr us (s : Paging M) r addr :
  ready kr us s -> r ∈ us -> canonical addr ->
  returns (guarded_user_read_u64_in_root im r kr addr) s (fun res s' =>
    res = read_result s r addr /\ ready kr us s' /\ pg_mem s' = pg_mem s /\ pg_cr3 s' = kr).
Proof.
  intros Hs Hr Ha. apply (guarded_in_root_spec kr us s r _ (read_result s r addr) (fun m => m = pg_mem s) Hs Hr).
  intros s1 Hs1 <- Em Ec Hh. unfold read_result. rewrite <- Em, <- Ec. by apply (guarded_read_block_spec kr us).
Qed.

End laws.
