(* ===== verification/PagingMap.v ===== *)
(** * Changes of the page tables

    What a change of the user slot of one root, or of entry 0 of the kernel's
    root, keeps of [mem_ready]; then the map and unmap operations of
    arch/paging.rs and the set-up of a user root, which make such changes. *)

From stdpp Require Import base list option gmap sets strings.
From Stdlib Require Import ZArith Lia.
From S2P Require Import Prelude Addr AddressSpace FrameAlloc KTypes KState ArchIface X86 Paging PagingInv PagingLaws.
#[local] Open Scope Z_scope.

Section changes.
Context {M : Type} `{X86Laws M} (poff : Z) (boot : gset Z).
Abbreviation mready := (mem_ready poff boot).

(** ** The user slot of one root *)

(** From [m] to [m'] only root [r] changed, in its user slot; [r] may be new.
    The tables it has now are the ones it had and [new] ones. *)
Record user_change (kr : PhysFrame) (us : list PhysFrame) (m m' : M) (r : PhysFrame)
    (new : PhysFrame -> Prop) : Prop := {
  uc_kernel j : (j < 512)%nat -> slot_same m m' kr j;
  uc_user u : u ∈ us -> u <> r -> slot_same m m' u USER_PML4_INDEX;
  uc_copy u j : u ∈ us -> u <> r -> (j < 512)%nat -> j <> USER_PML4_INDEX ->
    read_entry m' u j = read_entry m u j;
  uc_shared j : (j < 512)%nat -> j <> USER_PML4_INDEX ->
    read_entry m' r j = if shared poff j then read_entry m kr j else pte_unused;
  uc_entry : present (read_entry m' r USER_PML4_INDEX) = true \/
    read_entry m' r USER_PML4_INDEX = pte_unused;
  uc_tabs g : tabs m' r USER_PML4_INDEX g -> (r ∈ us /\ tabs m r USER_PML4_INDEX g) \/ new g;
  uc_new g : new g -> ~ root_tables kr us m g /\ g <> r;
  uc_small p l : slot m' r USER_PML4_INDEX !! p = Some l -> leaf_4k l = true }.

(** A root is no table below a root. *)
Lemma root_not_table kr us m r :
  mready kr us m -> r ∈ kr :: us \/ ~ root_tables kr us m r ->
  (forall j, (j < 512)%nat -> ~ tabs m kr j r) /\ (forall u, u ∈ us -> ~ tabs m u USER_PML4_INDEX r).
Proof.
  intros Hm [Hr|Hr]; split.
  - intros j Hj. by apply (mr_root _ _ _ _ _ Hm).
  - intros u Hu. by apply (mr_root_user _ _ _ _ _ Hm).
  - intros j Hj Ht. apply Hr. right. left. eauto.
  - intros u Hu Ht. apply Hr. right. right. eauto.
Qed.

Lemma mem_ready_user_change kr us us' m m' r new :
  mready kr us m -> user_change kr us m m' r new ->
  r ∈ us' -> (forall u, u ∈ us' -> u = r \/ u ∈ us /\ u <> r) -> NoDup (kr :: us') -> window_ok poff r ->
  (r ∈ us \/ ~ root_tables kr us m r) ->
  mready kr us' m'.
Proof.
  intros Hr [Hk Hu Hc Hs He Ht Hn Hsm] Hin Hus Hnd Hw Hfresh.
  assert (Tk : forall j g, (j < 512)%nat -> tabs m' kr j g <-> tabs m kr j g)
    by (intros; apply slot_same_tabs; auto).
  assert (Tu : forall u g, u ∈ us' -> tabs m' u USER_PML4_INDEX g ->
    u ∈ us /\ tabs m u USER_PML4_INDEX g \/ u = r /\ new g).
  { intros u g [->|[Hu' Hne]]%Hus Hg; [apply Ht in Hg as [?|?]; auto|]. left. split; [done|].
    by apply (slot_same_tabs _ _ _ _ g (Hu _ Hu' Hne)) in Hg. }
  assert (Hz : (0 < 512)%nat) by lia.
  assert (Hroot : forall r', r' ∈ kr :: us' -> (r' ∈ kr :: us \/ ~ root_tables kr us m r')).
  { intros r' [->|[->|[? _]]%Hus]%elem_of_cons; [left; by left| |left; by right].
    destruct Hfresh; [left; by right|by right]. }
  assert (Hnr : forall r' g, r' ∈ kr :: us' -> new g -> r' <> g).
  { intros r' g [->|[->|[? _]]%Hus]%elem_of_cons Hg ->; apply Hn in Hg as [Hg Hg']; [|done|].
    - apply Hg. left. by left.
    - apply Hg. left. by right. }
  assert (Hnt : forall g, new g -> ~ root_tables kr us m g) by (intros g Hg; by apply Hn).
  pose proof (fun r' Hr' => root_not_table kr us m r' Hr (Hroot r' Hr')) as Hrt.
  destruct Hr. split; try done.
  - intros r' [->|[->|[? _]]%Hus]%elem_of_cons; [apply mr_window; by left|done|apply mr_window; by right].
  - by rewrite (proj1 (Hk _ (pml4_index_lt poff))).
  - intros j Hj. rewrite (proj1 (Hk _ Hj)). auto.
  - intros u j [->|[Hu' Hne]]%Hus Hj Hj'; rewrite (proj1 (Hk _ Hj)); [auto|]. by rewrite Hc by done; apply mr_copy.
  - intros u [->|[Hu' Hne]]%Hus; [done|]. rewrite (proj1 (Hu _ Hu' Hne)). auto.
  - by rewrite (proj1 (Hk _ Hz)).
  - intros r' j Hr' Hj. rewrite Tk by done. by apply Hrt.
  - intros r' u Hr' Hu' Ht'. destruct (Tu u r' Hu' Ht') as [[Hi Hg]|[_ Hg]]; [by apply (proj2 (Hrt r' Hr') u Hi)|by apply (Hnr r' r')].
  - intros u j g Hu' Hj Ht'. rewrite Tk by done. destruct (Tu u g Hu' Ht') as [[Hi Hg]|[_ Hg]]; [by apply (mr_sep u)|].
    intros Htg. apply (Hnt g Hg). right. left. eauto.
  - intros u v g Hu' Hv Hne Ht1 Ht2.
    destruct (Tu u g Hu' Ht1) as [[Hi Hg]|[-> Hg]], (Tu v g Hv Ht2) as [[Hi' Hg']|[-> Hg']]; try done.
    + by apply (mr_users u v g).
    + apply (Hnt g Hg'). right. right. eauto.
    + apply (Hnt g Hg). right. right. eauto.
  - intros j Hj. rewrite (proj1 (Hk _ Hj)), (proj1 (Hk _ Hz)). intros Hp.
    destruct (mr_zero_sep j Hj Hp) as [?|Hse]; [by left|right].
    intros g. rewrite !Tk by done. auto.
  - intros p l. rewrite (slot_same_slot _ _ _ _ (Hk _ Hz)). by apply mr_small.
  - intros u p l [->|[Hu' Hne]]%Hus; [apply Hsm|]. rewrite (slot_same_slot _ _ _ _ (Hu _ Hu' Hne)). eauto.
Qed.

(** ** Entry 0 of the kernel's root *)

(** From [m] to [m'] only the tables of entry 0 changed, outside the pages of
    the bootloader; other entries of the root may alias entry 0. *)
Record kernel_change (kr : PhysFrame) (us : list PhysFrame) (m m' : M) (new : PhysFrame -> Prop) : Prop := {
  kc_present : present (read_entry m' kr 0) = true;
  kc_addr : pte_addr (read_entry m' kr 0) = pte_addr (read_entry m kr 0);
  kc_entries j : (0 < j < 512)%nat -> read_entry m' kr j = read_entry m kr j;
  kc_same j : (j < 512)%nat -> present (read_entry m kr j) = true ->
    pte_addr (read_entry m kr j) <> pte_addr (read_entry m kr 0) -> slot_same m m' kr j;
  kc_user u : u ∈ us -> slot_same m m' u USER_PML4_INDEX;
  kc_copy u j : u ∈ us -> (j < 512)%nat -> j <> USER_PML4_INDEX -> read_entry m' u j = read_entry m u j;
  kc_tabs g : tabs m' kr 0 g -> tabs m kr 0 g \/ new g;
  kc_new g : new g -> ~ root_tables kr us m g;
  kc_boot p : p ∈ boot -> slot m' kr 0 !! p = slot m kr 0 !! p;
  kc_small p l : p ∉ boot -> slot m' kr 0 !! p = Some l -> leaf_4k l = true }.

Section kernel_change.
Context {kr : PhysFrame} {us : list PhysFrame} {m m' : M} {new : PhysFrame -> Prop}.
Context (Hl : layout_ok poff) (Hm : mready kr us m) (Hc : kernel_change kr us m m' new).

Lemma kc_entry j : (j < 512)%nat ->
  present (read_entry m' kr j) = present (read_entry m kr j) /\
  pte_addr (read_entry m' kr j) = pte_addr (read_entry m kr j).
Proof.
  intros Hj. destruct (decide (j = 0%nat)) as [->|Hne].
  - rewrite (kc_present _ _ _ _ _ Hc), (mr_zero _ _ _ _ _ Hm). split; [done|apply Hc].
  - by rewrite (kc_entries _ _ _ _ _ Hc) by lia.
Qed.

Lemma kc_tables j g : (j < 512)%nat -> tabs m' kr j g -> tabs m kr j g \/ new g.
Proof.
  intros Hj Ht. destruct (kc_entry j Hj) as [Ep Ea]. destruct Ht as [Hp Hg]. rewrite Ep in Hp.
  destruct (decide (pte_addr (read_entry m kr j) = pte_addr (read_entry m kr 0))) as [E|Hne].
  - destruct (kc_tabs _ _ _ _ _ Hc g) as [[_ Hg']|?]; [|left|by right].
    + split; [apply Hc|]. by rewrite (kc_addr _ _ _ _ _ Hc), <- E, <- Ea.
    + split; [done|]. by rewrite E.
  - left. apply (slot_same_tabs _ _ _ _ g (kc_same _ _ _ _ _ Hc j Hj Hp Hne)). split; [by rewrite Ep|done].
Qed.

Lemma kc_slot_aliased j : (j < 512)%nat -> present (read_entry m kr j) = true ->
  pte_addr (read_entry m kr j) = pte_addr (read_entry m kr 0) ->
  slot m' kr j = slot m' kr 0 /\ slot m kr j = slot m kr 0.
Proof.
  intros Hj Hp E. destruct (kc_entry j Hj) as [Ep Ea]. unfold slot, slot_of.
  rewrite Ep, Hp, Ea, E, (kc_addr _ _ _ _ _ Hc), (kc_present _ _ _ _ _ Hc), (mr_zero _ _ _ _ _ Hm). done.
Qed.

Lemma reaches_kernel_change va pa : reaches boot m kr va pa -> reaches boot m' kr va pa.
Proof.
  intros (Hca & Hi & (l & Hlk & Hpa) & Hb). assert (Hj : (pml4_index va < 512)%nat) by lia.
  destruct (kc_entry _ Hj) as [Ep Ea]. split; [done|]. split; [done|].
  rewrite Ea, (kc_addr _ _ _ _ _ Hc). split; [|done]. exists l. split; [|done].
  assert (Hp : present (read_entry m kr (pml4_index va)) = true).
  { revert Hlk. unfold slot, slot_of. cbv zeta. destruct (present (read_entry m kr _)); [done|]. by rewrite lookup_empty. }
  destruct (decide (pte_addr (read_entry m kr (pml4_index va)) = pte_addr (read_entry m kr 0))) as [E|Hne].
  - destruct (kc_slot_aliased _ Hj Hp E) as [E1 E2]. rewrite E1, (kc_boot _ _ _ _ _ Hc), <- E2 by auto. done.
  - by rewrite (slot_same_slot _ _ _ _ (kc_same _ _ _ _ _ Hc _ Hj Hp Hne)).
Qed.

Lemma mem_ready_kernel_change : mready kr us m'.
Proof.
  assert (Tu : forall u g, u ∈ us -> tabs m' u USER_PML4_INDEX g <-> tabs m u USER_PML4_INDEX g)
    by (intros; apply slot_same_tabs, Hc; done).
  assert (Hnr : forall r, r ∈ kr :: us -> ~ new r).
  { intros r Hr Hn. apply (kc_new _ _ _ _ _ Hc) in Hn. apply Hn. by left. }
  assert (Hz : (0 < 512)%nat) by lia. pose proof kc_entry as He. pose proof kc_tables as Tk.
  assert (Hhigh : forall j, (j < 512)%nat -> shared poff j = true -> read_entry m' kr j = read_entry m kr j).
  { intros j Hj Hs. apply (kc_entries _ _ _ _ _ Hc). split; [|done].
    destruct (decide (j = 0%nat)) as [->|]; [|lia]. revert Hs. unfold shared.
    destruct Hl as [_ Hp _]. by rewrite (proj2 (Nat.leb_gt _ _)) by lia. }
  pose proof (kc_new _ _ _ _ _ Hc) as Hn. pose proof Hm as [].
  split; try done.
  - rewrite (proj1 (He _ (pml4_index_lt poff))). done.
  - intros j Hj Hs. rewrite Hhigh by done. auto.
  - intros u j Hu Hj Hne. rewrite (kc_copy _ _ _ _ _ Hc), mr_copy by done.
    destruct (shared poff j) eqn:Es; [by rewrite Hhigh|done].
  - intros u Hu. rewrite (proj1 (kc_user _ _ _ _ _ Hc u Hu)). auto.
  - apply Hc.
  - intros r j Hr Hj [Ht|Ht]%Tk; [by apply (mr_root r j)|by apply (Hnr r)|done].
  - intros r u Hr Hu. rewrite Tu by done. auto.
  - intros u j g Hu Hj Hg [Ht|Ht]%Tk; [| |done]; rewrite Tu in Hg by done; [by apply (mr_sep u j g)|].
    apply (Hn g Ht). right. right. eauto.
  - intros u v g Hu Hv Hne. rewrite !Tu by done. by apply mr_users.
  - intros j Hj. rewrite (proj1 (He _ Hj)), (proj2 (He _ Hj)), (proj2 (He _ Hz)). intros Hp.
    destruct (decide (pte_addr (read_entry m kr j) = pte_addr (read_entry m kr 0))) as [|Hne]; [by left|right].
    intros g Hg. apply (slot_same_tabs _ _ _ _ g (kc_same _ _ _ _ _ Hc j Hj Hp Hne)) in Hg.
    destruct (mr_zero_sep j Hj Hp) as [?|Hse]; [done|].
    intros [Ht|Ht]%Tk; [by apply (Hse g)| |done]. apply (Hn g Ht). right. left. eauto.
  - intros p l. apply (kc_small _ _ _ _ _ Hc).
  - intros u p l Hu. rewrite (slot_same_slot _ _ _ _ (kc_user _ _ _ _ _ Hc _ Hu)). eauto.
Qed.
End kernel_change.

(** ** The effects of the mapper *)

Section effects.
Context {kr : PhysFrame} {us : list PhysFrame} {m m' : M} (Hm : mready kr us m).

Lemma root_in_tables r : r ∈ kr :: us -> root_tables kr us m r.
Proof. by left. Qed.

Lemma present_slot r i p l : slot m r i !! p = Some l -> present (read_entry m r i) = true.
Proof.
  unfold slot, slot_of. cbv zeta. destruct (present (read_entry m r i)); [done|]. by rewrite lookup_empty.
Qed.

Lemma kernel_tabs_of j : (j < 512)%nat -> present (read_entry m kr j) = true ->
  forall g, tables m (pte_addr (read_entry m kr j)) g -> tabs m kr j g.
Proof. by split. Qed.

Lemma map_effect_user r p l new :
  r ∈ us -> map_effect below tables m m' r USER_PML4_INDEX p l new -> leaf_4k l = true ->
  (forall g, g ∈ new -> ~ root_tables kr us m g) ->
  user_change kr us m m' r (fun g => g ∈ new).
Proof.
  intros Hr [Hp Ha Hs Ht He Hsame] Hl Hn.
  assert (Hin : forall r', r' ∈ kr :: us -> r' ∉ new).
  { intros r' Hr' Hn'. by apply (Hn r' Hn'), root_in_tables. }
  assert (Hkr : kr <> r). { intros ->. by apply (NoDup_cons_1_1 _ _ (mr_nodup _ _ _ _ _ Hm)). }
  assert (Hru : r ∈ kr :: us) by by right.
  pose proof (mr_root_user _ _ _ _ _ Hm) as Hru'. pose proof (list_elem_of_here kr us) as Hkk.
  split.
  - intros j Hj. split; [apply He; [by left|by apply Hru'|by apply Hin]|].
    intros Hpj. apply Hsame. intros g Hg. assert (Hgj : tabs m kr j g) by by split.
    split; [|split].
    + intros ->. by apply (mr_root _ _ _ _ _ Hm r j).
    + intros Hg'. by apply (mr_sep _ _ _ _ _ Hm r j g).
    + intros Hg'. apply (Hn g Hg'). right. left. eauto.
  - intros u Hu Hne. split; [apply He; [by left|apply Hru'; [by right|done]|apply Hin; by right]|].
    intros Hpj. apply Hsame. intros g Hg. assert (Hgj : tabs m u USER_PML4_INDEX g) by by split.
    split; [|split].
    + intros ->. by apply (Hru' r u).
    + intros Hg'. by apply (mr_users _ _ _ _ _ Hm u r g).
    + intros Hg'. apply (Hn g Hg'). right. right. eauto.
  - intros u j Hu Hne _ _. apply He; [by left|apply Hru'; [by right|done]|apply Hin; by right].
  - intros j Hj Hne. rewrite He; [by apply (mr_copy _ _ _ _ _ Hm)|by right|by apply Hru'|by apply Hin].
  - by left.
  - intros g [Hg|Hg]%Ht; [left|by right]. done.
  - intros g Hg. split; [auto|]. intros ->. by apply (Hin r).
  - intros q l'. unfold slot. rewrite Hs, lookup_insert_Some. intros [[_ <-]|[_ Hq]]; [done|].
    by apply (mr_user_small _ _ _ _ _ Hm r q).
Qed.

Lemma unmap_effect_user r p :
  r ∈ us -> present (read_entry m r USER_PML4_INDEX) = true ->
  unmap_effect below tables m m' (pte_addr (read_entry m r USER_PML4_INDEX)) p ->
  user_change kr us m m' r (fun _ => False) /\
  slot m' r USER_PML4_INDEX = delete p (slot m r USER_PML4_INDEX).
Proof.
  intros Hr Hp [Hb Ht He Hsame].
  assert (Htab : forall g, tables m (pte_addr (read_entry m r USER_PML4_INDEX)) g ->
    tabs m r USER_PML4_INDEX g) by by split.
  pose proof (mr_root_user _ _ _ _ _ Hm) as Hru'. pose proof (list_elem_of_here kr us) as Hkk.
  assert (Hent : forall r' j, r' ∈ kr :: us -> read_entry m' r' j = read_entry m r' j).
  { intros r' j Hr'. apply He. intros Hg%Htab. by apply (Hru' r' r). }
  assert (Er : read_entry m' r USER_PML4_INDEX = read_entry m r USER_PML4_INDEX) by (apply Hent; by right).
  assert (Hslot : slot m' r USER_PML4_INDEX = delete p (slot m r USER_PML4_INDEX)).
  { unfold slot, slot_of. by rewrite Er, Hp. }
  split; [|done]. split; try done.
  - intros j Hj. split; [by apply Hent|]. intros Hpj. apply Hsame. intros g Hg Hg'%Htab.
    by apply (mr_sep _ _ _ _ _ Hm r j g).
  - intros u Hu Hne. split; [apply Hent; by right|]. intros Hpj. apply Hsame. intros g Hg Hg'%Htab.
    by apply (mr_users _ _ _ _ _ Hm u r g).
  - intros u j Hu Hne _ _. apply Hent. by right.
  - intros j Hj Hne. rewrite Hent by by right. by apply (mr_copy _ _ _ _ _ Hm).
  - rewrite Er. by left.
  - intros g [_ Hg]. left. split; [done|]. apply Htab, Ht. by rewrite <- Er.
  - intros q l'. rewrite Hslot, lookup_delete_Some. intros [_ Hq].
    by apply (mr_user_small _ _ _ _ _ Hm r q).
Qed.

Lemma map_effect_kernel p l new :
  map_effect below tables m m' kr 0 p l new -> leaf_4k l = true -> p ∉ boot ->
  (forall g, g ∈ new -> ~ root_tables kr us m g) ->
  kernel_change kr us m m' (fun g => g ∈ new).
Proof.
  intros [Hp Ha Hs Ht He Hsame] Hl Hpb Hn. pose proof (list_elem_of_here kr us) as Hkk.
  assert (Hin : forall r', r' ∈ kr :: us -> r' ∉ new).
  { intros r' Hr' Hn'. by apply (Hn r' Hn'), root_in_tables. }
  assert (Hz : (0 < 512)%nat) by lia. pose proof (mr_root _ _ _ _ _ Hm) as Hroot.
  assert (Hne : forall u, u ∈ us -> u <> kr).
  { intros u Hu ->. by apply (NoDup_cons_1_1 _ _ (mr_nodup _ _ _ _ _ Hm)). }
  split; try done.
  - apply Ha, Hm.
  - intros j Hj. apply He; [right; lia|by apply Hroot|by apply Hin].
  - intros j Hj Hpj Hd. split; [apply He; [right; by intros ->|by apply Hroot|by apply Hin]|].
    intros _. apply Hsame. intros g Hg. assert (Hgj : tabs m kr j g) by by split. split; [|split].
    + intros ->. by apply (Hroot kr j).
    + intros Hg'. destruct (mr_zero_sep _ _ _ _ _ Hm j Hj Hpj) as [?|Hse]; [done|]. by apply (Hse g).
    + intros Hg'. apply (Hn g Hg'). right. left. eauto.
  - intros u Hu. split; [apply He; [left; auto|apply Hroot; [by right|done]|apply Hin; by right]|].
    intros Hpj. apply Hsame. intros g Hg. assert (Hgj : tabs m u USER_PML4_INDEX g) by by split.
    split; [|split].
    + intros ->. by apply (mr_root_user _ _ _ _ _ Hm kr u).
    + intros Hg'. by apply (mr_sep _ _ _ _ _ Hm u 0 g).
    + intros Hg'. apply (Hn g Hg'). right. right. eauto.
  - intros u j Hu _ _. apply He; [left; auto|apply Hroot; [by right|done]|apply Hin; by right].
  - intros q Hq. unfold slot. rewrite Hs, lookup_insert_ne; [done|]. by intros ->.
  - intros q l' Hq. unfold slot. rewrite Hs, lookup_insert_Some. intros [[_ <-]|[_ Hq']]; [done|].
    by apply (mr_small _ _ _ _ _ Hm q).
Qed.

Lemma unmap_effect_kernel p :
  unmap_effect below tables m m' (pte_addr (read_entry m kr 0)) p -> p ∉ boot ->
  kernel_change kr us m m' (fun _ => False) /\ slot m' kr 0 = delete p (slot m kr 0).
Proof.
  intros [Hb Ht He Hsame] Hpb. pose proof (list_elem_of_here kr us) as Hkk.
  assert (Hz : (0 < 512)%nat) by lia. pose proof (mr_zero _ _ _ _ _ Hm) as Hp.
  assert (Htab : forall g, tables m (pte_addr (read_entry m kr 0)) g -> tabs m kr 0 g) by by split.
  assert (Hent : forall r' j, r' ∈ kr :: us -> read_entry m' r' j = read_entry m r' j).
  { intros r' j Hr'. apply He. intros Hg%Htab. by apply (mr_root _ _ _ _ _ Hm r' 0). }
  assert (Hslot : slot m' kr 0 = delete p (slot m kr 0)).
  { unfold slot, slot_of. by rewrite Hent, Hp. }
  split; [|done]. split; try done.
  - by rewrite Hent.
  - by rewrite Hent.
  - intros j Hj. by apply Hent.
  - intros j Hj Hpj Hd. split; [by apply Hent|]. intros _. apply Hsame. intros g Hg Hg'%Htab.
    destruct (mr_zero_sep _ _ _ _ _ Hm j Hj Hpj) as [?|Hse]; [done|]. by apply (Hse g).
  - intros u Hu. split; [apply Hent; by right|]. intros Hpj. apply Hsame. intros g Hg Hg'%Htab.
    by apply (mr_sep _ _ _ _ _ Hm u 0 g).
  - intros u j Hu _ _. apply Hent. by right.
  - intros g [_ Hg]. left. apply Htab, Ht. by rewrite <- (Hent kr 0%nat).
  - intros q Hq. rewrite Hslot, lookup_delete_ne; [done|]. by intros ->.
  - intros q l' Hq. rewrite Hslot, lookup_delete_Some. intros [_ Hq']. by apply (mr_small _ _ _ _ _ Hm q).
Qed.

End effects.

End changes.
