(* ===== verification/PagingArch.v ===== *)
(** * Mapping, unmapping and new roots; paging implements the interface

    The remaining operations of arch/paging.rs the kernel calls, and the
    instance of [ArchLaws]. *)

From stdpp Require Import base list option gmap sets strings.
From Stdlib Require Import ZArith Lia.
From S2P Require Import Prelude Addr AddressSpace FrameAlloc KTypes KState ArchIface X86 Paging PagingInv PagingLaws PagingMap.
#[local] Open Scope Z_scope.

(** ** Flags *)

Lemma land_pow2 b n : 0 <= n -> Z.land b (2 ^ n) = if Z.testbit b n then 2 ^ n else 0.
Proof.
  intros Hn. apply Z.bits_inj'. intros i Hi. rewrite Z.land_spec, Z.pow2_bits_eqb by done.
  destruct (Z.eqb_spec n i) as [<-|Hne].
  - destruct (Z.testbit b n); simpl; [by rewrite Z.pow2_bits_true|by rewrite Z.bits_0].
  - rewrite andb_false_r. destruct (Z.testbit b n); [by rewrite Z.pow2_bits_false|by rewrite Z.bits_0].
Qed.

Definition ALL_FLAGS : PageFlags :=
  PageFlags_union (PageFlags_union (PageFlags_union PRESENT WRITABLE) USER) NO_EXEC.

Definition flag_if (b : bool) (f : Z) : Z := if b then f else 0.

(** The flags of the kernel have the values of the CPU's. *)
Lemma to_x86_flags_eq fl : to_x86_flags fl = Z.land (bits fl) (bits ALL_FLAGS).
Proof.
  change (bits ALL_FLAGS) with (Z.lor (Z.lor (Z.lor (2 ^ 0) (2 ^ 1)) (2 ^ 2)) (2 ^ 63)).
  rewrite !Z.land_lor_distr_r. unfold to_x86_flags, PageFlags_contains.
  change (bits PRESENT) with (2 ^ 0). change (bits WRITABLE) with (2 ^ 1).
  change (bits USER) with (2 ^ 2). change (bits NO_EXEC) with (2 ^ 63).
  rewrite !land_pow2 by done.
  by destruct (Z.testbit (bits fl) 0), (Z.testbit (bits fl) 1), (Z.testbit (bits fl) 2), (Z.testbit (bits fl) 63).
Qed.

Lemma x86_contains_flags fl g :
  Z.land (bits g) (bits ALL_FLAGS) = bits g ->
  x86_contains (to_x86_flags fl) (bits g) = PageFlags_contains fl g.
Proof.
  intros Hg. unfold x86_contains, PageFlags_contains. rewrite to_x86_flags_eq, <- Z.land_assoc.
  by rewrite (Z.land_comm (bits ALL_FLAGS)), Hg.
Qed.

Lemma flags_roundtrip fl : flags_ok fl -> of_x86_flags (to_x86_flags fl) = fl.
Proof.
  intros [Hf _]. rewrite to_x86_flags_eq. fold ALL_FLAGS in Hf. rewrite Hf.
  unfold of_x86_flags. fold ALL_FLAGS. rewrite Hf. by destruct fl.
Qed.

(** ** Addresses of the pages of a slot *)

Lemma page_start p : page_ok p -> VirtPage_start_address p = Ok (mkVirtAddr (page_number p * PAGE_SIZE)).
Proof.
  unfold page_ok, VirtPage_start_address, PAGE_SIZE. intros Hp.
  by rewrite u64_mul_Ok by (unfold u64_max; lia).
Qed.

Lemma slot_address (i : nat) p va :
  (i < 256)%nat -> page_ok p -> va = Z.of_nat i * 2 ^ 39 + page_number p * PAGE_SIZE ->
  canonical va /\ pml4_index va = i /\ slot_page va = page_number p /\ va mod PAGE_SIZE = 0 /\
  PAGE_SIZE * (va / PAGE_SIZE) = va.
Proof.
  unfold page_ok. intros Hi Hp Eva.
  assert (Ed : va = (Z.of_nat i * 2 ^ 27 + page_number p) * PAGE_SIZE) by (unfold PAGE_SIZE in *; lia).
  assert (Ev : va / PAGE_SIZE = Z.of_nat i * 2 ^ 27 + page_number p).
  { rewrite Ed. apply Z.div_mul. done. }
  assert (Em : va mod PAGE_SIZE = 0) by (rewrite Ed; apply Z.mod_mul; done).
  split; [left; unfold PAGE_SIZE in *; lia|]. split; [|split; [|split; [done|]]].
  - assert (Eb : pml4_index_base_addr i = Z.of_nat i * 2 ^ 39).
    { rewrite pml4_index_base_addr_eq by lia. rewrite (proj2 (Nat.leb_gt 256 i)) by done. lia. }
    rewrite Eva, <- Eb. apply pml4_index_of_slot; [lia|unfold PAGE_SIZE; lia].
  - unfold slot_page. rewrite Ev, Z.add_comm, Z.mod_add by lia. apply Z.mod_small. lia.
  - rewrite Ev, Ed. lia.
Qed.

Lemma KernelFrameAllocator_allocates : allocates KernelFrameAllocator_allocate_frame.
Proof. intros pm Hpm. by apply pmm_allocate_spec. Qed.

Section arch.
Context {M : Type} `{X86Laws M} (im : Image) (poff : Z) (boot : gset Z).
Abbreviation ready := (paging_ready im poff boot).

Definition with_mem (s : Paging M) (m : M) : Paging M := {| s with pg_mem := m |}.

Lemma frame_with_mem (s : Paging M) m : pg_frame s (with_mem s m).
Proof. split; [done|]. by exists 0%nat. Qed.

(** ** States after a change *)

Lemma ready_user_change kr us us' (s : Paging M) m' r new :
  ready kr us s -> user_change poff kr us (pg_mem s) m' r new ->
  r ∈ us' -> (forall u, u ∈ us -> u ∈ us') -> (forall u, u ∈ us' -> u = r \/ u ∈ us /\ u <> r) ->
  NoDup (kr :: us') -> window_ok poff r -> (r ∈ us \/ ~ root_tables kr us (pg_mem s) r) ->
  ready kr us' (with_mem s m').
Proof.
  intros Hs Hc Hr Hsub Hus Hnd Hw Hf. eapply ready_frame; [done|apply frame_with_mem| | |].
  - pose proof (pr_cr3 _ _ _ _ _ _ Hs) as Hc3. simpl. set_solver.
  - eapply mem_ready_user_change; [apply Hs|done..].
  - intros va pa. apply reaches_kernel, Hc.
Qed.

Lemma user_change_views kr us us' (s : Paging M) m' r new :
  user_change poff kr us (pg_mem s) m' r new -> (forall u, u ∈ us' -> u = r \/ u ∈ us /\ u <> r) ->
  (forall u, u ∈ us -> u <> r -> paging_user_map (with_mem s m') u = paging_user_map s u) /\
  paging_kern_map boot kr (with_mem s m') = paging_kern_map boot kr s /\
  (forall g, paging_tables kr us' (with_mem s m') g -> paging_tables kr us s g \/ g = r \/ new g).
Proof.
  intros Hc Hus. split; [|split].
  - intros u Hu Hne. unfold paging_user_map. simpl.
    by rewrite (slot_same_slot _ _ _ _ (uc_user _ _ _ _ _ _ _ Hc u Hu Hne)).
  - unfold paging_kern_map. simpl.
    by rewrite (slot_same_slot _ _ _ _ (uc_kernel _ _ _ _ _ _ _ Hc 0%nat ltac:(lia))).
  - intros g [[->|[->|[? _]]%Hus]%elem_of_cons|[(j & Hj & Ht)|(u & [->|[Hu Hne]]%Hus & Ht)]].
    + left. left. by left.
    + right. by left.
    + left. left. by right.
    + left. right. left. exists j. split; [done|].
      by apply (slot_same_tabs _ _ _ _ g (uc_kernel _ _ _ _ _ _ _ Hc j Hj)).
    + apply (uc_tabs _ _ _ _ _ _ _ Hc) in Ht as [[Hr Ht]|Hn]; [|by right; right].
      left. right. right. eauto.
    + left. right. right. exists u. split; [done|].
      by apply (slot_same_tabs _ _ _ _ g (uc_user _ _ _ _ _ _ _ Hc u Hu Hne)).
Qed.

Lemma ready_kernel_change kr us (s : Paging M) m' new :
  ready kr us s -> kernel_change boot kr us (pg_mem s) m' new ->
  ready kr us (with_mem s m') /\
  (forall u, u ∈ us -> paging_user_map (with_mem s m') u = paging_user_map s u) /\
  (forall g, paging_tables kr us (with_mem s m') g -> paging_tables kr us s g \/ new g).
Proof.
  intros Hs Hc. pose proof (pr_mem _ _ _ _ _ _ Hs) as Hm. split; [|split].
  - eapply ready_frame; [done|apply frame_with_mem|apply Hs| |].
    + by apply (mem_ready_kernel_change poff boot (pr_layout _ _ _ _ _ _ Hs) Hm Hc).
    + by apply (reaches_kernel_change poff boot Hm Hc).
  - intros u Hu. unfold paging_user_map. simpl. by rewrite (slot_same_slot _ _ _ _ (kc_user _ _ _ _ _ _ Hc u Hu)).
  - intros g [?|[(j & Hj & Ht)|(u & Hu & Ht)]].
    + left. by left.
    + apply (kc_tables poff boot Hm Hc) in Ht as [Ht|?]; [|by right|done]. left. right. left. eauto.
    + left. right. right. exists u. split; [done|].
      by apply (slot_same_tabs _ _ _ _ g (kc_user _ _ _ _ _ _ Hc u Hu)).
Qed.

(** The root of an operation. *)
Definition root_of_action (s : Paging M) (root : option PhysFrame) : PhysFrame := default (pg_cr3 s) root.

Lemma mapper_of_Ok kr us (s : Paging M) root :
  ready kr us s -> (forall r, root = Some r -> r ∈ us) -> mapper_of root s = Ok (root_of_action s root, s).
Proof.
  intros Hs Hr. destruct root as [r|]; simpl.
  - eapply for_root_Ok; [apply Hs|apply Hs|]. eapply ready_window; [done|]. right. by apply Hr.
  - eapply offset_table_Ok; [apply Hs|apply Hs|]. by eapply ready_window_cr3.
Qed.

(** Mapping [p] to [f] changes the slot [i] of the root, where the flags say
    which slot that is. *)
Lemma map_with_mapper_spec kr us (s : Paging M) p f fl root (i : nat) pm :
  ready kr us s -> (forall r, root = Some r -> r ∈ us) -> page_ok p -> frame_ok f -> flags_ok fl ->
  i = (if PageFlags_contains fl USER then USER_PML4_INDEX else 0%nat) ->
  let r := root_of_action s root in
  r ∈ kr :: us ->
  (forall g, tabs (pg_mem s) r i g -> paging_tables kr us s g) ->
  (present (read_entry (pg_mem s) r i) = true \/ read_entry (pg_mem s) r i = pte_unused) ->
  slot (pg_mem s) r i !! page_number p = None ->
  frames_free (window_ok poff) (paging_tables kr us s) pm ->
  (PAGE_TABLE_FRAMES <= length (pmm_remaining pm))%nat ->
  returns (map_with_mapper p f fl root) (pm, s) (fun res pa => res = Okay tt /\
    exists k m', frames_taken k pm pa.1 /\ pa.2 = with_mem s m' /\
      map_effect below tables (pg_mem s) m' r i (page_number p) (mkLeaf f (to_x86_flags fl) true)
        (take k (free_frames pm))).
Proof.
  intros Hs Hroot Hp Hf Hfl Ei r Hr Htabs He Hnone Hff Hlen. unfold map_with_mapper.
  rewrite page_start, frame_start by done. do 2 mstep_basic. cbv zeta. simpl virt_u64. simpl phys_u64.
  set (va := Z.of_nat i * 2 ^ 39 + page_number p * PAGE_SIZE).
  assert (Hi : (i < 256)%nat) by (rewrite Ei; unfold USER_PML4_INDEX; case_match; lia).
  destruct (slot_address i p va Hi Hp eq_refl) as (Hc & Hidx & Hsp & Hmod & Hdiv).
  pose proof (x86_contains_flags fl USER eq_refl) as Hu. change (bits USER) with X86_USER_ACCESSIBLE in Hu.
  assert (Hva : map_address (page_number p * PAGE_SIZE) (to_x86_flags fl) = Ok va).
  { unfold map_address. rewrite Hu. unfold va. rewrite Ei. destruct (PageFlags_contains fl USER).
    - rewrite user_space_base_value, u64_add_Ok; [done|]. unfold page_ok, u64_max, PAGE_SIZE in *. lia.
    - f_equal. }
  rewrite Hva. mstep_basic. rewrite VirtAddr_new_Ok by done. mstep_basic.
  assert (Hpol : enforce_user_mapping_policy va (to_x86_flags fl) = Ok tt).
  { unfold enforce_user_mapping_policy. rewrite Hu.
    assert (Hin : is_user_space_addr_u64 va = PageFlags_contains fl USER); [|rewrite Hin; by destruct (PageFlags_contains fl USER)].
    unfold is_user_space_addr_u64, va. rewrite Ei, user_space_base_value. change USER_SPACE_SIZE with (2 ^ 39).
    unfold page_ok, PAGE_SIZE in *. destruct (PageFlags_contains fl USER).
    - rewrite (proj2 (Z.leb_le _ _)), (proj2 (Z.ltb_lt _ _)) by (unfold USER_PML4_INDEX; lia). done.
    - by rewrite (proj2 (Z.leb_gt _ _)) by lia. }
  rewrite Hpol. mstep_basic. rewrite PhysAddr_new_Ok by done. mstep_basic. rewrite frame_div, Hdiv.
  eapply returns_step; [apply zoom_Ok; by eapply mapper_of_Ok|]. fold r.
  apply returns_bind, returns_zoom. simpl fst. simpl snd.
  eapply returns_mono.
  - eapply (x86_map_to KernelFrameAllocator_allocate_frame (pg_mem s) r va f (to_x86_flags fl) pm
      (window_ok poff) (paging_tables kr us s)); rewrite ?Hidx, ?Hsp; try done.
    + change X86_PRESENT with (bits PRESENT). rewrite x86_contains_flags by done. apply Hfl.
    + apply KernelFrameAllocator_allocates.
    + by left.
  - intros res [pm' m'] (-> & k & Hk & Heff). rewrite Hidx, Hsp in Heff. apply returns_ret.
    split; [done|]. by exists k, m'.
Qed.

(** Unmapping a page of its own entry: of the user slot when a root is given. *)
Lemma unmap_with_mapper_spec kr us (s : Paging M) p root (i : nat) l pm :
  ready kr us s -> (forall r, root = Some r -> r ∈ us) -> page_ok p ->
  i = match root with Some _ => USER_PML4_INDEX | None => 0%nat end ->
  let r := root_of_action s root in
  slot (pg_mem s) r i !! page_number p = Some l -> leaf_4k l = true ->
  returns (unmap_with_mapper p root) (pm, s) (fun res pa => res = Okay tt /\ pa.1 = pm /\
    exists m', pa.2 = with_mem s m' /\
      unmap_effect below tables (pg_mem s) m' (pte_addr (read_entry (pg_mem s) r i)) (page_number p)).
Proof.
  intros Hs Hroot Hp Ei r Hl H4k. unfold unmap_with_mapper.
  set (va := Z.of_nat i * 2 ^ 39 + page_number p * PAGE_SIZE).
  assert (Hi : (i < 256)%nat) by (rewrite Ei; unfold USER_PML4_INDEX; destruct root; lia).
  destruct (slot_address i p va Hi Hp eq_refl) as (Hc & Hidx & Hsp & Hmod & Hdiv).
  assert (Hva : unmap_address p root = Ok va).
  { unfold unmap_address. rewrite page_start, Ok_bind by done. unfold va. rewrite Ei. destruct root; simpl virt_u64.
    - rewrite user_space_base_value, u64_add_Ok; [done|]. unfold page_ok, u64_max, PAGE_SIZE in *. lia.
    - f_equal. }
  rewrite Hva. mstep_basic. rewrite VirtAddr_new_Ok by done. mstep_basic. rewrite Hdiv.
  eapply returns_step; [apply zoom_Ok; by eapply mapper_of_Ok|]. fold r.
  apply returns_bind, returns_zoom, returns_zoom. simpl fst. simpl snd.
  eapply returns_mono.
  - apply (x86_unmap (pg_mem s) r va l); rewrite ?Hidx, ?Hsp; done.
  - intros res m' (-> & Heff). rewrite Hidx, Hsp in Heff. apply returns_ret.
    split; [done|]. split; [done|]. by exists m'.
Qed.

Lemma same_roots (us : list PhysFrame) (r : PhysFrame) : r ∈ us -> forall u, u ∈ us -> u = r \/ u ∈ us /\ u <> r.
Proof. intros Hr u Hu. destruct (decide (u = r)); auto. Qed.

Lemma paging_map_user kr us (s : Paging M) r p f fl pm :
  ready kr us s -> r ∈ us -> page_ok p -> frame_ok f -> user_flags fl ->
  paging_user_map s r !! page_number p = None ->
  frames_free (window_ok poff) (paging_tables kr us s) pm ->
  (PAGE_TABLE_FRAMES <= length (pmm_remaining pm))%nat ->
  returns (paging_apply_mem_action (Map p f fl) (Some r)) (pm, s) (fun res pa =>
    slot (pg_mem pa.2) r USER_PML4_INDEX
      = <[page_number p := mkLeaf f (to_x86_flags fl) true]> (slot (pg_mem s) r USER_PML4_INDEX) /\
    res = Okay tt /\ ready kr us pa.2 /\ pg_cr3 pa.2 = pg_cr3 s /\
    paging_user_map pa.2 r = <[page_number p := (f, fl)]> (paging_user_map s r) /\
    (forall u, u ∈ us -> u <> r -> paging_user_map pa.2 u = paging_user_map s u) /\
    paging_kern_map boot kr pa.2 = paging_kern_map boot kr s /\
    exists k, frames_taken k pm pa.1 /\
      forall g, paging_tables kr us pa.2 g -> paging_tables kr us s g \/ g ∈ take k (free_frames pm)).
Proof.
  intros Hs Hr Hp Hf [Hfl Hu] Hnone Hff Hlen. pose proof (pr_mem _ _ _ _ _ _ Hs) as Hm.
  eapply returns_mono.
  { eapply (map_with_mapper_spec kr us s p f fl (Some r) USER_PML4_INDEX); try done.
    - by intros ? [= <-].
    - by rewrite Hu.
    - by right.
    - intros g Hg. right. right. eauto.
    - apply (mr_user _ _ _ _ _ Hm r Hr).
    - revert Hnone. unfold paging_user_map. by rewrite lookup_fmap, fmap_None. }
  intros res [pm' s'] (-> & k & m' & Hk & Es & Heff). simpl in Es, Hk, Heff. subst s'. simpl fst. simpl snd.
  assert (Hnew : forall g, g ∈ take k (free_frames pm) -> ~ root_tables kr us (pg_mem s) g).
  { intros g Hg. apply (ff_unused _ _ _ Hff). by eapply elem_of_subseteq; [apply subseteq_take|]. }
  pose proof (map_effect_user poff boot Hm r _ _ _ Hr Heff eq_refl Hnew) as Hch.
  destruct (user_change_views kr us us s m' r _ Hch (same_roots us r Hr)) as (V1 & V2 & V3).
  split; [apply Heff|]. split; [done|]. split.
  { eapply ready_user_change; try done; [by apply same_roots|apply Hm| |by left].
    apply (mr_window _ _ _ _ _ Hm). by right. }
  split; [done|]. split.
  { unfold paging_user_map, slot. simpl. rewrite (me_slot _ _ _ _ _ _ _ _ _ Heff), fmap_insert. f_equal.
    unfold leaf_view. simpl. by rewrite flags_roundtrip. }
  split; [done|]. split; [done|]. exists k. split; [done|].
  intros g Hg. apply V3 in Hg as [?|[->|?]]; [by left| |by right]. left. left. by right.
Qed.

Lemma paging_unmap_user kr us (s : Paging M) r p pm :
  ready kr us s -> r ∈ us -> page_ok p -> is_Some (paging_user_map s r !! page_number p) ->
  returns (paging_apply_mem_action (Unmap p) (Some r)) (pm, s) (fun res pa =>
    res = Okay tt /\ ready kr us pa.2 /\ pg_cr3 pa.2 = pg_cr3 s /\
    paging_user_map pa.2 r = delete (page_number p) (paging_user_map s r) /\
    (forall u, u ∈ us -> u <> r -> paging_user_map pa.2 u = paging_user_map s u) /\
    paging_kern_map boot kr pa.2 = paging_kern_map boot kr s /\ pa.1 = pm /\
    forall g, paging_tables kr us pa.2 g -> paging_tables kr us s g).
Proof.
  intros Hs Hr Hp Hl. pose proof (pr_mem _ _ _ _ _ _ Hs) as Hm.
  unfold paging_user_map in Hl. rewrite lookup_fmap, fmap_is_Some in Hl. destruct Hl as [l Hl].
  eapply returns_mono.
  { eapply (unmap_with_mapper_spec kr us s p (Some r) USER_PML4_INDEX); try done.
    - by intros ? [= <-].
    - by apply (mr_user_small _ _ _ _ _ Hm r (page_number p)). }
  intros res [pm' s'] (-> & Ep & m' & Es & Heff). simpl in Es, Ep, Heff. subst s' pm'. simpl fst. simpl snd.
  destruct (unmap_effect_user poff boot Hm r _ Hr (present_slot _ _ _ _ Hl) Heff) as [Hch Hslot].
  destruct (user_change_views kr us us s m' r _ Hch (same_roots us r Hr)) as (V1 & V2 & V3).
  split; [done|]. split.
  { eapply ready_user_change; try done; [by apply same_roots|apply Hm| |by left].
    apply (mr_window _ _ _ _ _ Hm). by right. }
  split; [done|]. split.
  { unfold paging_user_map. simpl. by rewrite Hslot, fmap_delete. }
  split; [done|]. split; [done|]. split; [done|].
  intros g Hg. apply V3 in Hg as [?|[->|[]]]; [done|]. left. by right.
Qed.

Lemma paging_map_kernel kr us (s : Paging M) p f fl pm :
  ready kr us s -> pg_cr3 s = kr -> page_ok p -> page_number p ∉ boot -> frame_ok f ->
  flags_ok fl -> PageFlags_contains fl USER = false -> paging_kern_map boot kr s !! page_number p = None ->
  frames_free (window_ok poff) (paging_tables kr us s) pm ->
  (PAGE_TABLE_FRAMES <= length (pmm_remaining pm))%nat ->
  returns (paging_apply_mem_action (Map p f fl) None) (pm, s) (fun res pa =>
    res = Okay tt /\ ready kr us pa.2 /\ pg_cr3 pa.2 = pg_cr3 s /\
    paging_kern_map boot kr pa.2 = <[page_number p := (f, fl)]> (paging_kern_map boot kr s) /\
    (forall u, u ∈ us -> paging_user_map pa.2 u = paging_user_map s u) /\
    exists k, frames_taken k pm pa.1 /\
      forall g, paging_tables kr us pa.2 g -> paging_tables kr us s g \/ g ∈ take k (free_frames pm)).
Proof.
  intros Hs Hkr Hp Hb Hf Hfl Hu Hnone Hff Hlen. pose proof (pr_mem _ _ _ _ _ _ Hs) as Hm.
  eapply returns_mono.
  { eapply (map_with_mapper_spec kr us s p f fl None 0%nat); simpl; try done.
    - by rewrite Hu.
    - apply Hs.
    - rewrite Hkr. intros g Hg. right. left. exists 0%nat. split; [lia|done].
    - rewrite Hkr. left. apply Hm.
    - revert Hnone. unfold paging_kern_map. rewrite lookup_fmap, fmap_None, map_lookup_filter_None, Hkr.
      intros [?|Hn]; [done|]. destruct (slot _ _ _ !! _) eqn:E; [|done]. by destruct (Hn _ eq_refl). }
  intros res [pm' s'] (-> & k & m' & Hk & Es & Heff). simpl in Es, Hk. subst s'. simpl fst. simpl snd.
  change (root_of_action s None) with (pg_cr3 s) in Heff. rewrite Hkr in Heff.
  assert (Hnew : forall g, g ∈ take k (free_frames pm) -> ~ root_tables kr us (pg_mem s) g).
  { intros g Hg. apply (ff_unused _ _ _ Hff). by eapply elem_of_subseteq; [apply subseteq_take|]. }
  pose proof (map_effect_kernel poff boot Hm _ _ _ Heff eq_refl Hb Hnew) as Hch.
  destruct (ready_kernel_change kr us s m' _ Hs Hch) as (V1 & V2 & V3).
  split; [done|]. split; [done|]. split; [done|]. split; [|split; [done|by exists k]].
  unfold paging_kern_map, slot. simpl.
  rewrite (me_slot _ _ _ _ _ _ _ _ _ Heff), map_filter_insert_True by done. rewrite fmap_insert. f_equal.
  unfold leaf_view. simpl. by rewrite flags_roundtrip.
Qed.

Lemma paging_unmap_kernel kr us (s : Paging M) p pm :
  ready kr us s -> pg_cr3 s = kr -> page_ok p -> is_Some (paging_kern_map boot kr s !! page_number p) ->
  returns (paging_apply_mem_action (Unmap p) None) (pm, s) (fun res pa =>
    res = Okay tt /\ ready kr us pa.2 /\ pg_cr3 pa.2 = pg_cr3 s /\
    paging_kern_map boot kr pa.2 = delete (page_number p) (paging_kern_map boot kr s) /\
    (forall u, u ∈ us -> paging_user_map pa.2 u = paging_user_map s u) /\ pa.1 = pm /\
    forall g, paging_tables kr us pa.2 g -> paging_tables kr us s g).
Proof.
  intros Hs Hkr Hp Hl. pose proof (pr_mem _ _ _ _ _ _ Hs) as Hm.
  unfold paging_kern_map in Hl. rewrite lookup_fmap, fmap_is_Some in Hl. destruct Hl as [l Hl].
  apply map_lookup_filter_Some in Hl as [Hl Hb]. simpl in Hb.
  eapply returns_mono.
  { eapply (unmap_with_mapper_spec kr us s p None 0%nat); simpl; try done.
    - by rewrite Hkr.
    - by apply (mr_small _ _ _ _ _ Hm (page_number p)). }
  intros res [pm' s'] (-> & Ep & m' & Es & Heff). simpl in Es, Ep. subst s' pm'. simpl fst. simpl snd.
  change (root_of_action s None) with (pg_cr3 s) in Heff. rewrite Hkr in Heff.
  destruct (unmap_effect_kernel poff boot Hm _ Heff Hb) as [Hch Hslot].
  destruct (ready_kernel_change kr us s m' _ Hs Hch) as (V1 & V2 & V3).
  split; [done|]. split; [done|]. split; [done|]. split; [|split; [done|split; [done|]]].
  - unfold paging_kern_map. simpl. by rewrite Hslot, map_filter_delete, fmap_delete.
  - intros g [?|[]]%V3. done.
Qed.

(** ** A new root *)

(** Only level-4 entries of the frame [r] were written. *)
Record writes_root (r : PhysFrame) (m m' : M) : Prop := {
  wr_entries r' j : r' <> r -> read_entry m' r' j = read_entry m r' j;
  wr_same t : ~ tables m t r -> table_same below tables m m' t }.

#[export] Instance writes_root_preorder r : PreOrder (writes_root r).
Proof.
  split.
  - intros m. by split.
  - intros m1 m2 m3 [E1 S1] [E2 S2]. split.
    + intros r' j Hne. by rewrite E2, E1.
    + intros t Ht. destruct (S1 t Ht) as [B1 T1]. destruct (S2 t) as [B2 T2].
      { by rewrite T1. }
      split; [by rewrite B2|]. intros g. by rewrite T2.
Qed.

Lemma writes_root_entry r i e m : (i < 512)%nat -> writes_root r m (write_entry r i e m).
Proof.
  intros Hi. split.
  - intros r' j Hne. rewrite x86_read_write by done. by rewrite decide_False by tauto.
  - intros t Ht. by apply x86_write_same.
Qed.

Lemma is_unused_eq e : is_unused e = true -> e = pte_unused.
Proof.
  unfold is_unused. rewrite andb_true_iff, !Z.eqb_eq. destruct e. simpl. by intros [-> ->].
Qed.

(** The entries the loops left in the frame [r]. *)
Definition entries_set (r : PhysFrame) (l : list nat) (e : nat -> PageTableEntry) (m m' : M) : Prop :=
  writes_root r m m' /\ forall j, read_entry m' r j = if decide (j ∈ l) then e j else read_entry m r j.

Lemma clear_loop (s : Paging M) r l :
  (forall i, i ∈ l -> (i < 512)%nat) ->
  returns (for_each l (fun i => set_entry r i pte_unused)) s (fun _ s' =>
    exists m', s' = with_mem s m' /\ entries_set r l (fun _ => pte_unused) (pg_mem s) m').
Proof.
  revert s. induction l as [|x l IH]; intros s Hl; simpl.
  { mstep_basic. exists (pg_mem s). split; [by destruct s|]. split; [done|]. intros j. by rewrite decide_False by set_solver. }
  eapply returns_step; [reflexivity|]. eapply returns_mono; [apply IH; set_solver|].
  intros _ s' (m' & -> & Hw & He). exists m'. split; [done|]. simpl in *.
  assert (Hx : (x < 512)%nat) by (apply Hl; by left). split.
  - etrans; [by apply (writes_root_entry r x pte_unused)|done].
  - intros j. rewrite He, x86_read_write by done.
    destruct (decide (j ∈ l)); [by rewrite decide_True by set_solver|].
    destruct (decide (j = x)) as [->|]; [by rewrite !decide_True by set_solver|].
    by rewrite !decide_False by set_solver.
Qed.

Lemma copy_loop (s : Paging M) cur r msg l :
  cur <> r ->
  (forall i, i ∈ l -> (i < 512)%nat /\
     x86_contains (pte_flags (read_entry (pg_mem s) cur i)) X86_USER_ACCESSIBLE = false /\
     (read_entry (pg_mem s) r i = pte_unused \/ read_entry (pg_mem s) r i = read_entry (pg_mem s) cur i)) ->
  returns (for_each l (copy_entry cur r msg)) s (fun _ s' =>
    exists m', s' = with_mem s m' /\ entries_set r l (read_entry (pg_mem s) cur) (pg_mem s) m').
Proof.
  intros Hne. revert s. induction l as [|x l IH]; intros s Hl; simpl.
  { mstep_basic. exists (pg_mem s). split; [by destruct s|]. split; [done|]. intros j. by rewrite decide_False by set_solver. }
  destruct (Hl x (list_elem_of_here _ _)) as (Hx & Hu & Hr).
  destruct (is_unused (read_entry (pg_mem s) cur x)) eqn:E.
  - eapply returns_step; [unfold copy_entry, entry_at; by rewrite bind_gets, E|]. eapply returns_mono; [apply IH; set_solver|].
    intros _ s' (m' & -> & Hw & He). exists m'. split; [done|]. split; [done|].
    intros j. rewrite He. destruct (decide (j ∈ l)); [by rewrite decide_True by set_solver|].
    destruct (decide (j = x)) as [->|]; [|by rewrite decide_False by set_solver].
    rewrite decide_True by set_solver. destruct Hr as [->| ->]; [by apply is_unused_eq in E|done].
  - eapply returns_step; [unfold copy_entry, entry_at; by rewrite bind_gets, E, Hu|]. simpl.
    set (e := read_entry (pg_mem s) cur x). set (m1 := write_entry r x e (pg_mem s)).
    assert (Hcur : forall j, read_entry m1 cur j = read_entry (pg_mem s) cur j).
    { intros j. unfold m1. rewrite x86_read_write by done. by rewrite decide_False by tauto. }
    eapply returns_mono; [apply IH|]; simpl.
    + intros i Hi. destruct (Hl i ltac:(by right)) as (? & ? & Hri). rewrite Hcur. split; [done|]. split; [done|].
      unfold m1. rewrite x86_read_write by done. case_decide as Hd; [|done]. destruct Hd as [_ ->]. by right.
    + intros _ s' (m' & -> & Hw & He). exists m'. split; [done|]. split.
      { etrans; [by apply (writes_root_entry r x e)|done]. }
      intros j. rewrite He, Hcur. destruct (decide (j ∈ l)); [by rewrite decide_True by set_solver|].
      unfold m1. rewrite x86_read_write by done.
      destruct (decide (j = x)) as [->|]; [by rewrite !decide_True by set_solver|].
      by rewrite !decide_False by set_solver.
Qed.

Lemma with_mem_with_mem (s : Paging M) m1 m2 : with_mem (with_mem s m1) m2 = with_mem s m2.
Proof. done. Qed.

(** The entries a new root gets. *)
Definition user_root_entry (m : M) (kr : PhysFrame) (j : nat) : PageTableEntry :=
  if decide (j = USER_PML4_INDEX) then pte_unused
  else if shared poff j then read_entry m kr j else pte_unused.

Lemma shared_elem (j : nat) : (j < 512)%nat ->
  shared poff j = true <->
  j ∈ seq (pml4_index poff) (physmap_copy_end (pml4_index poff) - pml4_index poff) \/ j ∈ seq 256 256.
Proof.
  intros Hj. unfold shared. rewrite orb_true_iff, andb_true_iff, Nat.leb_le, Nat.ltb_lt, Nat.leb_le.
  rewrite !elem_of_seq. lia.
Qed.

Lemma seq_lt j a n : (a + n <= 512)%nat -> j ∈ seq a n -> (j < 512)%nat.
Proof. intros Ha Hj%elem_of_seq. lia. Qed.

(** The frame [r] has the entries of [kr] at the indices [l] and nothing else. *)
Definition copied (kr r : PhysFrame) (l : list nat) (m m' : M) : Prop :=
  writes_root r m m' /\
  forall j, (j < 512)%nat -> read_entry m' r j = if decide (j ∈ l) then read_entry m kr j else pte_unused.

Lemma copied_more kr us (s : Paging M) r msg l l2 m1 :
  ready kr us s -> kr <> r -> copied kr r l (pg_mem s) m1 ->
  (forall i, i ∈ l2 -> (i < 512)%nat /\ shared poff i = true) ->
  returns (for_each l2 (copy_entry kr r msg)) (with_mem s m1) (fun _ s' =>
    exists m2, s' = with_mem s m2 /\ copied kr r (l ++ l2) (pg_mem s) m2).
Proof.
  intros Hs Hne [W1 E1] Hl2.
  assert (Ec : forall j, read_entry m1 kr j = read_entry (pg_mem s) kr j) by (intros j; by apply W1).
  eapply returns_mono; [apply copy_loop; [done|]|]; cbn [pg_mem with_mem].
  - intros i Hi. destruct (Hl2 i Hi) as [Hi' Hsh]. rewrite Ec, E1 by done. split; [done|].
    split; [by apply (mr_shared _ _ _ _ _ (pr_mem _ _ _ _ _ _ Hs))|]. case_decide; auto.
  - intros _ s2 (m2 & -> & W2 & E2). exists m2. split; [done|]. split; [by etrans|].
    intros j Hj. rewrite E2, Ec, E1 by done.
    destruct (decide (j ∈ l ++ l2)) as [Hi|Hi]; rewrite elem_of_app in Hi;
      destruct (decide (j ∈ l2)), (decide (j ∈ l)); tauto.
Qed.

Lemma alias_window_shared (i : nat) n :
  i ∈ filter (fun idx => (idx < 512)%nat) ((fun k => (KERNEL_ALIAS_DST_PML4_BASE_INDEX + k)%nat) <$> seq 0 n) ->
  (i < 512)%nat /\ shared poff i = true.
Proof.
  rewrite list_elem_of_filter, list_elem_of_fmap. intros [Hi (k & -> & _)]. split; [done|].
  apply shared_high. unfold KERNEL_ALIAS_DST_PML4_BASE_INDEX. lia.
Qed.

Lemma copied_shared {E} (j : nat) n (x y : E) : (j < 512)%nat ->
  (if decide (j ∈ (seq (pml4_index poff) (physmap_copy_end (pml4_index poff) - pml4_index poff) ++ seq 256 256)
     ++ filter (fun idx => (idx < 512)%nat) ((fun k => (KERNEL_ALIAS_DST_PML4_BASE_INDEX + k)%nat) <$> seq 0 n))
   then x else y)
  = if shared poff j then x else y.
Proof.
  intros Hj. pose proof (shared_elem j Hj) as Hs. pose proof (alias_window_shared j n) as Ha.
  case_decide as Hd; rewrite !elem_of_app in Hd.
  - destruct Hd as [Hd|Hd]; [by rewrite (proj2 Hs)|]. by rewrite (proj2 (Ha Hd)).
  - destruct (shared poff j); [|done]. destruct Hd. left. by apply Hs.
Qed.

(** The loops of [init_user_pml4_from_current], one after the other. *)
Lemma init_user_spec kr us (s : Paging M) r :
  ready kr us s -> pg_cr3 s = kr -> window_ok poff r -> kr <> r ->
  returns (paging_init_user_pml4_from_current r) s (fun _ s' =>
    exists m', s' = with_mem s m' /\ writes_root r (pg_mem s) m' /\
      forall j, (j < 512)%nat -> read_entry m' r j = user_root_entry (pg_mem s) kr j).
Proof.
  intros Hs Hkr Hw Hne. pose proof (pr_layout _ _ _ _ _ _ Hs) as Hl. pose proof (pr_mem _ _ _ _ _ _ Hs) as Hm.
  pose proof (ready_root_frame _ _ _ _ _ _ _ Hs (list_elem_of_here kr us)) as Hkf.
  pose proof (ready_window _ _ _ _ _ _ _ Hs (list_elem_of_here kr us)) as Hkw.
  pose proof (window_frame poff r (proj1 (lo_off _ Hl)) Hw) as Hrf.
  unfold paging_init_user_pml4_from_current. mstep_basic. cbv zeta. rewrite Hkr, (pr_off _ _ _ _ _ _ Hs).
  rewrite !frame_start by done. do 2 mstep_basic. cbn [phys_u64]. unfold window_ok, PAGE_SIZE in Hw, Hkw.
  rewrite !u64_add_Ok by (unfold u64_max, PAGE_SIZE; lia). do 2 mstep_basic.
  rewrite collision_Ok by done. mstep_basic. pose proof (lo_physmap _ Hl) as Hpp.
  eapply returns_seq; [apply clear_loop; intros i; by apply seq_lt|]. intros _ s1 (m1 & -> & W1 & E1).
  assert (C1 : copied kr r [] (pg_mem s) m1).
  { split; [done|]. intros j Hj. rewrite E1, decide_True; [done|]. apply elem_of_seq. lia. }
  eapply returns_seq; [eapply (copied_more _ _ _ _ _ _ _ _ Hs Hne C1)|].
  { intros i Hi. assert (Hi' : (i < 512)%nat).
    { revert Hi. apply seq_lt. unfold physmap_copy_end. lia. }
    split; [done|]. apply shared_elem; auto. }
  intros _ s2 (m2 & -> & C2). rewrite app_nil_l in C2. unfold entry_at. mstep_basic.
  cbn [pg_mem with_mem]. rewrite (proj2 C2) by apply pml4_index_lt. rewrite decide_True.
  2: { apply elem_of_seq. unfold physmap_copy_end, PHYSMAP_PML4_COPY_COUNT. lia. }
  pose proof (mr_physmap _ _ _ _ _ Hm) as Hpr. rewrite contains_unused, Hpr by done. cbn [orb negb].
  eapply returns_seq; [eapply (copied_more _ _ _ _ _ _ _ _ Hs Hne C2)|].
  { intros i Hi. assert (Hi' : (i < 512)%nat) by (revert Hi; by apply seq_lt).
    split; [done|]. apply shared_elem; auto. }
  intros _ s3 (m3 & -> & C3).
  eapply returns_seq; [eapply (copied_more _ _ _ _ _ _ _ _ Hs Hne C3); intros i; apply alias_window_shared|].
  intros _ s4 (m4 & -> & W4 & E4). eapply returns_Ok; [reflexivity|].
  pose proof user_lt_512 as Hu. exists (write_entry r USER_PML4_INDEX pte_unused m4). split; [done|]. split.
  { etrans; [done|by apply writes_root_entry]. }
  intros j Hj. rewrite x86_read_write by done. unfold user_root_entry.
  destruct (decide (j = USER_PML4_INDEX)) as [->|Hju]; [by rewrite decide_True|].
  rewrite decide_False by tauto. rewrite E4 by done. by apply copied_shared.
Qed.

(** The fresh root: it shares the kernel's part and maps nothing else. *)
Lemma paging_init_user kr us (s : Paging M) r :
  ready kr us s -> pg_cr3 s = kr -> window_ok poff r -> ~ paging_tables kr us s r ->
  returns (paging_init_user_pml4_from_current r) s (fun _ s' =>
    ready kr (us ++ [r]) s' /\ pg_cr3 s' = pg_cr3 s /\ paging_user_map s' r = ∅ /\
    (forall u, u ∈ us -> paging_user_map s' u = paging_user_map s u) /\
    paging_kern_map boot kr s' = paging_kern_map boot kr s /\
    forall g, paging_tables kr (us ++ [r]) s' g -> paging_tables kr us s g \/ g = r).
Proof.
  intros Hs Hkr Hw Hfresh. pose proof (pr_mem _ _ _ _ _ _ Hs) as Hm.
  assert (Hin : forall r', r' ∈ kr :: us -> r' <> r) by (intros r' Hr' ->; apply Hfresh; by left).
  pose proof (Hin kr (list_elem_of_here _ _)) as Hne.
  destruct (root_not_table poff boot kr us (pg_mem s) r Hm (or_intror Hfresh)) as [Hrk Hru].
  eapply returns_mono; [by eapply init_user_spec|]. intros _ s' (m' & -> & [We Ws] & He).
  pose proof user_lt_512 as H512.
  assert (Hu : read_entry m' r USER_PML4_INDEX = pte_unused).
  { rewrite He by done. unfold user_root_entry. by rewrite decide_True. }
  assert (Hslot : slot m' r USER_PML4_INDEX = ∅) by (unfold slot, slot_of; by rewrite Hu).
  assert (Hch : user_change poff kr us (pg_mem s) m' r (fun _ => False)).
  { split; try done.
    - intros j Hj. split; [by apply We|]. intros Hp. apply Ws. intros Ht. by apply (Hrk j Hj).
    - intros u Hu' _. split; [apply We, Hin; by right|]. intros Hp. apply Ws. intros Ht. by apply (Hru u Hu').
    - intros u j Hu' _ _ _. apply We, Hin. by right.
    - intros j Hj Hju. rewrite He by done. unfold user_root_entry. by rewrite decide_False.
    - by right.
    - intros g [Hp _]. by rewrite Hu in Hp.
    - intros p l. rewrite Hslot. by rewrite lookup_empty. }
  assert (Hus : forall u, u ∈ us ++ [r] -> u = r \/ u ∈ us /\ u <> r).
  { intros u [Hu'| ->%list_elem_of_singleton]%elem_of_app; [right|by left]. split; [done|]. apply Hin. by right. }
  destruct (user_change_views kr us (us ++ [r]) s m' r _ Hch Hus) as (V1 & V2 & V3).
  split; [|split; [done|split; [|split; [|split; [done|]]]]].
  - eapply ready_user_change; try done; [..|by right].
    + apply elem_of_app. right. by apply list_elem_of_singleton.
    + intros u Hu'. apply elem_of_app. by left.
    + change (NoDup ((kr :: us) ++ [r])). apply NoDup_app. split; [apply Hm|]. split; [|apply NoDup_singleton].
      intros x Hx ->%list_elem_of_singleton. by apply (Hin r).
  - unfold paging_user_map. simpl pg_mem. by rewrite Hslot, fmap_empty.
  - intros u Hu'. apply V1; [done|]. apply Hin. by right.
  - intros g [?|[?|[]]]%V3; auto.
Qed.

(** ** The instance *)

Definition paging_arch : ArchOps (Paging M) := paging_ops im.

#[local] Existing Instance paging_arch.

Definition paging_laws : ArchLaws (Paging M).
Proof.
  refine {| arch_ready := ready; user_map := paging_user_map; kern_map := paging_kern_map boot;
            arch_tables := paging_tables; phys_ok := window_ok poff;
            kern_page_ok := fun p => page_number p ∉ boot |}.
  - intros kr us a r Ha Hr. eapply returns_mono; [by apply paging_switch|]. naive_solver.
  - intros kr us a r. apply paging_switch_quiet.
  - intros kr us a r addr v Ha Hr Haddr Hal Hdata.
    eapply returns_mono; [apply user_rw_spec; [done|done|done|done|]|].
    { intros p l Hl. apply (Hdata p (leaf_frame l) (of_x86_flags (leaf_flags l))).
      unfold paging_user_map. by rewrite lookup_fmap, Hl. }
    intros res s' (_ & Hs' & _ & Hsame & Hc). split; [done|].
    destruct (views_same boot kr us a s' Hsame) as (? & ? & ?). done.
  - intros kr us a r addr. apply paging_debug_translate.
  - intros kr us a r p f fl pm Ha Hr Hp Hf Hfl Hn Hff Hlen.
    eapply returns_mono; [by apply (paging_map_user kr us a)|]. by intros res pa [_ Hpost].
  - intros kr us a r p pm. apply paging_unmap_user.
  - intros kr us a p f fl pm. apply paging_map_kernel.
  - intros kr us a p pm. apply paging_unmap_kernel.
  - intros kr us a r. apply paging_init_user.
Defined.

End arch.
