(* ===== verification/PagingStart.v ===== *)
(** * The start of paging

    From the tables of the bootloader to the state the kernel runs in:
    [paging::init], then [start] of kernel/entry.rs, which notes the guard
    addresses, installs the alias of the low kernel half in the upper half and
    moves to it.  A loaded machine ends up in [paging_ready]. *)

From stdpp Require Import base list option gmap sets strings.
From Stdlib Require Import ZArith Lia.
From S2P Require Import Prelude Addr AddressSpace FrameAlloc KTypes KState ArchIface X86 Paging PagingInv.
From S2P Require Import PagingLaws PagingMap PagingArch.
#[local] Open Scope Z_scope.

(** entry.rs [start]: the registers the kernel continues with.  The IDT reload
    and the log are left out. *)
Definition start {M} `{X86 M} (im : Image) (kernel_high_entry stack_addr : Z) : ST (Paging M) (Z * Z * Z) :=
  configure_cr3_switch_safety kernel_high_entry stack_addr ;;
  install_kernel_high_alias_from_current im ;;
  enter_kernel_high_alias kernel_high_entry.

(** The paging part of main.rs [kernel_main] with arch/mod.rs [init]. *)
Definition kernel_main {M} `{X86 M} (im : Image) (physical_memory_offset entry stack_addr : Z) :
    ST (Paging M) (Z * Z * Z) :=
  paging_init physical_memory_offset ;;
  start im entry stack_addr.

Section start.
Context {M : Type} `{X86Laws M} (im : Image) (poff : Z) (boot : gset Z).
Abbreviation ready := (paging_ready im poff boot).

(** ** What the bootloader leaves *)

(** The address [va] of the alias source leads to [pa], in a page the kernel
    does not touch. *)
Definition low_ok (m : M) (kr : PhysFrame) (va pa : Z) : Prop :=
  canonical va /\ (pml4_index va < 4)%nat /\
  (exists l, slot m kr (pml4_index va) !! slot_page va = Some l /\
     frame_number (leaf_frame l) * PAGE_SIZE + va mod PAGE_SIZE = pa) /\
  (pte_addr (read_entry m kr (pml4_index va)) = pte_addr (read_entry m kr 0) -> slot_page va ∈ boot).

(** Behind the alias: [va] is the alias of such an address. *)
Definition high_ok (m : M) (kr : PhysFrame) (va pa : Z) : Prop :=
  exists low, low_ok m kr low pa /\ kernel_high_alias_of_low low = Ok va.

Record tables_loaded (kr : PhysFrame) (m : M) : Prop := {
  tl_window : window_ok poff kr;
  tl_physmap : present (read_entry m kr (pml4_index poff)) = true;
  tl_zero : present (read_entry m kr 0) = true;
  tl_kernel j : (j < 4)%nat \/ (j < 512)%nat /\ shared poff j = true ->
    x86_contains (pte_flags (read_entry m kr j)) X86_USER_ACCESSIBLE = false;
  tl_root j : (j < 512)%nat -> ~ tabs m kr j kr;
  tl_zero_sep j : (j < 512)%nat -> present (read_entry m kr j) = true ->
    pte_addr (read_entry m kr j) = pte_addr (read_entry m kr 0) \/
    forall g, tabs m kr j g -> ~ tabs m kr 0 g;
  tl_small p l : p ∉ boot -> slot m kr 0 !! p = Some l -> leaf_4k l = true }.

(** The loaded machine: the code, the stack, the fault statics and the test
    function lie in the alias source, code and stack outside the slots of the
    window; after the move the kernel runs behind the alias. *)
Record loaded (code stack : Z) (s : Paging M) : Prop := {
  ld_layout : layout_ok poff;
  ld_tables : tables_loaded (pg_cr3 s) (pg_mem s);
  ld_code : exists pa, pa <> 0 /\ low_ok (pg_mem s) (pg_cr3 s) code pa;
  ld_stack : exists pa, pa <> 0 /\ low_ok (pg_mem s) (pg_cr3 s) stack pa;
  ld_apart : shared poff (pml4_index code) = false /\ shared poff (pml4_index stack) = false;
  ld_static k : exists pa, low_ok (pg_mem s) (pg_cr3 s) (im_static im k) pa;
  ld_recover : canonical (im_recover im) /\ im_recover im <> 0;
  ld_test : exists pa, low_ok (pg_mem s) (pg_cr3 s) (im_exec_test im) pa;
  ld_move : let '(_, rsp, rbp) := pg_context s 1%nat in
    u64 rsp /\ (pml4_index rsp < 4)%nat /\ u64 rbp /\ (pml4_index rbp < 4)%nat;
  ld_context n : let '(rip, rsp, rbp) := pg_context s (2 + n)%nat in
    (exists pa, pa <> 0 /\ high_ok (pg_mem s) (pg_cr3 s) rip pa) /\
    (exists pa, pa <> 0 /\ high_ok (pg_mem s) (pg_cr3 s) rsp pa) /\ canonical rbp }.

(** ** Addresses of the alias *)

Lemma alias_address low :
  u64 low -> (pml4_index low < 4)%nat ->
  exists h, kernel_high_alias_of_low low = Ok h /\ canonical h /\
    pml4_index h = (508 + pml4_index low)%nat /\ slot_page h = slot_page low /\ h mod PAGE_SIZE = low mod PAGE_SIZE.
Proof.
  intros Hlow Hi. rewrite kernel_high_alias_eq by done. eexists. split; [done|].
  pose proof (Z.mod_pos_bound low (2 ^ 39) ltac:(lia)) as Hoff.
  split; [|split; [apply pml4_index_of_slot; lia|]].
  { rewrite pml4_index_base_addr_eq by lia. rewrite (proj2 (Nat.leb_le 256 _)) by lia. right. lia. }
  rewrite pml4_index_base_addr_eq by lia. rewrite (proj2 (Nat.leb_le 256 _)) by lia.
  set (c := Z.of_nat (508 + pml4_index low) * 2 ^ 27 + (2 ^ 52 - 2 ^ 36)).
  set (d := low / 2 ^ 39).
  assert (Ed : low = d * 2 ^ 27 * PAGE_SIZE + low mod 2 ^ 39).
  { pose proof (div_mod_pow2 low 39 ltac:(lia)). unfold PAGE_SIZE. fold d in H1. lia. }
  assert (Eh : Z.of_nat (508 + pml4_index low) * 2 ^ 39 + (2 ^ 64 - 2 ^ 48) + low mod 2 ^ 39
               = c * PAGE_SIZE + low mod 2 ^ 39) by (unfold c, PAGE_SIZE; lia).
  rewrite Eh. unfold slot_page. split.
  - rewrite Ed at 2. rewrite !Z.div_add_l by done.
    replace c with ((Z.of_nat (508 + pml4_index low) + (2 ^ 25 - 2 ^ 9)) * 2 ^ 27) by (unfold c; lia).
    rewrite !(Z.add_comm (_ * 2 ^ 27)), !Z.mod_add by lia. done.
  - rewrite Ed at 2. rewrite !(Z.add_comm (_ * PAGE_SIZE)), !Z.mod_add by done. done.
Qed.

(** ** Installing the alias *)

(** The entry the root has at [j] afterwards is the one it had at [alias_source m kr j]. *)
Definition alias_source (m : M) (kr : PhysFrame) (j : nat) : nat :=
  if (508 <=? j)%nat && negb (is_unused (read_entry m kr (j - 508))) then (j - 508)%nat else j.

Record aliased (kr : PhysFrame) (m m' : M) : Prop := {
  al_writes : writes_root kr m m';
  al_entries j : (j < 512)%nat -> read_entry m' kr j = read_entry m kr (alias_source m kr j) }.

(** In the loop, the entries whose source is still to come are unchanged. *)
Definition alias_pending (kr : PhysFrame) (m : M) (l : list nat) (m' : M) : Prop :=
  NoDup l /\ (forall x, x ∈ l -> (x < 4)%nat) /\ writes_root kr m m' /\
  forall j, (j < 512)%nat -> read_entry m' kr j =
    if decide ((508 <= j)%nat /\ (j - 508)%nat ∈ l) then read_entry m kr j
    else read_entry m kr (alias_source m kr j).

Lemma alias_loop kr (s : Paging M) :
  (forall j, (j < 4)%nat -> x86_contains (pte_flags (read_entry (pg_mem s) kr j)) X86_USER_ACCESSIBLE = false) ->
  returns (for_each (seq 0 KERNEL_ALIAS_MAX_COPY_COUNT) (alias_copy kr)) s (fun _ s' =>
    exists m', s' = with_mem s m' /\ aliased kr (pg_mem s) m').
Proof.
  intros Hk. set (m := pg_mem s) in *.
  eapply returns_mono; [apply (returns_for_each (fun l s' =>
    exists m', s' = with_mem s m' /\ alias_pending kr m l m'))|].
  - exists m. split; [by destruct s|]. split; [apply NoDup_seq|]. split.
    { intros x Hx%elem_of_seq. unfold KERNEL_ALIAS_MAX_COPY_COUNT, KERNEL_ALIAS_DST_PML4_BASE_INDEX in Hx. lia. }
    split; [done|]. intros j Hj. case_decide as Hd; [done|]. unfold alias_source.
    destruct (Nat.leb_spec 508 j); [|done]. destruct Hd. split; [done|]. apply elem_of_seq.
    unfold KERNEL_ALIAS_MAX_COPY_COUNT, KERNEL_ALIAS_DST_PML4_BASE_INDEX. lia.
  - intros x l s' (m' & -> & Hnd & Hlt & Hw & He). apply NoDup_cons in Hnd as [Hxl Hnd].
    assert (Hx : (x < 4)%nat) by (apply Hlt; by left).
    assert (Hsrc : forall j, (j < 508)%nat -> alias_source m kr j = j).
    { intros j Hj. unfold alias_source. by rewrite (proj2 (Nat.leb_gt _ _)). }
    assert (Ex : read_entry m' kr x = read_entry m kr x).
    { rewrite He by lia. rewrite decide_False by lia. by rewrite Hsrc by lia. }
    unfold alias_copy, entry_at. mstep_basic. cbn [pg_mem with_mem]. rewrite Ex, (Hk x Hx).
    assert (Hl' : forall y, y ∈ l -> (y < 4)%nat) by (intros y Hy; apply Hlt; by right).
    destruct (is_unused (read_entry m kr x)) eqn:Eu.
    + mstep_basic. exists m'. split; [done|]. split; [done|]. split; [done|]. split; [done|].
      intros j Hj. rewrite He by done. destruct (decide (_ /\ _ ∈ l)) as [[H1 H2]|Hn].
      { rewrite decide_True; [done|]. split; [done|by right]. }
      case_decide as Hd; [|done]. destruct Hd as [H1 H2]. apply elem_of_cons in H2 as [H2|H2]; [|tauto].
      unfold alias_source. rewrite H2, Eu, andb_false_r. done.
    + eapply returns_Ok; [reflexivity|]. exists (write_entry kr (KERNEL_ALIAS_DST_PML4_BASE_INDEX + x) (read_entry m kr x) m').
      assert (H512 : (KERNEL_ALIAS_DST_PML4_BASE_INDEX + x < 512)%nat) by (unfold KERNEL_ALIAS_DST_PML4_BASE_INDEX; lia).
      split; [done|]. split; [done|]. split; [done|]. split; [etrans; [done|by apply writes_root_entry]|].
      intros j Hj. rewrite x86_read_write by done. unfold KERNEL_ALIAS_DST_PML4_BASE_INDEX in *.
      destruct (decide (j = (508 + x)%nat)) as [->|Hne].
      * rewrite decide_True by done. replace (508 + x - 508)%nat with x by lia. rewrite decide_False by tauto.
        unfold alias_source. replace (508 + x - 508)%nat with x by lia. rewrite Eu, (proj2 (Nat.leb_le _ _)) by lia. done.
      * rewrite decide_False by tauto. rewrite He by done.
        destruct (decide (_ /\ _ ∈ l)) as [[H1 H2]|Hn].
        { rewrite decide_True; [done|]. split; [done|by right]. }
        rewrite decide_False; [done|]. intros [H1 [H2|H2]%elem_of_cons]; [lia|tauto].
  - intros _ s' (m' & -> & _ & _ & Hw & He). exists m'. split; [done|]. split; [done|].
    intros j Hj. rewrite He by done. rewrite decide_False; [done|]. intros [_ Hin]. by apply elem_of_nil in Hin.
Qed.

Section aliased.
Context {kr : PhysFrame} {m m' : M} (Hl : layout_ok poff) (Ht : tables_loaded kr m) (Ha : aliased kr m m').

Lemma alias_source_lt j : (j < 512)%nat -> (alias_source m kr j < 512)%nat.
Proof. unfold alias_source. destruct (_ && _); lia. Qed.

Lemma alias_source_low j : (j < 508)%nat -> alias_source m kr j = j.
Proof. intros Hj. unfold alias_source. by rewrite (proj2 (Nat.leb_gt _ _)). Qed.

Lemma alias_source_high j : (j < 4)%nat -> present (read_entry m kr j) = true -> alias_source m kr (508 + j) = j.
Proof.
  intros Hj Hp. unfold alias_source. replace (508 + j - 508)%nat with j by lia.
  rewrite contains_unused, (proj2 (Nat.leb_le _ _)) by (done || lia). done.
Qed.

Lemma alias_table_same j : (j < 512)%nat -> present (read_entry m kr j) = true ->
  table_same below tables m m' (pte_addr (read_entry m kr j)).
Proof.
  intros Hj Hp. apply (wr_same _ _ _ (al_writes _ _ _ Ha)). intros Hr. by apply (tl_root _ _ Ht j Hj).
Qed.

Lemma alias_slot j : (j < 512)%nat -> slot m' kr j = slot m kr (alias_source m kr j).
Proof.
  intros Hj. unfold slot, slot_of. rewrite (al_entries _ _ _ Ha) by done.
  destruct (present _) eqn:Hp; [|done]. apply alias_table_same; [by apply alias_source_lt|done].
Qed.

Lemma alias_tabs j g : (j < 512)%nat -> tabs m' kr j g <-> tabs m kr (alias_source m kr j) g.
Proof.
  intros Hj. unfold tabs, tables_of. rewrite (al_entries _ _ _ Ha) by done.
  split; intros [Hp Hg]; (split; [done|]); by apply (alias_table_same _ (alias_source_lt j Hj) Hp).
Qed.

Lemma present_of_slot r i p l : slot m r i !! p = Some l -> present (read_entry m r i) = true.
Proof. apply present_slot. Qed.

(** The alias of a low address leads where the address led. *)
Lemma alias_reaches low h pa :
  low_ok m kr low pa -> kernel_high_alias_of_low low = Ok h -> reaches boot m' kr h pa.
Proof.
  intros (Hc & Hi & (l & Hlk & Hpa) & Hb) Hh.
  destruct (alias_address low (canonical_u64 _ Hc) Hi) as (h' & Hh' & Hc' & Hi' & Hsp & Hm).
  rewrite Hh in Hh'. injection Hh' as <-. pose proof (present_of_slot _ _ _ _ Hlk) as Hp.
  pose proof (alias_source_high _ Hi Hp) as Hsrc. assert (Hj : (508 + pml4_index low < 512)%nat) by lia.
  split; [done|]. rewrite Hi', Hsp, Hm. split; [lia|].
  rewrite alias_slot, !(al_entries _ _ _ Ha), Hsrc by lia. rewrite (alias_source_low 0) by lia. eauto.
Qed.

Lemma alias_translate low h pa :
  low_ok m kr low pa -> kernel_high_alias_of_low low = Ok h ->
  canonical h /\ translate_addr m' kr h = Some pa /\ hw_walk m' kr h = hw_walk m' kr low /\ is_Some (hw_walk m' kr h).
Proof.
  intros Hlow Hh. pose proof (alias_reaches _ _ _ Hlow Hh) as (Hc' & Hi' & (l & Hlk & Hpa) & _).
  destruct Hlow as (Hc & Hi & (l0 & Hlk0 & _) & _).
  destruct (alias_address low (canonical_u64 _ Hc) Hi) as (h' & Hh' & _ & Hi2 & Hsp & Hm).
  rewrite Hh in Hh'. injection Hh' as <-. unfold slot in *.
  split; [done|]. rewrite x86_translate, !x86_walk, Hlk by done. split; [simpl; by rewrite Hpa|].
  split; [|by eexists]. f_equal. rewrite <- Hlk, Hi2, Hsp. fold (slot m' kr).
  change (slot m' kr (508 + pml4_index low) !! slot_page low = slot m' kr (pml4_index low) !! slot_page low).
  rewrite !alias_slot by lia. rewrite alias_source_high, alias_source_low; [done|lia|done|].
  by eapply present_of_slot.
Qed.

Lemma aliased_mem_ready : mem_ready poff boot kr [] m'.
Proof.
  assert (Hz : (0 < 512)%nat) by lia. pose proof (alias_source_low 0 ltac:(lia)) as Ez.
  pose proof (al_entries _ _ _ Ha) as He. split.
  - intros r ->%list_elem_of_singleton. apply Ht.
  - apply NoDup_singleton.
  - rewrite He, alias_source_low; [apply Ht|destruct Hl; lia|apply pml4_index_lt].
  - intros j Hj Hs. rewrite He by done. apply (tl_kernel _ _ Ht). unfold alias_source.
    destruct (Nat.leb_spec 508 j); [|by right]. destruct (negb _); [left; simpl; lia|by right].
  - intros u j Hu. by apply elem_of_nil in Hu.
  - intros u Hu. by apply elem_of_nil in Hu.
  - rewrite He, Ez by done. apply Ht.
  - intros r j ->%list_elem_of_singleton Hj. rewrite alias_tabs by done. apply (tl_root _ _ Ht). by apply alias_source_lt.
  - intros r u _ Hu. by apply elem_of_nil in Hu.
  - intros u j g Hu. by apply elem_of_nil in Hu.
  - intros u v g Hu. by apply elem_of_nil in Hu.
  - intros j Hj. rewrite !He, Ez by done. intros Hp.
    destruct (tl_zero_sep _ _ Ht _ (alias_source_lt j Hj) Hp) as [?|Hse]; [by left|right].
    intros g. rewrite !alias_tabs, Ez by done. auto.
  - intros p l. rewrite alias_slot, Ez by done. apply (tl_small _ _ Ht).
  - intros u p l Hu. by apply elem_of_nil in Hu.
Qed.

End aliased.

(** ** The steps of the start *)

Lemma low_translate (m : M) kr va pa : low_ok m kr va pa -> canonical va /\ translate_addr m kr va = Some pa.
Proof.
  intros (Hc & Hi & (l & Hlk & Hpa) & _). split; [done|]. rewrite x86_translate by done. unfold slot in Hlk.
  rewrite Hlk. simpl. by rewrite Hpa.
Qed.

(** The state after [configure_cr3_switch_safety]. *)
Definition configured (code stack pc ps hc hs : Z) (s : Paging M) : Paging M :=
  {| s with GUARD_CODE_VIRT := code; GUARD_STACK_VIRT := stack; GUARD_CODE_PHYS := pc; GUARD_STACK_PHYS := ps;
            GUARD_CODE_HIGH_VIRT := hc; GUARD_STACK_HIGH_VIRT := hs; ALLOW_REAL_CR3_SWITCH := true |}.

Lemma configure_Ok (s : Paging M) code stack pc ps hc hs :
  layout_ok poff -> PHYSICAL_MEMORY_OFFSET s = poff -> window_ok poff (pg_cr3 s) ->
  low_ok (pg_mem s) (pg_cr3 s) code pc -> low_ok (pg_mem s) (pg_cr3 s) stack ps -> pc <> 0 -> ps <> 0 ->
  kernel_high_alias_of_low code = Ok hc -> kernel_high_alias_of_low stack = Ok hs ->
  configure_cr3_switch_safety code stack s = Ok (tt, configured code stack pc ps hc hs s).
Proof.
  intros Hl Ho Hw Hcode Hstack Hpc Hps Hhc Hhs.
  destruct (low_translate _ _ _ _ Hcode) as [Cc Tc]. destruct (low_translate _ _ _ _ Hstack) as [Cs Ts].
  unfold configure_cr3_switch_safety. change (negb ENABLE_REAL_PAGING) with false. cbv iota.
  rewrite (bind_Ok _ _ _ _ _ (offset_table_Ok poff s Hl Ho Hw)).
  rewrite (bind_Ok _ _ _ _ _ (translate_Ok s _ _ Cc)), (bind_Ok _ _ _ _ _ (translate_Ok s _ _ Cs)).
  rewrite Tc, Ts. cbn [default from_option id].
  rewrite (proj2 (Z.eqb_neq _ _) Hpc), (proj2 (Z.eqb_neq _ _) Hps). cbn [orb].
  rewrite bind_modify, Hhc, bind_lift_Ok, bind_modify, Hhs, bind_lift_Ok, bind_modify. done.
Qed.

(** The state after [install_kernel_high_alias_from_current]. *)
Definition installed (m' : M) (s : Paging M) : Paging M :=
  {| s with pg_mem := m'; pg_context := fun n => pg_context s (S n);
            ALIAS_COPY_COUNT := KERNEL_ALIAS_MAX_COPY_COUNT |}.

(** The test function runs through its alias. *)
Lemma exec_test_Ok (s : Paging M) m pa :
  layout_ok poff -> tables_loaded (pg_cr3 s) m -> aliased (pg_cr3 s) m (pg_mem s) ->
  low_ok m (pg_cr3 s) (im_exec_test im) pa ->
  run_kernel_high_alias_exec_test im s = Ok (tt, s).
Proof.
  intros Hl Ht Ha Hlow. pose proof Hlow as (Hc & Hi & _).
  destruct (alias_address (im_exec_test im) (canonical_u64 _ Hc) Hi) as (h & Hh & _).
  destruct (alias_translate Ht Ha _ _ _ Hlow Hh) as (_ & _ & Hw & [x Hx]).
  unfold run_kernel_high_alias_exec_test. rewrite Hh, bind_lift_Ok.
  unfold kernel_access. rewrite bind_assoc, bind_get, Hx, bind_ret, bind_get, <- Hw. by rewrite decide_True.
Qed.

Lemma install_spec (s0 : Paging M) code stack pc ps hc hs :
  let s := configured code stack pc ps hc hs s0 in
  layout_ok poff -> PHYSICAL_MEMORY_OFFSET s = poff -> tables_loaded (pg_cr3 s) (pg_mem s) ->
  low_ok (pg_mem s) (pg_cr3 s) code pc -> low_ok (pg_mem s) (pg_cr3 s) stack ps ->
  kernel_high_alias_of_low code = Ok hc -> kernel_high_alias_of_low stack = Ok hs ->
  (exists pa, low_ok (pg_mem s) (pg_cr3 s) (im_exec_test im) pa) ->
  returns (install_kernel_high_alias_from_current im) s (fun _ s' =>
    exists m', s' = installed m' s /\ aliased (pg_cr3 s) (pg_mem s) m').
Proof.
  intros s Hl Ho Ht Hcode Hstack Hhc Hhs [pt Htest].
  unfold install_kernel_high_alias_from_current. change (negb ENABLE_REAL_PAGING) with false. cbv iota.
  unfold read_rip_rsp_rbp. do 5 mstep_basic. cbv zeta. mstep_basic.
  set (s1 := {| s with pg_context := fun n => pg_context s (S n);
                       ALIAS_COPY_COUNT := KERNEL_ALIAS_MAX_COPY_COUNT |}).
  eapply returns_step; [apply (active_table_Ok poff s1 Hl Ho), Ht|].
  change (pg_cr3 s1) with (pg_cr3 s).
  eapply returns_seq; [apply (alias_loop (pg_cr3 s) s1)|].
  { intros j Hj. apply Ht. by left. }
  intros _ s2 (m' & -> & Ha). unfold Cr3_write. do 2 mstep_basic.
  match goal with |- returns _ ?s3 _ => change s3 with (installed m' s) end.
  destruct (alias_translate Ht Ha _ _ _ Hcode Hhc) as (Cc & Tc & _).
  destruct (alias_translate Ht Ha _ _ _ Hstack Hhs) as (Cs & Ts & _).
  assert (Hif : forall b : bool, (if b then
       code_high ← lift_res (kernel_high_alias_of_low (GUARD_CODE_VIRT (installed m' s)));
       stack_high ← lift_res (kernel_high_alias_of_low (GUARD_STACK_VIRT (installed m' s)));
       mapper ← init_offset_page_table;
       preflight_guard mapper code_high stack_high (GUARD_CODE_PHYS (installed m' s))
         (GUARD_STACK_PHYS (installed m' s)) "kernel high-alias mapping mismatch"
     else mret tt) (installed m' s) = Ok (tt, installed m' s)).
  { intros [|]; [|done]. cbn [GUARD_CODE_VIRT GUARD_STACK_VIRT GUARD_CODE_PHYS GUARD_STACK_PHYS installed s configured].
    rewrite Hhc, bind_lift_Ok, Hhs, bind_lift_Ok.
    rewrite (bind_Ok _ _ _ _ _ (offset_table_Ok poff (installed m' s) Hl Ho (tl_window _ _ Ht))).
    by apply preflight_guard_Ok. }
  eapply returns_step; [apply Hif|]. change ENABLE_HIGH_ALIAS_EXEC_TEST with true. cbv iota.
  eapply returns_Ok; [eapply (exec_test_Ok (installed m' s) (pg_mem s)); done|]. by exists m'.
Qed.

Definition next_context (s : Paging M) : Paging M := {| s with pg_context := fun n => pg_context s (S n) |}.

Lemma enter_Ok (s : Paging M) entry he h1 h2 rip rsp rbp :
  pg_context s 0%nat = (rip, rsp, rbp) -> kernel_high_alias_of_low entry = Ok he ->
  kernel_high_alias_of_low rsp = Ok h1 -> kernel_high_alias_of_low rbp = Ok h2 ->
  enter_kernel_high_alias entry s = Ok ((he, Z.land h1 (u64_not 0xF), h2), next_context s).
Proof.
  intros Hc He H1 H2. unfold enter_kernel_high_alias, read_rip_rsp_rbp.
  rewrite He, bind_lift_Ok, bind_assoc, bind_get, bind_assoc.
  rewrite (bind_Ok (put _) _ s tt (next_context s)) by done. rewrite bind_ret, Hc, H1, bind_lift_Ok, H2, bind_lift_Ok. done.
Qed.

(** The state the start leaves is ready. *)
Lemma started_ready (s : Paging M) code stack pc ps hc hs m' :
  let s1 := {| s with PHYSICAL_MEMORY_OFFSET := poff |} in
  loaded code stack s -> aliased (pg_cr3 s) (pg_mem s) m' ->
  low_ok (pg_mem s) (pg_cr3 s) code pc -> low_ok (pg_mem s) (pg_cr3 s) stack ps ->
  kernel_high_alias_of_low code = Ok hc -> kernel_high_alias_of_low stack = Ok hs ->
  ready (pg_cr3 s) [] (next_context (installed m' (configured code stack pc ps hc hs s1))).
Proof.
  intros s1 [Hl Ht _ _ [Sc Ss] Hst Hre Htest _ Hctx] Ha Hcode Hstack Hhc Hhs.
  assert (Hhigh : forall va pa, high_ok (pg_mem s) (pg_cr3 s) va pa -> reaches boot m' (pg_cr3 s) va pa).
  { intros va pa (low & Hlow & Hal). by apply (alias_reaches Ht Ha low). }
  split; try done.
  - apply list_elem_of_here.
  - by apply (aliased_mem_ready Hl Ht Ha).
  - intros n. specialize (Hctx n). unfold context_ok.
    change (pg_context (next_context _) n) with (pg_context s (2 + n)%nat).
    destruct (pg_context s (2 + n)%nat) as [[rip rsp] rbp].
    destruct Hctx as ((p1 & N1 & H1) & (p2 & N2 & H2) & Hb). simpl pg_mem. eauto 10.
  - intros k. destruct (Hst k) as [pa Hlow]. pose proof Hlow as (Hc & Hi & _).
    destruct (alias_address _ (canonical_u64 _ Hc) Hi) as (h & Hh & _). exists h, pa.
    split; [|by apply (alias_reaches Ht Ha (im_static im k))]. unfold guard_u64_ptr.
    by rewrite (proj2 (Nat.ltb_lt _ _)) by (unfold KERNEL_ALIAS_MAX_COPY_COUNT, KERNEL_ALIAS_DST_PML4_BASE_INDEX; lia).
  - destruct Hcode as (Cc & Ic & Hcode). destruct Hstack as (Cs & Is & Hstack). split; simpl; try done. right.
    split; [by apply (alias_reaches Ht Ha code)|by apply (alias_reaches Ht Ha stack)].
Qed.

(** The whole start: the kernel continues behind the alias, in a ready state with
    its own root and no user roots, and switches of roots are enabled. *)
Lemma kernel_main_spec (s : Paging M) entry stack :
  loaded entry stack s ->
  returns (kernel_main im poff entry stack) s (fun regs s' =>
    ready (pg_cr3 s) [] s' /\ pg_cr3 s' = pg_cr3 s /\ ALLOW_REAL_CR3_SWITCH s' = true /\
    kernel_high_alias_of_low entry = Ok regs.1.1 /\
    (exists h, kernel_high_alias_of_low (pg_context s 1%nat).1.2 = Ok h /\ regs.1.2 = Z.land h (u64_not 0xF)) /\
    kernel_high_alias_of_low (pg_context s 1%nat).2 = Ok regs.2 /\
    aliased (pg_cr3 s) (pg_mem s) (pg_mem s') /\
    slot (pg_mem s') (pg_cr3 s) 0 = slot (pg_mem s) (pg_cr3 s) 0 /\
    forall g, paging_tables (pg_cr3 s) [] s' g -> root_tables (pg_cr3 s) [] (pg_mem s) g).
Proof.
  intros Hld. pose proof Hld as [Hl Ht (pc & Hpc & Hcode) (ps & Hps & Hstack) _ _ _ Htest Hmove _].
  pose proof Hcode as (Cc & Ic & _). pose proof Hstack as (Cs & Is & _).
  destruct (alias_address entry (canonical_u64 _ Cc) Ic) as (hc & Hhc & _).
  destruct (alias_address stack (canonical_u64 _ Cs) Is) as (hs & Hhs & _).
  unfold kernel_main, paging_init, start. do 2 mstep_basic.
  rewrite collision_Ok by done. mstep_basic. set (s1 := {| s with PHYSICAL_MEMORY_OFFSET := poff |}).
  eapply returns_step; [apply (configure_Ok s1 entry stack pc ps hc hs); try done; apply Ht|].
  eapply returns_seq; [by apply (install_spec s1 entry stack pc ps hc hs)|].
  intros _ s3 (m' & -> & Ha). change (pg_cr3 _) with (pg_cr3 s) in Ha. change (pg_mem _) with (pg_mem s) in Ha.
  destruct (pg_context s 1%nat) as [[rip rsp] rbp] eqn:Ectx. destruct Hmove as (Ursp & Irsp & Urbp & Irbp).
  destruct (alias_address rsp Ursp Irsp) as (h1 & Hh1 & _). destruct (alias_address rbp Urbp Irbp) as (h2 & Hh2 & _).
  eapply returns_Ok; [by eapply enter_Ok|].
  split; [by apply started_ready|]. split; [done|]. split; [done|]. split; [done|]. split; [by exists h1|].
  split; [done|]. split; [done|]. split.
  - simpl pg_mem. rewrite (alias_slot Ht Ha) by lia. by rewrite alias_source_low by lia.
  - intros g [?|[(j & Hj & Hg)|(u & Hu & _)]]; [by left| |by apply elem_of_nil in Hu].
    right. left. exists (alias_source (pg_mem s) (pg_cr3 s) j). split; [by apply alias_source_lt|].
    by apply (alias_tabs Ht Ha).
Qed.

End start.
