(* ===== verification/Gdt.v ===== *)
(** * Descriptor tables (arch/gdt.rs, arch/interrupts.rs)

    The GDT, the TSS and the IDT the kernel builds, and what the CPU has loaded
    after it moves to the high alias.  The table type is the [x86_64] crate's
    [GlobalDescriptorTable]: a parameter with its documented behaviour
    ([GdtLaws]) and an instance. *)

From stdpp Require Import base list option.
From Stdlib Require Import ZArith Lia.
From S2P Require Import Prelude Addr Paging X86.
#[local] Open Scope Z_scope.

(** ** The crate's table *)

Inductive Descriptor :=
  | KernelCode | KernelData | UserCode | UserData
  | TssSegment (base : Z).

Definition descriptor_rpl (d : Descriptor) : Z :=
  match d with UserCode | UserData => 3 | _ => 0 end.

(** [append] panics when the table is full. *)
Class GdtOps (G : Type) := {
  gdt_new : G;
  gdt_append : Descriptor -> G -> res (Z * G) }.

(** Index and privilege level of a selector. *)
Definition selector_index (sel : Z) : Z := Z.shiftr sel 3.
Definition selector_rpl (sel : Z) : Z := Z.land sel 3.

(** A TSS descriptor takes two of the eight entries; entry 0 is the null
    descriptor. *)
Definition descriptor_slots (d : Descriptor) : nat := match d with TssSegment _ => 2 | _ => 1 end.
Definition GDT_ENTRIES : nat := 8.

Class GdtLaws (G : Type) `{GdtOps G} := {
  gdt_view : G -> Z -> option Descriptor;
  gdt_used : G -> nat;
  gdt_new_used : gdt_used gdt_new = 1%nat;
  gdt_new_view i : gdt_view gdt_new i = None;
  gdt_append_spec d g : (gdt_used g + descriptor_slots d <= GDT_ENTRIES)%nat ->
    exists sel g', gdt_append d g = Ok (sel, g') /\
      gdt_used g' = (gdt_used g + descriptor_slots d)%nat /\
      0 < selector_index sel /\ selector_rpl sel = descriptor_rpl d /\ Z.testbit sel 2 = false /\
      gdt_view g (selector_index sel) = None /\ gdt_view g' (selector_index sel) = Some d /\
      forall i, i <> selector_index sel -> gdt_view g' i = gdt_view g i }.

(** ** The tables of the kernel *)

(** A gate: the handler, the privilege level that may call it, its stack. *)
Record Gate := mkGate { gate_handler : Z; gate_dpl : Z; gate_ist : option nat }.
Record Idt := mkIdt { idt_page_fault : Gate; idt_gp : Gate; idt_double_fault : Gate; idt_int80 : Gate }.

Definition set_handler_fn (addr : Z) : Gate := mkGate addr 0 None.

(** The addresses the linker chose: the handlers, the statics of the tables, the
    tops of the stacks. *)
Record Tables := mkTables {
  tb_page_fault : Z; tb_gp : Z; tb_double_fault : Z; tb_int80 : Z;
  tb_idt_low : Z; tb_idt_high : Z;
  tb_gdt : Z; tb_tss : Z; tb_rsp0 : Z; tb_df_ist : Z; tb_pf_ist : Z }.

Definition DOUBLE_FAULT_IST_INDEX : nat := 0.
Definition PAGE_FAULT_IST_INDEX : nat := 1.

(** The task state: the stack of ring 0 and the interrupt stacks. *)
Record Tss := mkTss { privilege_stack_0 : Z; interrupt_stack_table : list Z }.

Record Selectors := mkSelectors {
  sel_code : Z; sel_data : Z; sel_tss : Z; sel_user_code : Z; sel_user_data : Z }.

Section tables.
Context `{X86Addr} {G : Type} `{GdtOps G}.

(** The segment registers. *)
Record Segments := mkSegments { seg_cs : Z; seg_ds : Z; seg_es : Z; seg_ss : Z }.

(** What the CPU has loaded, and the statics of the tables. *)
Record Cpu := mkCpu {
  cpu_idtr : option Z; cpu_gdtr : option Z; cpu_tr : option Z; cpu_segments : option Segments;
  IDT_LOW : option Idt; IDT_HIGH : option Idt; GDT_INIT_DONE : bool;
  TSS : option Tss; GDT : option G; SELECTORS : option Selectors }.

Definition Cpu_reset : Cpu := mkCpu None None None None None None false None None None.

Definition align_down_16 (x : Z) : Z := Z.land x (u64_not 0xF).

(** A stack top in the high alias. *)
Definition high_stack `{X86Addr} (low : Z) : res Z :=
  high ← kernel_high_alias_of_low low;
  x86_VirtAddr_new (align_down_16 high).

Definition init_high_alias (tb : Tables) : ST Cpu unit :=
  c ← get;
  if GDT_INIT_DONE c then mret tt
  else
    modify (fun c => {| c with GDT_INIT_DONE := true |}) ;;
    rsp0 ← lift_res (high_stack (tb_rsp0 tb));
    df ← lift_res (high_stack (tb_df_ist tb));
    pf ← lift_res (high_stack (tb_pf_ist tb));
    let ist := <[PAGE_FAULT_IST_INDEX := pf]> (<[DOUBLE_FAULT_IST_INDEX := df]> (replicate 7 0)) in
    modify (fun c => {| c with TSS := Some (mkTss rsp0 ist) |}) ;;
    tss_high ← lift_res (kernel_high_alias_of_low (tb_tss tb));
    '(code_sel, gdt) ← lift_res (gdt_append KernelCode gdt_new);
    '(data_sel, gdt) ← lift_res (gdt_append KernelData gdt);
    '(user_code_sel, gdt) ← lift_res (gdt_append UserCode gdt);
    '(user_data_sel, gdt) ← lift_res (gdt_append UserData gdt);
    '(tss_sel, gdt) ← lift_res (gdt_append (TssSegment tss_high) gdt);
    let sel := mkSelectors code_sel data_sel tss_sel user_code_sel user_data_sel in
    modify (fun c => {| c with GDT := Some gdt; SELECTORS := Some sel |}) ;;
    gdt_high ← lift_res (kernel_high_alias_of_low (tb_gdt tb));
    modify (fun c => {| c with cpu_gdtr := Some gdt_high |}) ;;
    modify (fun c => {| c with
      cpu_segments := Some (mkSegments (sel_code sel) (sel_data sel) (sel_data sel) (sel_data sel));
      cpu_tr := Some (sel_tss sel) |}).

Definition interrupts_init (tb : Tables) : ST Cpu unit :=
  c ← get;
  match IDT_LOW c with
  | Some _ => mret tt
  | None =>
      let idt := mkIdt (set_handler_fn (tb_page_fault tb)) (set_handler_fn (tb_gp tb))
                   (set_handler_fn (tb_double_fault tb)) (mkGate (tb_int80 tb) 3 (Some PAGE_FAULT_IST_INDEX)) in
      modify (fun c => {| c with IDT_LOW := Some idt |}) ;;
      base ← lift_res (x86_VirtAddr_new (tb_idt_low tb));
      modify (fun c => {| c with cpu_idtr := Some base |})
  end.

Definition reload_idt_high_alias (tb : Tables) : ST Cpu unit :=
  c ← get;
  (match IDT_LOW c with None => interrupts_init tb | Some _ => mret tt end) ;;
  init_high_alias tb ;;
  pf ← lift_res (kernel_high_alias_of_low (tb_page_fault tb));
  gp ← lift_res (kernel_high_alias_of_low (tb_gp tb));
  df ← lift_res (kernel_high_alias_of_low (tb_double_fault tb));
  i80 ← lift_res (kernel_high_alias_of_low (tb_int80 tb));
  let idt := mkIdt (set_handler_fn pf) (set_handler_fn gp) (mkGate df 0 (Some DOUBLE_FAULT_IST_INDEX))
               (mkGate i80 3 (Some PAGE_FAULT_IST_INDEX)) in
  modify (fun c => {| c with IDT_HIGH := Some idt |}) ;;
  high ← lift_res (kernel_high_alias_of_low (tb_idt_high tb));
  base ← lift_res (x86_VirtAddr_new high);
  modify (fun c => {| c with cpu_idtr := Some base |}).
End tables.
Arguments Cpu G : clear implicits.

(** ** The selectors *)

(** The selectors name the descriptors of their fields, with their privilege level. *)
Record selectors_ok {G} `{GdtLaws G} (g : G) (sel : Selectors) (tss : Z) : Prop := {
  so_code : gdt_view g (selector_index (sel_code sel)) = Some KernelCode /\ selector_rpl (sel_code sel) = 0;
  so_data : gdt_view g (selector_index (sel_data sel)) = Some KernelData /\ selector_rpl (sel_data sel) = 0;
  so_tss : gdt_view g (selector_index (sel_tss sel)) = Some (TssSegment tss) /\ selector_rpl (sel_tss sel) = 0;
  so_user_code : gdt_view g (selector_index (sel_user_code sel)) = Some UserCode /\ selector_rpl (sel_user_code sel) = 3;
  so_user_data : gdt_view g (selector_index (sel_user_data sel)) = Some UserData /\ selector_rpl (sel_user_data sel) = 3 }.

Section append.
Context {G : Type} `{GdtLaws G}.

(** [sel] names [d] in [g]. *)
Definition names (g : G) (d : Descriptor) (sel : Z) : Prop :=
  gdt_view g (selector_index sel) = Some d /\ selector_rpl sel = descriptor_rpl d.

Lemma append_names d g n :
  gdt_used g = n -> (n + descriptor_slots d <= GDT_ENTRIES)%nat ->
  exists sel g', gdt_append d g = Ok (sel, g') /\ gdt_used g' = (n + descriptor_slots d)%nat /\ names g' d sel /\
    forall d0 sel0, names g d0 sel0 -> names g' d0 sel0.
Proof.
  intros <- Hroom. destruct (gdt_append_spec d g Hroom) as (sel & g' & Hrun & Hu & _ & Hr & _ & Hnone & Hv & Hold).
  exists sel, g'. split_and!; try done. intros d0 sel0 [H1 H2]. split; [|done]. rewrite Hold; [done|congruence].
Qed.

(** The five descriptors fit, and later ones do not change what a selector names. *)
Lemma build_gdt (tss : Z) :
  exists c g1 d g2 uc g3 ud g4 t g,
    gdt_append KernelCode gdt_new = Ok (c, g1) /\ gdt_append KernelData g1 = Ok (d, g2) /\
    gdt_append UserCode g2 = Ok (uc, g3) /\ gdt_append UserData g3 = Ok (ud, g4) /\
    gdt_append (TssSegment tss) g4 = Ok (t, g) /\ selectors_ok g (mkSelectors c d t uc ud) tss.
Proof.
  destruct (append_names KernelCode gdt_new _ gdt_new_used) as (c & g1 & R1 & U1 & N1 & _); [simpl; unfold GDT_ENTRIES; lia|].
  destruct (append_names KernelData g1 _ U1) as (d & g2 & R2 & U2 & N2 & P2); [simpl; unfold GDT_ENTRIES; lia|].
  destruct (append_names UserCode g2 _ U2) as (uc & g3 & R3 & U3 & N3 & P3); [simpl; unfold GDT_ENTRIES; lia|].
  destruct (append_names UserData g3 _ U3) as (ud & g4 & R4 & U4 & N4 & P4); [simpl; unfold GDT_ENTRIES; lia|].
  destruct (append_names (TssSegment tss) g4 _ U4) as (t & g & R5 & _ & N5 & P5); [simpl; unfold GDT_ENTRIES; lia|].
  exists c, g1, d, g2, uc, g3, ud, g4, t, g. split_and!; try done. unfold names in *. split; auto.
Qed.
End append.

(** Setting the level bits of a ring 3 selector again does nothing. *)
Lemma lor_rpl_3 sel : selector_rpl sel = 3 -> Z.lor sel 3 = sel.
Proof.
  unfold selector_rpl. intros H. apply Z.bits_inj'. intros k Hk. rewrite Z.lor_spec.
  apply (f_equal (fun z => Z.testbit z k)) in H. rewrite Z.land_spec in H. destruct (Z.testbit sel k), (Z.testbit 3 k); done.
Qed.

(** ** An instance *)

(** The entries after the null descriptor; the second half of a TSS descriptor is
    [None]. *)
Abbreviation GdtList := (list (option Descriptor)).

Definition gdt_list_append (d : Descriptor) (g : GdtList) : res (Z * GdtList) :=
  if (S (length g) + descriptor_slots d <=? GDT_ENTRIES)%nat
  then Ok (Z.of_nat (S (length g)) * 8 + descriptor_rpl d, g ++ Some d :: replicate (descriptor_slots d - 1) None)
  else Panicked PanicIndex.

#[export] Instance GdtList_ops : GdtOps GdtList := { gdt_new := []; gdt_append := gdt_list_append }.

Definition gdt_list_view (g : GdtList) (i : Z) : option Descriptor :=
  if i <=? 0 then None else mjoin (g !! Z.to_nat (i - 1)).

Lemma selector_parts n d :
  let sel := Z.of_nat n * 8 + descriptor_rpl d in
  selector_index sel = Z.of_nat n /\ selector_rpl sel = descriptor_rpl d /\ Z.testbit sel 2 = false.
Proof.
  cbv zeta. unfold selector_index, selector_rpl. set (r := descriptor_rpl d). set (m := Z.of_nat n).
  assert (Hr : r = 0 \/ r = 3) by (unfold r; destruct d; auto). change 3 with (Z.ones 2) at 2.
  rewrite Z.shiftr_div_pow2, Z.land_ones by lia.
  assert (H2 : Z.testbit (m * 8 + r) 2 = Z.testbit r 2).
  { rewrite <- (Z.mod_pow2_bits_low (m * 8 + r) 3 2), <- (Z.mod_pow2_bits_low r 3 2) by lia.
    change (2 ^ 3) with 8. by rewrite Z.add_comm, Z.mod_add. }
  rewrite H2. change (2 ^ 3) with 8. change (2 ^ 2) with 4. split_and!.
  - rewrite Z.div_add_l by lia. destruct Hr as [-> | ->]; [rewrite Z.div_small by lia|rewrite Z.div_small by lia]; lia.
  - replace (m * 8 + r) with (r + (m * 2) * 4) by lia. rewrite Z.mod_add by lia. by destruct Hr as [-> | ->].
  - by destruct Hr as [-> | ->].
Qed.

Lemma gdt_list_view_S g n : gdt_list_view g (Z.of_nat (S n)) = mjoin (g !! n).
Proof.
  unfold gdt_list_view. rewrite (proj2 (Z.leb_gt _ _)) by lia. by replace (Z.to_nat (Z.of_nat (S n) - 1)) with n by lia.
Qed.

#[export] Program Instance GdtList_laws : GdtLaws GdtList := {
  gdt_view := gdt_list_view; gdt_used g := S (length g) }.
Next Obligation. done. Qed.
Next Obligation. intros i. unfold gdt_list_view. by destruct (i <=? 0). Qed.
Next Obligation.
  intros d g Hroom. destruct (selector_parts (S (length g)) d) as (Hi & Hr & Hb). cbv zeta in *.
  eexists _, _. split; [unfold gdt_append; simpl; unfold gdt_list_append; by rewrite (proj2 (Nat.leb_le _ _)) by done|].
  rewrite Hi, !gdt_list_view_S. split; [by rewrite length_app; destruct d; simpl; lia|].
  split; [lia|]. split; [done|]. split; [done|]. split; [by rewrite lookup_ge_None_2|].
  split; [by rewrite list_lookup_middle|].
  intros i Hne. unfold gdt_list_view. destruct (Z.leb_spec i 0); [done|].
  destruct (decide (Z.to_nat (i - 1) < length g)%nat); [by rewrite lookup_app_l|].
  rewrite lookup_app_r, (lookup_ge_None_2 g) by lia.
  destruct (Z.to_nat (i - 1) - length g)%nat as [|k] eqn:Ek; [lia|]. simpl.
  destruct (replicate _ _ !! k) as [o|] eqn:Eo; [|done]. by apply lookup_replicate in Eo as [-> _].
Qed.
