(* ===== verification/Sched.v ===== *)
(** * The scheduler (kernel/mod.rs)

    The ready and wait queues, blocking and waking tasks, and the choice of
    the next task. *)

From stdpp Require Import base list option sets strings.
From Stdlib Require Import ZArith Lia.
From S2P Require Import Prelude Addr AddressSpace FrameAlloc Queues KTypes Endpoint EventLog KState.
From S2P Require Import ArchIface.

(** ** The queues *)

Definition is_in_ready_queue (idx : nat) : K bool :=
  s ← get; lift_res (queue_contains (ready_queue s) (rq_len s) idx).

Definition ready_queue_contains (idx : nat) : K bool :=
  s ← get; lift_res (queue_contains (ready_queue s) (rq_len s) idx).

Definition is_in_wait_queue (idx : nat) : K bool :=
  s ← get; lift_res (queue_contains (wait_queue s) (wq_len s) idx).

Definition remove_from_ready_queue (idx : nat) : K bool :=
  s ← get;
  if rq_len s =? 0 then mret false
  else
    '(q, n, removed) ← lift_res
      (compact (fun v => Ok (negb (v =? idx))) (ready_queue s) (rq_len s));
    put {| s with ready_queue := q; rq_len := n |} ;;
    mret removed.

Definition remove_from_wait_queue (idx : nat) : K bool :=
  s ← get;
  if num_tasks s <=? idx then mret false
  else
    r ← lift_res (swap_remove_first idx (wait_queue s) (wq_len s));
    match r with
    | Some (q, n) =>
        put {| s with wait_queue := q; wq_len := n |} ;;
        t ← task_at idx;
        push_event (WaitDequeued (t_id t)) ;;
        mret true
    | None => mret false
    end.

Definition enqueue_ready (idx : nat) : K unit :=
  s ← get;
  if (MAX_TASKS <=? rq_len s) || (num_tasks s <=? idx) then mret tt
  else
    b ← is_in_ready_queue idx;
    if b : bool then mret tt
    else
      t ← task_at idx;
      if decide (t_state t <> Ready) then mret tt
      else
        q ← lift_res (write_at (ready_queue s) (rq_len s) idx);
        put {| s with ready_queue := q; rq_len := S (rq_len s) |} ;;
        push_event (ReadyQueued (t_id t)).

(** The test of the compaction loops: [idx < num_tasks] and the task is
    [Ready]. *)
Definition keep_ready (s : KernelState) (idx : nat) : res bool :=
  if num_tasks s <=? idx then Ok false
  else
    t ← read_at (tasks s) idx;
    Ok (bool_decide (t_state t = Ready)).

Definition compact_ready_queue_to_ready_only : K unit :=
  s ← get;
  '(q, n, _) ← lift_res (compact (keep_ready s) (ready_queue s) (rq_len s));
  put {| s with ready_queue := q; rq_len := n |}.

(** [for pos in 1..rq_len]: the first task of maximal priority. *)
Fixpoint best_loop (positions : list nat) (best_pos best_idx : nat) (best_prio : Z) :
    K (nat * nat) :=
  match positions with
  | [] => mret (best_pos, best_idx)
  | pos :: rest =>
      s ← get;
      idx ← lift_res (read_at (ready_queue s) pos);
      if num_tasks s <=? idx then best_loop rest best_pos best_idx best_prio
      else
        t ← task_at idx;
        if (best_prio <? t_priority t)%Z then best_loop rest pos idx (t_priority t)
        else best_loop rest best_pos best_idx best_prio
  end.

Definition dequeue_ready_highest_priority : K (option nat) :=
  s ← get;
  if rq_len s =? 0 then mret None
  else
    compact_ready_queue_to_ready_only ;;
    s ← get;
    if rq_len s =? 0 then mret None
    else
      best_idx ← lift_res (read_at (ready_queue s) 0);
      if num_tasks s <=? best_idx then put {| s with rq_len := 0 |} ;; mret None
      else
        t ← task_at best_idx;
        '(best_pos, best_idx) ← best_loop (seq 1 (rq_len s - 1)) 0 best_idx (t_priority t);
        '(q, n) ← lift_res (swap_remove (ready_queue s) (rq_len s) best_pos);
        put {| s with ready_queue := q; rq_len := n |} ;;
        t ← task_at best_idx;
        push_event (ReadyDequeued (t_id t)) ;;
        mret (Some best_idx).

Definition enqueue_wait (idx : nat) : K unit :=
  s ← get;
  if (MAX_TASKS <=? wq_len s) || (num_tasks s <=? idx) then mret tt
  else
    b ← is_in_wait_queue idx;
    if b : bool then mret tt
    else
      t ← task_at idx;
      if decide (t_state t <> Blocked) then mret tt
      else if decide (t_blocked_reason t = None) then mret tt
      else
        q ← lift_res (write_at (wait_queue s) (wq_len s) idx);
        put {| s with wait_queue := q; wq_len := S (wq_len s) |} ;;
        push_event (WaitQueued (t_id t)).

(** ** Blocking and waking *)

Definition update_runtime_for (ran_idx : nat) : K unit :=
  s ← get;
  if num_tasks s <=? ran_idx then mret tt
  else
    t ← task_at ran_idx;
    if decide (t_state t = Dead) then mret tt
    else
      n ← lift_res (u64_add (t_runtime_ticks t) 1);
      upd_task ran_idx (fun t => {| t with t_runtime_ticks := n |}) ;;
      push_event (RuntimeUpdated (t_id t) n).

Definition block_task (idx : nat) (reason : BlockedReason) : K unit :=
  s ← get;
  if num_tasks s <=? idx then mret tt
  else
    t ← task_at idx;
    if decide (t_state t = Dead) then mret tt
    else
      remove_from_ready_queue idx ;;
      if decide (t_state t = Blocked) then
        upd_task idx (fun t => {| t with t_blocked_reason := Some reason;
                                         t_time_slice_used := 0%Z |}) ;;
        push_event (TaskStateChanged (t_id t) Blocked) ;;
        match t_blocked_reason t, reason with
        | Some Sleep, Sleep => mret tt
        | _, Sleep => enqueue_wait idx
        | _, _ => mret tt
        end
      else
        upd_task idx (fun t => {| t with t_state := Blocked; t_blocked_reason := Some reason;
                                         t_time_slice_used := 0%Z |}) ;;
        push_event (TaskStateChanged (t_id t) Blocked) ;;
        match reason with
        | Sleep => enqueue_wait idx
        | _ => mret tt
        end.

Definition block_current (reason : BlockedReason) : K unit :=
  s ← get;
  let idx := current_task s in
  t ← task_at idx;
  if decide (t_state t = Dead) then mret tt
  else
    let as_idx := t_address_space_id t in
    is_kernel ← (if num_tasks s <=? as_idx then mret false
                 else a ← address_space_at as_idx; mret (bool_decide (as_kind a = Kernel)));
    match is_kernel, reason with
    | true, (IpcRecv _ | IpcSend _ | IpcReply _ _) =>
        upd_task idx (fun t => {| t with t_last_reply := Some IPC_ERR_DEAD_PARTNER;
                                         t_pending_send_msg := None |})
    | _, _ => block_task idx reason
    end.

Definition wake_task_to_ready (idx : nat) : K unit :=
  s ← get;
  if num_tasks s <=? idx then mret tt
  else
    t ← task_at idx;
    match t_state t with
    | Dead => mret tt
    | Ready | Running => upd_task idx (fun t => {| t with t_blocked_reason := None |})
    | Blocked =>
        upd_task idx (fun t => {| t with t_state := Ready; t_blocked_reason := None;
                                         t_time_slice_used := 0%Z |}) ;;
        b ← ready_queue_contains idx;
        s ← get;
        (if negb b && (rq_len s <? MAX_TASKS) then
           q ← lift_res (write_at (ready_queue s) (rq_len s) idx);
           put {| s with ready_queue := q; rq_len := S (rq_len s) |}
         else mret tt) ;;
        push_event (TaskStateChanged (t_id t) Ready)
    end.

(** Disabled in the source: every path returns false. *)
Definition maybe_block_task (ran_idx : nat) : K bool :=
  s ← get;
  if num_tasks s <=? ran_idx then mret false
  else
    t ← task_at ran_idx;
    if decide (t_state t = Dead) then mret false
    else if negb (ran_idx =? current_task s) then mret false
    else mret false.

Fixpoint wake_sleep_loop (positions : list nat) : K unit :=
  match positions with
  | [] => mret tt
  | pos :: rest =>
      s ← get;
      idx ← lift_res (read_at (wait_queue s) pos);
      if num_tasks s <=? idx then wake_sleep_loop rest
      else
        t ← task_at idx;
        if decide (t_state t = Dead) then wake_sleep_loop rest
        else if decide (t_blocked_reason t = Some Sleep) then wake_task_to_ready idx
        else wake_sleep_loop rest
  end.

Definition maybe_wake_one_sleep_task : K unit :=
  s ← get; wake_sleep_loop (seq 0 (wq_len s)).

(** ** Switching tasks *)

Section schedule.
Context {A : Type} `{ArchOps A}.

(** [self.address_spaces[KERNEL_ASID_INDEX].root_page_frame.expect(..)] *)
Definition kernel_root_frame : K PhysFrame :=
  a ← address_space_at KERNEL_ASID_INDEX;
  match as_root_page_frame a with
  | Some r => mret r
  | None => panic_with (PanicMsg "kernel root_page_frame must exist")
  end.

(** Step 1: the previous task, if it was running, goes back to [Ready]; the
    idle task 0 is never queued. *)
Definition requeue_prev (prev_idx : nat) (prev_id : TaskId) : K unit :=
  s ← get;
  if num_tasks s <=? prev_idx then mret tt
  else
    t ← task_at prev_idx;
    if decide (t_state t = Running) then
      upd_task prev_idx (fun t => {| t with t_state := Ready; t_blocked_reason := None;
                                            t_time_slice_used := 0%Z |}) ;;
      push_event (TaskStateChanged prev_id Ready) ;;
      if negb (prev_idx =? TASK0_INDEX) then enqueue_ready prev_idx else mret tt
    else mret tt.

(** Step 2, the queue is empty: run the idle task. *)
Definition run_idle : W A unit :=
  let idle_idx := TASK0_INDEX in
  t ← ks (task_at idle_idx);
  if decide (t_state t = Dead) then
    kmodify (fun s => {| s with should_halt := true |})
  else
    ks (upd_task idle_idx (fun t => {| t with t_state := Running; t_blocked_reason := None;
                                              t_time_slice_used := 0%Z |})) ;;
    kmodify (fun s => {| s with current_task := idle_idx |}) ;;
    kernel_root ← ks kernel_root_frame;
    arch (switch_address_space_quiet kernel_root) ;;
    set_vga_enabled true ;;
    ks (push_event (TaskSwitched (t_id t))) ;;
    ks (push_event (TaskStateChanged (t_id t) Running)).

(** The loop that logs the ready queue: it only reads, but by index. *)
Definition dump_ready_queue : K unit :=
  s ← get;
  for_each (seq 0 (rq_len s)) (fun pos =>
    idx ← lift_res (read_at (ready_queue s) pos);
    if idx <? num_tasks s then t ← task_at idx; mret tt else mret tt).

(** Step 3: take the task of highest priority. *)
Definition run_highest (prev_idx : nat) : W A unit :=
  ks dump_ready_queue ;;
  r ← ks dequeue_ready_highest_priority;
  s ← kget;
  match r with
  | None => kmodify (fun s => {| s with should_halt := true |})
  | Some next_idx =>
      if num_tasks s <=? next_idx then kmodify (fun s => {| s with should_halt := true |})
      else
        t ← ks (task_at next_idx);
        let next_id := t_id t in
        let as_idx := t_address_space_id t in
        ks (upd_task next_idx (fun t => {| t with t_state := Running; t_time_slice_used := 0%Z;
                                                  t_blocked_reason := None |})) ;;
        kmodify (fun s => {| s with current_task := next_idx |}) ;;
        a ← ks (address_space_at as_idx);
        match as_kind a with
        | User =>
            set_vga_enabled false ;;
            arch (switch_address_space (as_root_page_frame a))
        | Kernel =>
            kernel_root ← ks kernel_root_frame;
            arch (switch_address_space_quiet kernel_root) ;;
            set_vga_enabled true
        end ;;
        (if negb (next_idx =? prev_idx) then
           ks (bump sched_switches (fun c v => {| c with sched_switches := v |}))
         else mret tt) ;;
        ks (push_event (TaskSwitched next_id)) ;;
        ks (push_event (TaskStateChanged next_id Running))
  end.

Definition schedule_next_task : W A unit :=
  s ← kget;
  let prev_idx := current_task s in
  prev ← ks (task_at prev_idx);
  let prev_id := t_id prev in
  cur_as ← ks (address_space_at (t_address_space_id prev));
  set_vga_enabled (match as_kind cur_as with Kernel => true | User => false end) ;;
  ks compact_ready_queue_to_ready_only ;;
  ks (requeue_prev prev_idx prev_id) ;;
  s ← kget;
  if rq_len s =? 0 then
    (if 0 <? wq_len s then
       ks maybe_wake_one_sleep_task ;; ks compact_ready_queue_to_ready_only
     else mret tt) ;;
    s ← kget;
    if rq_len s =? 0 then run_idle else run_highest prev_idx
  else run_highest prev_idx.

Definition update_time_slice_for_and_maybe_schedule (ran_idx : nat) : W A unit :=
  s ← kget;
  if num_tasks s <=? ran_idx then mret tt
  else
    t ← ks (task_at ran_idx);
    if decide (t_state t = Dead) then mret tt
    else if negb (ran_idx =? current_task s) then mret tt
    else if decide (t_state t <> Running) then mret tt
    else
      used ← ks (lift_res (u64_add (t_time_slice_used t) 1));
      ks (upd_task ran_idx (fun t => {| t with t_time_slice_used := used |})) ;;
      if (quantum s <=? used)%Z then
        ks (push_event (QuantumExpired (t_id t) used)) ;;
        s ← kget;
        if rq_len s =? 0 then
          ks (upd_task ran_idx (fun t => {| t with t_time_slice_used := 0%Z |}))
        else schedule_next_task
      else mret tt.

End schedule.

(** ** Views of the scheduler's state *)

(** The ready tasks, in queue order. *)
Definition rq (s : KernelState) : list nat := live (ready_queue s) (rq_len s).

Definition state_of (ts : list Task) (i : nat) : option TaskState := t_state <$> ts !! i.
Definition prio_of (ts : list Task) (i : nat) : Z := default 0%Z (t_priority <$> ts !! i).
Definition is_ready (ts : list Task) (i : nat) : bool := bool_decide (state_of ts i = Some Ready).

(** The arrays have their fixed sizes and the lengths stay inside them; no
    task sleeps. *)
Record shape (s : KernelState) : Prop := {
  sh_tasks : length (tasks s) = MAX_TASKS;
  sh_num : num_tasks s = MAX_TASKS;
  sh_rq : length (ready_queue s) = MAX_TASKS;
  sh_rq_len : rq_len s <= MAX_TASKS;
  sh_wq : wq_len s = 0 }.

(** [i] is the first element of highest priority of the queue [l]. *)
Definition best (ts : list Task) (l : list nat) (i : nat) : Prop :=
  exists pos, l !! pos = Some i /\
    forall pos' j, l !! pos' = Some j ->
      (prio_of ts j <= prio_of ts i)%Z /\ (pos' < pos -> (prio_of ts j < prio_of ts i)%Z).

(** What the queue operations may change. *)
Record q_frame (s s' : KernelState) : Prop := { q_frame_eq :
  s' = {| s with tasks := tasks s'; ready_queue := ready_queue s'; rq_len := rq_len s';
                 event_log := event_log s'; event_log_head := event_log_head s';
                 event_log_len := event_log_len s' |} }.

#[export] Instance q_frame_preorder : PreOrder q_frame.
Proof.
  split.
  - intros []. done.
  - intros s1 s2 s3 [H12] [H23]. constructor. rewrite H23. rewrite H12. done.
Qed.

Lemma task_lookup s i : shape s -> i < MAX_TASKS -> exists t, tasks s !! i = Some t.
Proof. intros [] ?. apply lookup_lt_is_Some_2. lia. Qed.

Lemma lookup_bound s i t : shape s -> tasks s !! i = Some t -> i < MAX_TASKS.
Proof. intros [] ?%lookup_lt_Some. lia. Qed.

Lemma num_tasks_leb s i : shape s -> (num_tasks s <=? i) = (MAX_TASKS <=? i).
Proof. by intros []; congruence. Qed.

Lemma num_tasks_ltb s i : shape s -> (i <? num_tasks s) = (i <? MAX_TASKS).
Proof. by intros []; congruence. Qed.

Lemma rq_length s : shape s -> length (rq s) = rq_len s.
Proof. intros []. apply live_length. lia. Qed.

Lemma rq_nil s : shape s -> (rq_len s =? 0) = bool_decide (rq s = []).
Proof.
  intros H. pose proof (rq_length s H) as Hl. destruct (rq s) as [|x l]; simpl in Hl.
  - by rewrite <- Hl.
  - rewrite <- Hl. done.
Qed.

(** ** The queue operations *)

Lemma is_in_ready_queue_Ok idx s :
  shape s -> is_in_ready_queue idx s = Ok (bool_decide (idx ∈ rq s), s).
Proof.
  intros []. unfold is_in_ready_queue. rewrite bind_get, queue_contains_spec by lia. done.
Qed.

Lemma ready_queue_contains_Ok idx s :
  shape s -> ready_queue_contains idx s = Ok (bool_decide (idx ∈ rq s), s).
Proof. apply is_in_ready_queue_Ok. Qed.

Lemma remove_from_ready_queue_spec idx s :
  shape s ->
  returns (remove_from_ready_queue idx) s (fun _ s' =>
    exists q n, s' = {| s with ready_queue := q; rq_len := n |} /\ shape s' /\
      rq s' = filter (.≠ idx) (rq s)).
Proof.
  intros Hs. pose proof Hs as []. unfold remove_from_ready_queue. kstep.
  destruct (Nat.eqb_spec (rq_len s) 0) as [H0|H0].
  { kstep. exists (ready_queue s), (rq_len s). split; [by destruct s|]. split; [done|].
    unfold rq. rewrite H0. done. }
  destruct (compact_spec (fun v => Ok (negb (v =? idx))) (fun v => negb (v =? idx))
    (ready_queue s) (rq_len s)) as (q & n & b & -> & H1 & H2 & H3 & _); [lia|done|].
  repeat kstep. exists q, n. split; [done|]. split; [split; ksimpl; lia|].
  unfold rq. ksimpl. rewrite H3. apply list_filter_iff. intros v.
  destruct (Nat.eqb_spec v idx); naive_solver.
Qed.

Lemma keep_ready_Ok s v : shape s -> keep_ready s v = Ok (is_ready (tasks s) v).
Proof.
  intros Hs. unfold keep_ready, is_ready, state_of. rewrite num_tasks_leb by done.
  destruct (Nat.leb_spec MAX_TASKS v) as [Hv|Hv].
  - rewrite lookup_ge_None_2; [done|]. destruct Hs. lia.
  - destruct (task_lookup s v Hs Hv) as [t Ht]. rewrite (read_at_Ok _ _ _ Ht), Ht. simpl.
    f_equal. apply bool_decide_ext. split; [by intros ->|by intros [= ->]].
Qed.

Lemma compact_ready_spec s :
  shape s ->
  returns compact_ready_queue_to_ready_only s (fun _ s' =>
    exists q n, s' = {| s with ready_queue := q; rq_len := n |} /\ shape s' /\
      rq s' = filter (is_ready (tasks s)) (rq s)).
Proof.
  intros Hs. pose proof Hs as []. unfold compact_ready_queue_to_ready_only. kstep.
  destruct (compact_spec (keep_ready s) (is_ready (tasks s)) (ready_queue s) (rq_len s))
    as (q & n & b & -> & H1 & H2 & H3 & _); [lia|intros; by apply keep_ready_Ok|].
  repeat kstep. exists q, n. split; [done|]. split; [split; ksimpl; lia|done].
Qed.

(** Queuing a ready task that is not queued yet. *)
Lemma enqueue_ready_spec idx t s :
  shape s -> tasks s !! idx = Some t -> t_state t = Ready -> idx ∉ rq s -> rq_len s < MAX_TASKS ->
  returns (enqueue_ready idx) s (fun _ s' =>
    q_frame s s' /\ shape s' /\ tasks s' = tasks s /\ rq s' = rq s ++ [idx]).
Proof.
  intros Hs Ht Hr Hni Hlen. pose proof Hs as []. pose proof (lookup_bound _ _ _ Hs Ht).
  unfold enqueue_ready. kstep. rewrite num_tasks_leb by done.
  rewrite !(proj2 (Nat.leb_gt _ _)) by done. simpl.
  eapply returns_step; [by apply is_in_ready_queue_Ok|]. rewrite bool_decide_false by done.
  kstep. rewrite decide_False by naive_solver. rewrite write_at_Ok by lia. repeat kstep.
  split; [done|]. split; [split; ksimpl; rewrite ?length_insert; lia|]. split; [done|].
  unfold rq. ksimpl. apply live_push. lia.
Qed.

Lemma rq_read s pos i :
  rq s !! pos = Some i -> read_at (ready_queue s) pos = Ok i /\ pos < rq_len s.
Proof. intros [H ?]%live_lookup. by rewrite (read_at_Ok _ _ _ H). Qed.

Lemma prio_of_lookup ts i t : ts !! i = Some t -> prio_of ts i = t_priority t.
Proof. unfold prio_of. by intros ->. Qed.

Lemma best_loop_spec s n k bp bi :
  shape s -> k + n = rq_len s -> (forall i, i ∈ rq s -> i < MAX_TASKS) ->
  rq s !! bp = Some bi ->
  (forall pos' j, pos' < k -> rq s !! pos' = Some j ->
     (prio_of (tasks s) j <= prio_of (tasks s) bi)%Z /\
     (pos' < bp -> (prio_of (tasks s) j < prio_of (tasks s) bi)%Z)) -> bp < k ->
  returns (best_loop (seq k n) bp bi (prio_of (tasks s) bi)) s (fun r s' =>
    s' = s /\ rq s !! r.1 = Some r.2 /\
    forall pos' j, rq s !! pos' = Some j ->
      (prio_of (tasks s) j <= prio_of (tasks s) r.2)%Z /\
      (pos' < r.1 -> (prio_of (tasks s) j < prio_of (tasks s) r.2)%Z)).
Proof.
  intros Hs. revert k bp bi. induction n as [|n IH]; intros k bp bi Hk Hall Hbp Hmax Hlt.
  { apply returns_ret. split; [done|]. split; [done|]. intros pos' j Hj. apply Hmax; [|done].
    apply rq_read in Hj. lia. }
  cbn [best_loop seq]. kstep.
  destruct (lookup_lt_is_Some_2 (rq s) k) as [i Hi]; [rewrite rq_length by done; lia|].
  destruct (rq_read _ _ _ Hi) as [-> _]. kstep.
  pose proof (Hall i ltac:(by eapply list_elem_of_lookup_2)) as Hib.
  rewrite num_tasks_leb by done. rewrite (proj2 (Nat.leb_gt _ _)) by done.
  destruct (task_lookup s i Hs Hib) as [t Ht]. kstep. rewrite <- (prio_of_lookup _ _ _ Ht).
  destruct (Z.ltb_spec (prio_of (tasks s) bi) (prio_of (tasks s) i)) as [Hgt|Hle].
  - apply IH; [lia|done|done| |lia]. intros pos' j Hp Hj.
    destruct (decide (pos' = k)) as [->|]; [assert (j = i) as -> by congruence; lia|].
    destruct (Hmax pos' j ltac:(lia) Hj). lia.
  - apply IH; [lia|done|done| |lia]. intros pos' j Hp Hj.
    destruct (decide (pos' = k)) as [->|]; [assert (j = i) as -> by congruence; lia|].
    apply (Hmax pos' j); [lia|done].
Qed.

Lemma is_ready_bound s i : shape s -> is_ready (tasks s) i = true -> i < MAX_TASKS.
Proof.
  intros Hs Hr%bool_decide_eq_true. unfold state_of in Hr.
  destruct (tasks s !! i) eqn:Ht; [|done]. by eapply lookup_bound.
Qed.

(** Dequeuing first drops what is not ready, then takes the first task of
    highest priority out of the queue. *)
Lemma dequeue_ready_spec s :
  shape s ->
  returns dequeue_ready_highest_priority s (fun r s' =>
    q_frame s s' /\ shape s' /\ tasks s' = tasks s /\
    let l := filter (is_ready (tasks s)) (rq s) in
    match r with
    | None => l = [] /\ rq s' = []
    | Some i => best (tasks s) l i /\ l ≡ₚ i :: rq s'
    end).
Proof.
  intros Hs. unfold dequeue_ready_highest_priority. kstep. rewrite rq_nil by done.
  case_bool_decide as H0. { kstep. by rewrite H0. }
  eapply returns_seq; [by apply compact_ready_spec|].
  intros [] s1 (q & n & Heq & Hs1 & Hrq). repeat kstep. rewrite rq_nil by done.
  assert (Hts : tasks s1 = tasks s) by by rewrite Heq.
  assert (Hf : q_frame s s1) by by rewrite Heq.
  case_bool_decide as H1. { kstep. by rewrite <- Hrq. }
  assert (Hall : forall i, i ∈ rq s1 -> i < MAX_TASKS).
  { intros i. rewrite Hrq, <- Hts. intros [Hi _]%list_elem_of_filter.
    apply (is_ready_bound s1); [done|]. by apply Is_true_eq_true. }
  pose proof (rq_length s1 Hs1) as Hlen.
  destruct (rq s1 !! 0) as [i0|] eqn:Hi0; [|by destruct (rq s1)].
  destruct (rq_read _ _ _ Hi0) as [-> Hpos]. repeat kstep.
  pose proof (Hall i0 ltac:(by eapply list_elem_of_lookup_2)) as Hb0.
  rewrite num_tasks_leb by done. rewrite (proj2 (Nat.leb_gt _ _)) by done.
  destruct (task_lookup s1 i0 Hs1 Hb0) as [t0 Ht0]. kstep.
  rewrite <- (prio_of_lookup _ _ _ Ht0).
  eapply returns_seq; [apply (best_loop_spec s1 (rq_len s1 - 1) 1 0 i0);
    [done|lia|done|done| |lia]|].
  { intros pos' j Hp Hj. assert (pos' = 0) as -> by lia. rewrite Hi0 in Hj. injection Hj as <-. lia. }
  intros [bp bi] _ (-> & Hbi & Hmax). simpl in Hbi, Hmax. cbv beta iota.
  pose proof Hs1 as []. destruct (live_lookup _ _ _ _ Hbi) as [Hv Hlt].
  destruct (swap_remove_spec (ready_queue s1) (rq_len s1) bp bi) as (q' & -> & Hl' & _ & Hp);
    [lia|done|done|].
  repeat kstep.
  destruct (task_lookup s1 bi Hs1) as [tb Htb]; [apply Hall; by eapply list_elem_of_lookup_2|].
  repeat kstep. split; [by rewrite Heq|]. split; [split; ksimpl; lia|]. split; [done|].
  rewrite <- Hrq, <- Hts. split; [|done]. by exists bp.
Qed.

(** ** Blocking and waking *)

Definition blocked (r : BlockedReason) (t : Task) : Task :=
  {| t with t_state := Blocked; t_blocked_reason := Some r; t_time_slice_used := 0%Z |}.
Definition woken (t : Task) : Task :=
  {| t with t_state := Ready; t_blocked_reason := None; t_time_slice_used := 0%Z |}.
Definition running (t : Task) : Task :=
  {| t with t_state := Running; t_blocked_reason := None; t_time_slice_used := 0%Z |}.

Lemma insert_shape_tasks {A} (l : list A) i x n : length l = n -> length (<[i := x]> l) = n.
Proof. by rewrite length_insert. Qed.
#[export] Hint Resolve insert_shape_tasks : kernel.

(** Blocking a live task takes it out of the ready queue; it also works on a
    task that is already blocked, whose reason it replaces. *)
Lemma block_task_spec idx t r s :
  shape s -> tasks s !! idx = Some t -> t_state t <> Dead -> r <> Sleep ->
  returns (block_task idx r) s (fun _ s' =>
    q_frame s s' /\ shape s' /\ tasks s' = <[idx := blocked r t]> (tasks s) /\
    rq s' = filter (.≠ idx) (rq s)).
Proof.
  intros Hs Ht Hd Hr. pose proof (lookup_bound _ _ _ Hs Ht) as Hb. unfold block_task. kstep.
  rewrite num_tasks_leb by done. rewrite (proj2 (Nat.leb_gt _ _)) by done. kstep.
  rewrite decide_False by done.
  eapply returns_seq; [by apply remove_from_ready_queue_spec|].
  intros _ s1 (q & n & Heq & Hs1 & Hrq).
  assert (Ht1 : tasks s1 !! idx = Some t) by by rewrite Heq.
  assert (Hf : q_frame s s1) by by rewrite Heq.
  assert (Hts : tasks s1 = tasks s) by by rewrite Heq.
  clear Heq.
  assert (Hend : forall s2 t', t' = blocked r t -> q_frame s1 s2 -> tasks s2 = <[idx := t']> (tasks s1) ->
    ready_queue s2 = ready_queue s1 -> rq_len s2 = rq_len s1 -> wq_len s2 = wq_len s1 ->
    num_tasks s2 = num_tasks s1 ->
    q_frame s s2 /\ shape s2 /\ tasks s2 = <[idx := blocked r t]> (tasks s) /\
    rq s2 = filter (.≠ idx) (rq s)).
  { intros s2 t' -> Hf2 Hts2 Hq Hn Hw Hnt. split; [by transitivity s1|].
    destruct Hs1. split; [split; rewrite ?Hts2, ?length_insert; congruence|].
    split; [congruence|]. unfold rq in *. congruence. }
  destruct (decide (t_state t = Blocked)) as [Hbl|Hbl]; repeat kstep.
  - assert (returns (mret tt) {| s1 with tasks :=
      <[idx := {| t with t_blocked_reason := Some r; t_time_slice_used := 0%Z |}]> (tasks s1);
      event_log := x; event_log_head := x0; event_log_len := x1 |}
      (fun _ s' => q_frame s s' /\ shape s' /\ tasks s' = <[idx := blocked r t]> (tasks s) /\
       rq s' = filter (.≠ idx) (rq s))) as Hret.
    { apply returns_ret. eapply (Hend _ (blocked r t)); try done. ksimpl. do 2 f_equal.
      destruct t; simpl in *; by subst. }
    destruct r; [done|destruct (t_blocked_reason t) as [[]|]; exact Hret..].
  - destruct r; [done|kstep; eapply Hend; [reflexivity|done..]..].
Qed.

Lemma wake_blocked_spec idx t s :
  shape s -> tasks s !! idx = Some t -> t_state t = Blocked -> idx ∉ rq s -> rq_len s < MAX_TASKS ->
  returns (wake_task_to_ready idx) s (fun _ s' =>
    q_frame s s' /\ shape s' /\ tasks s' = <[idx := woken t]> (tasks s) /\ rq s' = rq s ++ [idx]).
Proof.
  intros Hs Ht Hst Hni Hlen. pose proof (lookup_bound _ _ _ Hs Ht) as Hb.
  unfold wake_task_to_ready. kstep.
  rewrite num_tasks_leb by done. rewrite (proj2 (Nat.leb_gt _ _)) by done. kstep.
  rewrite Hst. kstep. pose proof Hs as [].
  match goal with |- returns (_ ≫= _) ?s1 _ => assert (Hs1 : shape s1);
    [by split; ksimpl; auto with kernel|] end.
  eapply returns_step; [by apply ready_queue_contains_Ok|].
  unfold rq at 1. ksimpl. fold (rq s). rewrite bool_decide_false by done. kstep.
  rewrite (proj2 (Nat.ltb_lt _ _)) by done. simpl. rewrite write_at_Ok by lia. repeat kstep.
  split; [done|]. split; [split; ksimpl; rewrite ?length_insert; lia|]. split; [done|].
  unfold rq. ksimpl. apply live_push. lia.
Qed.

Definition unblocked (t : Task) : Task := {| t with t_blocked_reason := None |}.

(** Waking a task that is not blocked only clears its reason. *)
Lemma wake_awake_spec idx t s :
  shape s -> tasks s !! idx = Some t -> t_state t = Ready \/ t_state t = Running ->
  returns (wake_task_to_ready idx) s (fun _ s' =>
    q_frame s s' /\ shape s' /\ tasks s' = <[idx := unblocked t]> (tasks s) /\
    rq s' = rq s).
Proof.
  intros Hs Ht Hst. pose proof (lookup_bound _ _ _ Hs Ht) as Hb.
  unfold wake_task_to_ready. kstep.
  rewrite num_tasks_leb by done. rewrite (proj2 (Nat.leb_gt _ _)) by done. kstep.
  assert (Hgoal : returns (upd_task idx unblocked) s
    (fun _ s' => q_frame s s' /\ shape s' /\
       tasks s' = <[idx := unblocked t]> (tasks s) /\ rq s' = rq s)).
  { kstep. destruct Hs. split; [done|]. split; [split; ksimpl; auto with kernel|]. done. }
  destruct Hst as [-> | ->]; exact Hgoal.
Qed.

(** ** Switching tasks *)

(** Address space [i] belongs to task [i]: the kernel's first, with the kernel
    root, then the users', with the roots [us]. *)
Record aspaces_ok (kr : PhysFrame) (us : list PhysFrame) (s : KernelState) : Prop := {
  ao_len : length us = MAX_TASKS - 1;
  ao_kernel : exists a, address_spaces s !! 0 = Some a /\ as_kind a = Kernel /\
    as_root_page_frame a = Some kr;
  ao_user i : 0 < i < MAX_TASKS -> exists a r, address_spaces s !! i = Some a /\ as_kind a = User /\
    as_root_page_frame a = Some r /\ us !! (i - 1) = Some r;
  ao_ids i t : tasks s !! i = Some t -> t_address_space_id t = i }.

(** What a task switch may change. *)
Record sched_frame (s s' : KernelState) : Prop := { sched_frame_eq :
  s' = {| s with tasks := tasks s'; ready_queue := ready_queue s'; rq_len := rq_len s';
                 current_task := current_task s'; counters := counters s';
                 event_log := event_log s'; event_log_head := event_log_head s';
                 event_log_len := event_log_len s' |} }.

#[export] Instance sched_frame_preorder : PreOrder sched_frame.
Proof.
  split.
  - intros []. done.
  - intros s1 s2 s3 [H12] [H23]. constructor. rewrite H23. rewrite H12. done.
Qed.

Lemma q_sched_frame s s' : q_frame s s' -> sched_frame s s'.
Proof. intros [H]. constructor. rewrite H. done. Qed.

(** The queue the next task is chosen from: the ready tasks of the queue and,
    unless it is the idle task, the preempted one. *)
Definition candidates (s : KernelState) : list nat :=
  filter (is_ready (tasks s)) (rq s) ++
  if bool_decide (state_of (tasks s) (current_task s) = Some Running)
     && negb (current_task s =? TASK0_INDEX)
  then [current_task s] else [].

(** The tasks after the running task was put back. *)
Definition preempted (s : KernelState) : list Task :=
  match tasks s !! current_task s with
  | Some t => if decide (t_state t = Running) then <[current_task s := woken t]> (tasks s)
              else tasks s
  | None => tasks s
  end.

Lemma requeue_prev_spec s t prev_id :
  shape s -> tasks s !! current_task s = Some t ->
  (t_state t = Running -> current_task s ∉ rq s) -> NoDup (rq s) ->
  (forall i, i ∈ rq s -> is_ready (tasks s) i = true) ->
  returns (requeue_prev (current_task s) prev_id) s (fun _ s' =>
    q_frame s s' /\ shape s' /\ tasks s' = preempted s /\ rq s' = candidates s).
Proof.
  intros Hs Ht Hni Hnd Hrq. pose proof (lookup_bound _ _ _ Hs Ht) as Hb.
  assert (Hfil : filter (is_ready (tasks s)) (rq s) = rq s).
  { by apply filter_true_id. }
  unfold preempted, candidates, state_of. rewrite Ht, Hfil. cbn [fmap option_fmap option_map].
  unfold requeue_prev. kstep. rewrite num_tasks_leb by done.
  rewrite (proj2 (Nat.leb_gt _ _)) by done. kstep.
  destruct (decide (t_state t = Running)) as [Hr|Hr].
  2: { rewrite bool_decide_false by congruence. kstep. simpl. rewrite app_nil_r. done. }
  rewrite bool_decide_true by congruence. specialize (Hni Hr). repeat kstep.
  pose proof Hs as []. destruct (Nat.eqb_spec (current_task s) TASK0_INDEX) as [H0|H0]; simpl.
  { kstep. rewrite app_nil_r. split; [done|]. split; [split; ksimpl; auto with kernel|done]. }
  eapply returns_mono.
  - eapply enqueue_ready_spec; ksimpl.
    + split; ksimpl; auto with kernel.
    + apply list_lookup_insert_eq. by eapply lookup_lt_Some.
    + done.
    + done.
    + rewrite <- rq_length by done. eapply nodup_room; [done| |exact Hb|done].
      intros j Hj. apply (is_ready_bound s); auto.
  - intros [] s2 (Hf & Hs2 & Hts & Hq). ksimpl. split; [|done].
    etransitivity; [|exact Hf]. done.
Qed.

Section schedule_spec.
Context {A : Type} `{ArchLaws A} (kr : PhysFrame) (us : list PhysFrame).

Definition add_switches (n : Z) (c : KernelCounters) : KernelCounters :=
  {| c with sched_switches := (sched_switches c + n)%Z |}.

(** The result of a switch in the world [w] to a task taken from the tasks
    [ts]: the chosen task runs, under its own root and with VGA output only
    for the kernel task. *)
Record switched_to (ts : list Task) (w w' : World A) : Prop := {
  sw_world : w' = {| w with w_ks := w_ks w'; w_arch := w_arch w'; w_vga := w_vga w' |};
  sw_frame : sched_frame (w_ks w) (w_ks w');
  sw_shape : shape (w_ks w');
  sw_tasks : exists t, ts !! current_task (w_ks w') = Some t /\
    tasks (w_ks w') = <[current_task (w_ks w') := running t]> ts;
  sw_counters : exists n, (0 <= n <= 1)%Z /\
    counters (w_ks w') = add_switches n (counters (w_ks w));
  sw_arch : arch_same kr us (w_arch w) (w_arch w');
  sw_cr3 : current_task (w_ks w') = TASK0_INDEX -> Cr3_read (w_arch w') = kr;
  sw_vga : w_vga w' = (current_task (w_ks w') =? TASK0_INDEX) }.

Lemma kernel_root_frame_Ok s :
  (exists a, address_spaces s !! 0 = Some a /\ as_kind a = Kernel /\
    as_root_page_frame a = Some kr) -> kernel_root_frame s = Ok (kr, s).
Proof.
  intros (a & Ha & _ & Hr). unfold kernel_root_frame.
  rewrite (bind_Ok _ _ _ _ _ (address_space_at_Ok _ _ _ Ha)). by rewrite Hr.
Qed.

Lemma TASK0_lt : TASK0_INDEX < MAX_TASKS.
Proof. unfold TASK0_INDEX, MAX_TASKS. lia. Qed.

Lemma add_switches_0 c : add_switches 0 c = c.
Proof. destruct c. unfold add_switches. simpl. f_equal. lia. Qed.

Lemma run_idle_spec w :
  shape (w_ks w) -> aspaces_ok kr us (w_ks w) -> arch_ready kr us (w_arch w) ->
  state_of (tasks (w_ks w)) TASK0_INDEX <> Some Dead ->
  returns run_idle w (fun _ w' =>
    switched_to (tasks (w_ks w)) w w' /\ current_task (w_ks w') = TASK0_INDEX /\
    rq (w_ks w') = rq (w_ks w)).
Proof.
  intros Hs Ha Hr Hd. destruct (task_lookup _ TASK0_INDEX Hs) as [t Ht]; [apply TASK0_lt|].
  unfold run_idle. repeat wstep.
  rewrite decide_False by (unfold state_of in Hd; rewrite Ht in Hd; simpl in Hd; congruence).
  repeat wstep.
  eapply returns_Ok; [apply kernel_root_frame_Ok; apply Ha|]. cbv beta. wstep.
  eapply returns_mono; [by apply (law_switch_quiet kr us); [|left]|].
  intros [] a' (Ha1 & Ha2 & Ha3 & Ha4 & Ha5). repeat wstep. pose proof Hs as [].
  split; [|done]. split; wsimpl; try done.
  - split; ksimpl; auto with kernel.
  - by exists t.
  - exists 0%Z. by rewrite add_switches_0.
Qed.

Lemma aspaces_ok_same s s' :
  aspaces_ok kr us s -> address_spaces s' = address_spaces s -> tasks s' = tasks s ->
  aspaces_ok kr us s'.
Proof. intros [] Has Hts. split; rewrite ?Has, ?Hts; done. Qed.

Lemma aspaces_ok_insert s s' i t t' :
  aspaces_ok kr us s -> address_spaces s' = address_spaces s ->
  tasks s' = <[i := t']> (tasks s) ->
  tasks s !! i = Some t -> t_address_space_id t' = t_address_space_id t ->
  aspaces_ok kr us s'.
Proof.
  intros [H1 H2 H3 Hids] Has Hts Ht Hid. split; rewrite ?Has, ?Hts; [done..|].
  intros j tj [(<- & <- & _)|[_ Hj]]%list_lookup_insert_Some; [|by apply Hids].
  rewrite Hid. by apply Hids.
Qed.

Lemma dump_ready_queue_spec s : shape s -> returns dump_ready_queue s (fun _ s' => s' = s).
Proof.
  intros Hs. pose proof Hs as []. unfold dump_ready_queue. kstep.
  eapply returns_mono; [apply (returns_for_each
    (fun l s' => s' = s /\ forall pos, pos ∈ l -> pos < rq_len s))|by intros ? ? []].
  { split; [done|]. intros pos ?%elem_of_seq. lia. }
  intros pos l' s' [-> Hl]. pose proof (Hl pos ltac:(by left)) as Hpos.
  destruct (read_live (ready_queue s) (rq_len s) pos) as (v & Hv & _); [lia|done|].
  rewrite (read_at_Ok _ _ _ Hv). kstep.
  assert (Hrest : forall pos, pos ∈ l' -> pos < rq_len s) by (intros; apply Hl; by right).
  destruct (Nat.ltb_spec v (num_tasks s)) as [Hlt|Hge]; [|by kstep].
  destruct (task_lookup s v Hs) as [t Ht]; [congruence|]. by repeat kstep.
Qed.

Lemma bump_switches_spec (w : World A) (b : bool) :
  (sched_switches (counters (w_ks w)) < u64_max)%Z ->
  returns (if b then ks (bump sched_switches (fun c v => {| c with sched_switches := v |}))
           else mret tt) w (fun _ w' => exists n, (0 <= n <= 1)%Z /\ let s := w_ks w in
             w' = {| w with w_ks := {| s with counters := add_switches n (counters s) |} |}).
Proof.
  intros Hc. destruct b.
  - unfold bump. repeat wstep. rewrite u64_add_Ok by lia. repeat wstep. by exists 1%Z.
  - wstep. exists 0%Z. rewrite add_switches_0. split; [lia|]. by destruct w as [[] ? ? ? ? ?].
Qed.

(** Installing the root of task [i], as [run_highest] does. *)
Definition install_root (a : AddressSpace) : W A unit :=
  match as_kind a with
  | User => set_vga_enabled false ;; arch (switch_address_space (as_root_page_frame a))
  | Kernel =>
      kernel_root ← ks kernel_root_frame;
      arch (switch_address_space_quiet kernel_root) ;;
      set_vga_enabled true
  end.

Lemma install_root_spec w i a :
  aspaces_ok kr us (w_ks w) -> arch_ready kr us (w_arch w) ->
  i < MAX_TASKS -> address_spaces (w_ks w) !! i = Some a ->
  returns (install_root a) w (fun _ w' =>
    w' = {| w with w_arch := w_arch w'; w_vga := i =? TASK0_INDEX |} /\
    arch_same kr us (w_arch w) (w_arch w') /\
    (i = TASK0_INDEX -> Cr3_read (w_arch w') = kr)).
Proof.
  intros Ho Hr Hi Ha. unfold install_root. destruct (decide (i = 0)) as [->|Hne].
  - destruct (ao_kernel _ _ _ Ho) as (a0 & Ha0 & Hk & _). simplify_eq. rewrite Hk.
    wstep. eapply returns_Ok; [apply kernel_root_frame_Ok, Ho|]. cbv beta. wstep.
    eapply returns_mono; [by apply (law_switch_quiet kr us); [|left]|].
    intros [] a' (? & ? & ? & ? & ?). by repeat wstep.
  - destruct (ao_user _ _ _ Ho i ltac:(lia)) as (a1 & r & Ha1 & Hk & Hroot & Hu). simplify_eq.
    rewrite Hk, Hroot. repeat wstep.
    eapply returns_mono; [apply (law_switch kr us); [done|by eapply list_elem_of_lookup_2]|].
    intros [] a' (? & ? & ? & ?). unfold TASK0_INDEX. rewrite (proj2 (Nat.eqb_neq _ _)) by done.
    by repeat wstep.
Qed.

Lemma run_highest_spec w prev :
  shape (w_ks w) -> aspaces_ok kr us (w_ks w) -> arch_ready kr us (w_arch w) ->
  (sched_switches (counters (w_ks w)) < u64_max)%Z ->
  let l := filter (is_ready (tasks (w_ks w))) (rq (w_ks w)) in
  l <> [] ->
  returns (run_highest prev) w (fun _ w' =>
    switched_to (tasks (w_ks w)) w w' /\ best (tasks (w_ks w)) l (current_task (w_ks w')) /\
    l ≡ₚ current_task (w_ks w') :: rq (w_ks w')).
Proof.
  intros Hs Ha Hr Hc l Hl. unfold run_highest. wstep.
  eapply returns_mono; [by apply dump_ready_queue_spec|]. intros [] _ ->. wstep.
  eapply returns_mono; [by apply dequeue_ready_spec|].
  intros r s1 (Hf1 & Hs1 & Hts1 & Hres). wstep.
  destruct r as [i|]; [|by destruct Hres]. destruct Hres as [Hbest Hperm].
  assert (Hi : i < MAX_TASKS).
  { assert (i ∈ l) as [Hrd _]%list_elem_of_filter by (unfold l; rewrite Hperm; by left).
    apply (is_ready_bound (w_ks w)); [done|]. by apply Is_true_eq_true. }
  rewrite num_tasks_leb by done. rewrite (proj2 (Nat.leb_gt _ _)) by done.
  destruct (task_lookup s1 i Hs1 Hi) as [t Ht]. repeat wstep.
  assert (Has : address_spaces s1 = address_spaces (w_ks w)) by by rewrite (q_frame_eq _ _ Hf1).
  assert (Hct : counters s1 = counters (w_ks w)) by by rewrite (q_frame_eq _ _ Hf1).
  pose proof (ao_ids _ _ _ Ha i t ltac:(by rewrite <- Hts1)) as Hid.
  assert (exists a, address_spaces s1 !! t_address_space_id t = Some a) as [a Hai].
  { rewrite Has, Hid. destruct (decide (i = 0)) as [->|]; [destruct (ao_kernel _ _ _ Ha)|
      destruct (ao_user _ _ _ Ha i ltac:(lia))]; naive_solver. }
  repeat wstep. change (match as_kind a with User => _ | Kernel => _ end) with (install_root a).
  eapply returns_seq.
  { apply (install_root_spec _ i); wsimpl; [|done|done|by rewrite <- Hid].
    eapply aspaces_ok_insert; [eapply (aspaces_ok_same (w_ks w)); eassumption|done|done|eassumption|done]. }
  intros [] w2 (Hw2 & Hsame & Hcr3). rewrite Hw2. clear Hw2. wsimpl.
  eapply returns_seq; [apply bump_switches_spec; wsimpl; by rewrite Hct|].
  intros [] w3 (n & Hn & ->). wsimpl. repeat wstep. pose proof Hs1 as [].
  split; [|done]. split; wsimpl; try done.
  - constructor. rewrite (q_frame_eq _ _ Hf1). done.
  - split; ksimpl; auto with kernel.
  - exists t. by rewrite <- Hts1.
  - exists n. by rewrite Hct.
Qed.

Lemma candidates_ready s i :
  (forall t, tasks s !! current_task s = Some t -> t_state t = Running ->
     current_task s ∉ filter (is_ready (tasks s)) (rq s)) ->
  i ∈ candidates s -> is_ready (preempted s) i = true.
Proof.
  intros Hni. unfold candidates, preempted. rewrite elem_of_app.
  unfold is_ready, state_of in *. rewrite bool_decide_eq_true.
  destruct (tasks s !! current_task s) as [t|] eqn:Ht; cbn [fmap option_fmap option_map].
  2: { rewrite bool_decide_false by done. simpl. rewrite elem_of_nil.
       intros [[Hr _]%list_elem_of_filter|[]]. by apply bool_decide_unpack in Hr. }
  specialize (Hni t eq_refl). destruct (decide (t_state t = Running)) as [Hr|Hr].
  - rewrite bool_decide_true by congruence. intros [Hi|Hi].
    + destruct (decide (i = current_task s)) as [->|Hne]; [by destruct (Hni Hr)|].
      rewrite list_lookup_insert_ne by done. apply list_elem_of_filter in Hi as [Hi _].
      by apply bool_decide_unpack in Hi.
    + assert (i = current_task s) as -> by (destruct (negb _); set_solver).
      by rewrite list_lookup_insert_eq by (by eapply lookup_lt_Some).
  - rewrite bool_decide_false by congruence. simpl. rewrite elem_of_nil.
    intros [[Hi _]%list_elem_of_filter|[]]. by apply bool_decide_unpack in Hi.
Qed.

(** Compaction does not change the candidates. *)
Lemma candidates_compact s s1 :
  tasks s1 = tasks s -> current_task s1 = current_task s ->
  rq s1 = filter (is_ready (tasks s)) (rq s) -> candidates s1 = candidates s.
Proof.
  intros Hts Hc Hrq. unfold candidates. rewrite Hts, Hc, Hrq. f_equal.
  apply filter_true_id. intros i [Hi _]%list_elem_of_filter. by apply Is_true_eq_true.
Qed.

Lemma switched_to_frame ts w w1 w' :
  switched_to ts w1 w' -> q_frame (w_ks w) (w_ks w1) -> w_arch w1 = w_arch w ->
  w1 = {| w with w_ks := w_ks w1; w_vga := w_vga w1 |} -> switched_to ts w w'.
Proof.
  intros [] Hf Harch Hw. split; try done.
  - rewrite sw_world0. rewrite Hw. done.
  - transitivity (w_ks w1); [by apply q_sched_frame|done].
  - destruct sw_counters0 as (n & ? & Hc). exists n. split; [done|]. rewrite Hc, (q_frame_eq _ _ Hf). done.
  - by rewrite <- Harch.
Qed.

(** From a state in which the ready queue is sound, a switch always finds a
    task to run. *)
(** Every task has its address space. *)
Lemma task_aspace s i t :
  shape s -> aspaces_ok kr us s -> tasks s !! i = Some t ->
  exists a, address_spaces s !! t_address_space_id t = Some a.
Proof.
  intros Hs Ha Ht. rewrite (ao_ids _ _ _ Ha _ _ Ht). pose proof (lookup_bound _ _ _ Hs Ht) as Hb.
  destruct (decide (i = 0)) as [->|]; [destruct (ao_kernel _ _ _ Ha)|destruct (ao_user _ _ _ Ha i ltac:(lia))];
    naive_solver.
Qed.

(** Step 1 changes neither the address spaces of the tasks nor whether the idle
    task lives. *)
Lemma aspaces_preempted s s' t :
  aspaces_ok kr us s -> tasks s !! current_task s = Some t -> tasks s' = preempted s ->
  address_spaces s' = address_spaces s -> aspaces_ok kr us s'.
Proof.
  intros Ha Ht Hts Has. unfold preempted in Hts. rewrite Ht in Hts.
  destruct (decide _); [by eapply aspaces_ok_insert|by eapply aspaces_ok_same].
Qed.
Lemma preempted_idle s t :
  tasks s !! current_task s = Some t -> state_of (tasks s) TASK0_INDEX <> Some Dead ->
  state_of (preempted s) TASK0_INDEX <> Some Dead.
Proof.
  intros Ht Hd. unfold preempted. rewrite Ht. destruct (decide _); [|done].
  unfold state_of in *. destruct (decide (current_task s = TASK0_INDEX)) as [<-|].
  - by rewrite list_lookup_insert_eq by (by eapply lookup_lt_Some).
  - by rewrite list_lookup_insert_ne.
Qed.

Lemma schedule_next_task_spec w t :
  shape (w_ks w) -> aspaces_ok kr us (w_ks w) -> arch_ready kr us (w_arch w) ->
  (sched_switches (counters (w_ks w)) < u64_max)%Z ->
  tasks (w_ks w) !! current_task (w_ks w) = Some t ->
  (t_state t = Running -> current_task (w_ks w) ∉ rq (w_ks w)) -> NoDup (rq (w_ks w)) ->
  state_of (tasks (w_ks w)) TASK0_INDEX <> Some Dead ->
  returns schedule_next_task w (fun _ w' =>
    switched_to (preempted (w_ks w)) w w' /\
    if decide (candidates (w_ks w) = [])
    then current_task (w_ks w') = TASK0_INDEX /\ rq (w_ks w') = []
    else best (preempted (w_ks w)) (candidates (w_ks w)) (current_task (w_ks w')) /\
      candidates (w_ks w) ≡ₚ current_task (w_ks w') :: rq (w_ks w')).
Proof.
  intros Hs Ha Hr Hc Ht Hni Hnd Hd. unfold schedule_next_task. repeat wstep.
  destruct (task_aspace _ _ _ Hs Ha Ht) as [a Hai].
  repeat wstep. eapply returns_mono; [by apply compact_ready_spec|].
  intros [] s1 (q & n & Heq & Hs1 & Hrq1). wstep.
  assert (Hts1 : tasks s1 = tasks (w_ks w)) by by rewrite Heq.
  assert (Hc1 : current_task s1 = current_task (w_ks w)) by by rewrite Heq.
  assert (Hf1 : q_frame (w_ks w) s1) by by rewrite Heq.
  clear Heq. rewrite <- Hc1.
  assert (Hni1 : t_state t = Running -> current_task s1 ∉ rq s1).
  { rewrite Hrq1, Hc1. intros Hrun [_ Hin]%list_elem_of_filter. by apply Hni. }
  eapply returns_mono; [apply (requeue_prev_spec s1 t); [done|congruence|done| |]|].
  { rewrite Hrq1. by apply NoDup_filter. }
  { rewrite Hrq1, Hts1. intros i [Hi _]%list_elem_of_filter. by apply Is_true_eq_true. }
  intros [] s2 (Hf2 & Hs2 & Hts2 & Hrq2).
  rewrite (candidates_compact (w_ks w) s1) in Hrq2 by done.
  assert (Hpre : preempted s1 = preempted (w_ks w)) by (unfold preempted; by rewrite Hts1, Hc1).
  rewrite Hpre in Hts2.
  assert (Hf : q_frame (w_ks w) s2) by by transitivity s1.
  assert (Hfin : forall w1 w', w1 = {| w with w_ks := s2; w_vga := w_vga w1 |} ->
    switched_to (tasks s2) w1 w' -> switched_to (preempted (w_ks w)) w w').
  { intros w1 w' Hw1 Hsw. rewrite <- Hts2. rewrite Hw1 in Hsw.
    eapply switched_to_frame; [exact Hsw|done..]. }
  assert (Ha2 : aspaces_ok kr us s2).
  { eapply aspaces_preempted; [done..|]. by rewrite (q_frame_eq _ _ Hf). }
  assert (Hcan : filter (is_ready (tasks s2)) (rq s2) = candidates (w_ks w)).
  { rewrite Hrq2. apply filter_true_id. intros i. rewrite Hts2. apply candidates_ready.
    intros t' Ht' Hrun. assert (t' = t) as -> by congruence. rewrite <- Hrq1, <- Hc1. auto. }
  wstep. rewrite rq_nil by done. rewrite Hrq2.
  destruct (decide (candidates (w_ks w) = [])) as [Hnil|Hnil].
  - rewrite bool_decide_true by done. pose proof (sh_wq _ Hs2) as Hwq. rewrite Hwq. simpl.
    wstep. wstep. rewrite rq_nil by done. rewrite Hrq2, bool_decide_true by done.
    eapply returns_mono; [apply run_idle_spec; wsimpl; [done..|rewrite Hts2; by eapply preempted_idle]|].
    wsimpl. intros [] w' (Hsw & H1 & H2). split; [eapply Hfin; [|exact Hsw]; done|].
    split; [done|]. rewrite H2. congruence.
  - rewrite bool_decide_false by done.
    eapply returns_mono; [apply run_highest_spec; wsimpl; [done|done|done| |by rewrite Hcan]|].
    { by rewrite (q_frame_eq _ _ Hf). }
    wsimpl. rewrite Hcan. intros [] w' (Hsw & H1 & H2). split; [eapply Hfin; [|exact Hsw]; done|].
    by rewrite <- Hts2.
Qed.
End schedule_spec.
