(* ===== verification/Ipc.v ===== *)
(** * Inter-process communication (kernel/ipc.rs, [impl KernelState])

    Synchronous send / receive / reply over endpoints, each with a fast path
    that delivers to a waiting partner and a slow path that blocks, and the
    closing of an endpoint. *)

From stdpp Require Import base list option sets strings.
From Stdlib Require Import ZArith Lia.
From S2P Require Import Prelude Addr AddressSpace FrameAlloc Queues KTypes Endpoint EventLog KState.
From S2P Require Import ArchIface Sched.

(** ** Entry checks *)

Definition is_kernel_task_index (idx : nat) : K bool :=
  s ← get;
  if num_tasks s <=? idx then mret false
  else
    t ← task_at idx;
    let as_idx := t_address_space_id t in
    if num_tasks s <=? as_idx then mret false
    else a ← address_space_at as_idx; mret (bool_decide (as_kind a = Kernel)).

Definition reject_ipc_if_kernel_current : K bool :=
  s ← get;
  let idx := current_task s in
  if num_tasks s <=? idx then mret true
  else
    t ← task_at idx;
    if decide (t_state t = Dead) then mret true
    else
      b ← is_kernel_task_index idx;
      if b : bool then
        upd_task idx (fun t => {| t with t_last_reply := Some IPC_ERR_DEAD_PARTNER |}) ;;
        mret true
      else mret false.

Definition reject_ipc_if_endpoint_closed (ep : EndpointId) : K bool :=
  if MAX_ENDPOINTS <=? ep then mret true
  else
    e ← endpoint_at ep;
    if is_closed e then
      s ← get;
      let idx := current_task s in
      (if idx <? num_tasks s then
         t ← task_at idx;
         if decide (t_state t <> Dead) then
           upd_task idx (fun t => {| t with t_last_reply := Some IPC_ERR_ENDPOINT_CLOSED |})
         else mret tt
       else mret tt) ;;
      mret true
    else mret false.

(** ** Rescuing blocked tasks *)

Definition rescue_current_with_error (err : Z) : K unit :=
  s ← get;
  let idx := current_task s in
  if num_tasks s <=? idx then mret tt
  else
    t ← task_at idx;
    if decide (t_state t = Dead) then mret tt
    else
      upd_task idx (fun t => {| t with t_pending_send_msg := None; t_blocked_reason := None;
                                       t_last_reply := Some err |}) ;;
      if decide (t_state t = Blocked) then wake_task_to_ready idx else mret tt.

Definition rescue_task_with_error (idx : nat) (err : Z) : K unit :=
  s ← get;
  if num_tasks s <=? idx then mret tt
  else
    t ← task_at idx;
    if decide (t_state t = Dead) then mret tt
    else
      upd_task idx (fun t => {| t with t_pending_send_msg := None; t_blocked_reason := None;
                                       t_last_reply := Some err |}) ;;
      wake_task_to_ready idx.

(** The three rescues of [close_endpoint_and_rescue_waiters]: a live task is
    updated by [f] and woken. *)
Definition rescue_closed (idx : nat) (f : Task -> Task) : K unit :=
  s ← get;
  if idx <? num_tasks s then
    t ← task_at idx;
    if decide (t_state t <> Dead) then
      upd_task idx f ;; wake_task_to_ready idx
    else mret tt
  else mret tt.

Definition closed_waiter (t : Task) : Task :=
  {| t with t_blocked_reason := None; t_last_reply := Some IPC_ERR_ENDPOINT_CLOSED |}.
Definition closed_sender (t : Task) : Task :=
  {| t with t_pending_send_msg := None; t_blocked_reason := None;
            t_last_reply := Some IPC_ERR_ENDPOINT_CLOSED |}.

(** [while sq_len > 0]: one iteration per queued sender, from the end. *)
Fixpoint close_send_loop (ep : EndpointId) (n : nat) : K unit :=
  match n with
  | O => mret tt
  | S last =>
      e ← endpoint_at ep;
      send_idx ← lift_res (read_at (send_queue e) last);
      set_endpoint ep {| e with sq_len := last |} ;;
      rescue_closed send_idx closed_sender ;;
      close_send_loop ep last
  end.

Fixpoint close_reply_loop (ep : EndpointId) (n : nat) : K unit :=
  match n with
  | O => mret tt
  | S last =>
      e ← endpoint_at ep;
      widx ← lift_res (read_at (reply_queue e) last);
      set_endpoint ep {| e with ep_rq_len := last |} ;;
      rescue_closed widx closed_waiter ;;
      close_reply_loop ep last
  end.

Definition close_endpoint_and_rescue_waiters (ep : EndpointId) : K unit :=
  if MAX_ENDPOINTS <=? ep then mret tt
  else
    e ← endpoint_at ep;
    if is_closed e then mret tt
    else
      set_endpoint ep {| e with is_closed := true; recv_waiter := None |} ;;
      match recv_waiter e with
      | Some recv_idx => rescue_closed recv_idx closed_waiter
      | None => mret tt
      end ;;
      e ← endpoint_at ep;
      close_send_loop ep (sq_len e) ;;
      e ← endpoint_at ep;
      close_reply_loop ep (ep_rq_len e).

(** ** Reply waiters *)

(** The backwards search: [inl r] is the early return of a match, [inr w] the
    end of the loop with the first dropped waiter to rescue. *)
Fixpoint take_reply_waiter_loop (ep : EndpointId) (partner : TaskId) (n : nat)
    (to_rescue : option nat) : K (option nat + option nat) :=
  match n with
  | O => mret (inr to_rescue)
  | S pos =>
      e ← endpoint_at ep;
      idx ← lift_res (read_at (reply_queue e) pos);
      s ← get;
      if num_tasks s <=? idx then
        with_endpoint ep (fun e => remove_reply_waiter_at e pos) ;;
        take_reply_waiter_loop ep partner pos to_rescue
      else
        t ← task_at idx;
        if decide (t_state t = Dead) then
          with_endpoint ep (fun e => remove_reply_waiter_at e pos) ;;
          take_reply_waiter_loop ep partner pos to_rescue
        else if decide (t_blocked_reason t = Some (IpcReply partner ep)) then
          r ← with_endpoint ep (fun e => remove_reply_waiter_at e pos);
          mret (inl r)
        else
          removed ← with_endpoint ep (fun e => remove_reply_waiter_at e pos);
          take_reply_waiter_loop ep partner pos
            (match removed, to_rescue with
             | Some _, None => removed
             | _, _ => to_rescue
             end)
  end.

Definition take_reply_waiter_for_partner (ep : EndpointId) (partner : TaskId) : K (option nat) :=
  if MAX_ENDPOINTS <=? ep then mret None
  else
    e ← endpoint_at ep;
    r ← take_reply_waiter_loop ep partner (ep_rq_len e) None;
    match r with
    | inl found => mret found
    | inr (Some widx) => rescue_task_with_error widx IPC_ERR_DEAD_PARTNER ;; mret None
    | inr None => mret None
    end.

(** ** Receive *)

Section ipc.
Context {A : Type} `{ArchOps A} (ft : Features).

(** [loop { dequeue_sender ... }]: every iteration takes one sender out, so
    one iteration more than there are senders is enough; running out of
    [fuel] is an error here. *)
Fixpoint dequeue_valid_sender (fuel : nat) (ep : EndpointId) : K (option nat) :=
  match fuel with
  | O => panic_with (PanicMsg "unreachable: no more iterations")
  | S fuel =>
      r ← with_endpoint ep dequeue_sender;
      match r with
      | None => mret None
      | Some idx =>
          s ← get;
          if num_tasks s <=? idx then dequeue_valid_sender fuel ep
          else
            t ← task_at idx;
            if decide (t_state t = Dead) then dequeue_valid_sender fuel ep
            else if decide (t_blocked_reason t = Some (IpcSend ep)) then
              if decide (t_state t <> Blocked) then dequeue_valid_sender fuel ep
              else mret (Some idx)
            else dequeue_valid_sender fuel ep
      end
  end.

(** [if ep == IPC_DEMO_EP0 && recv_idx == TASK2_INDEX && demo_msgs_delivered < 2] *)
Definition count_demo_delivery (ep : EndpointId) (recv_idx : nat) : K unit :=
  modify (fun s =>
    if (ep =? IPC_DEMO_EP0) && (recv_idx =? TASK2_INDEX) && (demo_msgs_delivered s <? 2)%Z
    then {| s with demo_msgs_delivered := (demo_msgs_delivered s + 1)%Z |} else s).

Definition ipc_recv_fastpath (ep : EndpointId) (recv_idx : nat) : K bool :=
  e ← endpoint_at ep;
  r ← dequeue_valid_sender (S (sq_len e)) ep;
  match r with
  | None => mret false
  | Some send_idx =>
      t ← task_at send_idx;
      upd_task send_idx (fun t => {| t with t_pending_send_msg := None |}) ;;
      match t_pending_send_msg t with
      | None => rescue_task_with_error send_idx IPC_ERR_DEAD_PARTNER ;; mret false
      | Some msg =>
          let send_id := t_id t in
          rt ← task_at recv_idx;
          let recv_id := t_id rt in
          ok ← with_endpoint ep (fun e => try_enqueue_reply_waiter e send_idx);
          if negb ok then rescue_task_with_error send_idx IPC_ERR_CAPACITY ;; mret false
          else
            block_task send_idx (IpcReply recv_id ep) ;;
            upd_task recv_idx (fun t => {| t with t_last_msg := Some msg |}) ;;
            count_demo_delivery ep recv_idx ;;
            bump ipc_recv_fast (fun c v => {| c with ipc_recv_fast := v |}) ;;
            push_event (IpcDelivered send_id recv_id ep msg) ;;
            mret true
      end
  end.

Definition ipc_recv_slowpath (ep : EndpointId) (recv_idx : nat) : W A unit :=
  t ← ks (task_at recv_idx);
  let recv_id := t_id t in
  e ← ks (endpoint_at ep);
  if decide (is_Some (recv_waiter e)) then
    ks (upd_task recv_idx (fun t => {| t with t_last_reply := Some IPC_ERR_RECV_ALREADY_WAITING |}))
  else
    ks (bump ipc_recv_slow (fun c v => {| c with ipc_recv_slow := v |})) ;;
    ks (block_task recv_idx (IpcRecv ep)) ;;
    e ← ks (endpoint_at ep);
    ks (set_endpoint ep {| e with recv_waiter := Some recv_idx |}) ;;
    ks (push_event (IpcRecvBlocked recv_id ep)) ;;
    if ring3_mailbox ft then mret tt else schedule_next_task.

(** The checks shared by the three calls, in the order of the code; [None]
    when the call is rejected. *)
Definition ipc_entry (ep : EndpointId) : K (option nat) :=
  if MAX_ENDPOINTS <=? ep then mret None
  else
    b ← reject_ipc_if_kernel_current;
    if b : bool then mret None
    else
      b ← reject_ipc_if_endpoint_closed ep;
      if b : bool then mret None
      else
        s ← get;
        let idx := current_task s in
        if num_tasks s <=? idx then mret None
        else
          t ← task_at idx;
          if decide (t_state t = Dead) then mret None else mret (Some idx).

Definition ipc_recv (ep : EndpointId) : W A unit :=
  r ← ks (ipc_entry ep);
  match r with
  | None => mret tt
  | Some recv_idx =>
      t ← ks (task_at recv_idx);
      ks (push_event (IpcRecvCalled (t_id t) ep)) ;;
      b ← ks (ipc_recv_fastpath ep recv_idx);
      if b : bool then mret tt else ipc_recv_slowpath ep recv_idx
  end.

(** ** Send *)

(** [cfg]: schedule unless only [ring3_mailbox] is set. *)
Definition schedule_after_send : W A unit :=
  if ring3_mailbox_loop ft then schedule_next_task
  else if ring3_mailbox ft then mret tt
  else schedule_next_task.

Definition ipc_send_fastpath (ep : EndpointId) (send_idx : nat) (msg : Z) : W A bool :=
  s ← kget;
  if negb (send_idx =? current_task s) then mret false
  else
    e ← ks (endpoint_at ep);
    match recv_waiter e with
    | None => mret false
    | Some recv_idx =>
        if num_tasks s <=? recv_idx then mret false
        else
          rt ← ks (task_at recv_idx);
          if decide (t_state rt = Dead) then mret false
          else if decide (t_blocked_reason rt <> Some (IpcRecv ep)) then mret false
          else
            ks (set_endpoint ep {| e with recv_waiter := None |}) ;;
            t ← ks (task_at send_idx);
            let send_id := t_id t in
            let recv_id := t_id rt in
            ks (wake_task_to_ready recv_idx) ;;
            ks (upd_task recv_idx (fun t => {| t with t_last_msg := Some msg |})) ;;
            ok ← ks (with_endpoint ep (fun e => try_enqueue_reply_waiter e send_idx));
            if negb ok then
              ks (upd_task send_idx (fun t => {| t with t_last_reply := Some IPC_ERR_CAPACITY |})) ;;
              mret true
            else
              ks (block_task send_idx (IpcReply recv_id ep)) ;;
              ks (count_demo_delivery ep recv_idx) ;;
              ks (bump ipc_send_fast (fun c v => {| c with ipc_send_fast := v |})) ;;
              ks (push_event (IpcDelivered send_id recv_id ep msg)) ;;
              schedule_after_send ;;
              mret true
    end.

Definition ipc_send_slowpath (ep : EndpointId) (send_idx : nat) (msg : Z) : W A unit :=
  s ← kget;
  if negb (send_idx =? current_task s) then mret tt
  else
    t ← ks (task_at send_idx);
    let send_id := t_id t in
    ks (bump ipc_send_slow (fun c v => {| c with ipc_send_slow := v |})) ;;
    ok ← ks (with_endpoint ep (fun e => try_enqueue_sender e send_idx));
    if negb ok then
      ks (upd_task send_idx (fun t => {| t with t_last_reply := Some IPC_ERR_CAPACITY |}))
    else
      ks (upd_task send_idx (fun t => {| t with t_pending_send_msg := Some msg |})) ;;
      ks (block_task send_idx (IpcSend ep)) ;;
      ks (push_event (IpcSendBlocked send_id ep)) ;;
      schedule_after_send.

Definition ipc_send (ep : EndpointId) (msg : Z) : W A unit :=
  r ← ks (ipc_entry ep);
  match r with
  | None => mret tt
  | Some send_idx =>
      t ← ks (task_at send_idx);
      ks (push_event (IpcSendCalled (t_id t) ep msg)) ;;
      b ← ipc_send_fastpath ep send_idx msg;
      if b : bool then mret tt else ipc_send_slowpath ep send_idx msg
  end.

End ipc.

(** ** Reply *)

Definition count_demo_reply (ep : EndpointId) (recv_idx : nat) : K unit :=
  modify (fun s =>
    if (ep =? IPC_DEMO_EP0) && (recv_idx =? TASK2_INDEX) && (demo_replies_sent s <? 2)%Z
    then {| s with demo_replies_sent := (demo_replies_sent s + 1)%Z |} else s).

Definition ipc_reply (ep : EndpointId) (msg : Z) : K unit :=
  r ← ipc_entry ep;
  match r with
  | None => mret tt
  | Some recv_idx =>
      rt ← task_at recv_idx;
      let recv_id := t_id rt in
      w ← take_reply_waiter_for_partner ep recv_id;
      match w with
      | None => mret tt
      | Some send_idx =>
          s ← get;
          if num_tasks s <=? send_idx then mret tt
          else
            t ← task_at send_idx;
            if decide (t_state t = Dead) then mret tt
            else if decide (t_blocked_reason t <> Some (IpcReply recv_id ep)) then
              rescue_task_with_error send_idx IPC_ERR_DEAD_PARTNER
            else
              let send_id := t_id t in
              push_event (IpcReplyCalled recv_id ep send_id) ;;
              upd_task send_idx (fun t => {| t with t_last_reply := Some msg |}) ;;
              wake_task_to_ready send_idx ;;
              count_demo_reply ep recv_idx ;;
              bump ipc_reply_delivered (fun c v => {| c with ipc_reply_delivered := v |}) ;;
              push_event (IpcReplyDelivered recv_id send_id ep)
      end
  end.
