(* ===== verification/Checks.v ===== *)
(** * The run-time checker (kernel/mod.rs [debug_check_invariants])

    The kernel checks its own invariants at the end of every tick and logs what
    it finds.  The model returns the messages. *)

From stdpp Require Import base list option strings.
From Stdlib Require Import ZArith Lia.
From S2P Require Import Prelude Addr AddressSpace FrameAlloc Queues KTypes Endpoint EventLog KState.
From S2P Require Import ArchIface Sched Ipc.

Definition report (violated : bool) (msg : string) : list string := if violated then [msg] else [].

Definition is_some {X} (o : option X) : bool := match o with Some _ => true | None => false end.
Definition is_none {X} (o : option X) : bool := negb (is_some o).

Fixpoint report_all {X} (f : X -> K (list string)) (l : list X) : K (list string) :=
  match l with
  | [] => mret []
  | x :: l => r ← f x; rs ← report_all f l; mret (r ++ rs)
  end.

(** [self.tasks.iter().enumerate().take(self.num_tasks)] *)
Definition each_task (f : nat -> Task -> K (list string)) : K (list string) :=
  s ← get; report_all (fun it => f it.1 it.2) (imap pair (take (num_tasks s) (tasks s))).

(** ** Address spaces and layout *)

Definition check_kernel_space : K (list string) :=
  a ← address_space_at KERNEL_ASID_INDEX;
  mret (report (bool_decide (as_kind a <> Kernel)) "address_spaces[0] is not Kernel" ++
        report (is_none (as_root_page_frame a)) "kernel address space has no root_page_frame").

Definition user_space_indices (s : KernelState) : list nat :=
  seq FIRST_USER_ASID_INDEX (num_tasks s - FIRST_USER_ASID_INDEX).

Definition check_user_spaces : K (list string) :=
  s ← get;
  report_all (fun as_idx =>
    a ← address_space_at as_idx;
    mret (report (bool_decide (as_kind a <> User)) "user address space kind is not User" ++
          report (is_none (as_root_page_frame a)) "user address space has no root_page_frame"))
    (user_space_indices s).

Definition check_layout : list string :=
  report (negb (USER_SPACE_BASE =? USER_SPACE_START)%Z) "USER_SPACE_BASE mismatch (arch vs mem::layout)" ++
  report (negb (USER_SPACE_SIZE =? PML4_SLOT_SIZE)%Z) "USER_SPACE_SIZE mismatch (arch vs mem::layout)".

(** ** Tasks *)

Definition check_reasons : K (list string) :=
  each_task (fun idx t => mret
    match t_state t with
    | Blocked => report (is_none (t_blocked_reason t)) "BLOCKED task has no blocked_reason"
    | Dead =>
        report (is_some (t_blocked_reason t)) "DEAD task has blocked_reason" ++
        report (is_some (t_last_msg t) || is_some (t_last_reply t) || is_some (t_pending_send_msg t)
                || is_some (t_pending_syscall t)) "DEAD task has leftover task-local state"
    | _ => report (is_some (t_blocked_reason t)) "non-BLOCKED task has blocked_reason"
    end).

Definition check_current : K (list string) :=
  s ← get;
  if num_tasks s <=? current_task s then mret ["current_task out of range"]
  else
    t ← task_at (current_task s);
    mret (if decide (t_state t = Dead) then ["current_task is DEAD"]
          else report (bool_decide (t_state t <> Running)) "current_task is not RUNNING").

(** The offset of a user mapping; the multiplication may overflow. *)
Definition check_mapping (m : Mapping) : K (list string) :=
  if negb (PageFlags_contains (m_flags m) USER) then mret []
  else
    offset ← lift_res (u64_mul (page_number (m_page m)) PAGE_SIZE);
    mret (report (USER_SPACE_SIZE <=? offset)%Z "user mapping offset out of user slot range").

Definition check_user_mappings : K (list string) :=
  s ← get;
  report_all (fun as_idx =>
    a ← address_space_at as_idx;
    if decide (as_kind a <> User) then mret []
    else report_all check_mapping (AddressSpace_mappings a)) (user_space_indices s).

(** ** Endpoints *)

Definition check_closed (e : Endpoint) : list string :=
  report (is_closed e && (is_some (recv_waiter e) || negb (sq_len e =? 0) || negb (ep_rq_len e =? 0)))
    "CLOSED endpoint has waiters/queues".

Definition check_recv_waiter (e : Endpoint) : K (list string) :=
  match recv_waiter e with
  | None => mret []
  | Some tidx =>
      s ← get;
      if num_tasks s <=? tidx then mret ["endpoint.recv_waiter out of range"]
      else
        t ← task_at tidx;
        k ← is_kernel_task_index tidx;
        mret (report k "kernel task appears as endpoint.recv_waiter" ++
              report (bool_decide (t_state t = Dead)) "endpoint.recv_waiter points DEAD task" ++
              report (bool_decide (t_state t <> Blocked)) "recv_waiter is not BLOCKED" ++
              report (bool_decide (t_blocked_reason t <> Some (IpcRecv (ep_id e))))
                "recv_waiter blocked_reason mismatch")
  end.

Definition check_sender (e : Endpoint) (pos : nat) : K (list string) :=
  tidx ← lift_res (read_at (send_queue e) pos);
  s ← get;
  if num_tasks s <=? tidx then mret ["endpoint.send_queue idx out of range"]
  else
    t ← task_at tidx;
    k ← is_kernel_task_index tidx;
    mret (report k "kernel task appears in endpoint.send_queue" ++
          report (bool_decide (t_state t = Dead)) "send_queue contains DEAD task" ++
          report (bool_decide (t_state t <> Blocked)) "sender in send_queue is not BLOCKED" ++
          report (bool_decide (t_blocked_reason t <> Some (IpcSend (ep_id e))))
            "sender blocked_reason mismatch").

(** [self.tasks.iter().position(|x| x.id == partner)] and its state. *)
Definition partner_is_dead (partner : TaskId) : K bool :=
  s ← get;
  match list_find (fun x => t_id x = partner) (tasks s) with
  | Some (_, t) => mret (bool_decide (t_state t = Dead))
  | None => mret false
  end.

Definition check_reply_waiter (e : Endpoint) (pos : nat) : K (list string) :=
  tidx ← lift_res (read_at (reply_queue e) pos);
  s ← get;
  if num_tasks s <=? tidx then mret ["endpoint.reply_queue idx out of range"]
  else
    t ← task_at tidx;
    k ← is_kernel_task_index tidx;
    last ← match t_blocked_reason t with
           | Some (IpcReply partner ep) =>
               if ep =? ep_id e then
                 dead ← partner_is_dead partner;
                 mret (report dead "IpcReply waiter has DEAD partner")
               else mret ["reply waiter blocked_reason mismatch"]
           | _ => mret ["reply waiter blocked_reason mismatch"]
           end;
    mret (report k "kernel task appears in endpoint.reply_queue" ++
          report (bool_decide (t_state t = Dead)) "reply_queue contains DEAD task" ++
          report (bool_decide (t_state t <> Blocked)) "reply waiter is not BLOCKED" ++ last).

Definition check_endpoint (e : Endpoint) : K (list string) :=
  r ← check_recv_waiter e;
  sq ← report_all (check_sender e) (seq 0 (sq_len e));
  rq ← report_all (check_reply_waiter e) (seq 0 (ep_rq_len e));
  mret (check_closed e ++ r ++ sq ++ rq).

Definition check_endpoints : K (list string) :=
  s ← get; report_all check_endpoint (endpoints s).

(** ** Dead tasks and the wait queue *)

Definition check_dead : K (list string) :=
  each_task (fun tidx t =>
    if decide (t_state t <> Dead) then mret []
    else
      in_ready ← is_in_ready_queue tidx;
      in_wait ← is_in_wait_queue tidx;
      s ← get;
      let as_idx := t_address_space_id t in
      found ← (if as_idx <? num_tasks s then
                 a ← address_space_at as_idx;
                 mret (bool_decide (as_kind a = User) &&
                       existsb (fun m => PageFlags_contains (m_flags m) USER) (AddressSpace_mappings a))
               else mret false);
      mret (report in_ready "DEAD task is in ready_queue" ++
            report in_wait "DEAD task is in wait_queue" ++
            report found "DEAD task address space still has USER mappings")).

Definition check_wait_queue : K (list string) :=
  s ← get;
  report_all (fun pos =>
    idx ← lift_res (read_at (wait_queue s) pos);
    if num_tasks s <=? idx then mret ["wait_queue contains out-of-range idx"]
    else
      t ← task_at idx;
      mret (if decide (t_state t = Dead) then ["wait_queue contains DEAD task"]
            else report (bool_decide (t_state t <> Blocked)) "wait_queue contains non-BLOCKED task" ++
                 report (bool_decide (t_blocked_reason t <> Some Sleep))
                   "wait_queue contains non-Sleep blocked_reason")) (seq 0 (wq_len s)).

Definition check_sleepers : K (list string) :=
  each_task (fun idx t =>
    if decide (t_state t = Blocked /\ t_blocked_reason t = Some Sleep) then
      b ← is_in_wait_queue idx;
      mret (report (negb b) "Sleep BLOCKED task is not in wait_queue")
    else mret []).

(** ** From the tasks back to the queues *)

Definition check_reverse : K (list string) :=
  each_task (fun tidx t =>
    if decide (t_state t <> Blocked) then mret []
    else
      match t_blocked_reason t with
      | None => mret ["BLOCKED task has no blocked_reason (reverse check)"]
      | Some Sleep =>
          in_wait ← is_in_wait_queue tidx;
          mret (report (negb in_wait) "Sleep BLOCKED task not in wait_queue (reverse check)")
      | Some (IpcRecv ep) =>
          if MAX_ENDPOINTS <=? ep then mret ["IpcRecv has out-of-range ep (reverse check)"]
          else
            e ← endpoint_at ep;
            in_wait ← is_in_wait_queue tidx;
            mret (report (bool_decide (recv_waiter e <> Some tidx))
                    "IpcRecv task not registered as recv_waiter (reverse check)" ++
                  report in_wait "IpcRecv task is in wait_queue (reverse check)")
      | Some (IpcSend ep) =>
          if MAX_ENDPOINTS <=? ep then mret ["IpcSend has out-of-range ep (reverse check)"]
          else
            e ← endpoint_at ep;
            found ← lift_res (queue_contains (send_queue e) (sq_len e) tidx);
            in_wait ← is_in_wait_queue tidx;
            mret (report (negb found) "IpcSend task not found in endpoint.send_queue (reverse check)" ++
                  report in_wait "IpcSend task is in wait_queue (reverse check)")
      | Some (IpcReply partner ep) =>
          if MAX_ENDPOINTS <=? ep then mret ["IpcReply has out-of-range ep (reverse check)"]
          else
            e ← endpoint_at ep;
            found ← lift_res (queue_contains (reply_queue e) (ep_rq_len e) tidx);
            dead ← partner_is_dead partner;
            in_wait ← is_in_wait_queue tidx;
            mret (report (negb found) "IpcReply task not found in endpoint.reply_queue (reverse check)" ++
                  report dead "IpcReply waiter has DEAD partner (reverse check)" ++
                  report in_wait "IpcReply task is in wait_queue (reverse check)")
      end).

(** The messages, without their common prefix. *)
Definition debug_check_invariants : K (list string) :=
  c1 ← check_kernel_space;
  c2 ← check_user_spaces;
  c3 ← check_reasons;
  c4 ← check_current;
  c5 ← check_user_mappings;
  c6 ← check_endpoints;
  c7 ← check_dead;
  c8 ← check_wait_queue;
  c9 ← check_sleepers;
  c10 ← check_reverse;
  mret (c1 ++ c2 ++ check_layout ++ c3 ++ c4 ++ c5 ++ c6 ++ c7 ++ c8 ++ c9 ++ c10).
