(* ===== verification/Kill.v ===== *)
(** * Killing a task (kernel/mod.rs)

    Removing every trace of a task, closing the endpoints it owns, rescuing
    the tasks that wait for it, and the halt when no user task is left. *)

From stdpp Require Import base list option sets strings.
From Stdlib Require Import ZArith Lia.
From S2P Require Import Prelude Addr AddressSpace FrameAlloc Queues KTypes Endpoint EventLog KState.
From S2P Require Import Console Dump ArchIface Sched Ipc.

Definition remove_task_from_endpoint (idx : nat) (e : Endpoint) : res Endpoint :=
  '(sq, sn) ← swap_remove_all idx (send_queue e) (sq_len e);
  '(rq, rn) ← swap_remove_all idx (reply_queue e) (ep_rq_len e);
  Ok {| e with recv_waiter := if decide (recv_waiter e = Some idx) then None else recv_waiter e;
               send_queue := sq; sq_len := sn; reply_queue := rq; ep_rq_len := rn |}.

Definition remove_task_from_endpoints (idx : nat) : K unit :=
  s ← get;
  eps ← lift_res (mapM (remove_task_from_endpoint idx) (endpoints s));
  put {| s with endpoints := eps |}.

(** The test [should_rescue]. *)
Definition waits_for_reply_of (dead_partner : TaskId) (e : Endpoint) (t : Task) : bool :=
  bool_decide (t_state t = Blocked) &&
  match t_blocked_reason t with
  | Some (IpcReply partner wep) => (partner =? dead_partner)%Z && (wep =? ep_id e)
  | _ => false
  end.

(** [while pos < rq_len] over the reply queue of endpoint [k]; every iteration
    shortens [rq_len - pos], so [rq_len] iterations are enough. *)
Fixpoint resolve_loop (fuel : nat) (dead_partner : TaskId) (k pos : nat) (wake_list : list nat) :
    K (list nat) :=
  match fuel with
  | O => mret wake_list
  | S fuel =>
      e ← endpoint_at k;
      if pos <? ep_rq_len e then
        waiter_idx ← lift_res (read_at (reply_queue e) pos);
        s ← get;
        should_rescue ←
          (if waiter_idx <? num_tasks s then
             t ← task_at waiter_idx; mret (waits_for_reply_of dead_partner e t)
           else mret false);
        if should_rescue : bool then
          '(q, n) ← lift_res (swap_remove (reply_queue e) (ep_rq_len e) pos);
          set_endpoint k {| e with reply_queue := q; ep_rq_len := n |} ;;
          upd_task waiter_idx (fun t => {| t with t_blocked_reason := None;
            t_last_reply := Some IPC_ERR_DEAD_PARTNER |}) ;;
          resolve_loop fuel dead_partner k pos
            (if length wake_list <? MAX_TASKS then wake_list ++ [waiter_idx] else wake_list)
        else resolve_loop fuel dead_partner k (S pos) wake_list
      else mret wake_list
  end.

Fixpoint resolve_endpoints (dead_partner : TaskId) (eps : list nat) (wake_list : list nat) :
    K (list nat) :=
  match eps with
  | [] => mret wake_list
  | k :: rest =>
      e ← endpoint_at k;
      wl ← resolve_loop (ep_rq_len e) dead_partner k 0 wake_list;
      resolve_endpoints dead_partner rest wl
  end.

Definition resolve_ipc_reply_waiters_for_dead_partner (dead_partner : TaskId) : K unit :=
  s ← get;
  wake_list ← resolve_endpoints dead_partner (seq 0 (length (endpoints s))) [];
  for_each wake_list wake_task_to_ready.

(** [alive_user_task_count] *)
Fixpoint alive_user_loop (idxs : list nat) (n : nat) : K nat :=
  match idxs with
  | [] => mret n
  | i :: rest =>
      s ← get;
      t ← task_at i;
      if decide (t_state t = Dead) then alive_user_loop rest n
      else if num_tasks s <=? t_address_space_id t then alive_user_loop rest n
      else
        a ← address_space_at (t_address_space_id t);
        alive_user_loop rest (if decide (as_kind a = User) then S n else n)
  end.
Definition alive_user_task_count : K nat :=
  s ← get; alive_user_loop (seq 0 (num_tasks s)) 0.

(** The USER pages collected before the table is cleared: at most 64. *)
Definition collect_user_pages (a : AddressSpace) : list VirtPage :=
  take 64 (m_page <$> filter is_user_mapping (AddressSpace_mappings a)).

(** The state of a killed task. *)
Definition killed (t : Task) : Task :=
  {| t with t_state := Dead; t_blocked_reason := None; t_pending_syscall := None;
            t_pending_send_msg := None; t_last_msg := None; t_last_reply := None;
            t_last_syscall_ret := None; t_last_syscall_ret_unread := false;
            t_time_slice_used := 0%Z |}.

Section kill.
Context {A : Type} `{ArchOps A}.

(** [for i in 0..n]: unmap the collected pages; the first four are translated
    again for the log. *)
Fixpoint unmap_pages (root : PhysFrame) (i : nat) (pages : list VirtPage) : W A unit :=
  match pages with
  | [] => mret tt
  | page :: rest =>
      r ← arch_with_phys_mem (apply_mem_action_with_mapper (Unmap page) (Some root));
      match r with
      | Err _ => panic_with (PanicMsg "cleanup_user_mappings: arch unmap failed")
      | Okay _ =>
          (if i <? 4 then
             va ← ks (lift_res (VirtPage_start_address page));
             virt ← ks (lift_res (u64_add USER_SPACE_BASE (virt_u64 va)));
             arch (debug_translate_in_root root virt)
           else mret tt) ;;
          unmap_pages root (S i) rest
      end
  end.

Definition cleanup_user_mappings_of_address_space (as_idx : nat) : W A unit :=
  s ← kget;
  if num_tasks s <=? as_idx then mret tt
  else
    a ← ks (address_space_at as_idx);
    if decide (as_kind a <> User) then mret tt
    else
      match as_root_page_frame a with
      | None => panic_with (PanicMsg "cleanup_user_mappings: user root_page_frame is None")
      | Some root =>
          let pages := collect_user_pages a in
          ks (set_address_space as_idx (AddressSpace_clear_user_mappings a)) ;;
          unmap_pages root 0 pages
      end.

(** [self.dump_events()] in the middle of an operation: its lines go to the logger,
    an index out of range would stop the kernel. *)
Definition dump_now : K unit :=
  s ← get;
  lift_res ('(_, _) ← dump_events s []; Ok tt).

Definition maybe_halt_if_no_user_tasks : W A unit :=
  s ← kget;
  if halt_dumped_no_user_tasks s then mret tt
  else
    n ← ks alive_user_task_count;
    if negb (n =? 0) then mret tt
    else
      kernel_root ← ks kernel_root_frame;
      arch (switch_address_space_quiet kernel_root) ;;
      set_vga_enabled true ;;
      ks dump_now ;;
      kmodify (fun s => {| s with halt_dumped_no_user_tasks := true; should_halt := true |}).

(** The counter of the reason. *)
Definition count_kill (reason : TaskKillReason) : K unit :=
  match reason with
  | UserPageFault _ _ _ =>
      bump task_killed_user_pf (fun c v => {| c with task_killed_user_pf := v |})
  | DemoInjected _ =>
      bump task_killed_demo_injected (fun c v => {| c with task_killed_demo_injected := v |})
  end.

(** The endpoints to close: those the dead task owns. *)
Definition owned_endpoints (dead_id : TaskId) (eps : list Endpoint) : list EndpointId :=
  ep_id <$> filter (fun e => bool_decide (ep_owner e = Some dead_id) = true) eps.

Definition kill_task (idx : nat) (reason : TaskKillReason) : W A unit :=
  ks (count_kill reason) ;;
  s ← kget;
  if num_tasks s <=? idx then mret tt
  else
    t ← ks (task_at idx);
    let dead_id := t_id t in
    let as_idx := t_address_space_id t in
    ks (remove_from_ready_queue idx) ;;
    ks (remove_from_wait_queue idx) ;;
    ks (remove_task_from_endpoints idx) ;;
    ks (upd_task idx killed) ;;
    ks (set_mem_demo_stage idx 0%Z) ;;
    ks (set_mem_demo_mapped idx false) ;;
    ks (set_mem_demo_frame idx None) ;;
    kmodify (fun s => {| s with demo_early_sent_by_task0 := false |}) ;;
    cleanup_user_mappings_of_address_space as_idx ;;
    s ← kget;
    ks (for_each (owned_endpoints dead_id (endpoints s)) close_endpoint_and_rescue_waiters) ;;
    ks (resolve_ipc_reply_waiters_for_dead_partner dead_id) ;;
    ks (push_event (TaskKilled dead_id reason)) ;;
    ks (push_event (TaskStateChanged dead_id Dead)) ;;
    s ← kget;
    (if idx =? current_task s then schedule_next_task else mret tt) ;;
    maybe_halt_if_no_user_tasks.

End kill.
