(* ===== verification/Demo.v ===== *)
(** * Fault injection (kernel/demo/*.rs)

    Hooks that are inert unless their cargo feature is set.  Their function
    statics are fields of the world. *)

From stdpp Require Import base list option.
From Stdlib Require Import ZArith Lia.
From S2P Require Import Prelude Addr AddressSpace KTypes Endpoint KState ArchIface Sched Ipc Kill.

(** mod.rs [demo_page_for_task] *)
Definition demo_page_for_task (task_idx : nat) : VirtPage :=
  VirtPage_from_index
    (match task_idx with
     | 0 => DEMO_VIRT_PAGE_INDEX_TASK0
     | 1 => DEMO_VIRT_PAGE_INDEX_USER
     | 2 => DEMO_VIRT_PAGE_INDEX_USER
     | _ => DEMO_VIRT_PAGE_INDEX_TASK0
     end).

Definition USER_DEMO_FLAGS : PageFlags := PageFlags_union (PageFlags_union PRESENT WRITABLE) USER.

Section demo.
Context {A : Type} `{ArchOps A} (ft : Features).

(** demo/ipc_faults.rs *)
Definition on_kernel_state_init : W A unit :=
  if endpoint_close_test ft then
    e ← ks (endpoint_at IPC_DEMO_EP0);
    ks (set_endpoint IPC_DEMO_EP0 {| e with ep_owner := Some TASK2_ID |})
  else mret tt.

Definition on_after_ipc_recv (task_index : nat) (tid : TaskId) : W A unit :=
  if dead_partner_test ft then
    fired ← gets w_dead_partner_fired;
    if (tid =? 3)%Z then
      modify (fun w => {| w with w_dead_partner_fired := true |}) ;;
      if negb fired then kill_task task_index (DemoInjected 0xD34D0001) else mret tt
    else mret tt
  else mret tt.

(** demo/mem_faults.rs; [true] when the normal memory demo is skipped. *)
Definition evil_double_map_step : W A bool :=
  s ← kget;
  let task_idx := current_task s in
  if task_idx =? TASK0_INDEX then mret false
  else if num_tasks s <=? task_idx then mret true
  else
    t ← ks (task_at task_idx);
    if decide (t_state t = Dead) then mret true
    else if negb (task_idx =? TASK1_INDEX) then mret false
    else if decide (is_Some (t_pending_syscall t)) then mret true
    else
      stage ← gets w_double_map_stage;
      if (2 <=? stage)%Z then mret false
      else
        let sc := SysPageMap (demo_page_for_task task_idx) USER_DEMO_FLAGS in
        ks (upd_task task_idx (fun t => {| t with t_pending_syscall := Some sc |})) ;;
        modify (fun w => {| w with w_double_map_stage := if (stage =? 0)%Z then 1%Z else 2%Z |}) ;;
        mret true.

Definition evil_unmap_not_mapped_step : W A bool :=
  s ← kget;
  let task_idx := current_task s in
  if task_idx =? TASK0_INDEX then mret false
  else if num_tasks s <=? task_idx then mret true
  else
    t ← ks (task_at task_idx);
    if decide (t_state t = Dead) then mret true
    else if negb (task_idx =? TASK1_INDEX) then mret false
    else if decide (is_Some (t_pending_syscall t)) then mret true
    else
      fired ← gets w_unmap_fired;
      modify (fun w => {| w with w_unmap_fired := true |}) ;;
      if fired : bool then mret false
      else
        let sc := SysPageUnmap (demo_page_for_task task_idx) in
        ks (upd_task task_idx (fun t => {| t with t_pending_syscall := Some sc |})) ;;
        mret true.

Definition on_mem_demo : W A bool :=
  if evil_double_map ft then evil_double_map_step
  else if evil_unmap_not_mapped ft then evil_unmap_not_mapped_step
  else mret false.

End demo.
