(* ===== verification/Syscall.v ===== *)
(** * System calls (kernel/syscall.rs) and the user programs (kernel/user_program.rs) *)

From stdpp Require Import base list option.
From Stdlib Require Import ZArith Lia.
From S2P Require Import Prelude Addr AddressSpace FrameAlloc KTypes Endpoint KState ArchIface Sched.
From S2P Require Import Ipc Kill Demo.
#[local] Open Scope Z_scope.

(** mod.rs [get_or_alloc_demo_frame] *)
Definition get_or_alloc_demo_frame (task_idx : nat) : K (option PhysFrame) :=
  s ← get;
  if (num_tasks s <=? task_idx)%nat then mret None
  else
    mf ← at_index (mem_demo_frame s) task_idx;
    match mf with
    | Some f => mret (Some f)
    | None =>
        '(raw, pm) ← lift_res (PhysicalMemoryManager_allocate_frame (phys_mem s));
        put {| s with phys_mem := pm |} ;;
        match raw with
        | Some phys_u64 =>
            let f := PhysFrame_from_index (phys_u64 / PAGE_SIZE) in
            push_event FrameAllocated ;;
            set_mem_demo_frame task_idx (Some f) ;;
            mret (Some f)
        | None => mret None
        end
    end.

(** The code of [AddressSpace::apply]'s outcome. *)
Definition logical_ret (r : result unit AddressSpaceError) : Z :=
  match r with
  | Okay _ => SYSCALL_OK
  | Err AlreadyMapped => SYSCALL_ERR_ALREADY_MAPPED
  | Err NotMapped => SYSCALL_ERR_NOT_MAPPED
  | Err CapacityExceeded => SYSCALL_ERR_CAPACITY
  end.

(** [aspace.apply(mem_action)] on address space [as_idx]. *)
Definition apply_logical (as_idx : nat) (action : MemAction) : K (result unit AddressSpaceError) :=
  a ← address_space_at as_idx;
  let '(r, a') := AddressSpace_apply action a in
  set_address_space as_idx a' ;;
  mret r.

Section syscall.
Context {A : Type} `{ArchOps A} (ft : Features).

(** The second half of both memory system calls: the real page tables. *)
Definition apply_arch (as_idx : nat) (action : MemAction) : W A Z :=
  a ← ks (address_space_at as_idx);
  let run root :=
    r ← arch_with_phys_mem (apply_mem_action_with_mapper action root);
    mret (match r with Okay _ => SYSCALL_OK | Err _ => SYSCALL_ERR_ARCH_FAILED end) in
  match as_kind a with
  | Kernel => run None
  | User =>
      match as_root_page_frame a with
      | None => mret SYSCALL_ERR_BAD_ASPACE
      | Some root => run (Some root)
      end
  end.

(** The logical table first; the page tables only if that succeeded. *)
Definition apply_both (as_idx : nat) (action : MemAction) : W A Z :=
  r ← ks (apply_logical as_idx action);
  if logical_ret r =? SYSCALL_OK then apply_arch as_idx action
  else mret (logical_ret r).

Definition syscall_page_map (task_index : nat) (page : VirtPage) (flags : PageFlags) : W A Z :=
  s ← kget;
  if (num_tasks s <=? task_index)%nat then mret SYSCALL_ERR_BAD_ASPACE
  else
    t ← ks (task_at task_index);
    let as_idx := t_address_space_id t in
    if (num_tasks s <=? as_idx)%nat then mret SYSCALL_ERR_BAD_ASPACE
    else
      mf ← ks (get_or_alloc_demo_frame task_index);
      match mf with
      | None => mret SYSCALL_ERR_ARCH_FAILED
      | Some frame => apply_both as_idx (Map page frame flags)
      end.

Definition syscall_page_unmap (task_index : nat) (page : VirtPage) : W A Z :=
  s ← kget;
  if (num_tasks s <=? task_index)%nat then mret SYSCALL_ERR_BAD_ASPACE
  else
    t ← ks (task_at task_index);
    let as_idx := t_address_space_id t in
    if (num_tasks s <=? as_idx)%nat then mret SYSCALL_ERR_BAD_ASPACE
    else apply_both as_idx (Unmap page).

Definition is_ipc_syscall (sc : Syscall) : bool :=
  match sc with
  | SysIpcRecv _ | SysIpcSend _ _ | SysIpcReply _ _ => true
  | SysPageMap _ _ | SysPageUnmap _ => false
  end.

Definition handle_syscall (sc : Syscall) : W A unit :=
  s ← kget;
  let task_index := current_task s in
  if (num_tasks s <=? task_index)%nat then mret tt
  else
    t ← ks (task_at task_index);
    let tid := t_id t in
    let as_idx := t_address_space_id t in
    is_kernel ← (if (num_tasks s <=? as_idx)%nat then mret false
                 else a ← ks (address_space_at as_idx); mret (bool_decide (as_kind a = Kernel)));
    if is_kernel && is_ipc_syscall sc then mret tt
    else
      ks (push_event (SyscallHandled tid)) ;;
      match sc with
      | SysIpcRecv ep => ipc_recv ft ep ;; on_after_ipc_recv ft task_index tid
      | SysIpcSend ep msg => ipc_send ft ep msg
      | SysIpcReply ep msg => ks (ipc_reply ep msg)
      | SysPageMap page flags =>
          ret ← syscall_page_map task_index page flags;
          ks (set_last_syscall_ret_for_current ret)
      | SysPageUnmap page =>
          ret ← syscall_page_unmap task_index page;
          ks (set_last_syscall_ret_for_current ret)
      end.

Definition handle_pending_syscall_if_any : W A unit :=
  s ← kget;
  let idx := current_task s in
  if (num_tasks s <=? idx)%nat then mret tt
  else
    t ← ks (task_at idx);
    if decide (t_state t = Dead) then
      ks (upd_task idx (fun t => {| t with t_pending_syscall := None |}))
    else
      match t_pending_syscall t with
      | None => mret tt
      | Some sc =>
          ks (upd_task idx (fun t => {| t with t_pending_syscall := None |})) ;;
          ks (push_event (SyscallIssued (t_id t))) ;;
          handle_syscall sc
      end.

End syscall.

(** ** The demo user programs (kernel/user_program.rs) *)

Definition IPC_KICK_PERIOD_TICKS : Z := 8.

(** [if let Some(v) = last_reply { ...; last_reply = None }] *)
Definition consume_last_reply (idx : nat) : K unit :=
  t ← task_at idx;
  match t_last_reply t with
  | Some _ => upd_task idx (fun t => {| t with t_last_reply := None |})
  | None => mret tt
  end.

Definition issue (idx : nat) (sc : Syscall) : K unit :=
  upd_task idx (fun t => {| t with t_pending_syscall := Some sc |}).

(** Task 1: sends once, then whenever a receiver waits on every eighth tick. *)
Definition task1_step (ft : Features) (idx : nat) : K unit :=
  let ep := IPC_DEMO_EP0 in
  consume_last_reply idx ;;
  if ipc_demo_single_slow ft then mret tt
  else
    s ← get;
    if negb (demo_sent_by_task1 s) then
      put {| s with demo_sent_by_task1 := true |} ;;
      issue idx (SysIpcSend ep (Z.lxor 0x1111000000000000 (Z.land (tick_count s) 0xFFFF)))
    else if negb (tick_count s =? 0) && (tick_count s mod IPC_KICK_PERIOD_TICKS =? 0) then
      e ← endpoint_at ep;
      if decide (is_Some (recv_waiter e)) then
        issue idx (SysIpcSend ep (Z.lxor 0x2222000000000000 (Z.land (tick_count s) 0xFFFF)))
      else mret tt
    else mret tt.

(** Task 2: a server that replies to what it received, then receives again. *)
Definition server_step (idx : nat) : K unit :=
  let ep := IPC_DEMO_EP0 in
  t ← task_at idx;
  match t_last_msg t with
  | Some msg =>
      upd_task idx (fun t => {| t with t_last_msg := None |}) ;;
      issue idx (SysIpcReply ep (Z.lxor 0xABCD000000000000 (Z.land msg 0xFFFF)))
  | None => issue idx (SysIpcRecv ep)
  end.

Definition user_step_issue_syscall (ft : Features) (task_idx : nat) : K unit :=
  s ← get;
  if (num_tasks s <=? task_idx)%nat then mret tt
  else
    t ← task_at task_idx;
    if decide (t_state t = Dead) then mret tt
    else if decide (is_Some (t_pending_syscall t)) then mret tt
    else if decide (t_state t = Blocked) then mret tt
    else
      take_unread_last_syscall_ret task_idx ;;
      if (task_idx =? TASK0_INDEX)%nat then consume_last_reply task_idx
      else if (task_idx =? TASK1_INDEX)%nat then task1_step ft task_idx
      else server_step task_idx.
