(* ===== verification/Tick.v ===== *)
(** * The tick and the boot (kernel/mod.rs), the mailbox (kernel/syscall.rs)

    The memory demo, one step of the kernel, the construction of the initial
    state, and the entry points of ring 3. *)

From stdpp Require Import base list option strings.
From Stdlib Require Import ZArith Lia.
From S2P Require Import Prelude Addr AddressSpace FrameAlloc Queues KTypes Endpoint EventLog KState.
From S2P Require Import ArchIface Sched Ipc Checks Kill Demo Syscall.
#[local] Open Scope Z_scope.

Section tick.
Context {A : Type} `{ArchOps A} (ft : Features).

(** ** The memory demo *)

Definition kill_current_task_due_to_user_pf (pf : PageFaultInfo) : W A unit :=
  s ← kget;
  let idx := current_task s in
  t ← ks (task_at idx);
  a ← ks (address_space_at (t_address_space_id t));
  stage ← ks (at_index (mem_demo_stage s) idx);
  if ignore_user_pf_demo ft then mret tt
  else kill_task idx (UserPageFault (pf_addr pf) (pf_err pf) (pf_rip pf)).

(** The value stages 1 and 3 write. *)
Definition demo_test_value (base : Z) (task_id : TaskId) (tick : Z) : Z :=
  Z.lxor (Z.lxor base (Z.shiftl (Z.land task_id 0xFFFF) 16)) (Z.land tick 0xFFFF).

(** One stage of a user task: map, access, unmap, access again (a page fault,
    only with [pf_demo]). *)
Definition mem_demo_user (task_idx : nat) (task_id : TaskId) (page : VirtPage) (flags : PageFlags)
    (root : PhysFrame) : W A unit :=
  va ← ks (lift_res (VirtPage_start_address page));
  virt ← ks (lift_res (u64_add USER_SPACE_BASE (virt_u64 va)));
  s ← kget;
  stage ← ks (at_index (mem_demo_stage s) task_idx);
  if stage =? 0 then
    ks (issue task_idx (SysPageMap page flags)) ;;
    ks (set_mem_demo_stage task_idx 1)
  else if stage =? 1 then
    kernel_root ← ks kernel_root_frame;
    rw ← arch (guarded_user_rw_u64_in_root root kernel_root virt
           (demo_test_value 0xC0DE000000000000 task_id (tick_count s)));
    match rw with
    | Okay _ =>
        arch (debug_translate_in_root root virt) ;;
        ks (set_mem_demo_stage task_idx 2)
    | Err pf =>
        kill_current_task_due_to_user_pf pf ;;
        ks (set_mem_demo_stage task_idx 0)
    end
  else if stage =? 2 then
    ks (issue task_idx (SysPageUnmap page)) ;;
    ks (set_mem_demo_stage task_idx (if pf_demo ft then 3 else 0))
  else if stage =? 3 then
    if pf_demo ft then
      kernel_root ← ks kernel_root_frame;
      rw ← arch (guarded_user_rw_u64_in_root root kernel_root virt
             (demo_test_value 0xDEAD000000000000 task_id (tick_count s)));
      match rw with
      | Okay _ => ks (set_mem_demo_stage task_idx 0)
      | Err pf =>
          kill_current_task_due_to_user_pf pf ;;
          ks (set_mem_demo_stage task_idx 0)
      end
    else ks (set_mem_demo_stage task_idx 0)
  else ks (set_mem_demo_stage task_idx 0).

(** The kernel task alternates between mapping and unmapping its page. *)
Definition mem_demo_kernel (task_idx as_idx : nat) (task_id : TaskId) (page : VirtPage)
    (flags : PageFlags) : W A unit :=
  s ← kget;
  mapped ← ks (at_index (mem_demo_mapped s) task_idx);
  action ← (if negb mapped then
              mf ← ks (get_or_alloc_demo_frame task_idx);
              mret (match mf with Some frame => Some (Map page frame flags) | None => None end)
            else mret (Some (Unmap page)));
  match action with
  | None => kmodify (fun s => {| s with should_halt := true |})
  | Some mem_action =>
      r ← ks (apply_logical as_idx mem_action);
      match r with
      | Err _ => panic_with (PanicMsg "address_space.apply failed; abort (fail-stop)")
      | Okay _ =>
          r ← arch_with_phys_mem (apply_mem_action_with_mapper mem_action None);
          match r with
          | Err _ => panic_with (PanicMsg "arch apply_mem_action failed")
          | Okay _ =>
              s ← kget;
              b ← ks (at_index (mem_demo_mapped s) task_idx);
              ks (set_mem_demo_mapped task_idx (negb b)) ;;
              ks (push_event (MemActionApplied task_id as_idx mem_action))
          end
      end
  end.

Definition do_mem_demo_normal : W A unit :=
  s ← kget;
  let task_idx := current_task s in
  t ← ks (task_at task_idx);
  if decide (t_state t = Dead) then mret tt
  else
    let page := demo_page_for_task task_idx in
    let flags := if (task_idx =? TASK0_INDEX)%nat then PageFlags_union PRESENT WRITABLE
                 else USER_DEMO_FLAGS in
    let as_idx := t_address_space_id t in
    kind ← (if (as_idx <? num_tasks s)%nat then a ← ks (address_space_at as_idx); mret (as_kind a)
            else mret Kernel);
    if negb (task_idx =? TASK0_INDEX)%nat then
      if decide (kind <> User) then mret tt
      else
        a ← ks (address_space_at as_idx);
        match as_root_page_frame a with
        | None => panic_with (PanicMsg "user root_page_frame is None")
        | Some root => mem_demo_user task_idx (t_id t) page flags root
        end
    else mem_demo_kernel task_idx as_idx (t_id t) page flags.

Definition do_mem_demo : W A unit :=
  injected ← on_mem_demo ft;
  if injected : bool then mret tt else do_mem_demo_normal.

(** ** The tick *)

Definition tick_action (action : KernelAction) : W A unit :=
  match action with
  | ActionNone => mret tt
  | UpdateTimer =>
      s ← kget;
      n ← ks (lift_res (u64_add (time_ticks s) 1));
      kmodify (fun s => {| s with time_ticks := n |}) ;;
      ks (push_event (TimerUpdated n)) ;;
      ks maybe_wake_one_sleep_task
  | AllocateFrame =>
      s ← kget;
      '(raw, pm) ← ks (lift_res (PhysicalMemoryManager_allocate_frame (phys_mem s)));
      kmodify (fun s => {| s with phys_mem := pm |}) ;;
      match raw with
      | Some _ => ks (push_event FrameAllocated)
      | None => kmodify (fun s => {| s with should_halt := true |})
      end
  | MemDemo => if ring3_mailbox_loop ft then mret tt else do_mem_demo
  end.

(** The end of a tick whose task died. *)
Definition tick_after_death (next_activity : KernelActivity) : W A unit :=
  kmodify (fun s => {| s with activity := next_activity |}) ;;
  s ← kget;
  if (current_task s <? num_tasks s)%nat then
    t ← ks (task_at (current_task s));
    if decide (t_state t <> Running) then schedule_next_task else mret tt
  else mret tt.

(** The rest of a tick: the user program, its system call, the accounting. *)
Definition tick_finish (ran_idx : nat) (next_activity : KernelActivity) : W A unit :=
  (if ring3_mailbox_loop ft && (ran_idx =? TASK1_INDEX)%nat then mret tt
   else ks (user_step_issue_syscall ft ran_idx)) ;;
  s ← kget;
  (if (ran_idx =? current_task s)%nat then handle_pending_syscall_if_any ft else mret tt) ;;
  ks (update_runtime_for ran_idx) ;;
  s ← kget;
  still_running ←
    (if (ran_idx =? current_task s)%nat
     then t ← ks (task_at ran_idx); mret (bool_decide (t_state t = Running))
     else mret false);
  blocked_by_sleep ← (if still_running : bool then ks (maybe_block_task ran_idx) else mret false);
  (if still_running && negb blocked_by_sleep
   then update_time_slice_for_and_maybe_schedule ran_idx else mret tt) ;;
  kmodify (fun s => {| s with activity := next_activity |}) ;;
  maybe_halt_if_no_user_tasks.

(** The result is what [debug_check_invariants] reports at the end. *)
Definition tick : W A (list string) :=
  s ← kget;
  if should_halt s then mret []
  else
    n ← ks (lift_res (u64_add (tick_count s) 1));
    kmodify (fun s => {| s with tick_count := n |}) ;;
    ks (push_event (TickStarted n)) ;;
    t ← ks (task_at (current_task s));
    let ran_idx := current_task s in
    let '(next_activity, action) := next_activity_and_action (activity s) in
    tick_action action ;;
    s ← kget;
    died ← (if (ran_idx <? num_tasks s)%nat
            then t ← ks (task_at ran_idx); mret (bool_decide (t_state t = Dead))
            else mret false);
    (if died : bool then tick_after_death next_activity
     else tick_finish ran_idx next_activity) ;;
    ks debug_check_invariants.

(** ** Boot *)

Definition new_task (id : TaskId) (st : TaskState) (prio : Z) (aspace : AddressSpaceId) : Task :=
  mkTask id st prio 0 0 aspace None None None None false None None.

(** [for as_idx in FIRST_USER_ASID_INDEX..MAX_TASKS]: a root table for each
    user address space, if a frame is left. *)
Fixpoint init_user_roots (idxs : list nat) (ass : list AddressSpace) :
    ST (PhysicalMemoryManager * A) (list AddressSpace) :=
  match idxs with
  | [] => mret ass
  | i :: rest =>
      '(pm, a) ← get;
      '(mf, pm) ← lift_res (allocate_new_l4_table pm);
      put (pm, a) ;;
      match mf with
      | None => init_user_roots rest ass
      | Some user_root =>
          asp ← at_index ass i;
          ass ← lift_res (write_at ass i {| asp with as_root_page_frame := Some user_root |});
          zoom snd (fun pa a => (pa.1, a)) (init_user_pml4_from_current user_root) ;;
          init_user_roots rest ass
      end
  end.

Definition initial_state (pm : PhysicalMemoryManager) (ass : list AddressSpace) : KernelState :=
  {| phys_mem := pm; tick_count := 0; time_ticks := 0; should_halt := false; activity := Idle;
     address_spaces := ass;
     tasks := [new_task TASK0_ID Running 1 KERNEL_ASID_INDEX;
               new_task TASK1_ID Ready 3 FIRST_USER_ASID_INDEX;
               new_task TASK2_ID Ready 2 (FIRST_USER_ASID_INDEX + 1)%nat];
     num_tasks := MAX_TASKS; current_task := TASK0_INDEX;
     ready_queue := [TASK1_INDEX; TASK2_INDEX; 0%nat]; rq_len := 2;
     wait_queue := replicate MAX_TASKS 0%nat; wq_len := 0;
     event_log := replicate EVENT_LOG_CAP None; event_log_head := 0; event_log_len := 0;
     quantum := 5;
     mem_demo_mapped := replicate MAX_TASKS false; mem_demo_stage := replicate MAX_TASKS 0;
     mem_demo_frame := replicate MAX_TASKS None;
     endpoints := [Endpoint_new 0%nat; Endpoint_new 1%nat];
     demo_msgs_delivered := 0; demo_replies_sent := 0;
     demo_sent_by_task2 := false; demo_sent_by_task1 := false; demo_early_sent_by_task0 := false;
     counters := KernelCounters_new; halt_dumped_no_user_tasks := false |}.

(** [KernelState::new]: the memory map of the bootloader and the architecture
    give the world the kernel starts in. *)
Definition KernelState_new (map : list MemoryRegion) (a : A) : res (World A) :=
  pm ← PhysicalMemoryManager_new map;
  let kernel := {| AddressSpace_new_kernel with as_root_page_frame := Some (Cr3_read a) |} in
  '(ass, (pm, a)) ← init_user_roots (seq FIRST_USER_ASID_INDEX (MAX_TASKS - FIRST_USER_ASID_INDEX))
                      [kernel; AddressSpace_new_user; AddressSpace_new_user] (pm, a);
  '(_, w) ← on_kernel_state_init ft (mkWorld (initial_state pm ass) a true false 0 false);
  Ok w.

(** [bootstrap]: five frames are taken off. *)
Fixpoint bootstrap_loop (n : nat) : K unit :=
  match n with
  | O => mret tt
  | S n =>
      s ← get;
      '(raw, pm) ← lift_res (PhysicalMemoryManager_allocate_frame (phys_mem s));
      put {| s with phys_mem := pm |} ;;
      match raw with
      | Some _ => push_event FrameAllocated ;; bootstrap_loop n
      | None => modify (fun s => {| s with should_halt := true |})
      end
  end.
Definition bootstrap : K unit := bootstrap_loop 5.

(** ** The normal start (kernel/entry.rs)

    [for _ in 0..n { if should_halt { break } tick() }] *)
Fixpoint tick_loop (n : nat) : W A (list string) :=
  match n with
  | O => mret []
  | S n =>
      s ← kget;
      if should_halt s then mret []
      else r ← tick; rs ← tick_loop n; mret (r ++ rs)
  end.

(** [kernel_high_entry] without demo features: the final state, what the checks
    reported, and the events that [dump_events] prints. *)
Definition kernel_high_entry (map : list MemoryRegion) (a : A) :
    res (World A * list string * list LogEvent) :=
  w ← KernelState_new map a;
  '(_, w) ← ks bootstrap w;
  '(reports, w) ← tick_loop 120 w;
  '(_, w) ← ks dump_now w;
  Ok (w, reports, dumped_events (w_ks w)).

(** ** Ring 3 *)

Definition prepare_ring3_loop_current_task : K unit :=
  let t0 := TASK0_INDEX in
  let t1 := TASK1_INDEX in
  s ← get;
  if (num_tasks s <=? t1)%nat then put {| s with should_halt := true |}
  else
    task1 ← task_at t1;
    if decide (t_state task1 = Dead) then put {| s with should_halt := true |}
    else
      (if (t0 <? num_tasks s)%nat then
         task0 ← task_at t0;
         if decide (t_state task0 = Running /\ t0 <> t1)
         then upd_task t0 woken
         else mret tt
       else mret tt) ;;
      modify (fun s => {| s with current_task := t1 |}) ;;
      upd_task t1 running ;;
      remove_from_ready_queue t1 ;;
      mret tt.

Definition mailbox_decode (sysno a0 a1 a2 : Z) : option Syscall :=
  let ep := Z.to_nat a0 in
  if sysno =? 10 then Some (SysIpcRecv ep)
  else if sysno =? 11 then Some (SysIpcSend ep a1)
  else if sysno =? 12 then Some (SysIpcReply ep a1)
  else None.

Definition mailbox_dispatch (sysno a0 a1 a2 : Z) : W A Z :=
  let ring3_task_index := 1%nat in
  let run_decoded :=
    match mailbox_decode sysno a0 a1 a2 with
    | Some sc =>
        s ← kget;
        t ← ks (task_at (current_task s));
        ks (push_event (SyscallIssued (t_id t))) ;;
        handle_syscall ft sc
    | None => mret tt
    end in
  s ← kget;
  if sysno =? 1 then mret (u64_wrapping_add (u64_wrapping_add a0 a1) a2)
  else if sysno =? 2 then mret (tick_count s)
  else if sysno =? 30 then tick ;; s ← kget; mret (tick_count s)
  else if sysno =? 31 then
    if (ring3_task_index <? num_tasks s)%nat then
      t ← ks (task_at ring3_task_index);
      ks (upd_task ring3_task_index (fun t => {| t with t_last_reply := None |})) ;;
      mret (default 0 (t_last_reply t))
    else mret 0
  else if (sysno =? 10) || (sysno =? 11) || (sysno =? 12) then
    (if (ring3_task_index <? num_tasks s)%nat then
       t ← ks (task_at ring3_task_index);
       if decide (t_state t <> Dead)
       then kmodify (fun s => {| s with current_task := ring3_task_index |})
       else mret tt
     else mret tt) ;;
    run_decoded ;;
    mret 0
  else
    let prev_task := current_task s in
    run_decoded ;;
    kmodify (fun s => {| s with current_task := prev_task |}) ;;
    mret 0.

End tick.
