(* ===== verification/Frames.v ===== *)
(** * What the operations leave alone

    Partial correctness by composition: [preserves R m] says that whenever [m]
    returns, [R] holds between the state before and after, in any state
    whatsoever, invariant or not.  For a preorder [R] this is closed under the
    constructs of the monad, so the property of a handler follows from those of
    the calls in it.  [Insensitive R] is the interface to the fields most
    relations ignore; the leaf operations on those fields are proved once. *)

From stdpp Require Import base list option strings.
From Stdlib Require Import ZArith Lia.
From S2P Require Import Prelude Addr AddressSpace FrameAlloc Queues KTypes Endpoint EventLog KState.
From S2P Require Import ArchIface Sched Ipc Kill Demo Syscall Tick.

Definition preserves {S A} (R : S -> S -> Prop) (m : ST S A) : Prop :=
  forall s a s', m s = Ok (a, s') -> R s s'.

Create HintDb frames.

Section preserves.
Context {S : Type} (R : S -> S -> Prop) `{!PreOrder R}.

Lemma preserves_ret {A} (a : A) : preserves R (mret a).
Proof. by intros s b s' [= _ <-]. Qed.
Lemma preserves_get : preserves R get.
Proof. by intros s b s' [= _ <-]. Qed.
Lemma preserves_gets {A} (f : S -> A) : preserves R (gets f).
Proof. by intros s b s' [= _ <-]. Qed.
Lemma preserves_lift {A} (r : res A) : preserves R (lift_res r).
Proof. intros s b s' H. by apply lift_inv in H as [_ ->]. Qed.
Lemma preserves_at_index {A} (l : list A) i : preserves R (at_index l i).
Proof. intros s b s'. unfold at_index. destruct (l !! i); by intros [= _ <-]. Qed.
Lemma preserves_panic {A} p : preserves R (panic_with (A := A) p).
Proof. by intros s b s' H. Qed.
Lemma preserves_modify f : (forall s, R s (f s)) -> preserves R (modify f).
Proof. by intros Hf s b s' [= _ <-]. Qed.
Lemma preserves_bind {A B} (m : ST S A) (f : A -> ST S B) :
  preserves R m -> (forall a, preserves R (f a)) -> preserves R (m ≫= f).
Proof.
  intros Hm Hf s b s' (a & s1 & H1 & H2)%bind_inv. transitivity s1; [by eapply Hm|by eapply Hf].
Qed.
(** [let s = self; ...]: the continuation runs on the state that was read. *)
Lemma preserves_get_bind {B} (f : S -> ST S B) :
  (forall s b s', f s s = Ok (b, s') -> R s s') -> preserves R (get ≫= f).
Proof. intros Hf s b s' H. by eapply Hf. Qed.
Lemma preserves_for_each {A} (l : list A) (body : A -> ST S unit) :
  (forall x, preserves R (body x)) -> preserves R (for_each l body).
Proof.
  intros Hb. induction l as [|x l IH]; [apply preserves_ret|]. by apply preserves_bind.
Qed.
End preserves.

#[export] Hint Resolve preserves_ret preserves_get preserves_gets preserves_lift preserves_at_index
  preserves_panic preserves_for_each : frames.

(** Walk through a handler: a call is closed by its lemma in the database, a
    test by cases. *)
Ltac keeps_call := fail.
Ltac keeps_step :=
  first
  [ solve [simple apply preserves_ret; exact _]
  | solve [eauto 3 with frames typeclass_instances]
  | match goal with
    | |- preserves _ (_ ≫= _) => apply preserves_bind; [exact _| |intros ?]
    | |- preserves _ (if ?b then _ else _) => destruct b
    | |- preserves _ (match ?x with _ => _ end) => destruct x
    | |- preserves _ (for_each _ _) => apply preserves_for_each; [exact _|intros ?]
    end
  | keeps_call ].
Ltac keeps := repeat (cbv zeta beta; keeps_step).

(** Inversion of a run of an operation that returned. *)
Ltac ok_inv H :=
  first [injection H as <- <- | injection H as <- | injection H; clear H; intros; subst].
Ltac run_inv :=
  repeat match goal with
  | H : (_ ≫= _) _ = Ok _ |- _ => apply bind_inv in H as (? & ? & ? & H); cbv beta iota in H
  | H : lift_res _ _ = Ok _ |- _ => apply lift_inv in H as [? ->]
  | H : get _ = Ok _ |- _ => ok_inv H
  | H : mret _ _ = Ok _ |- _ => ok_inv H
  | H : put _ _ = Ok _ |- _ => ok_inv H
  | H : modify _ _ = Ok _ |- _ => ok_inv H
  | H : panic_with _ _ = Ok _ |- _ => discriminate H
  | H : (let '(_, _) := ?x in _) _ = Ok _ |- _ => destruct x
  | H : (if ?b then _ else _) _ = Ok _ |- _ => destruct b eqn:?
  end.

(** From a run of an operation to the operation. *)
Ltac by_operation H :=
  match type of H with ?m _ = Ok _ => match goal with |- ?R _ _ =>
    let HP := fresh in enough (HP : preserves R m) by (by eapply HP); clear H end end.

(** ** Relations on the kernel state that ignore most of it *)

Class Insensitive (R : KernelState -> KernelState -> Prop) := {
  ins_preorder :: PreOrder R;
  ins_endpoints s l : R s {| s with endpoints := l |};
  ins_aspaces s l : R s {| s with address_spaces := l |};
  ins_log s l h n : R s {| s with event_log := l; event_log_head := h; event_log_len := n |};
  ins_phys s pm : R s {| s with phys_mem := pm |};
  ins_stage s l : R s {| s with mem_demo_stage := l |};
  ins_mapped s l : R s {| s with mem_demo_mapped := l |};
  ins_frame s l : R s {| s with mem_demo_frame := l |};
  ins_clock s n m : R s {| s with tick_count := n; time_ticks := m |};
  ins_halt s b h : R s {| s with should_halt := b; halt_dumped_no_user_tasks := h |};
  ins_activity s a : R s {| s with activity := a |};
  ins_demo s n m b1 b2 b0 : R s {| s with demo_msgs_delivered := n; demo_replies_sent := m;
    demo_sent_by_task1 := b1; demo_sent_by_task2 := b2; demo_early_sent_by_task0 := b0 |} }.

Section leaves.
Context (R : KernelState -> KernelState -> Prop) `{!Insensitive R}.

Lemma preserves_task_at i : preserves R (task_at i).
Proof. unfold task_at. keeps. Qed.
Lemma preserves_endpoint_at i : preserves R (endpoint_at i).
Proof. unfold endpoint_at. keeps. Qed.
Lemma preserves_address_space_at i : preserves R (address_space_at i).
Proof. unfold address_space_at. keeps. Qed.
Lemma preserves_set_endpoint i e : preserves R (set_endpoint i e).
Proof. intros s a s' H. unfold set_endpoint in H. run_inv. apply ins_endpoints. Qed.
Lemma preserves_with_endpoint {A} i (f : Endpoint -> res (A * Endpoint)) : preserves R (with_endpoint i f).
Proof.
  unfold with_endpoint. apply preserves_bind; [exact _|apply preserves_endpoint_at|intros e].
  apply preserves_bind; [exact _|apply preserves_lift; exact _|intros [a e']].
  apply preserves_bind; [exact _|apply preserves_set_endpoint|intros []]. apply preserves_ret, _.
Qed.
Lemma preserves_set_address_space i a : preserves R (set_address_space i a).
Proof. intros s b s' H. unfold set_address_space in H. run_inv. apply ins_aspaces. Qed.
Lemma preserves_set_stage i v : preserves R (set_mem_demo_stage i v).
Proof. intros s b s' H. unfold set_mem_demo_stage in H. run_inv. apply ins_stage. Qed.
Lemma preserves_set_mapped i v : preserves R (set_mem_demo_mapped i v).
Proof. intros s b s' H. unfold set_mem_demo_mapped in H. run_inv. apply ins_mapped. Qed.
Lemma preserves_set_frame i v : preserves R (set_mem_demo_frame i v).
Proof. intros s b s' H. unfold set_mem_demo_frame in H. run_inv. apply ins_frame. Qed.
Lemma preserves_push_event ev : preserves R (push_event ev).
Proof.
  intros s b s' H. unfold push_event in H. run_inv.
  destruct (push_event_ret ev s) as (l & h & n & ->). apply ins_log.
Qed.
Lemma preserves_count_delivery ep i : preserves R (count_demo_delivery ep i).
Proof.
  apply preserves_modify. intros s. case_match; [|reflexivity].
  apply (ins_demo s _ (demo_replies_sent s) (demo_sent_by_task1 s) (demo_sent_by_task2 s)
    (demo_early_sent_by_task0 s)).
Qed.
Lemma preserves_count_reply ep i : preserves R (count_demo_reply ep i).
Proof.
  apply preserves_modify. intros s. case_match; [|reflexivity].
  apply (ins_demo s (demo_msgs_delivered s) _ (demo_sent_by_task1 s) (demo_sent_by_task2 s)
    (demo_early_sent_by_task0 s)).
Qed.
Lemma preserves_kernel_root : preserves R kernel_root_frame.
Proof. unfold kernel_root_frame. keeps. apply preserves_address_space_at. Qed.
Lemma preserves_contains i : preserves R (ready_queue_contains i).
Proof. unfold ready_queue_contains. keeps. Qed.
Lemma preserves_remove_endpoints i : preserves R (remove_task_from_endpoints i).
Proof. intros s b s' H. unfold remove_task_from_endpoints in H. run_inv. apply ins_endpoints. Qed.
Lemma preserves_get_frame i : preserves R (get_or_alloc_demo_frame i).
Proof.
  unfold get_or_alloc_demo_frame. apply preserves_get_bind. intros s a s' Hrun.
  destruct (num_tasks s <=? i); [by run_inv|].
  apply bind_inv in Hrun as (mf & s1 & Hm & Hrun). apply (preserves_at_index eq) in Hm as <-.
  destruct mf; [by run_inv|]. apply bind_inv in Hrun as ([raw pm] & s1 & Hl & Hrun). apply lift_inv in Hl as [_ ->].
  apply bind_inv in Hrun as ([] & s1 & Hp & Hrun). ok_inv Hp.
  etransitivity; [|by_operation Hrun; destruct raw]; [apply ins_phys| |keeps].
  keeps; [apply preserves_push_event|apply preserves_set_frame].
Qed.
Lemma preserves_apply_logical i act : preserves R (apply_logical i act).
Proof. unfold apply_logical. keeps; [apply preserves_address_space_at|apply preserves_set_address_space]. Qed.

End leaves.

#[export] Hint Resolve ins_preorder preserves_task_at preserves_endpoint_at preserves_address_space_at
  preserves_set_endpoint preserves_with_endpoint preserves_set_address_space preserves_set_stage
  preserves_set_mapped preserves_set_frame preserves_push_event preserves_count_delivery
  preserves_count_reply preserves_kernel_root preserves_contains preserves_remove_endpoints
  preserves_get_frame preserves_apply_logical : frames.

(** ** In the world *)

(** A relation of the kernel states inside the worlds. *)
Definition on_ks {A} (R : KernelState -> KernelState -> Prop) (w w' : World A) : Prop := R (w_ks w) (w_ks w').

#[export] Instance on_ks_preorder {A} R `{!PreOrder R} : PreOrder (@on_ks A R).
Proof. split; [intros w; unfold on_ks; reflexivity|intros w1 w2 w3; unfold on_ks; by etransitivity]. Qed.

Lemma ks_inv {A X} (m : K X) (w : World A) a w' :
  ks m w = Ok (a, w') -> exists s', m (w_ks w) = Ok (a, s') /\ w' = {| w with w_ks := s' |}.
Proof. unfold ks, zoom. destruct (m (w_ks w)) as [[? s']|] eqn:E; [|done]. intros [= <- <-]. eauto. Qed.

Lemma arch_inv {A X} (m : ST A X) (w : World A) a w' :
  arch m w = Ok (a, w') -> exists a', w' = {| w with w_arch := a' |}.
Proof. unfold arch, zoom. destruct (m (w_arch w)) as [[? a']|]; [|done]. intros [= _ <-]. eauto. Qed.

Section world.
Context {A : Type} (R : KernelState -> KernelState -> Prop) `{!Insensitive R}.

Lemma preserves_ks {X} (m : K X) : preserves R m -> preserves (@on_ks A R) (ks m).
Proof. intros Hm w a w' (s' & H & ->)%ks_inv. by eapply Hm. Qed.
Lemma preserves_arch {X} (m : ST A X) : preserves (on_ks R) (arch m).
Proof. intros w a w' (a' & ->)%arch_inv. unfold on_ks. reflexivity. Qed.
Lemma preserves_phys_mem {X} (m : ST (PhysicalMemoryManager * A) X) : preserves (on_ks R) (arch_with_phys_mem m).
Proof.
  intros w a w' H. unfold arch_with_phys_mem, zoom in H. destruct (m _) as [[? [pm a']]|]; [|done].
  injection H as <- <-. apply ins_phys.
Qed.
Lemma preserves_vga b : preserves (@on_ks A R) (set_vga_enabled b).
Proof. apply preserves_modify. intros w. unfold on_ks. reflexivity. Qed.
Lemma preserves_kget : preserves (@on_ks A R) kget.
Proof. apply preserves_gets, _. Qed.
Lemma preserves_kmodify f : (forall s, R s (f s)) -> preserves (@on_ks A R) (kmodify f).
Proof. intros Hf. by apply preserves_ks, preserves_modify. Qed.

End world.

#[export] Hint Resolve preserves_ks preserves_arch preserves_phys_mem preserves_vga preserves_kget : frames.
#[export] Hint Extern 1 (preserves _ (kmodify _)) =>
  (apply preserves_kmodify; intros ?;
   first [apply ins_clock | apply ins_activity | apply ins_halt | apply ins_phys | apply ins_demo]) : frames.

Ltac keeps_call ::= match goal with |- preserves _ (ks _) => apply preserves_ks end.

Lemma preserves_apply_both {A} `{ArchOps A} R `{!Insensitive R} i act : preserves (@on_ks A R) (apply_both i act).
Proof. unfold apply_both, apply_arch. keeps. Qed.
#[export] Hint Resolve preserves_apply_both : frames.

(** The same for a goal about the kernel states of the worlds. *)
Ltac by_world H :=
  match type of H with _ ?w = Ok (_, ?w') => match goal with |- ?R _ _ =>
    change (on_ks R w w'); by_operation H end end.
