(* ===== verification/IpcSpec.v ===== *)
(** * The abstract specification of IPC (docs/IPC.md)

    The specification knows no queues: the state is what each task does with
    respect to IPC, with its mailboxes, and which endpoints are closed.  Which
    of several waiting senders is served is left open ("the order is
    abstracted"). *)

From stdpp Require Import base list option.
From Stdlib Require Import ZArith.
From S2P Require Import Prelude KTypes Endpoint KState.

Inductive Status :=
  | Runnable
  | Receiving (ep : EndpointId)
  | Sending (ep : EndpointId) (msg : Z)
  | AwaitingReply (partner : TaskId) (ep : EndpointId)
  | Gone.

Record ATask := mkATask {
  a_status : Status;
  a_msg : option Z;
  a_reply : option Z }.

Record AIpc := mkAIpc {
  a_tasks : list ATask;
  a_closed : list bool }.

Inductive ipc_call :=
  | CallRecv (ep : EndpointId)
  | CallSend (ep : EndpointId) (msg : Z)
  | CallReply (ep : EndpointId) (msg : Z).

Definition call_ep (c : ipc_call) : EndpointId :=
  match c with CallRecv ep | CallSend ep _ | CallReply ep _ => ep end.

Definition id_of (i : nat) : TaskId := (Z.of_nat i + 1)%Z.

Definition nobody (p : Status -> Prop) (ts : list ATask) : Prop :=
  forall j t, ts !! j = Some t -> ~ p (a_status t).

(** [ipc_spec i c σ σ']: the call [c] of task [i]. *)
Inductive ipc_spec (i : nat) (ti : ATask) : ipc_call -> AIpc -> AIpc -> Prop :=
  (** rejected at the entry *)
  | spec_bad_endpoint c σ :
      MAX_ENDPOINTS <= call_ep c -> ipc_spec i ti c σ σ
  | spec_kernel c ts cl :
      call_ep c < MAX_ENDPOINTS -> i = TASK0_INDEX ->
      ipc_spec i ti c (mkAIpc ts cl)
        (mkAIpc (<[i := {| ti with a_reply := Some IPC_ERR_DEAD_PARTNER |}]> ts) cl)
  | spec_closed c ts cl :
      i <> TASK0_INDEX -> cl !! call_ep c = Some true ->
      ipc_spec i ti c (mkAIpc ts cl)
        (mkAIpc (<[i := {| ti with a_reply := Some IPC_ERR_ENDPOINT_CLOSED |}]> ts) cl)
  (** receive: take the message of a waiting sender, who then awaits the reply *)
  | spec_recv_deliver ep m j tj ts cl :
      i <> TASK0_INDEX -> cl !! ep = Some false -> j <> i ->
      ts !! j = Some tj -> a_status tj = Sending ep m ->
      ipc_spec i ti (CallRecv ep) (mkAIpc ts cl)
        (mkAIpc (<[i := {| ti with a_msg := Some m |}]>
           (<[j := {| tj with a_status := AwaitingReply (id_of i) ep |}]> ts)) cl)
  | spec_recv_wait ep ts cl :
      i <> TASK0_INDEX -> cl !! ep = Some false ->
      nobody (fun st => exists m, st = Sending ep m) ts -> nobody (.= Receiving ep) ts ->
      ipc_spec i ti (CallRecv ep) (mkAIpc ts cl)
        (mkAIpc (<[i := {| ti with a_status := Receiving ep |}]> ts) cl)
  | spec_recv_busy ep ts cl j tj :
      i <> TASK0_INDEX -> cl !! ep = Some false ->
      nobody (fun st => exists m, st = Sending ep m) ts ->
      ts !! j = Some tj -> a_status tj = Receiving ep ->
      ipc_spec i ti (CallRecv ep) (mkAIpc ts cl)
        (mkAIpc (<[i := {| ti with a_reply := Some IPC_ERR_RECV_ALREADY_WAITING |}]> ts) cl)
  (** send: hand the message to the waiting receiver, or wait for one *)
  | spec_send_deliver ep m j tj ts cl :
      i <> TASK0_INDEX -> cl !! ep = Some false -> j <> i ->
      ts !! j = Some tj -> a_status tj = Receiving ep ->
      ipc_spec i ti (CallSend ep m) (mkAIpc ts cl)
        (mkAIpc (<[i := {| ti with a_status := AwaitingReply (id_of j) ep |}]>
           (<[j := {| tj with a_status := Runnable; a_msg := Some m |}]> ts)) cl)
  | spec_send_wait ep m ts cl :
      i <> TASK0_INDEX -> cl !! ep = Some false -> nobody (.= Receiving ep) ts ->
      ipc_spec i ti (CallSend ep m) (mkAIpc ts cl)
        (mkAIpc (<[i := {| ti with a_status := Sending ep m |}]> ts) cl)
  (** reply: wake a task that awaits it *)
  | spec_reply_deliver ep m j tj ts cl :
      i <> TASK0_INDEX -> cl !! ep = Some false -> j <> i ->
      ts !! j = Some tj -> a_status tj = AwaitingReply (id_of i) ep ->
      ipc_spec i ti (CallReply ep m) (mkAIpc ts cl)
        (mkAIpc (<[j := {| tj with a_status := Runnable; a_reply := Some m |}]> ts) cl)
  | spec_reply_none ep m ts cl :
      i <> TASK0_INDEX -> cl !! ep = Some false ->
      nobody (.= AwaitingReply (id_of i) ep) ts ->
      ipc_spec i ti (CallReply ep m) (mkAIpc ts cl) (mkAIpc ts cl).

(** ** The death of a task

    The endpoints it owns are closed, and whoever waits on one of them is
    released with an error; so is whoever else awaits its reply. *)

Definition mark_closed (eps : list EndpointId) (l : list bool) : list bool :=
  foldl (fun l e => <[e := true]> l) l eps.

Definition released (err : Z) (t : ATask) : ATask := mkATask Runnable (a_msg t) (Some err).

Definition kill_view (id : TaskId) (owned : list EndpointId) (t : ATask) : ATask :=
  match a_status t with
  | Receiving e | Sending e _ =>
      if decide (e ∈ owned) then released IPC_ERR_ENDPOINT_CLOSED t else t
  | AwaitingReply p e =>
      if decide (e ∈ owned) then released IPC_ERR_ENDPOINT_CLOSED t
      else if decide (p = id) then released IPC_ERR_DEAD_PARTNER t else t
  | Runnable | Gone => t
  end.

Definition kill_spec (i : nat) (owned : list EndpointId) (σ : AIpc) : AIpc :=
  mkAIpc (imap (fun j t => if decide (j = i) then mkATask Gone None None
                           else kill_view (id_of i) owned t) (a_tasks σ))
         (mark_closed owned (a_closed σ)).

(** ** The abstraction of the kernel state *)

Definition status (t : Task) : Status :=
  match t_state t with
  | Dead => Gone
  | Ready | Running => Runnable
  | Blocked =>
      match t_blocked_reason t with
      | Some (IpcRecv e) => Receiving e
      | Some (IpcSend e) =>
          match t_pending_send_msg t with Some m => Sending e m | None => Runnable end
      | Some (IpcReply p e) => AwaitingReply p e
      | Some Sleep | None => Runnable
      end
  end.

Definition view (t : Task) : ATask := mkATask (status t) (t_last_msg t) (t_last_reply t).

Definition abs (s : KernelState) : AIpc :=
  mkAIpc (view <$> tasks s) (is_closed <$> endpoints s).

Lemma view_insert (ts : list Task) i t : view <$> <[i := t]> ts = <[i := view t]> (view <$> ts).
Proof. apply list_fmap_insert. Qed.

(** An update the specification does not see. *)
Lemma view_insert_same (ts : list Task) i t t' :
  ts !! i = Some t -> view t' = view t -> view <$> <[i := t']> ts = view <$> ts.
Proof. intros Ht Hv. rewrite view_insert, Hv. apply list_insert_id. by rewrite list_lookup_fmap, Ht. Qed.
