(* ===== verification/Invariant.v ===== *)
(** * The invariant of the kernel

    What holds between the operations of the kernel: the task states, the
    ready queue and the endpoint queues describe the same situation.  The
    queues are redundant: who is in which queue is determined by the states and
    blocking reasons of the tasks. *)

From stdpp Require Import base list option sets gmap.
From Stdlib Require Import ZArith Lia.
From S2P Require Import Prelude Addr AddressSpace FrameAlloc Queues KTypes Endpoint EventLog KState.
From S2P Require Import ArchIface Sched Ipc Kill Demo Syscall Tick IpcSpec.

(** ** Tasks *)

Definition reason_ep (r : BlockedReason) : option EndpointId :=
  match r with
  | Sleep => None
  | IpcRecv e | IpcSend e | IpcReply _ e => Some e
  end.

Definition reason_of (ts : list Task) (i : nat) : option BlockedReason :=
  ts !! i ≫= t_blocked_reason.

(** The system calls a user task may have pending: a page inside the user
    slot, mapped for user access. *)
Definition syscall_ok (sc : Syscall) : Prop :=
  match sc with
  | SysPageMap p fl => page_ok p /\ user_flags fl
  | SysPageUnmap p => page_ok p
  | _ => True
  end.

(** What holds of task [i] by itself: task 0 is the kernel task, which never
    blocks, dies or makes a system call. *)
Record task_ok (i : nat) (t : Task) : Prop := {
  tk_id : t_id t = (Z.of_nat i + 1)%Z;
  tk_as : t_address_space_id t = i;
  tk_blocked : t_state t = Blocked <-> is_Some (t_blocked_reason t);
  tk_reason r : t_blocked_reason t = Some r ->
    i <> TASK0_INDEX /\ exists e, reason_ep r = Some e /\ e < MAX_ENDPOINTS;
  tk_send e : t_blocked_reason t = Some (IpcSend e) -> is_Some (t_pending_send_msg t);
  tk_dead : t_state t = Dead -> i <> TASK0_INDEX /\ t_last_msg t = None /\
    t_last_reply t = None /\ t_pending_send_msg t = None /\ t_pending_syscall t = None;
  tk_pending sc : t_pending_syscall t = Some sc -> i <> TASK0_INDEX /\ syscall_ok sc }.

(** ** Endpoints

    [ρ i] is the reason task [i] is blocked for. *)
Record ep_ok (ρ : nat -> option BlockedReason) (e : EndpointId) (ep : Endpoint) : Prop := {
  eo_wf : Endpoint_wf ep;
  eo_id : ep_id ep = e;
  eo_sq : NoDup (senders ep);
  eo_rq : NoDup (reply_waiters ep);
  eo_recv i : recv_waiter ep = Some i <-> ρ i = Some (IpcRecv e);
  eo_send i : i ∈ senders ep <-> ρ i = Some (IpcSend e);
  eo_reply i : i ∈ reply_waiters ep <-> exists p, ρ i = Some (IpcReply p e) }.

(** ** The scheduler and IPC part

    While a task is being killed, others may still wait for its reply, and
    while an endpoint is being closed, tasks still wait on it: the two
    exceptions that [kill_task] and [close_endpoint_and_rescue_waiters] end. *)
Record slack := mkSlack { sl_dead : option TaskId; sl_closing : option EndpointId }.
Definition strict : slack := mkSlack None None.

Record CoreInv (x : slack) (ts : list Task) (cur : nat) (q : list nat) (eps : list Endpoint) : Prop := {
  ci_len : length ts = MAX_TASKS;
  ci_cur : cur < MAX_TASKS;
  ci_task i t : ts !! i = Some t -> task_ok i t;
  ci_running i : state_of ts i = Some Running -> i = cur;
  ci_nodup : NoDup q;
  ci_ready i : i ∈ q <-> i <> TASK0_INDEX /\ state_of ts i = Some Ready;
  ci_eps_len : length eps = MAX_ENDPOINTS;
  ci_eps e ep : eps !! e = Some ep -> ep_ok (reason_of ts) e ep;
  (** nobody waits on a closed endpoint *)
  ci_closed e ep i r : eps !! e = Some ep -> is_closed ep = true -> sl_closing x <> Some e ->
    reason_of ts i = Some r -> reason_ep r <> Some e;
  (** a task that waits for a reply waits for another live user task *)
  ci_partner i p e : reason_of ts i = Some (IpcReply p e) -> sl_dead x <> Some p ->
    exists j tj, ts !! j = Some tj /\ t_id tj = p /\ j <> i /\ j <> TASK0_INDEX /\
      t_state tj <> Dead }.

(** ** Lemmas on the views *)

Lemma state_of_insert ts i t' j :
  i < length ts ->
  state_of (<[i := t']> ts) j = if decide (j = i) then Some (t_state t') else state_of ts j.
Proof.
  intros H. unfold state_of. destruct (decide (j = i)) as [->|].
  - by rewrite list_lookup_insert_eq.
  - by rewrite list_lookup_insert_ne.
Qed.

Lemma reason_of_insert ts i t' j :
  i < length ts ->
  reason_of (<[i := t']> ts) j = if decide (j = i) then t_blocked_reason t' else reason_of ts j.
Proof.
  intros H. unfold reason_of. destruct (decide (j = i)) as [->|].
  - by rewrite list_lookup_insert_eq.
  - by rewrite list_lookup_insert_ne.
Qed.

Lemma state_of_lookup ts i t : ts !! i = Some t -> state_of ts i = Some (t_state t).
Proof. unfold state_of. by intros ->. Qed.

Lemma reason_of_lookup ts i t : ts !! i = Some t -> reason_of ts i = t_blocked_reason t.
Proof. unfold reason_of. by intros ->. Qed.

(** An endpoint is not affected by changes that are not about it. *)
Lemma ep_ok_ext ρ ρ' e ep :
  (forall i r, reason_ep r = Some e -> ρ i = Some r <-> ρ' i = Some r) ->
  ep_ok ρ e ep -> ep_ok ρ' e ep.
Proof.
  intros Hext []. split; try done.
  - intros i. by rewrite <- Hext.
  - intros i. by rewrite <- Hext.
  - intros i. rewrite eo_reply0. apply exist_proper. intros p. by apply Hext.
Qed.

Lemma ep_ok_other ρ ρ' i e ep :
  (forall j, j <> i -> ρ' j = ρ j) ->
  (forall r, ρ i = Some r -> reason_ep r <> Some e) ->
  (forall r, ρ' i = Some r -> reason_ep r <> Some e) ->
  ep_ok ρ e ep -> ep_ok ρ' e ep.
Proof.
  intros Hj H1 H2. apply ep_ok_ext. intros j r Hr. destruct (decide (j = i)) as [->|Hne].
  - split; intros ?; exfalso; [by eapply H1|by eapply H2].
  - by rewrite Hj.
Qed.

Section core.
Context (x : slack) (ts : list Task) (cur : nat) (q : list nat) (eps : list Endpoint).
Context (Hci : CoreInv x ts cur q eps).

Lemma core_lookup i : i < MAX_TASKS -> exists t, ts !! i = Some t.
Proof. intros. apply lookup_lt_is_Some_2. rewrite (ci_len _ _ _ _ _ Hci). done. Qed.

Lemma core_endpoint e : e < MAX_ENDPOINTS -> exists ep, eps !! e = Some ep /\ ep_ok (reason_of ts) e ep.
Proof.
  intros. destruct (lookup_lt_is_Some_2 eps e) as [ep Hep]; [by rewrite (ci_eps_len _ _ _ _ _ Hci)|].
  exists ep. split; [done|]. by apply (ci_eps _ _ _ _ _ Hci).
Qed.

Lemma core_q_bound i : i ∈ q -> i < MAX_TASKS.
Proof.
  intros [_ Hs]%(ci_ready _ _ _ _ _ Hci). unfold state_of in Hs.
  destruct (ts !! i) eqn:Ht; [|done]. apply lookup_lt_Some in Ht. by rewrite <- (ci_len _ _ _ _ _ Hci).
Qed.

(** The queue has room for every task that is not in it. *)
Lemma core_q_room i : i < MAX_TASKS -> i ∉ q -> length q < MAX_TASKS.
Proof.
  intros Hi Hni. apply (nodup_room q i); [apply Hci|apply core_q_bound|done..].
Qed.

Lemma core_not_queued i t : ts !! i = Some t -> t_state t <> Ready -> i ∉ q.
Proof.
  intros Ht Hs [_ Hr]%(ci_ready _ _ _ _ _ Hci). rewrite (state_of_lookup _ _ _ Ht) in Hr. congruence.
Qed.

Lemma core_reason_blocked i r t :
  ts !! i = Some t -> t_blocked_reason t = Some r -> t_state t = Blocked.
Proof. intros Ht Hr. apply (tk_blocked _ _ (ci_task _ _ _ _ _ Hci _ _ Ht)). by rewrite Hr. Qed.

Lemma core_not_blocked_reason i t :
  ts !! i = Some t -> t_state t <> Blocked -> t_blocked_reason t = None.
Proof.
  intros Ht Hs. destruct (t_blocked_reason t) eqn:Hr; [|done].
  destruct Hs. by eapply core_reason_blocked.
Qed.

(** Replacing one task, with the queues updated to match. *)
Lemma core_update i t t' q' eps' :
  ts !! i = Some t -> task_ok i t' -> (t_state t' = Running -> i = cur) ->
  NoDup q' -> (forall j, j <> i -> j ∈ q' <-> j ∈ q) ->
  (i ∈ q' <-> i <> TASK0_INDEX /\ t_state t' = Ready) ->
  length eps' = MAX_ENDPOINTS ->
  (forall e ep, eps' !! e = Some ep -> ep_ok (reason_of (<[i := t']> ts)) e ep) ->
  (forall e ep, eps' !! e = Some ep -> is_closed ep = true -> sl_closing x <> Some e ->
     (exists ep0, eps !! e = Some ep0 /\ is_closed ep0 = true) /\
     forall r, t_blocked_reason t' = Some r -> reason_ep r <> Some e) ->
  (t_state t' = Dead -> sl_dead x <> Some (t_id t) ->
     forall j e, reason_of ts j <> Some (IpcReply (t_id t) e)) ->
  (forall p e, t_blocked_reason t' = Some (IpcReply p e) -> sl_dead x <> Some p ->
     exists j tj, ts !! j = Some tj /\ t_id tj = p /\ j <> i /\ j <> TASK0_INDEX /\
       t_state tj <> Dead) ->
  CoreInv x (<[i := t']> ts) cur q' eps'.
Proof.
  intros Ht Hok Hrun Hnd Hq Hqi Hlen Heps Hcl Hdead Hrep.
  pose proof (lookup_lt_Some _ _ _ Ht) as Hi.
  split; try done.
  - rewrite length_insert. apply Hci.
  - apply Hci.
  - intros j tj [(<- & <- & _)|[Hne Hj]]%list_lookup_insert_Some; [done|by apply Hci].
  - intros j. rewrite state_of_insert by done. case_decide as Hd.
    + intros [= Hs]. subst. by apply Hrun.
    + apply Hci.
  - intros j. rewrite state_of_insert by done. case_decide as Hd.
    + subst. by rewrite Hqi, (inj_iff Some).
    + rewrite Hq by done. apply Hci.
  - intros e ep j r Hep Hc Hx. destruct (Hcl e ep Hep Hc Hx) as [(ep0 & Hep0 & Hc0) Hi'].
    rewrite reason_of_insert by done. case_decide; [by auto|].
    intros Hr. by eapply (ci_closed _ _ _ _ _ Hci).
  - intros j p e. rewrite reason_of_insert by done.
    assert (Hlift : forall k tk, ts !! k = Some tk -> t_id tk = p -> k <> TASK0_INDEX -> k <> j ->
      t_state tk <> Dead -> (k = i -> t_state t' <> Dead) ->
      exists j0 tj, <[i := t']> ts !! j0 = Some tj /\ t_id tj = p /\ j0 <> j /\
        j0 <> TASK0_INDEX /\ t_state tj <> Dead).
    { intros k tk Hk Hid Hk0 Hkj Hkd Hki. destruct (decide (k = i)) as [->|Hne].
      - exists i, t'. rewrite list_lookup_insert_eq by done. split; [done|].
        split; [|auto]. rewrite (tk_id _ _ Hok), <- Hid. symmetry.
        apply (ci_task _ _ _ _ _ Hci _ _ Hk).
      - exists k, tk. by rewrite list_lookup_insert_ne. }
    case_decide as Hd.
    + subst. intros Hr Hx. destruct (Hrep p e Hr Hx) as (k & tk & Hk & Hid & Hki & Hk0 & Hkd).
      by eapply Hlift.
    + intros Hr Hx.
      destruct (ci_partner _ _ _ _ _ Hci j p e Hr Hx) as (k & tk & Hk & Hid & Hkj & Hk0 & Hkd).
      eapply Hlift; try done. intros -> Hd'. simplify_eq. by eapply Hdead.
Qed.

Lemma core_eps_same_reason i t t' :
  ts !! i = Some t -> t_blocked_reason t' = t_blocked_reason t ->
  forall e ep, eps !! e = Some ep -> ep_ok (reason_of (<[i := t']> ts)) e ep.
Proof.
  intros Ht Hre e ep Hep. apply (ci_eps _ _ _ _ _ Hci) in Hep. revert Hep. apply ep_ok_ext.
  intros j r _. rewrite reason_of_insert by (by eapply lookup_lt_Some).
  destruct (decide (j = i)) as [->|]; [|done]. by rewrite Hre, (reason_of_lookup _ _ _ Ht).
Qed.

(** Changes of a task that the queues do not see. *)
Lemma core_benign i t t' :
  ts !! i = Some t -> task_ok i t' -> t_state t' = t_state t ->
  t_blocked_reason t' = t_blocked_reason t -> CoreInv x (<[i := t']> ts) cur q eps.
Proof.
  intros Ht Hok Hst Hre. pose proof (lookup_lt_Some _ _ _ Ht) as Hi. eapply core_update; try done.
  - rewrite Hst. intros Hr. apply (ci_running _ _ _ _ _ Hci). by rewrite (state_of_lookup _ _ _ Ht), Hr.
  - apply Hci.
  - by rewrite Hst, (ci_ready _ _ _ _ _ Hci), (state_of_lookup _ _ _ Ht), (inj_iff Some).
  - apply Hci.
  - by eapply core_eps_same_reason.
  - rewrite Hre, <- (reason_of_lookup _ _ _ Ht). intros e ep Hep Hc Hx. split; [by eauto|].
    intros r Hr. by eapply (ci_closed _ _ _ _ _ Hci).
  - rewrite Hst. intros Hd Hx j e Hr.
    destruct (ci_partner _ _ _ _ _ Hci j _ e Hr Hx) as (k & tk & Hk & Hid & _ & _ & Hkd).
    assert (k = i) as ->; [|by simplify_eq].
    apply (ci_task _ _ _ _ _ Hci) in Hk as []. apply (ci_task _ _ _ _ _ Hci) in Ht as []. lia.
  - rewrite Hre. intros p e Hr Hx. apply (ci_partner _ _ _ _ _ Hci i p e); [|done].
    by rewrite (reason_of_lookup _ _ _ Ht).
Qed.

End core.

(** ** Task updates keep [task_ok] *)

Lemma task_ok_awake i t t' :
  task_ok i t -> t_state t <> Dead -> t_id t' = t_id t ->
  t_address_space_id t' = t_address_space_id t ->
  t_state t' = Ready \/ t_state t' = Running -> t_blocked_reason t' = None ->
  t_pending_syscall t' = t_pending_syscall t -> task_ok i t'.
Proof.
  intros [] Hd Hid Has Hst Hre Hp. split; rewrite ?Hid, ?Has, ?Hre, ?Hp; try done.
  - split; [by destruct Hst as [-> | ->]|by intros []].
  - by destruct Hst as [-> | ->].
Qed.

Lemma task_ok_woken i t : task_ok i t -> t_state t <> Dead -> task_ok i (woken t).
Proof. intros. eapply task_ok_awake; eauto. Qed.

Lemma task_ok_running i t : task_ok i t -> t_state t <> Dead -> task_ok i (running t).
Proof. intros. eapply task_ok_awake; eauto. Qed.

Lemma task_ok_blocked i t t' r e :
  task_ok i t -> i <> TASK0_INDEX -> t_id t' = t_id t ->
  t_address_space_id t' = t_address_space_id t -> t_state t' = Blocked ->
  t_blocked_reason t' = Some r -> t_pending_syscall t' = t_pending_syscall t ->
  reason_ep r = Some e -> e < MAX_ENDPOINTS ->
  (forall e', r = IpcSend e' -> is_Some (t_pending_send_msg t')) -> task_ok i t'.
Proof.
  intros [] H0 Hid Has Hst Hre Hp He Hb Hs. split; rewrite ?Hid, ?Has, ?Hst, ?Hre, ?Hp; try done.
  - intros r' [= <-]. eauto.
  - intros e' [= ->]. eauto.
Qed.

(** ** Preemption and the choice of the next task *)

Lemma core_set_cur x ts cur cur' q eps :
  CoreInv x ts cur q eps -> cur' < MAX_TASKS -> (forall i, state_of ts i <> Some Running) ->
  CoreInv x ts cur' q eps.
Proof. intros [] ? Hnr. split; try done. intros i Hi. by destruct (Hnr i). Qed.

Section preempt.
Context (x : slack) (s : KernelState) (Hci : CoreInv x (tasks s) (current_task s) (rq s) (endpoints s)).

Lemma core_filter_ready : filter (is_ready (tasks s)) (rq s) = rq s.
Proof.
  apply filter_true_id. intros i [_ Hi]%(ci_ready _ _ _ _ _ Hci). by apply bool_decide_eq_true.
Qed.

Lemma core_preempt : CoreInv x (preempted s) (current_task s) (candidates s) (endpoints s).
Proof.
  destruct (core_lookup _ _ _ _ _ Hci (current_task s)) as [t Ht]; [apply Hci|].
  pose proof (ci_task _ _ _ _ _ Hci _ _ Ht) as Hok. pose proof (lookup_lt_Some _ _ _ Ht) as Hlt.
  unfold preempted, candidates. rewrite Ht, core_filter_ready, (state_of_lookup _ _ _ Ht).
  destruct (decide (t_state t = Running)) as [Hr|Hr].
  2: { rewrite bool_decide_false by congruence. simpl. by rewrite app_nil_r. }
  rewrite bool_decide_true by congruence. simpl.
  pose proof (core_not_queued _ _ _ _ _ Hci _ _ Ht ltac:(congruence)) as Hni.
  eapply core_update; try done.
  - apply task_ok_woken; [done|congruence].
  - destruct (Nat.eqb_spec (current_task s) TASK0_INDEX); simpl; [rewrite app_nil_r; apply Hci|].
    apply NoDup_app. split; [apply Hci|]. split; [|apply NoDup_singleton].
    by intros y Hy ->%list_elem_of_singleton.
  - intros j Hj. destruct (negb _); set_solver.
  - destruct (Nat.eqb_spec (current_task s) TASK0_INDEX); simpl; set_solver.
  - apply Hci.
  - eapply (core_eps_same_reason _ _ _ _ _ Hci); [done|].
    rewrite (core_not_blocked_reason _ _ _ _ _ Hci _ _ Ht) by congruence. done.
  - intros e ep Hep Hc Hx. split; [by eauto|done].
Qed.

Lemma preempt_no_running i : state_of (preempted s) i <> Some Running.
Proof.
  intros Hi. pose proof (ci_running _ _ _ _ _ core_preempt i Hi) as ->.
  destruct (core_lookup _ _ _ _ _ Hci (current_task s)) as [t Ht]; [apply Hci|].
  revert Hi. unfold preempted. rewrite Ht. destruct (decide (t_state t = Running)).
  - rewrite state_of_insert, decide_True by (done || by eapply lookup_lt_Some). done.
  - rewrite (state_of_lookup _ _ _ Ht). congruence.
Qed.

End preempt.

(** The chosen task, or the idle task when there is none to choose, is ready. *)
Lemma core_run_ready x ts cur q eps i t q' :
  CoreInv x ts cur q eps -> (forall j, state_of ts j <> Some Running) -> ts !! i = Some t ->
  (if decide (q = []) then i = TASK0_INDEX /\ q' = [] else q ≡ₚ i :: q') ->
  t_state t = Ready.
Proof.
  intros Hci Hnr Ht Hq. pose proof (ci_task _ _ _ _ _ Hci _ _ Ht) as Hok.
  destruct (decide (q = [])) as [->|Hne].
  - destruct Hq as [-> ->]. pose proof (Hnr TASK0_INDEX) as Hn.
    rewrite (state_of_lookup _ _ _ Ht) in Hn.
    destruct (t_state t) eqn:Hs; [done|done| |].
    + apply (tk_blocked _ _ Hok) in Hs as [r Hr]. by destruct (tk_reason _ _ Hok _ Hr).
    + by destruct (tk_dead _ _ Hok Hs).
  - assert (i ∈ q) as [_ Hs]%(ci_ready _ _ _ _ _ Hci) by (rewrite Hq; by left).
    rewrite (state_of_lookup _ _ _ Ht) in Hs. congruence.
Qed.

(** Running it. *)
Lemma core_run x ts cur q eps i t q' :
  CoreInv x ts cur q eps -> (forall j, state_of ts j <> Some Running) -> ts !! i = Some t ->
  (if decide (q = []) then i = TASK0_INDEX /\ q' = [] else q ≡ₚ i :: q') ->
  CoreInv x (<[i := running t]> ts) i q' eps /\
  state_of (<[i := running t]> ts) i = Some Running.
Proof.
  intros Hci Hnr Ht Hq. pose proof (lookup_lt_Some _ _ _ Ht) as Hlt.
  pose proof (ci_task _ _ _ _ _ Hci _ _ Ht) as Hok.
  assert (Hi : i < MAX_TASKS) by (rewrite <- (ci_len _ _ _ _ _ Hci); done).
  assert (Hst : t_state t = Ready) by by eapply core_run_ready.
  split; [|by rewrite state_of_insert, decide_True].
  assert (Hnd : NoDup q' /\ (forall j, j <> i -> j ∈ q' <-> j ∈ q) /\ i ∉ q').
  { destruct (decide (q = [])) as [->|Hne].
    - destruct Hq as [-> ->]. split; [constructor|set_solver].
    - pose proof (ci_nodup _ _ _ _ _ Hci) as Hnd. rewrite Hq in Hnd.
      apply NoDup_cons in Hnd as [Hni Hnd]. split; [done|]. split; [|done].
      intros j Hj. rewrite Hq. set_solver. }
  destruct Hnd as (Hnd & Hjq & Hni).
  eapply core_update; [by apply (core_set_cur _ _ cur)|done|..]; try done.
  - apply task_ok_running; [done|congruence].
  - split; [done|]. by intros [_ ?].
  - apply Hci.
  - eapply (core_eps_same_reason _ _ _ _ _ Hci); [done|].
    rewrite (core_not_blocked_reason _ _ _ _ _ Hci _ _ Ht) by congruence. done.
  - intros e ep Hep Hc Hx. split; [by eauto|done].
Qed.

(** ** The kernel-state part of the invariant *)

(** A bound on everything that only counts up. *)
Record counters_le (B : Z) (c : KernelCounters) : Prop := {
  cl_switches : (sched_switches c <= B)%Z;
  cl_send_fast : (ipc_send_fast c <= B)%Z;
  cl_send_slow : (ipc_send_slow c <= B)%Z;
  cl_recv_fast : (ipc_recv_fast c <= B)%Z;
  cl_recv_slow : (ipc_recv_slow c <= B)%Z;
  cl_reply : (ipc_reply_delivered c <= B)%Z;
  cl_killed_pf : (task_killed_user_pf c <= B)%Z;
  cl_killed_demo : (task_killed_demo_injected c <= B)%Z }.

Definition task_bound (B : Z) (t : Task) : Prop :=
  (0 <= t_runtime_ticks t <= B)%Z /\ (0 <= t_time_slice_used t <= B)%Z.

(** The address spaces: the kernel's first, then the users', with the roots
    [us]. *)
Record roots_ok (kr : PhysFrame) (us : list PhysFrame) (ass : list AddressSpace) : Prop := {
  ro_len : length us = MAX_TASKS - 1;
  ro_as_len : length ass = MAX_TASKS;
  ro_kernel : exists a, ass !! 0 = Some a /\ as_kind a = Kernel /\ as_root_page_frame a = Some kr;
  ro_user i : 0 < i < MAX_TASKS -> exists a r, ass !! i = Some a /\ as_kind a = User /\
    as_root_page_frame a = Some r /\ us !! (i - 1) = Some r }.

Record KInv (x : slack) (kr : PhysFrame) (us : list PhysFrame) (B : Z) (s : KernelState) : Prop := {
  ki_shape : shape s;
  ki_core : CoreInv x (tasks s) (current_task s) (rq s) (endpoints s);
  ki_roots : roots_ok kr us (address_spaces s);
  ki_tasks : Forall (task_bound B) (tasks s);
  ki_counters : counters_le B (counters s);
  ki_tick : (0 <= tick_count s <= B)%Z;
  ki_time : (0 <= time_ticks s <= B)%Z }.

Lemma KInv_aspaces x kr us B s : KInv x kr us B s -> aspaces_ok kr us s.
Proof.
  intros [_ Hci [] _ _ _ _]. split; try done.
  intros i t Ht. by apply (ci_task _ _ _ _ _ Hci).
Qed.

(** What scheduling and IPC may change. *)
Record ipc_frame (s s' : KernelState) : Prop := { ipc_frame_eq :
  s' = {| s with tasks := tasks s'; ready_queue := ready_queue s'; rq_len := rq_len s';
                 current_task := current_task s'; counters := counters s';
                 endpoints := endpoints s'; demo_msgs_delivered := demo_msgs_delivered s';
                 demo_replies_sent := demo_replies_sent s';
                 event_log := event_log s'; event_log_head := event_log_head s';
                 event_log_len := event_log_len s' |} }.

#[export] Instance ipc_frame_preorder : PreOrder ipc_frame.
Proof.
  split.
  - intros []. done.
  - intros s1 s2 s3 [H12] [H23]. constructor. rewrite H23. rewrite H12. done.
Qed.

Lemma sched_ipc_frame s s' : sched_frame s s' -> ipc_frame s s'.
Proof. intros [H]. constructor. rewrite H. done. Qed.
Lemma q_ipc_frame s s' : q_frame s s' -> ipc_frame s s'.
Proof. intros [H]. constructor. rewrite H. done. Qed.
#[export] Hint Resolve sched_ipc_frame q_ipc_frame : kernel.

(** A change of a task that kills nobody and counts nothing up. *)
Record calm (t t' : Task) : Prop := {
  calm_runtime : t_runtime_ticks t' = t_runtime_ticks t;
  calm_slice : t_time_slice_used t' = t_time_slice_used t \/ t_time_slice_used t' = 0%Z;
  calm_dead : t_state t' = Dead <-> t_state t = Dead;
  calm_prio : t_priority t' = t_priority t }.

#[export] Instance calm_preorder : PreOrder calm.
Proof.
  split.
  - intros t. split; auto.
  - intros t1 t2 t3 [] []. split; [congruence| |by etransitivity|congruence].
    destruct calm_slice1 as [-> | ->]; auto.
Qed.

Definition calm_tasks (ts ts' : list Task) : Prop := Forall2 calm ts ts'.

#[export] Instance calm_tasks_preorder : PreOrder calm_tasks.
Proof. unfold calm_tasks. split; [intros l; reflexivity|intros ???; apply transitivity]. Qed.

Lemma calm_insert ts i t t' : ts !! i = Some t -> calm t t' -> calm_tasks ts (<[i := t']> ts).
Proof.
  intros Ht Hc. unfold calm_tasks. apply Forall2_same_length_lookup_2; [by rewrite length_insert|].
  intros j x y Hx [(<- & <- & _)|[_ Hy]]%list_lookup_insert_Some; [by simplify_eq|].
  simplify_eq. done.
Qed.

Lemma calm_bound B ts ts' :
  (0 <= B)%Z -> calm_tasks ts ts' -> Forall (task_bound B) ts -> Forall (task_bound B) ts'.
Proof.
  intros HB Hc Hf. rewrite Forall_lookup in *. intros i t' Ht'.
  destruct (Forall2_lookup_r _ _ _ _ _ Hc Ht') as (t & Ht & []).
  destruct (Hf i t Ht). split; [lia|]. destruct calm_slice0 as [-> | ->]; lia.
Qed.

Lemma task_bound_mono B B' ts : (B <= B')%Z -> Forall (task_bound B) ts -> Forall (task_bound B') ts.
Proof. intros HB Hf. eapply Forall_impl; [done|]. intros t [[] []]. split; lia. Qed.

Lemma counters_le_mono B B' c : (B <= B')%Z -> counters_le B c -> counters_le B' c.
Proof. intros HB []. split; lia. Qed.

Lemma calm_dead_of ts ts' i :
  calm_tasks ts ts' -> state_of ts' i = Some Dead <-> state_of ts i = Some Dead.
Proof.
  intros Hc. unfold state_of. destruct (ts !! i) as [t|] eqn:Ht.
  - destruct (Forall2_lookup_l _ _ _ _ _ Hc Ht) as (t' & -> & Hcalm). simpl.
    rewrite !(inj_iff Some). apply Hcalm.
  - apply lookup_ge_None in Ht. rewrite (Forall2_length _ _ _ Hc) in Ht.
    by rewrite (proj2 (lookup_ge_None _ _) Ht).
Qed.

(** How an operation that leaves the memory alone keeps the invariant. *)
Lemma KInv_step x y kr us B B' s s' :
  KInv y kr us B s -> (B <= B')%Z -> shape s' -> ipc_frame s s' -> calm_tasks (tasks s) (tasks s') ->
  counters_le B' (counters s') ->
  CoreInv x (tasks s') (current_task s') (rq s') (endpoints s') -> KInv x kr us B' s'.
Proof.
  intros [] HB Hs [Hf] Hc Hcl Hci. split; try done.
  - rewrite Hf. done.
  - apply (task_bound_mono B); [done|]. eapply calm_bound; [lia|done..].
  - rewrite Hf. simpl. lia.
  - rewrite Hf. simpl. lia.
Qed.

(** ** Steps of the world *)

Section steps.
Context {A : Type} `{ArchLaws A} (kr : PhysFrame) (us : list PhysFrame).

(** The kernel task runs on the kernel root. *)
Definition cr3_ok (w : World A) : Prop :=
  current_task (w_ks w) = TASK0_INDEX -> Cr3_read (w_arch w) = kr.

(** The current task is running. *)
Definition running_ok (s : KernelState) : Prop :=
  state_of (tasks s) (current_task s) = Some Running.

(** Steps that change no page table and kill nobody. *)
Record core_step (w w' : World A) : Prop := {
  cs_world : w' = {| w with w_ks := w_ks w'; w_arch := w_arch w'; w_vga := w_vga w' |};
  cs_frame : ipc_frame (w_ks w) (w_ks w');
  cs_calm : calm_tasks (tasks (w_ks w)) (tasks (w_ks w'));
  cs_ready : arch_ready kr us (w_arch w) -> arch_ready kr us (w_arch w');
  cs_user u : u ∈ us -> user_map (w_arch w') u = user_map (w_arch w) u;
  cs_kern : kern_map kr (w_arch w') = kern_map kr (w_arch w);
  cs_tables f : arch_tables kr us (w_arch w') f -> arch_tables kr us (w_arch w) f;
  cs_cr3 : cr3_ok w -> cr3_ok w' }.

#[export] Instance core_step_preorder : PreOrder core_step.
Proof.
  split.
  - intros []. by split.
  - intros w1 w2 w3 [] []. split.
    + rewrite cs_world1. rewrite cs_world0. done.
    + by etransitivity.
    + by etransitivity.
    + auto.
    + intros u Hu. by rewrite cs_user1, cs_user0.
    + congruence.
    + auto.
    + auto.
Qed.

(** A step of the kernel state alone. *)
Lemma core_step_ks w s' :
  ipc_frame (w_ks w) s' -> calm_tasks (tasks (w_ks w)) (tasks s') ->
  current_task s' = current_task (w_ks w) -> core_step w {| w with w_ks := s' |}.
Proof. intros Hf Hc Hcur. split; try done. unfold cr3_ok. simpl. by rewrite Hcur. Qed.

Lemma calm_awake t t' :
  t_state t <> Dead -> t_state t' <> Dead -> t_runtime_ticks t' = t_runtime_ticks t ->
  t_time_slice_used t' = 0%Z -> t_priority t' = t_priority t -> calm t t'.
Proof. intros. split; auto. naive_solver. Qed.

Lemma calm_preempted s :
  calm_tasks (tasks s) (preempted s).
Proof.
  unfold preempted. destruct (tasks s !! current_task s) as [t|] eqn:Ht; [|reflexivity].
  destruct (decide (t_state t = Running)) as [Hr|Hr]; [|reflexivity].
  eapply calm_insert; [done|]. apply calm_awake; try done. congruence.
Qed.

(** Preemption changes no priority. *)
Lemma preempted_best s l i : best (preempted s) l i -> best (tasks s) l i.
Proof.
  intros (pos & Hpos & Hall). exists pos. split; [done|]. intros pos' j Hj.
  assert (Hp : forall k, prio_of (preempted s) k = prio_of (tasks s) k).
  { intros k. unfold prio_of. pose proof (calm_preempted s) as Hc.
    destruct (tasks s !! k) as [t|] eqn:Ht.
    - destruct (Forall2_lookup_l _ _ _ _ _ Hc Ht) as (t' & -> & []). simpl. done.
    - destruct (preempted s !! k) as [t'|] eqn:Ht'; [|done].
      destruct (Forall2_lookup_r _ _ _ _ _ Hc Ht') as (t & ? & _). congruence. }
  rewrite <- !Hp. by apply (Hall pos').
Qed.

Lemma view_preempted s : view <$> preempted s = view <$> tasks s.
Proof.
  unfold preempted. destruct (tasks s !! current_task s) as [t|] eqn:Ht; [|done].
  destruct (decide (t_state t = Running)) as [Hr|Hr]; [|done].
  eapply view_insert_same; [done|]. unfold view, status. simpl. by rewrite Hr.
Qed.

Lemma schedule_inv x w B :
  KInv x kr us B (w_ks w) -> arch_ready kr us (w_arch w) -> (B < u64_max)%Z ->
  returns schedule_next_task w (fun _ w' =>
    KInv x kr us (B + 1) (w_ks w') /\ running_ok (w_ks w') /\ core_step w w' /\
    abs (w_ks w') = abs (w_ks w)).
Proof.
  intros Hk Hr HB. pose proof (ki_core _ _ _ _ _ Hk) as Hci. pose proof (ki_shape _ _ _ _ _ Hk) as Hs.
  destruct (core_lookup _ _ _ _ _ Hci (current_task (w_ks w))) as [t Ht]; [apply Hci|].
  eapply returns_mono; [eapply schedule_next_task_spec; try done|].
  - by eapply KInv_aspaces.
  - destruct (ki_counters _ _ _ _ _ Hk). lia.
  - intros Hrun. eapply core_not_queued; [done..|congruence].
  - apply Hci.
  - intros Hd. destruct (core_lookup _ _ _ _ _ Hci TASK0_INDEX TASK0_lt) as [t0 Ht0].
    rewrite (state_of_lookup _ _ _ Ht0) in Hd. injection Hd as Hd.
    by destruct (tk_dead _ _ (ci_task _ _ _ _ _ Hci _ _ Ht0) Hd).
  - intros [] w' ([Hw Hf Hs' (ti & Hti & Hts) (n & Hn & Hcnt) (Ha1 & Ha2 & Ha3 & Ha4) Hcr3 Hvga] & Hch).
    assert (Hep : endpoints (w_ks w') = endpoints (w_ks w)) by by rewrite (sched_frame_eq _ _ Hf).
    destruct (core_run _ _ _ _ _ _ _ (rq (w_ks w')) (core_preempt _ _ Hci)
      (preempt_no_running _ _ Hci) Hti) as [Hci' Hrun].
    { destruct (decide (candidates (w_ks w) = [])); [done|]. apply Hch. }
    rewrite <- Hep in Hci'. rewrite <- Hts in Hci', Hrun.
    assert (Hst : t_state ti = Ready).
    { eapply core_run_ready; [exact (core_preempt _ _ Hci)|exact (preempt_no_running _ _ Hci)|done|].
      destruct (decide (candidates (w_ks w) = [])); [done|]. apply Hch. }
    assert (Hcalm : calm_tasks (tasks (w_ks w)) (tasks (w_ks w'))).
    { transitivity (preempted (w_ks w)); [apply calm_preempted|]. rewrite Hts.
      eapply calm_insert; [done|]. apply calm_awake; try done. congruence. }
    split; [|split; [done|split; [by split; auto with kernel|]]].
    2: { unfold abs. rewrite Hep. f_equal. rewrite Hts, <- view_preempted.
         eapply view_insert_same; [done|]. unfold view, status. simpl. by rewrite Hst. }
    eapply KInv_step; try done; [lia|by auto with kernel|].
    rewrite Hcnt. destruct (ki_counters _ _ _ _ _ Hk). split; simpl; lia.
Qed.

End steps.
