(* ===== verification/DumpRuns.v ===== *)
(** * The dump returns

    In every state of the kernel's invariant no index of the dump is out of
    range, so [dump_events] returns wherever the kernel calls it. *)

From stdpp Require Import base list option strings.
From Stdlib Require Import ZArith Lia.
From S2P Require Import Prelude Addr AddressSpace Queues KTypes Endpoint EventLog KState Console Dump.
From S2P Require Import Sched Ipc Kill Invariant.

(** ** Computations that only print *)

Definition appends (m : Out unit) : Prop := forall out, exists ls, m out = Ok (tt, out ++ ls).

Lemma appends_emit ls : appends (emit ls).
Proof. intros out. by exists ls. Qed.

Lemma appends_ret : appends (mret tt).
Proof. intros out. exists []. by rewrite app_nil_r. Qed.

Lemma appends_seq (m1 m2 : Out unit) : appends m1 -> appends m2 -> appends (m1 ;; m2).
Proof.
  intros H1 H2 out. destruct (H1 out) as (l1 & E1), (H2 (out ++ l1)) as (l2 & E2).
  exists (l1 ++ l2). rewrite (bind_Ok _ _ _ _ _ E1), app_assoc. exact E2.
Qed.

Lemma appends_at {X} (l : list X) i x (f : X -> Out unit) :
  l !! i = Some x -> appends (f x) -> appends (a ← at_index l i; f a).
Proof. intros Hx Hf out. rewrite (bind_at_index _ _ _ _ _ Hx). apply Hf. Qed.

Lemma appends_for_each {X} (l : list X) (f : X -> Out unit) :
  (forall x, x ∈ l -> appends (f x)) -> appends (for_each l f).
Proof.
  induction l as [|x l IH]; intros Hf; simpl; [apply appends_ret|].
  apply appends_seq; [apply Hf; left|apply IH; intros y Hy; apply Hf; by right].
Qed.

Create HintDb dump.
#[local] Hint Resolve appends_emit appends_ret appends_seq : dump.

(** ** Every part returns *)

Section parts.
Context (x : slack) (kr : PhysFrame) (us : list PhysFrame) (B : Z) (s : KernelState).
Context (Hk : KInv x kr us B s).

Lemma dump_task_at i : i < num_tasks s -> exists t, tasks s !! i = Some t /\ task_ok i t.
Proof.
  rewrite (sh_num _ (ki_shape _ _ _ _ _ Hk)). intros Hi.
  destruct (lookup_lt_is_Some_2 (tasks s) i) as [t Ht]; [by rewrite (ci_len _ _ _ _ _ (ki_core _ _ _ _ _ Hk))|].
  exists t. split; [done|]. by apply (ci_task _ _ _ _ _ (ki_core _ _ _ _ _ Hk)).
Qed.

Lemma dump_task_appends i : i < num_tasks s -> appends (dump_task s i).
Proof. intros (t & Ht & _)%dump_task_at. eapply appends_at; [done|auto with dump]. Qed.

Lemma dump_address_space_appends i : i < num_tasks s -> appends (dump_address_space s i).
Proof.
  intros Hi. destruct (dump_task_at i Hi) as (t & Ht & Hok).
  destruct (lookup_lt_is_Some_2 (address_spaces s) i) as [a Ha].
  { rewrite (ro_as_len _ _ _ (ki_roots _ _ _ _ _ Hk)). by rewrite (sh_num _ (ki_shape _ _ _ _ _ Hk)) in Hi. }
  eapply appends_at; [done|]. apply appends_seq; [auto with dump|].
  eapply appends_at; [by rewrite (tk_as _ _ Hok)|auto with dump].
Qed.

Lemma dump_task_ref_appends l1 l2 tidx : appends (dump_task_ref s l1 l2 tidx).
Proof.
  apply appends_seq; [auto with dump|]. destruct (Nat.ltb_spec tidx (num_tasks s)) as [Hlt|]; [|auto with dump].
  destruct (dump_task_at tidx Hlt) as (t & Ht & _). eapply appends_at; [done|auto with dump].
Qed.

Lemma dump_queue_appends q n l1 l2 : n <= length q ->
  appends (for_each (seq 0 n) (fun pos => tidx ← at_index q pos; dump_task_ref s l1 l2 tidx)).
Proof.
  intros Hn. apply appends_for_each. intros pos [_ Hpos]%elem_of_seq.
  destruct (lookup_lt_is_Some_2 q pos) as [tidx Ht]; [lia|].
  eapply appends_at; [done|]. apply dump_task_ref_appends.
Qed.

Lemma dump_endpoint_appends ep : ep ∈ endpoints s -> appends (dump_endpoint s ep).
Proof.
  intros [e He]%list_elem_of_lookup.
  destruct (eo_wf _ _ _ (ci_eps _ _ _ _ _ (ki_core _ _ _ _ _ Hk) e ep He)) as [H1 H2 H3 H4].
  unfold dump_endpoint. repeat apply appends_seq; try apply appends_emit.
  - destruct (recv_waiter ep); [apply dump_task_ref_appends|apply appends_emit].
  - apply dump_queue_appends. lia.
  - apply dump_queue_appends. lia.
Qed.

(** What follows the event section. *)
Lemma dump_rest_appends :
  appends (emit [Info "=== Task Dump ==="] ;;
    for_each (seq 0 (num_tasks s)) (dump_task s) ;;
    emit [Info "=== End of Task Dump ==="] ;;
    emit [Info "=== AddressSpace Dump (per task) ==="] ;;
    for_each (seq 0 (num_tasks s)) (dump_address_space s) ;;
    emit [Info "=== End of AddressSpace Dump ==="] ;;
    emit [Info "=== Endpoint Dump ==="] ;;
    for_each (endpoints s) (dump_endpoint s) ;;
    emit [Info "=== End of Endpoint Dump ==="] ;;
    emit [Info "=== Counters Dump ==="] ;;
    emit (counter_lines s) ;;
    emit [Info "=== End of Counters Dump ==="]).
Proof.
  repeat apply appends_seq; try apply appends_emit; apply appends_for_each.
  - intros i [_ Hi]%elem_of_seq. by apply dump_task_appends.
  - intros i [_ Hi]%elem_of_seq. by apply dump_address_space_appends.
  - apply dump_endpoint_appends.
Qed.

Lemma dump_appends : appends (dump_events s).
Proof.
  unfold dump_events.
  apply appends_seq; [apply appends_emit|]. apply appends_seq; [apply appends_for_each; intros ev _; apply appends_emit|].
  apply appends_seq; [apply appends_emit|]. exact dump_rest_appends.
Qed.

Lemma dump_now_Ok : dump_now s = Ok (tt, s).
Proof. unfold dump_now. rewrite bind_get. destruct (dump_appends []) as (ls & ->). done. Qed.

End parts.
