(* ===== verification/IpcInv.v ===== *)
(** * IPC keeps the invariant

    The effect of the IPC operations on states that satisfy the invariant:
    which queue each task enters or leaves. *)

From stdpp Require Import base list option sets.
From Stdlib Require Import ZArith Lia.
From S2P Require Import Prelude Addr AddressSpace FrameAlloc Queues KTypes Endpoint EventLog KState.
From S2P Require Import ArchIface Sched Ipc Kill Demo Syscall Tick IpcSpec Invariant.

(** ** One task enters or leaves one queue of an endpoint *)

Definition upd_reason (ρ : nat -> option BlockedReason) (i : nat) (r : option BlockedReason) :
    nat -> option BlockedReason :=
  fun j => if decide (j = i) then r else ρ j.

Lemma ep_ok_equiv ρ ρ' e ep : (forall i, ρ' i = ρ i) -> ep_ok ρ e ep -> ep_ok ρ' e ep.
Proof. intros Hρ. apply ep_ok_ext. intros i r _. by rewrite Hρ. Qed.

Lemma upd_reason_upd ρ i r r' j : upd_reason (upd_reason ρ i r) i r' j = upd_reason ρ i r' j.
Proof. unfold upd_reason. by destruct (decide (j = i)). Qed.

Lemma reason_of_upd ts i t' j :
  i < length ts -> reason_of (<[i := t']> ts) j = upd_reason (reason_of ts) i (t_blocked_reason t') j.
Proof. intros. by rewrite reason_of_insert. Qed.

Section queues.
Context (ρ : nat -> option BlockedReason) (e : EndpointId) (ep : Endpoint).
Context (Hep : ep_ok ρ e ep) (i : nat).

Lemma enter_recv :
  ρ i = None -> recv_waiter ep = None ->
  ep_ok (upd_reason ρ i (Some (IpcRecv e))) e {| ep with recv_waiter := Some i |}.
Proof.
  intros Hi Hw. destruct Hep as [[] ? ? ? Hr Hs Hp]. unfold upd_reason. split; simpl; try done.
  - intros j. case_decide as Hd; [by subst|]. rewrite <- Hr, Hw. naive_solver.
  - intros j. change (j ∈ senders ep <-> (if decide (j = i) then Some (IpcRecv e) else ρ j) = Some (IpcSend e)).
    rewrite Hs. case_decide; [subst; naive_solver|done].
  - intros j. change (j ∈ reply_waiters ep <->
      exists p, (if decide (j = i) then Some (IpcRecv e) else ρ j) = Some (IpcReply p e)).
    rewrite Hp. case_decide; [subst; naive_solver|done].
Qed.

Lemma leave_recv :
  recv_waiter ep = Some i ->
  ep_ok (upd_reason ρ i None) e {| ep with recv_waiter := None |}.
Proof.
  intros Hw. destruct Hep as [[] ? ? ? Hr Hs Hp]. unfold upd_reason.
  assert (ρ i = Some (IpcRecv e)) as Hi by by apply Hr.
  split; simpl; try done.
  - intros j. case_decide as Hd; [done|]. rewrite <- Hr, Hw. naive_solver.
  - intros j. change (j ∈ senders ep <-> (if decide (j = i) then None else ρ j) = Some (IpcSend e)).
    rewrite Hs. case_decide; [subst; naive_solver|done].
  - intros j. change (j ∈ reply_waiters ep <->
      exists p, (if decide (j = i) then None else ρ j) = Some (IpcReply p e)).
    rewrite Hp. case_decide; [subst; naive_solver|done].
Qed.

(** The other queues of [ep'] are those of [ep]. *)
Lemma enter_send ep' :
  ρ i = None -> Endpoint_wf ep' -> ep_id ep' = ep_id ep -> recv_waiter ep' = recv_waiter ep ->
  reply_waiters ep' = reply_waiters ep -> senders ep' = senders ep ++ [i] ->
  ep_ok (upd_reason ρ i (Some (IpcSend e))) e ep'.
Proof.
  intros Hi Hwf Hid Hre Hrw Hse. destruct Hep as [_ ? ? ? Hr Hs Hp]. unfold upd_reason.
  split; rewrite ?Hid, ?Hre, ?Hrw, ?Hse; try done.
  - apply NoDup_app. split; [done|]. split; [|apply NoDup_singleton].
    intros j Hj ->%list_elem_of_singleton. apply Hs in Hj. congruence.
  - intros j. rewrite Hr. case_decide; [subst; naive_solver|done].
  - intros j. rewrite elem_of_app, Hs, list_elem_of_singleton. case_decide; [subst|]; naive_solver.
  - intros j. rewrite Hp. case_decide; [subst; naive_solver|done].
Qed.

Lemma leave_send ep' :
  Endpoint_wf ep' -> ep_id ep' = ep_id ep -> recv_waiter ep' = recv_waiter ep ->
  reply_waiters ep' = reply_waiters ep -> senders ep ≡ₚ i :: senders ep' ->
  ep_ok (upd_reason ρ i None) e ep'.
Proof.
  intros Hwf Hid Hre Hrw Hse. destruct Hep as [_ ? Hnd ? Hr Hs Hp]. unfold upd_reason.
  rewrite Hse in Hnd. apply NoDup_cons in Hnd as [Hni Hnd].
  assert (ρ i = Some (IpcSend e)) as Hi by (apply Hs; rewrite Hse; by left).
  split; rewrite ?Hid, ?Hre, ?Hrw; try done.
  - intros j. rewrite Hr. case_decide; [subst; naive_solver|done].
  - intros j. case_decide as Hd; [subst; naive_solver|]. rewrite <- Hs, Hse. set_solver.
  - intros j. rewrite Hp. case_decide; [subst; naive_solver|done].
Qed.

Lemma enter_reply p ep' :
  ρ i = None -> Endpoint_wf ep' -> ep_id ep' = ep_id ep -> recv_waiter ep' = recv_waiter ep ->
  senders ep' = senders ep -> reply_waiters ep' = reply_waiters ep ++ [i] ->
  ep_ok (upd_reason ρ i (Some (IpcReply p e))) e ep'.
Proof.
  intros Hi Hwf Hid Hre Hse Hrw. destruct Hep as [_ ? ? ? Hr Hs Hp]. unfold upd_reason.
  split; rewrite ?Hid, ?Hre, ?Hrw, ?Hse; try done.
  - apply NoDup_app. split; [done|]. split; [|apply NoDup_singleton].
    intros j Hj ->%list_elem_of_singleton. apply Hp in Hj as [? ?]. congruence.
  - intros j. rewrite Hr. case_decide; [subst; naive_solver|done].
  - intros j. rewrite Hs. case_decide; [subst; naive_solver|done].
  - intros j. rewrite elem_of_app, Hp, list_elem_of_singleton. case_decide; [subst|]; naive_solver.
Qed.

Lemma leave_reply ep' :
  Endpoint_wf ep' -> ep_id ep' = ep_id ep -> recv_waiter ep' = recv_waiter ep ->
  senders ep' = senders ep -> reply_waiters ep ≡ₚ i :: reply_waiters ep' ->
  ep_ok (upd_reason ρ i None) e ep'.
Proof.
  intros Hwf Hid Hre Hse Hrw. destruct Hep as [_ ? ? Hnd Hr Hs Hp]. unfold upd_reason.
  rewrite Hrw in Hnd. apply NoDup_cons in Hnd as [Hni Hnd].
  assert (exists p, ρ i = Some (IpcReply p e)) as [p Hi] by (apply Hp; rewrite Hrw; by left).
  split; rewrite ?Hid, ?Hre, ?Hse; try done.
  - intros j. rewrite Hr. case_decide; [subst; naive_solver|done].
  - intros j. rewrite Hs. case_decide; [subst; naive_solver|done].
  - intros j. case_decide as Hd; [subst; naive_solver|]. rewrite <- Hp, Hrw. set_solver.
Qed.

End queues.

(** ** One task changes its reason at one endpoint *)

Lemma core_move x ts cur q eps i t t' q' e ep ep' :
  CoreInv x ts cur q eps -> ts !! i = Some t -> eps !! e = Some ep ->
  is_closed ep' = is_closed ep -> task_ok i t' -> (t_state t' = Running -> i = cur) ->
  t_state t' <> Dead -> NoDup q' -> (forall j, j <> i -> j ∈ q' <-> j ∈ q) ->
  (i ∈ q' <-> i <> TASK0_INDEX /\ t_state t' = Ready) ->
  (forall r, t_blocked_reason t = Some r -> reason_ep r = Some e) ->
  (forall r, t_blocked_reason t' = Some r -> reason_ep r = Some e /\ is_closed ep = false) ->
  ep_ok (upd_reason (reason_of ts) i (t_blocked_reason t')) e ep' ->
  (forall p e, t_blocked_reason t' = Some (IpcReply p e) -> sl_dead x <> Some p ->
     exists j tj, ts !! j = Some tj /\ t_id tj = p /\ j <> i /\ j <> TASK0_INDEX /\
       t_state tj <> Dead) ->
  CoreInv x (<[i := t']> ts) cur q' (<[e := ep']> eps).
Proof.
  intros Hci Ht He Hcl Hok Hrun Hd Hnd Hq Hqi Hr Hr' Hep Hp.
  pose proof (lookup_lt_Some _ _ _ Ht) as Hi.
  eapply core_update; try done.
  - rewrite length_insert. apply Hci.
  - intros e1 ep1 [(<- & <- & _)|[Hne He1]]%list_lookup_insert_Some.
    + eapply ep_ok_equiv; [|done]. intros j. by apply reason_of_upd.
    + eapply (ep_ok_other _ _ i); [| | |by apply (ci_eps _ _ _ _ _ Hci)].
      * intros j Hj. by rewrite reason_of_insert, decide_False.
      * rewrite (reason_of_lookup _ _ _ Ht). intros r Hre. rewrite (Hr r Hre). congruence.
      * rewrite reason_of_insert, decide_True by done. intros r Hre.
        destruct (Hr' r Hre) as [-> _]. congruence.
  - intros e1 ep1 [(<- & <- & _)|[Hne He1]]%list_lookup_insert_Some Hc1 Hx.
    + rewrite Hcl in Hc1. split; [by eauto|]. intros r Hre. destruct (Hr' r Hre). congruence.
    + split; [by eauto|]. intros r Hre. destruct (Hr' r Hre) as [-> _]. congruence.
Qed.

(** ** Executing on states that satisfy the invariant *)

Lemma bump_Ok (g : KernelCounters -> Z) f s :
  (g (counters s) < u64_max)%Z ->
  bump g f s = Ok (tt, {| s with counters := f (counters s) (g (counters s) + 1)%Z |}).
Proof. intros Hc. unfold bump. rewrite bind_get, u64_add_Ok by lia. done. Qed.

Lemma task_ok_fields i t t' :
  task_ok i t -> t_id t' = t_id t -> t_address_space_id t' = t_address_space_id t ->
  t_state t' = t_state t -> t_blocked_reason t' = t_blocked_reason t -> t_state t <> Dead ->
  (forall e, t_blocked_reason t = Some (IpcSend e) -> is_Some (t_pending_send_msg t')) ->
  (forall sc, t_pending_syscall t' = Some sc -> i <> TASK0_INDEX /\ syscall_ok sc) ->
  task_ok i t'.
Proof.
  intros [] Hid Has Hst Hre Hd Hps Hpc. split; rewrite ?Hid, ?Has, ?Hst, ?Hre; done.
Qed.

Lemma calm_fields t t' :
  t_runtime_ticks t' = t_runtime_ticks t -> t_time_slice_used t' = t_time_slice_used t ->
  t_state t' = t_state t -> t_priority t' = t_priority t -> calm t t'.
Proof. intros ? ? Hs ?. split; auto. by rewrite Hs. Qed.

(** The task updates of this file. *)
Definition with_reply (v : Z) (t : Task) : Task := {| t with t_last_reply := Some v |}.
Definition with_msg (v : Z) (t : Task) : Task := {| t with t_last_msg := Some v |}.
Definition with_send (m : option Z) (t : Task) : Task := {| t with t_pending_send_msg := m |}.

Section ipc_inv.
Context (kr : PhysFrame) (us : list PhysFrame).

(** What every IPC operation on the kernel state guarantees. *)
Record ipc_ok (x : slack) (B : Z) (s s' : KernelState) : Prop := {
  io_inv : KInv x kr us B s';
  io_frame : ipc_frame s s';
  io_calm : calm_tasks (tasks s) (tasks s');
  io_cur : current_task s' = current_task s;
  io_closed : is_closed <$> endpoints s' = is_closed <$> endpoints s }.

Lemma ipc_ok_refl x B s : KInv x kr us B s -> ipc_ok x B s s.
Proof. intros. by split. Qed.

Lemma ipc_ok_trans x x' B B' s1 s2 s3 : ipc_ok x B s1 s2 -> ipc_ok x' B' s2 s3 -> ipc_ok x' B' s1 s3.
Proof. intros [] []. split; [done|by etransitivity|by etransitivity|congruence|congruence]. Qed.

(** The invariant for a larger bound. *)
Lemma KInv_mono x B B' s : (B <= B')%Z -> KInv x kr us B s -> KInv x kr us B' s.
Proof.
  intros HB Hk. pose proof Hk as []. eapply KInv_step; try done. by eapply counters_le_mono.
Qed.

(** Changing fields of a task that no queue depends on. *)
Lemma benign_ok x B s i t t' :
  KInv x kr us B s -> tasks s !! i = Some t -> task_ok i t' -> t_state t' = t_state t ->
  t_blocked_reason t' = t_blocked_reason t -> calm t t' ->
  ipc_ok x B s {| s with tasks := <[i := t']> (tasks s) |}.
Proof.
  intros Hk Ht Hok Hst Hre Hc. pose proof Hk as [Hs Hci _ _ _ _ _].
  assert (Hcalm : calm_tasks (tasks s) (<[i := t']> (tasks s))) by by eapply calm_insert.
  split; try done. eapply KInv_step; try done.
  - destruct Hs. split; simpl; auto with kernel.
  - apply Hk.
  - by eapply core_benign.
Qed.

Lemma push_ok x B s l h n :
  KInv x kr us B s ->
  ipc_ok x B s {| s with event_log := l; event_log_head := h; event_log_len := n |}.
Proof.
  intros Hk. pose proof Hk as [Hs Hci _ _ Hc _ _]. split; try done.
  eapply KInv_step; try done. by destruct Hs.
Qed.

(** Bumping a counter and logging. *)
Lemma counters_ok x B s c l h n :
  KInv x kr us B s -> counters_le (B + 1) c ->
  ipc_ok x (B + 1) s {| s with counters := c; event_log := l; event_log_head := h;
                               event_log_len := n |}.
Proof.
  intros Hk Hc. pose proof Hk as [Hs Hci _ _ _ _ _]. split; try done.
  eapply KInv_step; try done; [lia|by destruct Hs].
Qed.

Lemma count_delivery_ok x B s ep i :
  KInv x kr us B s ->
  exists s', count_demo_delivery ep i s = Ok (tt, s') /\ ipc_ok x B s s' /\ tasks s' = tasks s.
Proof.
  intros Hk. eexists. split; [reflexivity|]. cbv beta. case_match; [|by split; [apply ipc_ok_refl|]].
  split; [|done]. pose proof Hk as [Hs Hci _ _ _ _ _]. split; try done.
  eapply KInv_step; try done; [by destruct Hs|apply Hk].
Qed.

Lemma count_reply_ok x B s ep i :
  KInv x kr us B s ->
  exists s', count_demo_reply ep i s = Ok (tt, s') /\ ipc_ok x B s s' /\ tasks s' = tasks s.
Proof.
  intros Hk. eexists. split; [reflexivity|]. cbv beta. case_match; [|by split; [apply ipc_ok_refl|]].
  split; [|done]. pose proof Hk as [Hs Hci _ _ _ _ _]. split; try done.
  eapply KInv_step; try done; [by destruct Hs|apply Hk].
Qed.

(** ** The entry checks *)

(** [None]: the call goes on; [Some err]: it is rejected, with an error or
    silently. *)
Definition entry_outcome (ep : EndpointId) (s : KernelState) : option (option Z) :=
  if MAX_ENDPOINTS <=? ep then Some None
  else if current_task s =? TASK0_INDEX then Some (Some IPC_ERR_DEAD_PARTNER)
  else match endpoints s !! ep with
       | Some e => if is_closed e then Some (Some IPC_ERR_ENDPOINT_CLOSED) else None
       | None => Some None
       end.

Definition set_last_reply (i : nat) (v : Z) (s : KernelState) : KernelState :=
  match tasks s !! i with
  | Some t => {| s with tasks := <[i := with_reply v t]> (tasks s) |}
  | None => s
  end.

Lemma is_kernel_task_Ok x B s i :
  KInv x kr us B s -> i < MAX_TASKS -> is_kernel_task_index i s = Ok (i =? TASK0_INDEX, s).
Proof.
  intros Hk Hi. pose proof Hk as [Hs Hci [_ _ (a0 & Ha0 & Hk0 & _) Hu] _ _ _ _].
  destruct (core_lookup _ _ _ _ _ Hci i Hi) as [t Ht].
  pose proof (tk_as _ _ (ci_task _ _ _ _ _ Hci _ _ Ht)) as Has.
  unfold is_kernel_task_index. rewrite bind_get, num_tasks_leb by done.
  rewrite (proj2 (Nat.leb_gt _ _)) by done.
  rewrite (bind_Ok _ _ _ _ _ (task_at_Ok _ _ _ Ht)). rewrite Has, num_tasks_leb by done.
  rewrite (proj2 (Nat.leb_gt _ _)) by done. destruct (Nat.eqb_spec i TASK0_INDEX) as [->|Hne].
  - rewrite (bind_Ok _ _ _ _ _ (address_space_at_Ok _ _ _ Ha0)). by rewrite Hk0.
  - destruct (Hu i) as (a & r & Ha & Hka & _); [unfold TASK0_INDEX in *; lia|].
    rewrite (bind_Ok _ _ _ _ _ (address_space_at_Ok _ _ _ Ha)). by rewrite Hka.
Qed.

Lemma ipc_entry_spec x B s ep t :
  KInv x kr us B s -> tasks s !! current_task s = Some t -> t_state t <> Dead ->
  returns (ipc_entry ep) s (fun r s' =>
    match entry_outcome ep s with
    | None => r = Some (current_task s) /\ s' = s
    | Some err => r = None /\
        s' = match err with Some v => set_last_reply (current_task s) v s | None => s end
    end).
Proof.
  intros Hk Ht Hd. pose proof Hk as [Hs Hci _ _ _ _ _]. unfold ipc_entry, entry_outcome.
  destruct (Nat.leb_spec MAX_ENDPOINTS ep) as [Hep|Hep]; [by kstep|].
  unfold reject_ipc_if_kernel_current. repeat kstep. pose proof (ci_cur _ _ _ _ _ Hci) as Hcur.
  rewrite num_tasks_leb by done. rewrite (proj2 (Nat.leb_gt _ _)) by done. repeat kstep.
  rewrite decide_False by done. repeat kstep.
  eapply returns_step; [by eapply is_kernel_task_Ok|]. cbv beta.
  destruct (Nat.eqb_spec (current_task s) TASK0_INDEX) as [H0|H0].
  { repeat kstep. unfold set_last_reply. by rewrite Ht. }
  repeat kstep. unfold reject_ipc_if_endpoint_closed. rewrite (proj2 (Nat.leb_gt _ _)) by done.
  destruct (core_endpoint _ _ _ _ _ Hci ep Hep) as (e & He & _). rewrite He. repeat kstep.
  destruct (is_closed e).
  - repeat kstep. rewrite (sh_num _ Hs), (proj2 (Nat.ltb_lt _ _)) by done. repeat kstep.
    rewrite decide_True by done. repeat kstep. unfold set_last_reply. by rewrite Ht.
  - repeat kstep. rewrite num_tasks_leb by done. rewrite (proj2 (Nat.leb_gt _ _)) by done.
    repeat kstep. rewrite decide_False by done. by kstep.
Qed.

(** ** Receive *)

Lemma reason_bound x ts cur q eps i r :
  CoreInv x ts cur q eps -> reason_of ts i = Some r -> i < MAX_TASKS.
Proof.
  intros Hci Hr. unfold reason_of in Hr. destruct (ts !! i) eqn:Ht; [|done].
  apply lookup_lt_Some in Ht. by rewrite <- (ci_len _ _ _ _ _ Hci).
Qed.

(** A task that waits at the endpoint. *)
Lemma waiter_lookup x ts cur q eps i r :
  CoreInv x ts cur q eps -> reason_of ts i = Some r ->
  exists t, ts !! i = Some t /\ t_blocked_reason t = Some r /\ t_state t = Blocked /\
    i <> TASK0_INDEX /\ i ∉ q.
Proof.
  intros Hci Hr. destruct (core_lookup _ _ _ _ _ Hci i) as [t Ht]; [by eapply reason_bound|].
  exists t. rewrite (reason_of_lookup _ _ _ Ht) in Hr. split; [done|]. split; [done|].
  assert (Hst : t_state t = Blocked) by by eapply core_reason_blocked.
  split; [done|]. split; [by apply (tk_reason _ _ (ci_task _ _ _ _ _ Hci _ _ Ht) r)|].
  eapply core_not_queued; [done..|congruence].
Qed.

Lemma reply_room x ts cur q eps e ep i :
  CoreInv x ts cur q eps -> ep_ok (reason_of ts) e ep -> i < MAX_TASKS ->
  i ∉ reply_waiters ep -> ep_rq_len ep < MAX_TASKS.
Proof.
  intros Hci Hep Hi Hni. rewrite <- reply_waiters_length by apply Hep.
  apply (nodup_room _ i); [apply Hep| |done|done].
  intros j [p Hj]%(eo_reply _ _ _ Hep). by eapply reason_bound.
Qed.

Lemma send_room x ts cur q eps e ep i :
  CoreInv x ts cur q eps -> ep_ok (reason_of ts) e ep -> i < MAX_TASKS ->
  i ∉ senders ep -> sq_len ep < MAX_TASKS.
Proof.
  intros Hci Hep Hi Hni. rewrite <- senders_length by apply Hep.
  apply (nodup_room _ i); [apply Hep| |done|done].
  intros j Hj%(eo_send _ _ _ Hep). by eapply reason_bound.
Qed.

(** With no sender waiting, the fast path does nothing. *)
Lemma recv_fast_none B s ep e i :
  KInv strict kr us B s -> endpoints s !! ep = Some e -> senders e = [] ->
  ipc_recv_fastpath ep i s = Ok (false, s).
Proof.
  intros Hk He Hse. pose proof (ci_eps _ _ _ _ _ (ki_core _ _ _ _ _ Hk) _ _ He) as Hep.
  assert (H0 : sq_len e = 0) by (rewrite <- senders_length, Hse by apply Hep; done).
  unfold ipc_recv_fastpath. rewrite (bind_Ok _ _ _ _ _ (endpoint_at_Ok _ _ _ He)). simpl.
  rewrite H0. cbn [dequeue_valid_sender].
  assert (Hw : with_endpoint ep dequeue_sender s = Ok (None, s)).
  { destruct (dequeue_sender_spec e (eo_wf _ _ _ Hep)) as [Hd _].
    rewrite (with_endpoint_Ok _ _ _ _ _ _ He (Hd H0)).
    rewrite list_insert_id by done. by destruct s. }
  rewrite (bind_Ok _ _ _ None s); [done|]. by rewrite (bind_Ok _ _ _ _ _ Hw).
Qed.

(** A state reached by moving one task between the queues of one endpoint. *)
Lemma move_ok x B B' s s' i t t' e ep ep' :
  KInv x kr us B s -> (B <= B')%Z -> counters_le B' (counters s') -> tasks s !! i = Some t -> endpoints s !! e = Some ep ->
  shape s' -> ipc_frame s s' -> current_task s' = current_task s ->
  tasks s' = <[i := t']> (tasks s) -> endpoints s' = <[e := ep']> (endpoints s) ->
  is_closed ep' = is_closed ep -> task_ok i t' -> calm t t' -> t_state t <> Dead ->
  (t_state t' = Running -> i = current_task s) ->
  NoDup (rq s') -> (forall j, j <> i -> j ∈ rq s' <-> j ∈ rq s) ->
  (i ∈ rq s' <-> i <> TASK0_INDEX /\ t_state t' = Ready) ->
  (forall r, t_blocked_reason t = Some r -> reason_ep r = Some e) ->
  (forall r, t_blocked_reason t' = Some r -> reason_ep r = Some e /\ is_closed ep = false) ->
  ep_ok (upd_reason (reason_of (tasks s)) i (t_blocked_reason t')) e ep' ->
  (forall p e, t_blocked_reason t' = Some (IpcReply p e) -> sl_dead x <> Some p ->
     exists j tj, tasks s !! j = Some tj /\ t_id tj = p /\ j <> i /\ j <> TASK0_INDEX /\
       t_state tj <> Dead) ->
  ipc_ok x B' s s'.
Proof.
  intros Hk HB Hcnt Ht He Hs' Hf Hcur Hts Heps Hcl Hok Hcalm Hd Hrun Hnd Hqj Hqi Hr Hr' Hep Hp.
  pose proof Hk as [Hs Hci _ _ Hc _ _].
  assert (Hct : calm_tasks (tasks s) (tasks s')) by (rewrite Hts; by eapply calm_insert).
  split; try done.
  - eapply KInv_step; try done.
    rewrite Hts, Heps, Hcur. eapply core_move; try done.
    intros Hd'. destruct Hd. by apply Hcalm.
  - rewrite Heps, list_fmap_insert, Hcl. apply list_insert_id.
    by rewrite list_lookup_fmap, He.
Qed.

(** What a queue operation of the scheduler leaves alone. *)
Lemma q_frame_fields s s' : q_frame s s' ->
  current_task s' = current_task s /\ counters s' = counters s /\ endpoints s' = endpoints s /\ ipc_frame s s'.
Proof. intros Hf. split_and!; [by rewrite (q_frame_eq _ _ Hf)..|by apply q_ipc_frame]. Qed.

(** The sender [j] leaves the send queue and awaits the reply of [i]. *)
Lemma sender_awaits B s s' ep e e1 e2 i ti j tj :
  KInv strict kr us B s -> i <> TASK0_INDEX -> tasks s !! i = Some ti -> t_state ti = Running ->
  endpoints s !! ep = Some e -> is_closed e = false ->
  tasks s !! j = Some tj -> t_blocked_reason tj = Some (IpcSend ep) -> t_state tj = Blocked -> j ∉ rq s ->
  Endpoint_wf e1 -> senders e = senders e1 ++ [j] -> e1 = {| e with sq_len := sq_len e - 1 |} ->
  Endpoint_wf e2 -> reply_waiters e2 = reply_waiters e1 ++ [j] ->
  e2 = {| e1 with reply_queue := reply_queue e2; ep_rq_len := S (ep_rq_len e1) |} ->
  shape s' -> ipc_frame s s' -> current_task s' = current_task s -> counters s' = counters s ->
  tasks s' = <[j := blocked (IpcReply (t_id ti) ep) (with_send None tj)]> (tasks s) ->
  endpoints s' = <[ep := e2]> (endpoints s) -> rq s' = rq s ->
  ipc_ok strict B s s'.
Proof.
  intros Hk Hi0 Hti Hrun He Hcl Htj Hre Hst Hjq Hwf1 Hse He1 Hwf2 Hrw2 He2 Hs' Hf Hcur Hcnt Hts Heps Hrq.
  pose proof Hk as [Hs Hci _ _ Hc _ _]. pose proof (ci_eps _ _ _ _ _ Hci _ _ He) as Hep.
  apply (move_ok _ B _ _ _ j tj (blocked (IpcReply (t_id ti) ep) (with_send None tj)) ep e e2); try done.
  - by rewrite Hcnt.
  - by rewrite He2, He1.
  - pose proof (ci_task _ _ _ _ _ Hci _ _ Htj) as Hokj. destruct (tk_reason _ _ Hokj _ Hre) as [Hj0 _].
    eapply task_ok_blocked; try done. rewrite <- (ci_eps_len _ _ _ _ _ Hci). by eapply lookup_lt_Some.
  - apply calm_awake; simpl; congruence.
  - congruence.
  - rewrite Hrq. apply Hci.
  - by rewrite Hrq.
  - rewrite Hrq. split; [done|]. by intros [_ ?].
  - intros r. rewrite Hre. by intros [= <-].
  - by intros r [= <-].
  - eapply (ep_ok_equiv (upd_reason (upd_reason (reason_of (tasks s)) j None) j _)).
    { intros k. symmetry. apply upd_reason_upd. }
    apply (enter_reply _ _ e1); [|unfold upd_reason; by rewrite decide_True|done|
      by rewrite He2|by rewrite He2|by rewrite He2|done].
    apply (leave_send _ _ e); [done|done|by rewrite He1|by rewrite He1|by rewrite He1|].
    rewrite Hse. by rewrite Permutation_app_comm.
  - intros p e' [= <- <-] _. exists i, ti. repeat split; try done; congruence.
Qed.

(** The end of a delivery: the statistics and the event. *)
Lemma delivery_logged {X} B s ep i ev (k : K X) Q :
  KInv strict kr us B s -> (B < u64_max)%Z ->
  (forall s', tasks s' = tasks s -> ipc_ok strict (B + 1) s s' -> returns k s' Q) ->
  returns (count_demo_delivery ep i ;; bump ipc_recv_fast (fun c v => {| c with ipc_recv_fast := v |}) ;;
           push_event ev ;; k) s Q.
Proof.
  intros Hk HB Hkont. destruct (count_delivery_ok strict B _ ep i Hk) as (s6 & Hrun6 & Hok6 & Hts6).
  eapply returns_step; [exact Hrun6|].
  pose proof (ki_counters _ _ _ _ _ (io_inv _ _ _ _ Hok6)) as Hc6.
  eapply returns_step; [apply bump_Ok; destruct Hc6; lia|]. cbv beta. kstep. apply Hkont; [done|].
  eapply ipc_ok_trans; [exact Hok6|]. apply counters_ok; [apply Hok6|]. destruct Hc6; split; simpl; lia.
Qed.

(** The sender a receive takes: it waits with its message, and there is room for it
    among the tasks that await a reply. *)
Lemma first_sender B s ep e i ti :
  KInv strict kr us B s -> tasks s !! i = Some ti -> t_state ti = Running ->
  endpoints s !! ep = Some e -> senders e <> [] ->
  exists j tj m e1, dequeue_sender e = Ok (Some j, e1) /\ Endpoint_wf e1 /\
    senders e = senders e1 ++ [j] /\ e1 = {| e with sq_len := sq_len e - 1 |} /\
    tasks s !! j = Some tj /\ t_blocked_reason tj = Some (IpcSend ep) /\ t_state tj = Blocked /\ (j ∉ rq s) /\
    t_pending_send_msg tj = Some m /\ j <> i /\ ep_rq_len e1 < MAX_TASKS /\ j ∉ reply_waiters e1.
Proof.
  intros Hk Hti Hrun He Hne. pose proof Hk as [Hs Hci _ _ Hcnt _ _].
  pose proof (ci_eps _ _ _ _ _ Hci _ _ He) as Hep.
  destruct (dequeue_sender_spec e (eo_wf _ _ _ Hep)) as [_ (j & e1 & Hdeq & Hwf1 & Hse & He1)].
  { rewrite <- senders_length by apply Hep. by destruct (senders e). }
  assert (Hrj : reason_of (tasks s) j = Some (IpcSend ep)).
  { apply (eo_send _ _ _ Hep). rewrite Hse. set_solver. }
  destruct (waiter_lookup _ _ _ _ _ _ _ Hci Hrj) as (tj & Htj & Hre & Hst & Hj0 & Hjq).
  destruct (tk_send _ _ (ci_task _ _ _ _ _ Hci _ _ Htj) _ Hre) as [m Hm].
  assert (Hrw1 : reply_waiters e1 = reply_waiters e) by by rewrite He1.
  assert (Hjr : j ∉ reply_waiters e1).
  { rewrite Hrw1. intros [p Hp]%(eo_reply _ _ _ Hep). congruence. }
  exists j, tj, m, e1. split_and!; try done; [intros ->; congruence|].
  replace (ep_rq_len e1) with (ep_rq_len e) by by rewrite He1.
  eapply reply_room; [done..| |by rewrite <- Hrw1]. by eapply lookup_bound.
Qed.

Lemma recv_fast_some B s ep e i ti :
  KInv strict kr us B s -> (B < u64_max)%Z -> i <> TASK0_INDEX ->
  tasks s !! i = Some ti -> t_state ti = Running ->
  endpoints s !! ep = Some e -> is_closed e = false -> senders e <> [] ->
  returns (ipc_recv_fastpath ep i) s (fun r s' => r = true /\ exists j tj m,
    tasks s !! j = Some tj /\ t_blocked_reason tj = Some (IpcSend ep) /\
    t_pending_send_msg tj = Some m /\ j <> i /\
    tasks s' = <[i := with_msg m ti]>
                 (<[j := blocked (IpcReply (t_id ti) ep) (with_send None tj)]> (tasks s)) /\
    ipc_ok strict (B + 1) s s').
Proof.
  intros Hk HB Hi0 Hti Hrun He Hcl Hne. pose proof Hk as [Hs Hci _ _ Hcnt _ _].
  destruct (first_sender B s ep e i ti Hk Hti Hrun He Hne)
    as (j & tj & m & e1 & Hdeq & Hwf1 & Hse & He1 & Htj & Hre & Hst & Hjq & Hm & Hji & Hroom & Hjr).
  assert (Hjlt : j < length (tasks s)) by by eapply lookup_lt_Some.
  unfold ipc_recv_fastpath. repeat kstep. cbn [dequeue_valid_sender]. apply returns_assoc.
  eapply returns_step; [by apply (with_endpoint_Ok _ _ _ _ _ _ He Hdeq)|]. cbv beta iota.
  repeat kstep. rewrite (num_tasks_leb s) by done.
  rewrite (proj2 (Nat.leb_gt _ _)) by (by eapply lookup_bound).
  repeat kstep. rewrite decide_False by congruence. rewrite decide_True by done.
  rewrite decide_False by congruence. repeat kstep. rewrite Hm.
  assert (Hti2 : <[j := with_send None tj]> (tasks s) !! i = Some ti) by by rewrite list_lookup_insert_ne.
  eapply returns_step; [apply task_at_Ok; exact Hti2|]. cbv beta.
  destruct (try_enqueue_reply_spec e1 j Hwf1 Hroom Hjr) as (e2 & Henq & Hwf2 & Hrw2 & He2).
  assert (Hlook1 : <[ep := e1]> (endpoints s) !! ep = Some e1).
  { apply list_lookup_insert_eq. by eapply lookup_lt_Some. }
  eapply returns_step; [eapply with_endpoint_Ok; [exact Hlook1|exact Henq]|]. cbv beta iota. ksimpl.
  rewrite list_insert_insert_eq.
  assert (Hlook2 : <[j := with_send None tj]> (tasks s) !! j = Some (with_send None tj))
    by by apply list_lookup_insert_eq.
  eapply returns_seq; [eapply block_task_spec; [|exact Hlook2|simpl; congruence|done]|].
  { destruct Hs. split; ksimpl; auto with kernel. }
  intros [] s4 (Hf4 & Hs4 & Hts4 & Hrq4). ksimpl. cbn [tasks] in Hts4.
  rewrite list_insert_insert_eq in Hts4.
  change (rq _) with (rq s) in Hrq4 at 2. rewrite filter_ne_id in Hrq4 by done.
  destruct (q_frame_fields _ _ Hf4) as (Hcur4 & Hcnt4 & Heps4 & Hfr4).
  assert (Hok4 : ipc_ok strict B s s4).
  { eapply (sender_awaits B s s4 ep e e1 e2 i ti j tj); try done. by etransitivity; [|exact Hfr4]. }
  assert (Hti4 : tasks s4 !! i = Some ti) by (rewrite Hts4; by rewrite list_lookup_insert_ne).
  kstep. match goal with |- returns _ ?s5 _ => assert (Hok5 : ipc_ok strict B s4 s5) end.
  { apply (benign_ok _ _ _ _ ti); try done; [apply Hok4| |by apply calm_fields].
    pose proof (ci_task _ _ _ _ _ Hci _ _ Hti) as Hoki.
    eapply task_ok_fields; try done; [congruence|by apply Hoki..]. }
  apply (delivery_logged B); [apply Hok5|done|]. intros s6 Hts6 Hok6.
  kstep. split; [done|]. exists j, tj, m. do 4 (split; [done|]).
  split; [by rewrite Hts6; simpl; rewrite Hts4|].
  eapply ipc_ok_trans; [exact Hok4|]. eapply ipc_ok_trans; [exact Hok5|exact Hok6].
Qed.

(** Waking a task that waits at endpoint [e] and leaves its queue, with other
    changes of its mailboxes. *)
Lemma wake_waiter_ok x B s s' i t t' e ep ep' :
  KInv x kr us B s -> tasks s !! i = Some t -> t_state t = Blocked ->
  (forall r, t_blocked_reason t = Some r -> reason_ep r = Some e) ->
  endpoints s !! e = Some ep -> is_closed ep' = is_closed ep ->
  shape s' -> ipc_frame s s' -> current_task s' = current_task s -> counters s' = counters s ->
  tasks s' = <[i := t']> (tasks s) -> endpoints s' = <[e := ep']> (endpoints s) ->
  rq s' = rq s ++ [i] -> t_state t' = Ready -> t_blocked_reason t' = None ->
  t_id t' = t_id t -> t_address_space_id t' = t_address_space_id t ->
  t_pending_syscall t' = t_pending_syscall t -> calm t t' ->
  ep_ok (upd_reason (reason_of (tasks s)) i None) e ep' ->
  ipc_ok x B s s'.
Proof.
  intros Hk Ht Hst Hre He Hcl Hs' Hf Hcur Hcnt Hts Heps Hrq Hst' Hre' Hid Has Hps Hcalm Hep.
  pose proof Hk as [Hs Hci _ _ Hc _ _]. pose proof (ci_task _ _ _ _ _ Hci _ _ Ht) as Hok.
  assert (Hi0 : i <> TASK0_INDEX).
  { destruct (proj1 (tk_blocked _ _ Hok) Hst) as [r Hr]. by destruct (tk_reason _ _ Hok _ Hr). }
  assert (Hnq : i ∉ rq s) by (eapply core_not_queued; [done..|congruence]).
  apply (move_ok _ B _ _ _ i t t' e ep ep'); try done.
  - by rewrite Hcnt.
  - eapply task_ok_awake; eauto. congruence.
  - congruence.
  - congruence.
  - rewrite Hrq. apply NoDup_app. split; [apply Hci|]. split; [|apply NoDup_singleton].
    by intros j Hj ->%list_elem_of_singleton.
  - intros j Hj. rewrite Hrq. set_solver.
  - rewrite Hrq, Hst'. set_solver.
  - by rewrite Hre'.
  - by rewrite Hre'.
  - by rewrite Hre'.
Qed.

Lemma rq_room x B s i : KInv x kr us B s -> i < MAX_TASKS -> i ∉ rq s -> rq_len s < MAX_TASKS.
Proof.
  intros Hk Hi Hni. rewrite <- rq_length by apply Hk. eapply core_q_room; [apply Hk|done..].
Qed.

(** ** Calls in the world *)

Context {A : Type} `{ArchLaws A} (ft : Features) (Hft : ring3_mailbox ft = false).

(** What every IPC call guarantees: the invariant, a running current task, and
    no effect on memory. *)
Definition ipc_done (B : Z) (w w' : World A) : Prop :=
  KInv strict kr us B (w_ks w') /\ running_ok (w_ks w') /\ core_step kr us w w'.

(** The situation of a call: the current task is running. *)
Record calling (B : Z) (w : World A) (ti : Task) : Prop := {
  ca_inv : KInv strict kr us B (w_ks w);
  ca_ready : arch_ready kr us (w_arch w);
  ca_bound : (B + 2 <= u64_max)%Z;
  ca_task : tasks (w_ks w) !! current_task (w_ks w) = Some ti;
  ca_running : t_state ti = Running }.

Lemma ipc_done_ks B w s' ti :
  calling B w ti -> ipc_ok strict (B + 2) (w_ks w) s' -> running_ok s' ->
  ipc_done (B + 2) w {| w with w_ks := s' |}.
Proof.
  intros Hca [] Hrun. split; [done|]. split; [done|]. by apply core_step_ks.
Qed.

Lemma schedule_done B w s1 ti :
  calling B w ti -> ipc_ok strict (B + 1) (w_ks w) s1 ->
  returns schedule_next_task {| w with w_ks := s1 |} (fun _ w' =>
    ipc_done (B + 2) w w' /\ abs (w_ks w') = abs s1).
Proof.
  intros [Hk Hr HB Ht Hrun] [Hk1 Hf Hc Hcur Hcl].
  eapply returns_mono; [apply (schedule_inv kr us strict _ (B + 1)); [done|done|lia]|].
  intros [] w' (Hk' & Hrun' & Hst & Habs). split; [|done].
  replace (B + 1 + 1)%Z with (B + 2)%Z in Hk' by lia. split; [done|]. split; [done|].
  etransitivity; [|exact Hst]. by apply core_step_ks.
Qed.

(** Blocking the current task at an endpoint, before the switch. *)
Lemma block_current_ok B B' w ti r ep e e' t0 s1 :
  calling B w ti -> (B <= B')%Z -> current_task (w_ks w) <> TASK0_INDEX ->
  endpoints (w_ks w) !! ep = Some e -> is_closed e = false -> is_closed e' = is_closed e ->
  reason_ep r = Some ep -> ep < MAX_ENDPOINTS -> calm ti t0 ->
  t_id t0 = t_id ti -> t_address_space_id t0 = t_address_space_id ti ->
  t_pending_syscall t0 = t_pending_syscall ti ->
  (forall e', r = IpcSend e' -> is_Some (t_pending_send_msg t0)) ->
  (forall p e, r = IpcReply p e -> exists j tj, tasks (w_ks w) !! j = Some tj /\ t_id tj = p /\
     j <> current_task (w_ks w) /\ j <> TASK0_INDEX /\ t_state tj <> Dead) ->
  ep_ok (upd_reason (reason_of (tasks (w_ks w))) (current_task (w_ks w)) (Some r)) ep e' ->
  shape s1 -> ipc_frame (w_ks w) s1 -> current_task s1 = current_task (w_ks w) ->
  counters_le B' (counters s1) ->
  tasks s1 = <[current_task (w_ks w) := blocked r t0]> (tasks (w_ks w)) ->
  endpoints s1 = <[ep := e']> (endpoints (w_ks w)) -> rq s1 = rq (w_ks w) ->
  ipc_ok strict B' (w_ks w) s1.
Proof.
  intros [Hk Hr HB Ht Hrun] HBB Hn0 He Hcl Hcl' Hre Hepb Hcalm Hid Has Hps Hsend Hrep Hep Hs1 Hf Hcur
    Hcnt Hts Heps Hrq.
  pose proof Hk as [Hs Hci _ _ _ _ _].
  pose proof (core_not_queued _ _ _ _ _ Hci _ _ Ht ltac:(congruence)) as Hnq.
  apply (move_ok _ B _ _ _ (current_task (w_ks w)) ti (blocked r t0) ep e e'); try done.
  - eapply task_ok_blocked; [by apply (ci_task _ _ _ _ _ Hci _ _ Ht)|done..].
  - destruct Hcalm. apply calm_awake; simpl; congruence.
  - congruence.
  - rewrite Hrq. apply Hci.
  - by rewrite Hrq.
  - rewrite Hrq. split; [done|]. by intros [_ ?].
  - intros r'. rewrite (core_not_blocked_reason _ _ _ _ _ Hci _ _ Ht) by congruence. done.
  - by intros r' [= <-].
  - intros p e1 [= ->] _. eauto.
Qed.

(** The slow path of a receive that has to wait. *)
Lemma recv_slow_wait B w ti ep e :
  calling B w ti -> current_task (w_ks w) <> TASK0_INDEX ->
  endpoints (w_ks w) !! ep = Some e -> is_closed e = false -> recv_waiter e = None ->
  returns (ipc_recv_slowpath ft ep (current_task (w_ks w))) w (fun _ w' =>
    ipc_done (B + 2) w w' /\ exists s1, abs (w_ks w') = abs s1 /\
      tasks s1 = <[current_task (w_ks w) := blocked (IpcRecv ep) ti]> (tasks (w_ks w)) /\
      is_closed <$> endpoints s1 = is_closed <$> endpoints (w_ks w)).
Proof.
  intros Hca Hn0 He Hcl Hw. pose proof Hca as [Hk Hr HB Ht Hrun].
  pose proof Hk as [Hs Hci _ _ Hcnt _ _]. pose proof (ci_eps _ _ _ _ _ Hci _ _ He) as Hep.
  unfold ipc_recv_slowpath. rewrite Hft. repeat wstep. rewrite Hw, decide_False by (by intros []).
  wstep. eapply returns_Ok; [apply bump_Ok; destruct Hcnt; lia|]. cbv beta. wstep.
  eapply returns_mono; [eapply block_task_spec; [|exact Ht|congruence|done]|].
  { by destruct Hs. }
  intros [] s2 (Hf2 & Hs2 & Hts2 & Hrq2). ksimpl. cbn [tasks] in Hts2.
  change (rq _) with (rq (w_ks w)) in Hrq2 at 2.
  rewrite filter_ne_id in Hrq2 by (eapply core_not_queued; [done..|congruence]).
  assert (He2 : endpoints s2 = endpoints (w_ks w)) by by rewrite (q_frame_eq _ _ Hf2).
  assert (He2' : endpoints s2 !! ep = Some e) by by rewrite He2.
  repeat wstep.
  eapply returns_Ok; [apply set_endpoint_Ok; by eapply lookup_lt_Some|]. cbv beta. repeat wstep.
  match goal with |- returns _ {| w with w_ks := ?s3 |} _ => pose (s3' := s3);
    assert (Hok : ipc_ok strict (B + 1) (w_ks w) s3') end.
  { apply (block_current_ok B _ w ti (IpcRecv ep) ep e
      {| e with recv_waiter := Some (current_task (w_ks w)) |} ti); try done; [lia|..].
    - rewrite <- (ci_eps_len _ _ _ _ _ Hci). by eapply lookup_lt_Some.
    - apply (enter_recv _ _ _ Hep); [|done]. rewrite (reason_of_lookup _ _ _ Ht).
      eapply core_not_blocked_reason; [done..|congruence].
    - by destruct Hs2.
    - etransitivity; [|etransitivity; [apply q_ipc_frame; exact Hf2|]]; done.
    - simpl. by rewrite (q_frame_eq _ _ Hf2).
    - simpl. rewrite (q_frame_eq _ _ Hf2). destruct Hcnt. split; simpl; lia.
    - simpl. by rewrite He2. }
  eapply returns_mono; [by eapply schedule_done|].
  intros [] w' (Hdone & Habs). split; [done|]. exists s3'. split; [done|]. split; [done|].
  apply Hok.
Qed.

Lemma current_reason B w ti :
  calling B w ti -> reason_of (tasks (w_ks w)) (current_task (w_ks w)) = None /\
    current_task (w_ks w) ∉ rq (w_ks w).
Proof.
  intros [Hk _ _ Ht Hrun]. pose proof (ki_core _ _ _ _ _ Hk) as Hci. split.
  - rewrite (reason_of_lookup _ _ _ Ht). eapply core_not_blocked_reason; [done..|congruence].
  - eapply core_not_queued; [done..|congruence].
Qed.

Lemma schedule_after_send_eq : schedule_after_send ft = schedule_next_task (A:=A).
Proof. unfold schedule_after_send. rewrite Hft. by destruct (ring3_mailbox_loop ft). Qed.

(** The slow path of a send. *)
Lemma send_slow_wait B w ti ep e m :
  calling B w ti -> current_task (w_ks w) <> TASK0_INDEX ->
  endpoints (w_ks w) !! ep = Some e -> is_closed e = false ->
  returns (ipc_send_slowpath ft ep (current_task (w_ks w)) m) w (fun _ w' =>
    ipc_done (B + 2) w w' /\ exists s1, abs (w_ks w') = abs s1 /\
      tasks s1 = <[current_task (w_ks w) := blocked (IpcSend ep) (with_send (Some m) ti)]>
                   (tasks (w_ks w)) /\
      is_closed <$> endpoints s1 = is_closed <$> endpoints (w_ks w)).
Proof.
  intros Hca Hn0 He Hcl. pose proof Hca as [Hk Hr HB Ht Hrun].
  destruct (current_reason _ _ _ Hca) as [Hnr Hnq].
  pose proof Hk as [Hs Hci _ _ Hcnt _ _]. pose proof (ci_eps _ _ _ _ _ Hci _ _ He) as Hep.
  assert (Hlt : current_task (w_ks w) < length (tasks (w_ks w))) by by eapply lookup_lt_Some.
  unfold ipc_send_slowpath. rewrite schedule_after_send_eq. repeat wstep.
  rewrite Nat.eqb_refl. simpl. repeat wstep.
  eapply returns_Ok; [apply bump_Ok; destruct Hcnt; lia|]. cbv beta. wstep.
  assert (Hns : current_task (w_ks w) ∉ senders e).
  { intros Hin%(eo_send _ _ _ Hep). congruence. }
  destruct (try_enqueue_sender_spec e _ (eo_wf _ _ _ Hep)
    (send_room _ _ _ _ _ _ _ _ Hci Hep (ci_cur _ _ _ _ _ Hci) Hns) Hns)
    as (e2 & Henq & Hwf2 & Hse2 & He2).
  eapply returns_Ok; [eapply with_endpoint_Ok; [exact He|exact Henq]|]. cbv beta iota. simpl. wsimpl.
  repeat wstep.
  eapply returns_mono; [eapply block_task_spec;
    [|by apply list_lookup_insert_eq|simpl; congruence|done]|].
  { destruct Hs. split; ksimpl; auto with kernel. }
  intros [] s2 (Hf2 & Hs2 & Hts2 & Hrq2). ksimpl. cbn [tasks] in Hts2.
  rewrite list_insert_insert_eq in Hts2.
  change (rq _) with (rq (w_ks w)) in Hrq2 at 2. rewrite filter_ne_id in Hrq2 by done.
  repeat wstep.
  match goal with |- returns _ {| w with w_ks := ?s3 |} _ => pose (s3' := s3);
    assert (Hok : ipc_ok strict (B + 1) (w_ks w) s3') end.
  { apply (block_current_ok B _ w ti (IpcSend ep) ep e e2 (with_send (Some m) ti)); try done; [lia|..].
    - by rewrite He2.
    - rewrite <- (ci_eps_len _ _ _ _ _ Hci). by eapply lookup_lt_Some.
    - by apply calm_fields.
    - apply (enter_send _ _ _ Hep); try done; by rewrite He2.
    - by destruct Hs2.
    - etransitivity; [|etransitivity; [apply q_ipc_frame; exact Hf2|]]; done.
    - simpl. by rewrite (q_frame_eq _ _ Hf2).
    - simpl. rewrite (q_frame_eq _ _ Hf2). destruct Hcnt. split; simpl; lia.
    - simpl. by rewrite (q_frame_eq _ _ Hf2). }
  eapply returns_mono; [by eapply schedule_done|].
  intros [] w' (Hdone & Habs). split; [done|]. exists s3'. split; [done|]. split; [done|].
  apply Hok.
Qed.

Lemma send_fast_none w ep e m :
  endpoints (w_ks w) !! ep = Some e -> recv_waiter e = None ->
  ipc_send_fastpath ft ep (current_task (w_ks w)) m w = Ok (false, w).
Proof.
  intros He Hw. unfold ipc_send_fastpath, kget. rewrite bind_gets, Nat.eqb_refl. simpl.
  rewrite (bind_Ok _ _ _ e w).
  - by rewrite Hw.
  - unfold ks. rewrite (zoom_Ok _ _ _ _ _ _ (endpoint_at_Ok _ _ _ He)). by destruct w.
Qed.

(** The receiver [j] leaves the endpoint with the message. *)
Lemma receiver_woken B s s' ep e j tj m :
  KInv strict kr us B s -> endpoints s !! ep = Some e -> recv_waiter e = Some j ->
  tasks s !! j = Some tj -> t_blocked_reason tj = Some (IpcRecv ep) -> t_state tj = Blocked ->
  shape s' -> ipc_frame s s' -> current_task s' = current_task s -> counters s' = counters s ->
  tasks s' = <[j := with_msg m (woken tj)]> (tasks s) ->
  endpoints s' = <[ep := {| e with recv_waiter := None |}]> (endpoints s) -> rq s' = rq s ++ [j] ->
  ipc_ok strict B s s'.
Proof.
  intros Hk He Hw Htj Hre Hst Hs' Hf Hcur Hcnt Hts Heps Hrq.
  pose proof (ci_eps _ _ _ _ _ (ki_core _ _ _ _ _ Hk) _ _ He) as Hep.
  apply (wake_waiter_ok _ _ _ _ j tj (with_msg m (woken tj)) ep e {| e with recv_waiter := None |}); try done.
  - intros r. rewrite Hre. by intros [= <-].
  - apply calm_awake; simpl; congruence.
  - by apply (leave_recv _ _ _ Hep).
Qed.

(** The second half of the fast path of a send: the sender awaits the reply of [j]. *)
Lemma send_fast_block B w ti ep e j tj msg :
  calling B w ti -> current_task (w_ks w) <> TASK0_INDEX ->
  endpoints (w_ks w) !! ep = Some e -> is_closed e = false ->
  tasks (w_ks w) !! j = Some tj -> j <> current_task (w_ks w) -> j <> TASK0_INDEX -> t_state tj <> Dead ->
  let send_idx := current_task (w_ks w) in
  returns (ok ← ks (with_endpoint ep (fun e => try_enqueue_reply_waiter e send_idx));
           if negb ok then
             ks (upd_task send_idx (fun t => {| t with t_last_reply := Some IPC_ERR_CAPACITY |})) ;; mret true
           else
             ks (block_task send_idx (IpcReply (t_id tj) ep)) ;;
             ks (count_demo_delivery ep j) ;;
             ks (bump ipc_send_fast (fun c v => {| c with ipc_send_fast := v |})) ;;
             ks (push_event (IpcDelivered (t_id ti) (t_id tj) ep msg)) ;;
             schedule_next_task ;; mret true) w
    (fun r w' => r = true /\ ipc_done (B + 2) w w' /\ exists s1, abs (w_ks w') = abs s1 /\
      tasks s1 = <[send_idx := blocked (IpcReply (t_id tj) ep) ti]> (tasks (w_ks w)) /\
      is_closed <$> endpoints s1 = is_closed <$> endpoints (w_ks w)).
Proof.
  intros Hca Hn0 He Hcl Htj Hji Hj0 Hd send_idx. pose proof Hca as [Hk Hr HB Ht Hrun].
  pose proof Hk as [Hs Hci _ _ Hcnt _ _]. pose proof (ci_eps _ _ _ _ _ Hci _ _ He) as Hep.
  destruct (current_reason _ _ _ Hca) as [Hnr Hnq].
  assert (Hnrw : send_idx ∉ reply_waiters e).
  { intros [p Hp]%(eo_reply _ _ _ Hep). unfold send_idx in Hp. congruence. }
  destruct (try_enqueue_reply_spec e _ (eo_wf _ _ _ Hep)
    (reply_room _ _ _ _ _ _ _ _ Hci Hep (ci_cur _ _ _ _ _ Hci) Hnrw) Hnrw) as (e2 & Henq & Hwf2 & Hrw2 & He2).
  wstep. eapply returns_Ok; [eapply with_endpoint_Ok; [exact He|exact Henq]|]. cbv beta iota. simpl.
  wstep. eapply returns_mono; [eapply block_task_spec; [|exact Ht|congruence|done]|].
  { by destruct Hs. }
  intros [] s5 (Hf5 & Hs5 & Hts5 & Hrq5). ksimpl. cbn [tasks] in Hts5.
  change (rq _) with (rq (w_ks w)) in Hrq5 at 2. rewrite filter_ne_id in Hrq5 by done.
  destruct (q_frame_fields _ _ Hf5) as (Hcur5 & Hcnt5 & Heps5 & Hfr5).
  assert (Hok5 : ipc_ok strict B (w_ks w) s5).
  { apply (block_current_ok B B w ti (IpcReply (t_id tj) ep) ep e e2 ti); try done.
    - by rewrite He2.
    - rewrite <- (ci_eps_len _ _ _ _ _ Hci). by eapply lookup_lt_Some.
    - intros p e' [= <- <-]. by exists j, tj.
    - apply (enter_reply _ _ _ Hep); try done; by rewrite He2.
    - by etransitivity; [|exact Hfr5].
    - by rewrite Hcnt5. }
  wstep. destruct (count_delivery_ok strict B _ ep j (io_inv _ _ _ _ Hok5)) as (s6 & Hrun6 & Hok6 & Hts6).
  eapply returns_Ok; [exact Hrun6|]. wstep.
  pose proof (ki_counters _ _ _ _ _ (io_inv _ _ _ _ Hok6)) as Hc6.
  eapply returns_Ok; [apply bump_Ok; destruct Hc6; lia|]. cbv beta. repeat wstep.
  match goal with |- returns _ {| w with w_ks := ?s7 |} _ => pose (s7' := s7);
    assert (Hok7 : ipc_ok strict (B + 1) s6 s7') end.
  { apply counters_ok; [apply Hok6|]. destruct Hc6; split; simpl; lia. }
  assert (Hok : ipc_ok strict (B + 1) (w_ks w) s7').
  { eapply ipc_ok_trans; [exact Hok5|]. eapply ipc_ok_trans; [exact Hok6|exact Hok7]. }
  eapply returns_seq; [exact (schedule_done _ _ _ _ Hca Hok)|].
  intros [] w' (Hdone & Habs). wstep. split; [done|]. split; [done|]. exists s7'. split; [done|]. split.
  - unfold s7'. simpl. by rewrite Hts6, Hts5.
  - by rewrite (io_closed _ _ _ _ Hok).
Qed.

(** The fast path of a send: the waiting receiver gets the message. *)
Lemma send_fast_some B w ti ep e j m :
  calling B w ti -> current_task (w_ks w) <> TASK0_INDEX ->
  endpoints (w_ks w) !! ep = Some e -> is_closed e = false -> recv_waiter e = Some j ->
  returns (ipc_send_fastpath ft ep (current_task (w_ks w)) m) w (fun r w' => r = true /\
    ipc_done (B + 2) w w' /\ exists tj s1, tasks (w_ks w) !! j = Some tj /\
      t_state tj = Blocked /\ t_blocked_reason tj = Some (IpcRecv ep) /\
      j <> current_task (w_ks w) /\ abs (w_ks w') = abs s1 /\
      tasks s1 = <[current_task (w_ks w) := blocked (IpcReply (t_id tj) ep) ti]>
                   (<[j := with_msg m (woken tj)]> (tasks (w_ks w))) /\
      is_closed <$> endpoints s1 = is_closed <$> endpoints (w_ks w)).
Proof.
  intros Hca Hn0 He Hcl Hw. pose proof Hca as [Hk Hr HB Ht Hrun].
  pose proof Hk as [Hs Hci _ _ Hcnt _ _]. pose proof (ci_eps _ _ _ _ _ Hci _ _ He) as Hep.
  assert (Hrj : reason_of (tasks (w_ks w)) j = Some (IpcRecv ep)) by by apply (eo_recv _ _ _ Hep).
  destruct (waiter_lookup _ _ _ _ _ _ _ Hci Hrj) as (tj & Htj & Hre & Hst & Hj0 & Hjq).
  destruct (current_reason _ _ _ Hca) as [Hnr _].
  assert (Hji : j <> current_task (w_ks w)) by (intros ->; congruence).
  pose proof (lookup_bound _ _ _ Hs Htj) as Hjb.
  unfold ipc_send_fastpath. rewrite schedule_after_send_eq. repeat wstep.
  rewrite Nat.eqb_refl. simpl. repeat wstep. rewrite Hw. rewrite (num_tasks_leb (w_ks w)) by done.
  rewrite (proj2 (Nat.leb_gt _ _)) by done. repeat wstep.
  rewrite decide_False by congruence. rewrite decide_False by (by intros []).
  wstep. eapply returns_Ok; [apply set_endpoint_Ok; by eapply lookup_lt_Some|]. cbv beta. repeat wstep.
  eapply returns_mono; [eapply wake_blocked_spec; [|exact Htj|done|exact Hjq|]|].
  { by destruct Hs. }
  { exact (rq_room _ _ _ j Hk Hjb Hjq). }
  intros [] s2 (Hf2 & Hs2 & Hts2 & Hrq2). ksimpl. cbn [tasks] in Hts2.
  change (rq _) with (rq (w_ks w)) in Hrq2 at 2. destruct (q_frame_fields _ _ Hf2) as (Hcur2 & Hcnt2 & Heps2 & Hfr2).
  assert (Htj2 : tasks s2 !! j = Some (woken tj)).
  { rewrite Hts2. apply list_lookup_insert_eq. by eapply lookup_lt_Some. }
  wstep. wstep. match goal with |- returns _ {| w with w_ks := ?s3 |} _ => set (s3' := s3) end.
  assert (Hts3 : tasks s3' = <[j := with_msg m (woken tj)]> (tasks (w_ks w)))
    by (simpl; by rewrite Hts2, list_insert_insert_eq).
  assert (Hok3 : ipc_ok strict B (w_ks w) s3').
  { apply (receiver_woken B _ _ ep e j tj m); try done.
    - destruct Hs2. split; simpl; auto with kernel.
    - etransitivity; [|etransitivity; [exact Hfr2|]]; done. }
  assert (He3 : endpoints s3' !! ep = Some {| e with recv_waiter := None |}).
  { simpl. rewrite Heps2. apply list_lookup_insert_eq. by eapply lookup_lt_Some. }
  clearbody s3'. pose proof Hok3 as [Hk3 Hfr3 Hcalm3 Hcur3 Hcl3].
  assert (Hca3 : calling B {| w with w_ks := s3' |} ti).
  { split; try done. simpl. by rewrite Hcur3, Hts3, list_lookup_insert_ne. }
  rewrite <- Hcur3. eapply returns_mono.
  { apply (send_fast_block B {| w with w_ks := s3' |} ti ep {| e with recv_waiter := None |} j (with_msg m (woken tj)) m Hca3); simpl; try done.
    - by rewrite Hcur3.
    - rewrite Hts3. apply list_lookup_insert_eq. by eapply lookup_lt_Some.
    - by rewrite Hcur3. }
  intros r w' (-> & (Hk' & Hrun' & Hst') & s1 & Habs & Hts1 & Hcl1). split; [done|]. split.
  { split; [done|]. split; [done|]. etransitivity; [|exact Hst']. by apply core_step_ks. }
  exists tj, s1. simpl in Hts1, Hcl1. rewrite Hts3 in Hts1. rewrite Hcl3 in Hcl1. rewrite Hcur3 in *. by split_and!.
Qed.

(** ** Reply *)

(** With two user tasks, whoever awaits a reply awaits it from the other one. *)
Lemma waits_for_current ts cur q eps j p e :
  CoreInv strict ts cur q eps -> cur <> TASK0_INDEX -> reason_of ts cur = None ->
  reason_of ts j = Some (IpcReply p e) -> p = id_of cur.
Proof.
  intros Hci Hc0 Hcr Hj.
  destruct (ci_partner _ _ _ _ _ Hci _ _ _ Hj) as (k & tk & Hk & Hid & Hkj & Hk0 & _); [done|].
  destruct (waiter_lookup _ _ _ _ _ _ _ Hci Hj) as (tj & Htj & _ & _ & Hj0 & _).
  assert (j <> cur) by (intros ->; congruence).
  pose proof (ci_cur _ _ _ _ _ Hci). pose proof (ci_len _ _ _ _ _ Hci) as Hlen.
  apply lookup_lt_Some in Htj. pose proof (lookup_lt_Some _ _ _ Hk).
  rewrite <- Hid, (tk_id _ _ (ci_task _ _ _ _ _ Hci _ _ Hk)).
  unfold id_of, TASK0_INDEX, MAX_TASKS in *. lia.
Qed.

Lemma reply_none B s ti ep e m :
  KInv strict kr us B s -> current_task s <> TASK0_INDEX ->
  tasks s !! current_task s = Some ti -> t_state ti = Running ->
  endpoints s !! ep = Some e -> is_closed e = false -> reply_waiters e = [] ->
  returns (ipc_reply ep m) s (fun _ s' => s' = s).
Proof.
  intros Hk Hn0 Ht Hrun He Hcl Hrw. pose proof Hk as [Hs Hci _ _ _ _ _].
  assert (Hep : ep < MAX_ENDPOINTS)
    by (rewrite <- (ci_eps_len _ _ _ _ _ Hci); by eapply lookup_lt_Some).
  unfold ipc_reply. eapply returns_seq; [eapply ipc_entry_spec; [done..|congruence]|].
  unfold entry_outcome. rewrite (proj2 (Nat.leb_gt _ _)) by done.
  rewrite (proj2 (Nat.eqb_neq _ _)) by done. rewrite He, Hcl. intros r _ [-> ->]. repeat kstep.
  unfold take_reply_waiter_for_partner. rewrite (proj2 (Nat.leb_gt _ _)) by done. repeat kstep.
  assert (Hz : ep_rq_len e = 0).
  { rewrite <- reply_waiters_length, Hrw by apply (ci_eps _ _ _ _ _ Hci _ _ He). done. }
  rewrite Hz. cbn [take_reply_waiter_loop]. by repeat kstep.
Qed.

(** The last task in the reply queue of an endpoint awaits the running task. *)
Lemma last_reply_waiter B s ti ep e :
  KInv strict kr us B s -> current_task s <> TASK0_INDEX ->
  tasks s !! current_task s = Some ti -> t_state ti = Running ->
  endpoints s !! ep = Some e -> reply_waiters e <> [] ->
  exists pos j tj e1, ep_rq_len e = S pos /\ reply_waiters e !! pos = Some j /\
    remove_reply_waiter_at e pos = Ok (Some j, e1) /\ Endpoint_wf e1 /\
    reply_waiters e ≡ₚ j :: reply_waiters e1 /\
    e1 = {| e with reply_queue := reply_queue e1; ep_rq_len := ep_rq_len e - 1 |} /\
    tasks s !! j = Some tj /\ t_blocked_reason tj = Some (IpcReply (t_id ti) ep) /\
    t_state tj = Blocked /\ (j ∉ rq s) /\ j <> current_task s.
Proof.
  intros Hk Hn0 Ht Hrun He Hne. pose proof (ki_core _ _ _ _ _ Hk) as Hci.
  pose proof (ci_eps _ _ _ _ _ Hci _ _ He) as Hep.
  pose proof (reply_waiters_length e (eo_wf _ _ _ Hep)) as Hlen.
  destruct (ep_rq_len e) as [|pos] eqn:Hpos; [by destruct (reply_waiters e)|].
  destruct (lookup_lt_is_Some_2 (reply_waiters e) pos) as [j Hj]; [lia|].
  destruct (eo_reply _ _ _ Hep j) as [Hjr _].
  destruct Hjr as [p Hp]; [by eapply list_elem_of_lookup_2|].
  destruct (waiter_lookup _ _ _ _ _ _ _ Hci Hp) as (tj & Htj & Hre & Hst & Hj0 & Hjq).
  assert (Hcr : reason_of (tasks s) (current_task s) = None).
  { rewrite (reason_of_lookup _ _ _ Ht). eapply core_not_blocked_reason; [done..|congruence]. }
  assert (Hji : j <> current_task s) by (intros ->; congruence).
  assert (p = t_id ti) as ->.
  { rewrite (tk_id _ _ (ci_task _ _ _ _ _ Hci _ _ Ht)). by eapply waits_for_current. }
  destruct (remove_reply_waiter_at_spec e pos j (eo_wf _ _ _ Hep) Hj)
    as (e1 & Hrem & Hwf1 & Hperm & _ & He1).
  exists pos, j, tj, e1. rewrite Hpos in He1. by split_and!.
Qed.

Lemma reply_some B s ti ep e m :
  KInv strict kr us B s -> (B < u64_max)%Z -> current_task s <> TASK0_INDEX ->
  tasks s !! current_task s = Some ti -> t_state ti = Running ->
  endpoints s !! ep = Some e -> is_closed e = false -> reply_waiters e <> [] ->
  returns (ipc_reply ep m) s (fun _ s' => exists j tj, tasks s !! j = Some tj /\
    t_state tj = Blocked /\ t_blocked_reason tj = Some (IpcReply (t_id ti) ep) /\
    j <> current_task s /\ tasks s' = <[j := woken (with_reply m tj)]> (tasks s) /\
    ipc_ok strict (B + 1) s s').
Proof.
  intros Hk HB Hn0 Ht Hrun He Hcl Hne. pose proof Hk as [Hs Hci _ _ _ _ _].
  pose proof (ci_eps _ _ _ _ _ Hci _ _ He) as Hep.
  assert (Hepb : ep < MAX_ENDPOINTS)
    by (rewrite <- (ci_eps_len _ _ _ _ _ Hci); by eapply lookup_lt_Some).
  destruct (last_reply_waiter _ _ _ _ _ Hk Hn0 Ht Hrun He Hne)
    as (pos & j & tj & e1 & Hpos & Hj & Hrem & Hwf1 & Hperm & He1 & Htj & Hre & Hst & Hjq & Hji).
  pose proof (lookup_bound _ _ _ Hs Htj) as Hjb.
  unfold ipc_reply. eapply returns_seq; [eapply ipc_entry_spec; [done..|congruence]|].
  unfold entry_outcome. rewrite (proj2 (Nat.leb_gt _ _)) by done.
  rewrite (proj2 (Nat.eqb_neq _ _)) by done. rewrite He, Hcl. intros r _ [-> ->]. repeat kstep.
  unfold take_reply_waiter_for_partner. rewrite (proj2 (Nat.leb_gt _ _)) by done. repeat kstep.
  rewrite Hpos. cbn [take_reply_waiter_loop]. repeat kstep.
  apply live_lookup in Hj as [Hj _]. rewrite (read_at_Ok _ _ _ Hj). repeat kstep.
  rewrite (num_tasks_leb s) by done. rewrite (proj2 (Nat.leb_gt _ _)) by done. repeat kstep.
  rewrite decide_False by congruence. rewrite decide_True by done. repeat kstep.
  eapply returns_step; [exact (with_endpoint_Ok _ _ _ _ _ _ He Hrem)|]. cbv beta. repeat kstep.
  rewrite (num_tasks_leb s) by done. rewrite (proj2 (Nat.leb_gt _ _)) by done. repeat kstep.
  rewrite decide_False by congruence. rewrite decide_False by (by intros []). repeat kstep.
  assert (Hlook : <[j := with_reply m tj]> (tasks s) !! j = Some (with_reply m tj)).
  { apply list_lookup_insert_eq. by eapply lookup_lt_Some. }
  eapply returns_seq; [eapply wake_blocked_spec; [|exact Hlook|done|exact Hjq|]|].
  { destruct Hs. split; ksimpl; auto with kernel. }
  { exact (rq_room _ _ _ j Hk Hjb Hjq). }
  intros [] s2 (Hf2 & Hs2 & Hts2 & Hrq2). cbn [tasks] in Hts2. rewrite list_insert_insert_eq in Hts2.
  change (rq _) with (rq s) in Hrq2 at 2.
  assert (Hok2 : ipc_ok strict B s s2).
  { apply (wake_waiter_ok _ _ _ _ j tj (woken (with_reply m tj)) ep e e1); try done;
      try (by rewrite (q_frame_eq _ _ Hf2)).
    - intros r. rewrite Hre. by intros [= <-].
    - by rewrite He1.
    - apply calm_awake; simpl; congruence.
    - apply (leave_reply _ _ _ Hep); try done; by rewrite He1. }
  destruct (count_reply_ok strict B _ ep (current_task s) (io_inv _ _ _ _ Hok2))
    as (s3 & Hrun3 & Hok3 & Hts3).
  eapply returns_step; [exact Hrun3|].
  pose proof (ki_counters _ _ _ _ _ (io_inv _ _ _ _ Hok3)) as Hc3.
  eapply returns_step; [apply bump_Ok; destruct Hc3; lia|]. cbv beta. kstep.
  exists j, tj. do 4 (split; [done|]). split; [simpl; by rewrite Hts3, Hts2|].
  eapply ipc_ok_trans; [exact Hok2|]. eapply ipc_ok_trans; [exact Hok3|].
  apply counters_ok; [apply Hok3|]. destruct Hc3; split; simpl; lia.
Qed.

End ipc_inv.
