(* ===== verification/IpcRefine.v ===== *)
(** * IPC implements its specification

    Every IPC call of the kernel, made by a running task in a state that
    satisfies the invariant, returns, keeps the invariant, leaves a running
    current task, touches no memory, and is a step of the abstract
    specification [ipc_spec]. *)

From stdpp Require Import base list option sets.
From Stdlib Require Import ZArith Lia.
From S2P Require Import Prelude Addr AddressSpace FrameAlloc Queues KTypes Endpoint EventLog KState.
From S2P Require Import ArchIface Sched Ipc Kill Demo Syscall Tick IpcSpec Invariant IpcInv.

(** ** Reading the abstract state *)

Lemma status_receiving t e : status t = Receiving e -> t_blocked_reason t = Some (IpcRecv e).
Proof. unfold status. repeat case_match; naive_solver. Qed.

Lemma status_sending t e m :
  status t = Sending e m -> t_blocked_reason t = Some (IpcSend e) /\ t_pending_send_msg t = Some m.
Proof. unfold status. repeat case_match; naive_solver. Qed.

Lemma status_awaiting t p e :
  status t = AwaitingReply p e -> t_blocked_reason t = Some (IpcReply p e).
Proof. unfold status. repeat case_match; naive_solver. Qed.

Section nobody.
Context (x : slack) (s : KernelState) (ep : EndpointId) (e : Endpoint).
Context (Hci : CoreInv x (tasks s) (current_task s) (rq s) (endpoints s)).
Context (He : endpoints s !! ep = Some e).

Lemma view_lookup j a :
  (view <$> tasks s) !! j = Some a -> exists t, tasks s !! j = Some t /\ a = view t.
Proof. rewrite list_lookup_fmap_Some. naive_solver. Qed.

Lemma nobody_receiving : recv_waiter e = None -> nobody (.= Receiving ep) (view <$> tasks s).
Proof.
  intros Hw j a (t & Ht & ->)%view_lookup Hst%status_receiving.
  assert (recv_waiter e = Some j); [|congruence].
  apply (eo_recv _ _ _ (ci_eps _ _ _ _ _ Hci _ _ He)). by rewrite (reason_of_lookup _ _ _ Ht).
Qed.

Lemma nobody_sending :
  senders e = [] -> nobody (fun st => exists m, st = Sending ep m) (view <$> tasks s).
Proof.
  intros Hw j a (t & Ht & ->)%view_lookup [m [Hst _]%status_sending].
  assert (j ∈ senders e) as Hin; [|rewrite Hw in Hin; by apply elem_of_nil in Hin].
  apply (eo_send _ _ _ (ci_eps _ _ _ _ _ Hci _ _ He)). by rewrite (reason_of_lookup _ _ _ Ht).
Qed.

Lemma nobody_awaiting p : reply_waiters e = [] -> nobody (.= AwaitingReply p ep) (view <$> tasks s).
Proof.
  intros Hw j a (t & Ht & ->)%view_lookup Hst%status_awaiting.
  assert (j ∈ reply_waiters e) as Hin; [|rewrite Hw in Hin; by apply elem_of_nil in Hin].
  apply (eo_reply _ _ _ (ci_eps _ _ _ _ _ Hci _ _ He)). exists p.
  by rewrite (reason_of_lookup _ _ _ Ht).
Qed.

Lemma closed_lookup : (is_closed <$> endpoints s) !! ep = Some (is_closed e).
Proof. by rewrite list_lookup_fmap, He. Qed.

End nobody.

Section refine.
Context {A : Type} `{ArchLaws A} (kr : PhysFrame) (us : list PhysFrame).
Context (ft : Features) (Hft : ring3_mailbox ft = false).

(** The three calls as one. *)
Definition do_call (c : ipc_call) : W A unit :=
  match c with
  | CallRecv ep => ipc_recv ft ep
  | CallSend ep m => ipc_send ft ep m
  | CallReply ep m => ks (ipc_reply ep m)
  end.

(** Logging before the call proper. *)
Lemma calling_push B w ti l h n :
  calling kr us B w ti -> let s := w_ks w in
  calling kr us B {| w with w_ks := {| s with event_log := l; event_log_head := h;
                                               event_log_len := n |} |} ti.
Proof. intros [Hk]. split; try done. by apply push_ok. Qed.

Lemma calling_running B w ti : calling kr us B w ti -> running_ok (w_ks w).
Proof. intros []. unfold running_ok. by rewrite (state_of_lookup _ _ _ ca_task), ca_running. Qed.

Lemma ipc_done_trans B w w1 w' :
  core_step kr us w w1 -> ipc_done kr us B w1 w' -> ipc_done kr us B w w'.
Proof. intros Hst (Hk & Hrun & Hst'). split; [done|]. split; [done|]. by transitivity w1. Qed.

(** An error value in the mailbox of the caller. *)
Lemma set_reply_done B w ti v :
  calling kr us B w ti -> let s := w_ks w in
  let s' := {| s with tasks := <[current_task s := with_reply v ti]> (tasks s) |} in
  ipc_done kr us (B + 2) w {| w with w_ks := s' |} /\
  abs s' = mkAIpc (<[current_task s := mkATask (a_status (view ti)) (a_msg (view ti)) (Some v)]>
    (view <$> tasks s)) (is_closed <$> endpoints s).
Proof.
  intros Hca. pose proof Hca as [Hk Hr HB Ht Hrun]. pose proof Hk as [Hs Hci _ _ _ _ _].
  pose proof (ci_task _ _ _ _ _ Hci _ _ Ht) as Hok. cbv zeta. split.
  - apply (ipc_done_ks kr us B _ _ ti Hca).
    + eapply benign_ok; try done.
      * eapply KInv_mono; [|done]. lia.
      * eapply task_ok_fields; try done; [congruence|apply (tk_send _ _ Hok)|apply (tk_pending _ _ Hok)].
      * by apply calm_fields.
    + unfold running_ok. ksimpl. rewrite state_of_insert, decide_True by
        (done || by eapply lookup_lt_Some). simpl. congruence.
  - unfold abs. ksimpl. by rewrite view_insert.
Qed.

(** The rejected calls. *)
Lemma reject_spec B w ti c err :
  calling kr us B w ti -> entry_outcome (call_ep c) (w_ks w) = Some err ->
  let s' := match err with
            | Some v => set_last_reply (current_task (w_ks w)) v (w_ks w)
            | None => w_ks w
            end in
  ipc_done kr us (B + 2) w {| w with w_ks := s' |} /\
  ipc_spec (current_task (w_ks w)) (view ti) c (abs (w_ks w)) (abs s').
Proof.
  intros Hca Hout. pose proof Hca as [Hk Hr HB Ht Hrun]. pose proof Hk as [Hs Hci _ _ _ _ _].
  pose proof (fun v => set_reply_done B w ti v Hca) as Hset. cbv zeta in Hset.
  unfold set_last_reply. rewrite Ht.
  unfold entry_outcome in Hout. destruct (Nat.leb_spec MAX_ENDPOINTS (call_ep c)) as [Hep|Hep].
  { injection Hout as <-. split; [|by apply spec_bad_endpoint].
    apply (ipc_done_ks kr us B _ _ ti Hca); [|by eapply calling_running].
    apply ipc_ok_refl. eapply KInv_mono; [|done]. lia. }
  destruct (Nat.eqb_spec (current_task (w_ks w)) TASK0_INDEX) as [H00|H00].
  { injection Hout as <-. destruct (Hset IPC_ERR_DEAD_PARTNER) as [Hd Habs]. cbv zeta. rewrite Habs. split; [done|].
    by apply spec_kernel. }
  destruct (core_endpoint _ _ _ _ _ Hci _ Hep) as (e & He & _). rewrite He in Hout.
  destruct (is_closed e) eqn:Hcl; [|done]. injection Hout as <-.
  destruct (Hset IPC_ERR_ENDPOINT_CLOSED) as [Hd Habs]. cbv zeta. rewrite Habs. split; [done|].
  apply spec_closed; [done|]. rewrite (closed_lookup _ _ _ He). by rewrite Hcl.
Qed.

(** A call that passes the entry checks. *)
Lemma entry_accepted B w ti ep :
  calling kr us B w ti -> entry_outcome ep (w_ks w) = None ->
  current_task (w_ks w) <> TASK0_INDEX /\
  exists e, endpoints (w_ks w) !! ep = Some e /\ is_closed e = false /\
    (is_closed <$> endpoints (w_ks w)) !! ep = Some false.
Proof.
  intros Hca. unfold entry_outcome. destruct (Nat.leb_spec MAX_ENDPOINTS ep); [done|].
  destruct (Nat.eqb_spec (current_task (w_ks w)) TASK0_INDEX); [done|].
  destruct (endpoints (w_ks w) !! ep) as [e|] eqn:He; [|done].
  destruct (is_closed e) eqn:Hcl; [done|]. intros _. split; [done|]. exists e.
  rewrite (closed_lookup _ _ _ He), Hcl. done.
Qed.

(** How a call that ends in a switch shows up in the abstract state. *)
Lemma abs_of s s1 ts cl :
  abs s = abs s1 -> tasks s1 = ts -> is_closed <$> endpoints s1 = cl ->
  abs s = mkAIpc (view <$> ts) cl.
Proof. intros -> <- <-. done. Qed.

Lemma ipc_recv_spec B w ti ep :
  calling kr us B w ti ->
  returns (ipc_recv ft ep) w (fun _ w' => ipc_done kr us (B + 2) w w' /\
    ipc_spec (current_task (w_ks w)) (view ti) (CallRecv ep) (abs (w_ks w)) (abs (w_ks w'))).
Proof.
  intros Hca. pose proof Hca as [Hk Hr HB Ht Hrun].
  unfold ipc_recv. wstep. eapply returns_mono; [eapply ipc_entry_spec; [done..|congruence]|].
  intros r s1 Hout. destruct (entry_outcome ep (w_ks w)) as [err|] eqn:Hent.
  { destruct Hout as [-> ->]. wstep. by apply (reject_spec B w ti (CallRecv ep) err). }
  destruct Hout as [-> ->]. destruct (entry_accepted _ _ _ _ Hca Hent) as (Hn0 & e & He & Hcl & Hcle).
  repeat wstep. pose proof (calling_push B w ti x x0 x1 Hca) as Hca1. cbv zeta in Hca1.
  match type of Hca1 with calling _ _ _ {| w with w_ks := ?st |} _ => set (s1 := st) in * end.
  assert (Hst1 : core_step kr us w {| w with w_ks := s1 |}) by by apply core_step_ks.
  pose proof (ki_core _ _ _ _ _ Hk) as Hci.
  pose proof (ci_task _ _ _ _ _ Hci _ _ Ht) as Hok.
  destruct (decide (senders e = [])) as [Hse|Hse].
  - eapply returns_Ok; [by apply (recv_fast_none kr us B s1 ep e); [apply Hca1|..]|]. cbv beta iota.
    pose proof (nobody_sending _ _ _ _ Hci He Hse) as Hns.
    destruct (recv_waiter e) as [j|] eqn:Hw.
    + unfold ipc_recv_slowpath. repeat wstep. rewrite Hw, decide_True by by eexists. repeat wstep.
      destruct (set_reply_done B _ ti IPC_ERR_RECV_ALREADY_WAITING Hca1) as [Hd Habs].
      split; [by eapply ipc_done_trans|].
      assert (Hrj : reason_of (tasks (w_ks w)) j = Some (IpcRecv ep))
        by by apply (eo_recv _ _ _ (ci_eps _ _ _ _ _ Hci _ _ He)).
      destruct (waiter_lookup _ _ _ _ _ _ _ Hci Hrj) as (tj & Htj & Hre & Hst & _).
      refine (eq_ind_r (fun σ => ipc_spec _ _ _ _ σ) _ Habs).
      eapply (spec_recv_busy _ _ _ _ _ j (view tj)); try done.
      * by rewrite list_lookup_fmap, Htj.
      * unfold view, status. simpl. by rewrite Hst, Hre.
    + eapply returns_mono; [eapply (recv_slow_wait kr us ft Hft B _ ti ep e Hca1); done|].
      intros [] w' (Hd & s2 & Habs & Hts & Hcls). split; [by eapply ipc_done_trans|].
      rewrite (abs_of _ _ _ _ Habs Hts Hcls), view_insert. by apply spec_recv_wait;
        [| |apply Hns|eapply nobody_receiving].
  - eapply returns_mono; [apply (recv_fast_some kr us B s1 ep e _ ti); try done; [apply Hca1|lia]|].
    intros r s2 (-> & j & tj & m & Htj & Hre & Hm & Hji & Hts & Hio). wstep.
    assert (Hst : t_state tj = Blocked) by by eapply core_reason_blocked.
    split.
    + apply (ipc_done_trans _ _ {| w with w_ks := s1 |}); [done|].
      apply (ipc_done_ks kr us B _ _ ti Hca1).
      * eapply ipc_ok_trans; [exact Hio|]. apply ipc_ok_refl. eapply KInv_mono; [|apply Hio]. lia.
      * unfold running_ok. rewrite (io_cur _ _ _ _ _ _ Hio), Hts. simpl.
        rewrite state_of_insert, decide_True by (rewrite ?length_insert; done || by eapply lookup_lt_Some).
        simpl. congruence.
    + rewrite (abs_of _ _ _ _ eq_refl Hts (io_closed _ _ _ _ _ _ Hio)), !view_insert.
      rewrite (tk_id _ _ Hok).
      refine (spec_recv_deliver (current_task (w_ks w)) (view ti) ep m j (view tj)
        (view <$> tasks (w_ks w)) (is_closed <$> endpoints (w_ks w)) Hn0 Hcle Hji _ _).
      * change (tasks s1) with (tasks (w_ks w)) in Htj. by rewrite list_lookup_fmap, Htj.
      * unfold view, status. simpl. by rewrite Hst, Hre, Hm.
Qed.

Lemma ipc_send_spec B w ti ep m :
  calling kr us B w ti ->
  returns (ipc_send ft ep m) w (fun _ w' => ipc_done kr us (B + 2) w w' /\
    ipc_spec (current_task (w_ks w)) (view ti) (CallSend ep m) (abs (w_ks w)) (abs (w_ks w'))).
Proof.
  intros Hca. pose proof Hca as [Hk Hr HB Ht Hrun].
  unfold ipc_send. wstep. eapply returns_mono; [eapply ipc_entry_spec; [done..|congruence]|].
  intros r s1 Hout. destruct (entry_outcome ep (w_ks w)) as [err|] eqn:Hent.
  { destruct Hout as [-> ->]. wstep. by apply (reject_spec B w ti (CallSend ep m) err). }
  destruct Hout as [-> ->]. destruct (entry_accepted _ _ _ _ Hca Hent) as (Hn0 & e & He & Hcl & Hcle).
  repeat wstep. pose proof (calling_push B w ti x x0 x1 Hca) as Hca1. cbv zeta in Hca1.
  match type of Hca1 with calling _ _ _ {| w with w_ks := ?st |} _ => set (s1 := st) in * end.
  assert (Hst1 : core_step kr us w {| w with w_ks := s1 |}) by by apply core_step_ks.
  pose proof (ki_core _ _ _ _ _ Hk) as Hci.
  destruct (recv_waiter e) as [j|] eqn:Hw.
  - eapply returns_seq;
      [apply (send_fast_some kr us ft Hft B {| w with w_ks := s1 |} ti ep e j m Hca1); done|].
    intros r w' (-> & Hd & tj & s2 & Htj & Hst & Hre & Hji & Habs & Hts & Hcls). wstep.
    split; [by eapply ipc_done_trans|]. change (tasks (w_ks _)) with (tasks (w_ks w)) in Htj, Hts.
    pose proof (ci_task _ _ _ _ _ Hci _ _ Htj) as Hokj.
    rewrite (abs_of _ _ _ _ Habs Hts Hcls), !view_insert, (tk_id _ _ Hokj).
    refine (spec_send_deliver (current_task (w_ks w)) (view ti) ep m j (view tj)
      (view <$> tasks (w_ks w)) (is_closed <$> endpoints (w_ks w)) Hn0 Hcle Hji _ _).
    + by rewrite list_lookup_fmap, Htj.
    + unfold view, status. simpl. by rewrite Hst, Hre.
  - eapply returns_step; [by apply (send_fast_none ft {| w with w_ks := s1 |} ep e)|]. cbv beta iota.
    eapply returns_mono; [eapply (send_slow_wait kr us ft Hft B _ ti ep e m Hca1); done|].
    intros [] w' (Hd & s2 & Habs & Hts & Hcls). split; [by eapply ipc_done_trans|].
    rewrite (abs_of _ _ _ _ Habs Hts Hcls), view_insert.
    refine (spec_send_wait (current_task (w_ks w)) (view ti) ep m (view <$> tasks (w_ks w))
      (is_closed <$> endpoints (w_ks w)) Hn0 Hcle _). by eapply nobody_receiving.
Qed.

Lemma ipc_reply_spec B w ti ep m :
  calling kr us B w ti ->
  returns (ks (ipc_reply ep m)) w (fun _ w' => ipc_done kr us (B + 2) w w' /\
    ipc_spec (current_task (w_ks w)) (view ti) (CallReply ep m) (abs (w_ks w)) (abs (w_ks w'))).
Proof.
  intros Hca. pose proof Hca as [Hk Hr HB Ht Hrun].
  pose proof (ki_core _ _ _ _ _ Hk) as Hci. wstep.
  destruct (entry_outcome ep (w_ks w)) as [err|] eqn:Hent.
  { unfold ipc_reply. eapply returns_seq; [eapply ipc_entry_spec; [done..|congruence]|].
    rewrite Hent. intros r s1 [-> ->]. kstep. by apply (reject_spec B w ti (CallReply ep m) err). }
  destruct (entry_accepted _ _ _ _ Hca Hent) as (Hn0 & e & He & Hcl & Hcle).
  destruct (decide (reply_waiters e = [])) as [Hrw|Hrw].
  - eapply returns_mono; [by eapply reply_none|]. intros [] _ ->. split.
    + apply (ipc_done_ks kr us B _ _ ti Hca); [|by eapply calling_running].
      apply ipc_ok_refl. eapply KInv_mono; [|done]. lia.
    + apply spec_reply_none; [done|done|]. by eapply nobody_awaiting.
  - eapply returns_mono; [eapply reply_some; [done..|lia|done|done|done|done|done|done]|].
    intros [] s' (j & tj & Htj & Hst & Hre & Hji & Hts & Hio). split.
    + apply (ipc_done_ks kr us B _ _ ti Hca).
      * eapply ipc_ok_trans; [exact Hio|]. apply ipc_ok_refl. eapply KInv_mono; [|apply Hio]. lia.
      * unfold running_ok. rewrite (io_cur _ _ _ _ _ _ Hio), Hts.
        rewrite state_of_insert, decide_False by (done || by eapply lookup_lt_Some).
        by rewrite (state_of_lookup _ _ _ Ht), Hrun.
    + rewrite (abs_of _ _ _ _ eq_refl Hts (io_closed _ _ _ _ _ _ Hio)), view_insert.
      rewrite (tk_id _ _ (ci_task _ _ _ _ _ Hci _ _ Ht)) in Hre.
      refine (spec_reply_deliver (current_task (w_ks w)) (view ti) ep m j (view tj)
        (view <$> tasks (w_ks w)) (is_closed <$> endpoints (w_ks w)) Hn0 Hcle Hji _ _).
      * by rewrite list_lookup_fmap, Htj.
      * unfold view, status. simpl. by rewrite Hst, Hre.
Qed.

Lemma ipc_call_spec B w ti c :
  calling kr us B w ti ->
  returns (do_call c) w (fun _ w' => ipc_done kr us (B + 2) w w' /\
    ipc_spec (current_task (w_ks w)) (view ti) c (abs (w_ks w)) (abs (w_ks w'))).
Proof. destruct c; [apply ipc_recv_spec|apply ipc_send_spec|apply ipc_reply_spec]. Qed.

End refine.
