(* ===== verification/MemInv.v ===== *)
(** * Memory keeps the invariant

    The logical address spaces of the user tasks agree with the page tables of
    the architecture; the memory system calls, the memory demo and the cleanup
    of a killed task keep it so. *)

From stdpp Require Import base list option gmap sets.
From Stdlib Require Import ZArith Lia.
From S2P Require Import Prelude Addr AddressSpace FrameAlloc Queues KTypes Endpoint EventLog KState.
From S2P Require Import ArchIface Sched Ipc Kill Demo Syscall Tick IpcSpec Invariant IpcInv.
From S2P Require Import IpcRefine.

(** What the memory operations may change. *)
Record mem_frame (s s' : KernelState) : Prop := { mem_frame_eq :
  s' = {| s with phys_mem := phys_mem s'; address_spaces := address_spaces s';
                 mem_demo_mapped := mem_demo_mapped s'; mem_demo_stage := mem_demo_stage s';
                 mem_demo_frame := mem_demo_frame s';
                 event_log := event_log s'; event_log_head := event_log_head s';
                 event_log_len := event_log_len s' |} }.

#[export] Instance mem_frame_preorder : PreOrder mem_frame.
Proof.
  split.
  - intros []. done.
  - intros s1 s2 s3 [H12] [H23]. constructor. rewrite H23. rewrite H12. done.
Qed.

Lemma KInv_mem x kr us B s s' :
  KInv x kr us B s -> mem_frame s s' -> roots_ok kr us (address_spaces s') -> KInv x kr us B s'.
Proof.
  intros [Hs Hci Hr Ht Hc Htk Htm] [Hf] Hr'. rewrite Hf. split; ksimpl; try done. by destruct Hs.
Qed.

(** The page the kernel task maps and unmaps. *)
Definition kernel_page : Z := DEMO_VIRT_PAGE_INDEX_TASK0.

Section mem_inv.
Context {A : Type} `{ArchLaws A} (kr : PhysFrame) (us : list PhysFrame).

(** ** Separation of the physical frames

    Task [i] owns the frames its address space maps and the demo frame the
    kernel keeps for it. *)
Definition owns (ass : list AddressSpace) (fr : list (option PhysFrame)) (i : nat) (f : PhysFrame) : Prop :=
  (exists asp p fl, ass !! i = Some asp /\ as_map asp !! p = Some (f, fl)) \/
  fr !! i = Some (Some f).

(** No frame has two uses: a frame still to be handed out is owned by nobody and
    holds no page table, a frame a task owns holds no page table and is owned by
    no other task. *)
Record Sep (pm : PhysicalMemoryManager) (ass : list AddressSpace) (fr : list (option PhysFrame))
    (a : A) : Prop := {
  sep_free : frames_free phys_ok (arch_tables kr us a) pm;
  sep_data i f : owns ass fr i f -> ~ arch_tables kr us a f /\ f ∉ free_frames pm;
  sep_iso i j f : owns ass fr i f -> owns ass fr j f -> i = j }.

Lemma free_frames_taken k pm pm' :
  frames_taken k pm pm' -> free_frames pm' = drop k (free_frames pm).
Proof. intros (_ & _ & Hr). unfold free_frames. by rewrite Hr, fmap_drop. Qed.

Lemma frames_free_taken k (P T T' : PhysFrame -> Prop) pm pm' :
  frames_free P T pm -> frames_taken k pm pm' ->
  (forall g, T' g -> T g \/ g ∈ take k (free_frames pm)) -> frames_free P T' pm'.
Proof.
  intros [Hwf Hnd Hr Hu] Ht HT. pose proof (free_frames_taken _ _ _ Ht) as Hf.
  assert (Hin : forall f, f ∈ free_frames pm' -> f ∈ free_frames pm /\ f ∉ take k (free_frames pm)).
  { rewrite Hf. intros f Hf'. rewrite <- (take_drop k (free_frames pm)) in Hnd |- * at 1.
    apply NoDup_app in Hnd as (_ & Hnd & _). split; [apply elem_of_app; by right|].
    intros Hin. by eapply Hnd. }
  split; [apply Ht| | |].
  - rewrite Hf. rewrite <- (take_drop k (free_frames pm)) in Hnd. by apply NoDup_app in Hnd as (_ & _ & ?).
  - intros f Hf'. by apply Hr, Hin.
  - intros f [Hf1 Hf2]%Hin [HT'|?]%HT; [|done]. by apply (Hu f).
Qed.

(** Taking frames for page tables or for nothing, owning no more than before. *)
Lemma Sep_step pm ass fr a pm' ass' fr' a' k :
  Sep pm ass fr a -> frames_taken k pm pm' ->
  (forall g, arch_tables kr us a' g -> arch_tables kr us a g \/ g ∈ take k (free_frames pm)) ->
  (forall i f, owns ass' fr' i f -> owns ass fr i f) -> Sep pm' ass' fr' a'.
Proof.
  intros [Hfree Hd Hiso] Ht HT Ho. split.
  - by eapply frames_free_taken.
  - intros i f [Hd1 Hd2]%Ho%Hd. rewrite (free_frames_taken _ _ _ Ht). split.
    + intros [?|Hin%subseteq_take]%HT; done.
    + by intros Hin%subseteq_drop.
  - intros i j f Hi Hj. by eapply Hiso; apply Ho.
Qed.

Lemma frames_taken_0 pm : pmm_wf pm -> frames_taken 0 pm pm.
Proof. intros Hwf. split; [unfold PAGE_TABLE_FRAMES; lia|done]. Qed.

Lemma Sep_same pm ass fr a ass' fr' a' :
  Sep pm ass fr a ->
  (forall g, arch_tables kr us a' g -> arch_tables kr us a g) ->
  (forall i f, owns ass' fr' i f -> owns ass fr i f) -> Sep pm ass' fr' a'.
Proof.
  intros Hs HT Ho. eapply (Sep_step pm ass fr a pm ass' fr' a' 0); [done| |by auto|done].
  apply frames_taken_0, Hs.
Qed.

(** The next free frame becomes the demo frame of task [i]. *)
Lemma Sep_alloc pm ass fr a pm' ass' fr' i f rest :
  Sep pm ass fr a -> free_frames pm = f :: rest -> frames_taken 1 pm pm' ->
  (forall j g, owns ass' fr' j g -> owns ass fr j g \/ (j = i /\ g = f)) -> Sep pm' ass' fr' a.
Proof.
  intros [Hfree Hd Hiso] Hf Ht Ho. pose proof (free_frames_taken _ _ _ Ht) as Hf'.
  rewrite Hf in Hf'. simpl in Hf'. rewrite drop_0 in Hf'.
  assert (Hfr : f ∉ rest) by (pose proof (ff_nodup _ _ _ Hfree) as Hnd; rewrite Hf in Hnd; by apply NoDup_cons in Hnd as []).
  assert (Hnew : forall j, ~ owns ass fr j f) by (intros j [_ Hn]%Hd; apply Hn; rewrite Hf; by left).
  split.
  - eapply frames_free_taken; [exact Hfree|exact Ht|by auto].
  - intros j g [[Hd1 Hd2]%Hd|[-> ->]]%Ho; rewrite Hf'.
    + split; [done|]. intros Hin. apply Hd2. rewrite Hf. by right.
    + split; [|done]. apply (ff_unused _ _ _ Hfree). rewrite Hf. by left.
  - intros j k g [Hj|[-> ->]]%Ho [Hk|[-> ?]]%Ho; subst; try done; [by eapply Hiso|..]; by edestruct Hnew.
Qed.

(** While task [dying] is being killed its mappings may still be there. *)
Record MemInv (dying : option nat) (s : KernelState) (a : A) : Prop := {
  mi_ready : arch_ready kr us a;
  mi_distinct : NoDup us;
  mi_wf i asp : address_spaces s !! i = Some asp -> AddressSpace_wf asp;
  (** the tables of a user task and its page tables agree *)
  mi_agree i asp r : 0 < i -> address_spaces s !! i = Some asp -> us !! (i - 1) = Some r ->
    user_map a r = as_map asp;
  (** a user task maps only pages of the user slot, for user access *)
  mi_user i asp p f fl : 0 < i -> address_spaces s !! i = Some asp ->
    as_map asp !! p = Some (f, fl) ->
    (0 <= p < 2 ^ 27)%Z /\ user_flags fl;
  (** a dead task maps nothing *)
  mi_dead i asp : address_spaces s !! i = Some asp -> state_of (tasks s) i = Some Dead ->
    dying <> Some i -> as_map asp = ∅;
  (** the kernel task maps at most its demo page *)
  mi_kernel : exists asp b, address_spaces s !! 0 = Some asp /\ mem_demo_mapped s !! 0 = Some b /\
    if b : bool then (exists y, as_map asp = {[kernel_page := y]}) /\ is_Some (kern_map kr a !! kernel_page)
    else as_map asp = ∅ /\ kern_map kr a !! kernel_page = None;
  mi_kpage : kern_page_ok (VirtPage_from_index kernel_page);
  mi_mapped_len : length (mem_demo_mapped s) = MAX_TASKS;
  mi_stage_len : length (mem_demo_stage s) = MAX_TASKS;
  mi_frame_len : length (mem_demo_frame s) = MAX_TASKS;
  mi_frames i f : mem_demo_frame s !! i = Some (Some f) -> frame_ok f;
  mi_sep : Sep (phys_mem s) (address_spaces s) (mem_demo_frame s) a }.

Lemma mi_pmm d s a : MemInv d s a -> pmm_wf (phys_mem s).
Proof. intros Hm. apply (mi_sep _ _ _ Hm). Qed.

(** Scheduling and IPC do not disturb memory. *)
Lemma MemInv_core_step d w w' :
  MemInv d (w_ks w) (w_arch w) -> core_step kr us w w' -> MemInv d (w_ks w') (w_arch w').
Proof.
  intros [] [_ [Hf] Hc Hr Hu Hk Htb _].
  assert (Has : address_spaces (w_ks w') = address_spaces (w_ks w)) by by rewrite Hf.
  assert (Hm : mem_demo_mapped (w_ks w') = mem_demo_mapped (w_ks w)) by by rewrite Hf.
  split; rewrite ?Has, ?Hm; try done.
  - auto.
  - intros i asp r Hi Hasp Hus. rewrite Hu by by eapply list_elem_of_lookup_2. eauto.
  - intros i asp Hasp Hd Hdy. apply (mi_dead0 i); [done| |done]. by apply (calm_dead_of _ _ _ Hc).
  - by rewrite Hk.
  - by rewrite Hf.
  - by rewrite Hf.
  - by rewrite Hf.
  - rewrite Hf. simpl. by eapply Sep_same; [|exact Htb|].
Qed.

(** ** Taking a frame *)

Definition frames_left (s : KernelState) : nat := length (pmm_remaining (phys_mem s)).

Lemma frame_of_phys phys : (0 <= phys < 2 ^ 52)%Z -> frame_ok (PhysFrame_from_index (phys / PAGE_SIZE)).
Proof.
  intros Hp. unfold frame_ok, PAGE_SIZE. simpl. split; [apply Z.div_pos; lia|].
  apply Z.div_lt_upper_bound; lia.
Qed.

(** Changing only the physical memory manager and the recorded frames. *)
Lemma MemInv_frames d s a pm fr l h n :
  MemInv d s a -> Sep pm (address_spaces s) fr a -> length fr = MAX_TASKS ->
  (forall i f, fr !! i = Some (Some f) -> frame_ok f) ->
  MemInv d {| s with phys_mem := pm; mem_demo_frame := fr; event_log := l; event_log_head := h;
                   event_log_len := n |} a.
Proof. intros [] Hsep Hlen Hfr. by split. Qed.

(** A frame is taken and not used. *)
Lemma Sep_take pm ass fr a pm' :
  Sep pm ass fr a -> pmm_wf pm' -> pmm_remaining pm' = tail (pmm_remaining pm) -> Sep pm' ass fr a.
Proof.
  intros Hs Hwf Hr. eapply (Sep_step pm ass fr a pm' ass fr a 1); [done| |by auto|done].
  split; [unfold PAGE_TABLE_FRAMES; lia|]. split; [done|]. rewrite Hr. by destruct (pmm_remaining pm).
Qed.

Lemma get_or_alloc_spec d s a i :
  MemInv d s a -> shape s -> i < MAX_TASKS -> 1 <= frames_left s ->
  returns (get_or_alloc_demo_frame i) s (fun r s' =>
    (exists f, r = Some f /\ frame_ok f /\ mem_demo_frame s' !! i = Some (Some f)) /\
    MemInv d s' a /\ mem_frame s s' /\
    address_spaces s' = address_spaces s /\ mem_demo_mapped s' = mem_demo_mapped s /\
    frames_left s <= frames_left s' + 1).
Proof.
  intros Hm Hs Hi Hfl. unfold get_or_alloc_demo_frame. kstep.
  rewrite num_tasks_leb by done. rewrite (proj2 (Nat.leb_gt _ _)) by done.
  destruct (lookup_lt_is_Some_2 (mem_demo_frame s) i) as [mf Hmf]; [by rewrite (mi_frame_len _ _ _ Hm)|].
  eapply returns_step; [apply at_index_Ok; exact Hmf|]. cbv beta. destruct mf as [f|].
  { kstep. split; [exists f; split_and!; [done|by eapply (mi_frames _ _ _ Hm)|done]|]. split; [done|].
    split; [reflexivity|]. split; [done|]. split; [done|lia]. }
  destruct (pmm_allocate_spec (phys_mem s) (mi_pmm _ _ _ Hm)) as (pm & -> & Hwf & Hrem).
  unfold frames_left in *. destruct (pmm_remaining (phys_mem s)) as [|phys rest] eqn:Hr; [simpl in *; lia|].
  assert (Hph : (0 <= phys < 2 ^ 52)%Z).
  { apply (remaining_bound _ _ (mi_pmm _ _ _ Hm)). fold (pmm_remaining (phys_mem s)). rewrite Hr. by left. }
  repeat kstep. cbn [head]. repeat kstep. unfold set_mem_demo_frame. repeat kstep.
  rewrite write_at_Ok by (rewrite (mi_frame_len _ _ _ Hm); done). repeat kstep.
  split; [eexists; split_and!; [done|by apply frame_of_phys|]|split].
  - apply list_lookup_insert_eq. by rewrite (mi_frame_len _ _ _ Hm).
  - apply (MemInv_frames _ _ _ pm); [done| |by rewrite length_insert, (mi_frame_len _ _ _ Hm)|].
    { eapply (Sep_alloc (phys_mem s) (address_spaces s) (mem_demo_frame s) a pm _ _ i (phys_frame phys) (phys_frame <$> rest)); [apply Hm|by unfold free_frames; rewrite Hr| |].
      - split; [unfold PAGE_TABLE_FRAMES; lia|]. split; [done|]. simpl. rewrite Hrem, Hr. simpl. by rewrite drop_0.
      - intros j g [Hj|Hj]; [left; by left|].
        apply list_lookup_insert_Some in Hj as [(<- & [= <-] & _)|[_ Hj]]; [by right|left; by right]. }
    intros j f [(_ & [= <-] & _)|[_ Hj]]%list_lookup_insert_Some; [by apply frame_of_phys|].
    by eapply (mi_frames _ _ _ Hm).
  - split; [done|]. split; [done|]. split; [done|]. rewrite Hrem. simpl. lia.
Qed.

(** ** Changing one user address space *)

Lemma roots_ok_insert s i asp asp' :
  roots_ok kr us (address_spaces s) -> address_spaces s !! i = Some asp ->
  as_kind asp' = as_kind asp -> as_root_page_frame asp' = as_root_page_frame asp ->
  roots_ok kr us (<[i := asp']> (address_spaces s)).
Proof.
  intros [Hl Hal (a0 & Ha0 & Hk0 & Hr0) Hu] Hasp Hk Hr.
  assert (Hi : i < length (address_spaces s)) by by eapply lookup_lt_Some.
  split; [done|by rewrite length_insert| |].
  - destruct (decide (i = 0)) as [->|].
    + exists asp'. rewrite list_lookup_insert_eq by done. simplify_eq. rewrite Hk, Hr. done.
    + exists a0. by rewrite list_lookup_insert_ne.
  - intros j Hj. destruct (Hu j Hj) as (a & r & Ha & Hka & Hra & Hus).
    destruct (decide (i = j)) as [->|].
    + exists asp', r. rewrite list_lookup_insert_eq by done. simplify_eq. rewrite Hk, Hr. done.
    + exists a, r. by rewrite list_lookup_insert_ne.
Qed.

Lemma MemInv_user d s a i asp asp' r a' pm :
  MemInv d s a -> 0 < i -> address_spaces s !! i = Some asp -> us !! (i - 1) = Some r ->
  AddressSpace_wf asp' -> user_map a' r = as_map asp' ->
  (forall u, u ∈ us -> u <> r -> user_map a' u = user_map a u) -> kern_map kr a' = kern_map kr a ->
  arch_ready kr us a' ->
  (forall p f fl, as_map asp' !! p = Some (f, fl) ->
     (0 <= p < 2 ^ 27)%Z /\ user_flags fl) ->
  (state_of (tasks s) i = Some Dead -> d <> Some i -> as_map asp' = ∅) ->
  Sep pm (<[i := asp']> (address_spaces s)) (mem_demo_frame s) a' ->
  MemInv d {| s with phys_mem := pm; address_spaces := <[i := asp']> (address_spaces s) |} a'.
Proof.
  intros Hm Hi Hasp Hr Hwf Hag Hu Hk Hrd Hent Hd Hpm. destruct Hm. split; ksimpl; try done.
  - intros j asp0 [(<- & <- & _)|[_ Hj]]%list_lookup_insert_Some; [done|eauto].
  - intros j asp0 r0 Hj [(<- & <- & _)|[Hne Hj']]%list_lookup_insert_Some Hr0.
    + by simplify_eq.
    + rewrite Hu; [by eapply mi_agree0|by eapply list_elem_of_lookup_2|].
      intros ->. apply Hne. pose proof (NoDup_lookup _ _ _ _ mi_distinct0 Hr Hr0). lia.
  - intros j asp0 p f fl Hj [(<- & <- & _)|[Hne Hj']]%list_lookup_insert_Some; [eauto|].
    by eapply mi_user0.
  - intros j asp0 [(<- & <- & _)|[Hne Hj']]%list_lookup_insert_Some; [done|]. by eapply mi_dead0.
  - destruct mi_kernel0 as (a0 & b & Ha0 & Hb & Hrest). exists a0, b.
    rewrite list_lookup_insert_ne by lia. by rewrite Hk.
Qed.

(** What a memory operation guarantees; it takes at most [n] frames. *)
Record mem_step (d : option nat) (x : slack) (B : Z) (n : nat) (w w' : World A) : Prop := {
  ms_inv : KInv x kr us B (w_ks w');
  ms_mem : MemInv d (w_ks w') (w_arch w');
  ms_frame : mem_frame (w_ks w) (w_ks w');
  ms_world : w' = {| w with w_ks := w_ks w'; w_arch := w_arch w' |};
  ms_cr3 : Cr3_read (w_arch w') = Cr3_read (w_arch w);
  ms_frames : frames_left (w_ks w) <= frames_left (w_ks w') + n }.

Lemma mem_step_trans d x B n1 n2 w1 w2 w3 :
  mem_step d x B n1 w1 w2 -> mem_step d x B n2 w2 w3 -> mem_step d x B (n1 + n2) w1 w3.
Proof.
  intros [] []. split; try done.
  - by transitivity (w_ks w2).
  - rewrite ms_world1. rewrite ms_world0. done.
  - congruence.
  - lia.
Qed.

Lemma drop_length_le {X} (l : list X) k : k <= PAGE_TABLE_FRAMES ->
  length l <= length (drop k l) + PAGE_TABLE_FRAMES.
Proof. rewrite length_drop. lia. Qed.

(** The user address space of task [i]. *)
Lemma user_aspace x B s i :
  KInv x kr us B s -> 0 < i < MAX_TASKS ->
  exists asp r, address_spaces s !! i = Some asp /\ as_kind asp = User /\
    as_root_page_frame asp = Some r /\ us !! (i - 1) = Some r /\ r ∈ us.
Proof.
  intros Hk Hi. destruct (ro_user _ _ _ (ki_roots _ _ _ _ _ Hk) i Hi) as (asp & r & ? & ? & ? & ?).
  exists asp, r. split_and!; try done. by eapply list_elem_of_lookup_2.
Qed.

(** ** The memory system calls *)

Definition action_ok (act : MemAction) : Prop :=
  match act with
  | Map p f fl => page_ok p /\ frame_ok f /\ user_flags fl
  | Unmap p => page_ok p
  end.

Lemma wf_apply act asp : AddressSpace_wf asp -> AddressSpace_wf (AddressSpace_apply act asp).2.
Proof. intros Hwf. by apply AddressSpace_apply_refines. Qed.

(** The page tables follow a logical change that succeeded. *)
Lemma arch_follows d s a i asp r act m' :
  MemInv d s a -> 0 < i -> address_spaces s !! i = Some asp -> us !! (i - 1) = Some r ->
  action_ok act -> PAGE_TABLE_FRAMES <= frames_left s ->
  apply_spec act (as_map asp) = (Okay tt, m') ->
  returns (apply_mem_action_with_mapper act (Some r)) (phys_mem s, a) (fun res pa =>
    res = Okay tt /\ arch_ready kr us pa.2 /\ Cr3_read pa.2 = Cr3_read a /\ user_map pa.2 r = m' /\
    (forall u, u ∈ us -> u <> r -> user_map pa.2 u = user_map a u) /\
    kern_map kr pa.2 = kern_map kr a /\
    exists k, frames_taken k (phys_mem s) pa.1 /\
      forall g, arch_tables kr us pa.2 g -> arch_tables kr us a g \/ g ∈ take k (free_frames (phys_mem s))).
Proof.
  intros Hm Hi Hasp Hr Hok Hfr Hspec.
  assert (Hrin : r ∈ us) by by eapply list_elem_of_lookup_2.
  pose proof (mi_agree _ _ _ Hm i asp r Hi Hasp Hr) as Hag. unfold frames_left in *.
  destruct act as [p f fl|p]; simpl in Hspec.
  - destruct Hok as (Hp & Hf & Hfl). destruct (as_map asp !! page_number p) eqn:Hl; [done|].
    case_decide; [|done]. injection Hspec as <-.
    eapply returns_mono; [apply (law_map_user kr us); try done; [apply Hm|by rewrite Hag|apply (mi_sep _ _ _ Hm)]|].
    intros res pa (-> & E1 & E2 & E3 & E4 & E5 & E6). rewrite Hag in E3. by split_and!.
  - destruct (as_map asp !! page_number p) eqn:Hl; [|done]. injection Hspec as <-.
    eapply returns_mono; [apply (law_unmap_user kr us); try done; [apply Hm|by rewrite Hag, Hl]|].
    intros res pa (-> & E1 & E2 & E3 & E4 & E5 & -> & E6). rewrite Hag in E3.
    split_and!; try done. exists 0. split; [|by auto]. apply frames_taken_0. by eapply mi_pmm.
Qed.

(** The entries of the new table are user entries. *)
Lemma spec_entries act m r m' :
  action_ok act -> apply_spec act m = (r, m') ->
  (forall p f fl, m !! p = Some (f, fl) -> (0 <= p < 2 ^ 27)%Z /\ user_flags fl) ->
  forall p f fl, m' !! p = Some (f, fl) -> (0 <= p < 2 ^ 27)%Z /\ user_flags fl.
Proof.
  intros Hok Hspec Hm p f fl. destruct act as [pg fr flg|pg]; simpl in Hspec.
  - destruct Hok as (Hp & _ & Hfl). destruct (m !! page_number pg); [injection Hspec as <- <-; eauto|].
    case_decide; injection Hspec as <- <-; [|eauto].
    intros [(<- & [= <- <-])|(_ & ?)]%lookup_insert_Some; [done|eauto].
  - destruct (m !! page_number pg); injection Hspec as <- <-; [|eauto].
    intros [_ ?]%lookup_delete_Some. eauto.
Qed.

(** The frame to be mapped belongs to the task. *)
Definition action_frame (s : KernelState) (i : nat) (act : MemAction) : Prop :=
  match act with Map _ f _ => owns (address_spaces s) (mem_demo_frame s) i f | Unmap _ => True end.

(** A logical change of address space [i] gives no task a new frame. *)
Lemma owns_apply s i act asp asp' r m' :
  address_spaces s !! i = Some asp -> action_frame s i act ->
  apply_spec act (as_map asp) = (r, m') -> as_map asp' = m' ->
  forall j f, owns (<[i := asp']> (address_spaces s)) (mem_demo_frame s) j f ->
    owns (address_spaces s) (mem_demo_frame s) j f.
Proof.
  intros Hasp Hfr Hspec Hmap j f [(asp0 & p & fl & Hl & Hp)|Hd]; [|by right].
  apply list_lookup_insert_Some in Hl as [(<- & <- & _)|[_ Hl]]; [|left; by exists asp0, p, fl].
  rewrite Hmap in Hp. clear Hmap.
  assert (Hold : as_map asp !! p = Some (f, fl) -> owns (address_spaces s) (mem_demo_frame s) i f) by (intros ?; left; by exists asp, p, fl).
  destruct act as [pg fr flg|pg]; simpl in Hspec, Hfr.
  - destruct (as_map asp !! page_number pg); [injection Hspec as <- <-; auto|].
    case_decide; injection Hspec as <- <-; [|auto].
    apply lookup_insert_Some in Hp as [(<- & [= <- <-])|(_ & ?)]; auto.
  - destruct (as_map asp !! page_number pg); injection Hspec as <- <-; [|auto].
    apply lookup_delete_Some in Hp as [_ ?]. auto.
Qed.

Lemma apply_both_spec d x B w i act asp :
  KInv x kr us B (w_ks w) -> MemInv d (w_ks w) (w_arch w) -> 0 < i < MAX_TASKS ->
  address_spaces (w_ks w) !! i = Some asp -> state_of (tasks (w_ks w)) i <> Some Dead ->
  action_ok act -> action_frame (w_ks w) i act -> PAGE_TABLE_FRAMES <= frames_left (w_ks w) ->
  returns (apply_both i act) w (fun c w' =>
    mem_step d x B PAGE_TABLE_FRAMES w w' /\ exists asp',
      address_spaces (w_ks w') = <[i := asp']> (address_spaces (w_ks w)) /\
      let '(r, m') := apply_spec act (as_map asp) in c = logical_ret r /\ as_map asp' = m').
Proof.
  intros Hk Hm Hi Hasp Hnd Hok Hown Hfr.
  destruct (user_aspace _ _ _ i Hk Hi) as (asp0 & r & Hasp0 & Hkind & Hroot & Hus & Hrin).
  assert (asp0 = asp) as -> by congruence.
  assert (Hlen : i < length (address_spaces (w_ks w))) by by eapply lookup_lt_Some.
  destruct (apply_spec act (as_map asp)) as [res m'] eqn:Hspec.
  destruct (AddressSpace_apply_by_spec act asp res m' (mi_wf _ _ _ Hm _ _ Hasp) Hspec)
    as (asp' & Happ & Hmap & Hsame).
  pose proof (AddressSpace_apply_frame act asp) as (Hk' & Hr' & _). rewrite Happ in Hk', Hr'.
  simpl in Hk', Hr'.
  pose proof (wf_apply act asp (mi_wf _ _ _ Hm _ _ Hasp)) as Hwf'. rewrite Happ in Hwf'. simpl in Hwf'.
  unfold apply_both, apply_logical. repeat wstep. rewrite Happ.
  eapply returns_step; [by apply set_address_space_Ok|]. repeat wstep.
  assert (res = Okay tt \/ res <> Okay tt) as [->|Hne] by (destruct res as [[]|]; auto).
  - cbn [logical_ret]. rewrite Z.eqb_refl. unfold apply_arch.
    assert (Hlook : <[i := asp']> (address_spaces (w_ks w)) !! i = Some asp')
      by by apply list_lookup_insert_eq.
    repeat wstep. rewrite Hk', Hkind, Hr', Hroot.
    apply returns_bind, returns_phys_mem. wsimpl.
    eapply returns_mono; [apply (arch_follows d (w_ks w) (w_arch w) i asp r act m'); [exact Hm|lia|done..]|].
    intros res pa (-> & E1 & E2 & E3 & E4 & E5 & k & E6 & E7). cbv zeta. wsimpl. wstep. split.
    2: { exists asp'. done. }
    split; wsimpl; try done.
    + eapply KInv_mem; [done|done|]. ksimpl. eapply roots_ok_insert; [apply Hk|done..].
    + eapply MemInv_user; try done; [lia|by rewrite Hmap| |].
      * rewrite Hmap. eapply spec_entries; [done..|]. intros p f fl Hl.
        eapply (mi_user _ _ _ Hm i asp); [lia|done..].
      * eapply Sep_step; [apply Hm|exact E6|done|]. by eapply owns_apply.
    + unfold frames_left. simpl. destruct E6 as (Hk3 & _ & ->). by apply drop_length_le.
  - specialize (Hsame Hne). rewrite Hsame in *.
    assert (Hret : (logical_ret res =? SYSCALL_OK)%Z = false) by by destruct res as [[]|[]].
    rewrite Hret. wstep.
    assert (Hid : <[i := asp]> (address_spaces (w_ks w)) = address_spaces (w_ks w))
      by by apply list_insert_id.
    split; [|exists asp; split; [done|split; [done|congruence]]].
    rewrite Hid. destruct w as [[] ? ? ? ? ?]. split; wsimpl; try done. lia.
Qed.

Lemma page_map_spec d x B w i t p fl asp :
  KInv x kr us B (w_ks w) -> MemInv d (w_ks w) (w_arch w) -> 0 < i < MAX_TASKS ->
  tasks (w_ks w) !! i = Some t -> t_state t <> Dead ->
  address_spaces (w_ks w) !! i = Some asp ->
  page_ok p -> user_flags fl -> PAGE_TABLE_FRAMES + 1 <= frames_left (w_ks w) ->
  returns (syscall_page_map i p fl) w (fun c w' =>
    mem_step d x B (PAGE_TABLE_FRAMES + 1) w w' /\ exists f asp', frame_ok f /\
      address_spaces (w_ks w') = <[i := asp']> (address_spaces (w_ks w)) /\
      let '(r, m') := apply_spec (Map p f fl) (as_map asp) in c = logical_ret r /\ as_map asp' = m').
Proof.
  intros Hk Hm Hi Ht Hd Hasp Hp Hfl Hfr. pose proof Hk as [Hs Hci _ _ _ _ _].
  pose proof (tk_as _ _ (ci_task _ _ _ _ _ Hci _ _ Ht)) as Has.
  unfold syscall_page_map. repeat wstep. rewrite !(num_tasks_leb (w_ks w)) by done.
  rewrite (proj2 (Nat.leb_gt MAX_TASKS i)) by lia. repeat wstep. rewrite Has.
  rewrite !(num_tasks_leb (w_ks w)) by done.
  rewrite (proj2 (Nat.leb_gt MAX_TASKS i)) by lia. repeat wstep.
  eapply returns_mono; [apply (get_or_alloc_spec d (w_ks w) (w_arch w) i); [done|done|lia|lia]|].
  intros mf s1 ((f & -> & Hf & Hdf) & Hm1 & Hf1 & Has1 & Hmm1 & Hfr1).
  set (w1 := {| w with w_ks := s1 |}).
  assert (Hst1 : mem_step d x B 1 w w1).
  { split; simpl; try done. eapply KInv_mem; [done|done|]. rewrite Has1. apply Hk. }
  assert (Hst : state_of (tasks (w_ks w1)) i <> Some Dead).
  { simpl. rewrite (mem_frame_eq _ _ Hf1). simpl. rewrite (state_of_lookup _ _ _ Ht). congruence. }
  eapply returns_mono; [apply (apply_both_spec d x B w1 i (Map p f fl) asp); try done|].
  - apply Hst1.
  - simpl. by rewrite Has1.
  - by right.
  - simpl. lia.
  - intros c w' (Hst2 & asp' & Has' & Hres). split.
    + rewrite Nat.add_comm. by eapply mem_step_trans.
    + exists f, asp'. split; [done|]. split; [|done]. rewrite Has'. simpl. by rewrite Has1.
Qed.

Lemma page_unmap_spec d x B w i t p asp :
  KInv x kr us B (w_ks w) -> MemInv d (w_ks w) (w_arch w) -> 0 < i < MAX_TASKS ->
  tasks (w_ks w) !! i = Some t -> t_state t <> Dead ->
  address_spaces (w_ks w) !! i = Some asp ->
  page_ok p -> PAGE_TABLE_FRAMES <= frames_left (w_ks w) ->
  returns (syscall_page_unmap i p) w (fun c w' =>
    mem_step d x B PAGE_TABLE_FRAMES w w' /\ exists asp',
      address_spaces (w_ks w') = <[i := asp']> (address_spaces (w_ks w)) /\
      let '(r, m') := apply_spec (Unmap p) (as_map asp) in c = logical_ret r /\ as_map asp' = m').
Proof.
  intros Hk Hm Hi Ht Hd Hasp Hp Hfr. pose proof Hk as [Hs Hci _ _ _ _ _].
  pose proof (tk_as _ _ (ci_task _ _ _ _ _ Hci _ _ Ht)) as Has.
  unfold syscall_page_unmap. repeat wstep. rewrite !(num_tasks_leb (w_ks w)) by done.
  rewrite (proj2 (Nat.leb_gt MAX_TASKS i)) by lia. repeat wstep. rewrite Has.
  rewrite !(num_tasks_leb (w_ks w)) by done.
  rewrite (proj2 (Nat.leb_gt MAX_TASKS i)) by lia.
  assert (Hw : {| w with w_ks := w_ks w |} = w) by by destruct w. rewrite Hw.
  apply (apply_both_spec d x B _ i (Unmap p) asp); try done.
  rewrite (state_of_lookup _ _ _ Ht). congruence.
Qed.

End mem_inv.
