(* ===== verification/CloseInv.v ===== *)
(** * Rescuing the tasks that wait for a dead one

    Closing an endpoint wakes everybody who waits on it, and resolving the
    reply waiters of a dead task wakes everybody who waits for its reply; both
    with an error as the reply. *)

From stdpp Require Import base list option sets.
From Stdlib Require Import ZArith Lia.
From S2P Require Import Prelude Addr AddressSpace FrameAlloc Queues KTypes Endpoint EventLog KState.
From S2P Require Import ArchIface Sched Ipc Kill Demo Syscall Tick IpcSpec Invariant IpcInv.

(** What happens to a task: nothing, or, when it waits for a reason in [P], it
    becomes ready with the error [err] as the reply. *)
Definition rescued (err : Z) (P : BlockedReason -> Prop) (t t' : Task) : Prop :=
  t' = t \/ exists r, t_blocked_reason t = Some r /\ P r /\ t_last_msg t' = t_last_msg t /\
    t_state t' = Ready /\ t_blocked_reason t' = None /\ t_last_reply t' = Some err.

#[export] Instance rescued_preorder err P : PreOrder (rescued err P).
Proof.
  split; [by left|]. intros t1 t2 t3 [->|(r & Hr & HP & Hid & Hs & Hn & Hl)] H23; [done|].
  right. destruct H23 as [->|(r' & Hr' & _)]; [by exists r|congruence].
Qed.

Lemma rescued_weaken err (P P' : BlockedReason -> Prop) t t' :
  (forall r, P r -> P' r) -> rescued err P t t' -> rescued err P' t t'.
Proof. intros HP [->|(r & Hr & Hp & Hrest)]; [by left|right]. exists r. auto. Qed.

Abbreviation rescued_tasks err P := (Forall2 (rescued err P)).

Lemma rescued_insert err P ts i t t' :
  ts !! i = Some t -> rescued err P t t' -> rescued_tasks err P ts (<[i := t']> ts).
Proof.
  intros Ht Hc. apply Forall2_same_length_lookup_2; [by rewrite length_insert|].
  intros j x y Hx [(<- & <- & _)|[_ Hy]]%list_lookup_insert_Some; [by simplify_eq|].
  simplify_eq. reflexivity.
Qed.

(** A rescue gives nobody a new reason to wait. *)
Lemma rescued_reason err P ts ts' i r :
  rescued_tasks err P ts ts' -> reason_of ts' i = Some r -> reason_of ts i = Some r.
Proof.
  intros Hre Hr. unfold reason_of in *. destruct (ts' !! i) as [t'|] eqn:Ht'; [|done].
  destruct (Forall2_lookup_r _ _ _ _ _ Hre Ht') as (t & -> & [->|(? & _ & _ & _ & _ & ? & _)]);
    [done|]. simpl in *. congruence.
Qed.

(** A task that does not wait stays as it is. *)
Lemma rescued_awake err P ts ts' i :
  rescued_tasks err P ts ts' -> reason_of ts i = None -> ts' !! i = ts !! i.
Proof.
  intros Hre Hr. destruct (ts !! i) as [t|] eqn:Ht.
  - destruct (Forall2_lookup_l _ _ _ _ _ Hre Ht) as (t' & -> & [->|(r & Hr' & _)]); [done|].
    rewrite (reason_of_lookup _ _ _ Ht) in Hr. congruence.
  - apply lookup_ge_None. apply lookup_ge_None in Ht. by rewrite <- (Forall2_length _ _ _ Hre).
Qed.

Section close.
Context (kr : PhysFrame) (us : list PhysFrame).

Definition at_endpoint (ep : EndpointId) (r : BlockedReason) : Prop := reason_ep r = Some ep.

(** ** Closing an endpoint *)

(** One waiter leaves the endpoint and is woken. *)
Lemma rescue_closed_spec x B s ep e e' i t f :
  KInv x kr us B s -> endpoints s !! ep = Some e -> is_closed e' = is_closed e ->
  tasks s !! i = Some t -> t_state t = Blocked ->
  (forall r, t_blocked_reason t = Some r -> reason_ep r = Some ep) ->
  ep_ok (upd_reason (reason_of (tasks s)) i None) ep e' -> f = closed_waiter \/ f = closed_sender ->
  returns (set_endpoint ep e' ;; rescue_closed i f) s (fun _ s' =>
    ipc_ok kr us x B s s' /\ endpoints s' = <[ep := e']> (endpoints s) /\
    tasks s' = <[i := woken (f t)]> (tasks s)).
Proof.
  intros Hk He Hcl Ht Hst Hre Hep Hf. pose proof Hk as [Hs Hci _ _ _ _ _].
  pose proof (lookup_bound _ _ _ Hs Ht) as Hb.
  assert (Hnq : i ∉ rq s) by (eapply core_not_queued; [done..|congruence]).
  eapply returns_step; [apply set_endpoint_Ok; by eapply lookup_lt_Some|]. cbv beta.
  unfold rescue_closed. kstep. rewrite (num_tasks_ltb s), (proj2 (Nat.ltb_lt _ _)) by done. repeat kstep.
  rewrite decide_True by congruence. repeat kstep.
  assert (Hlook : <[i := f t]> (tasks s) !! i = Some (f t))
    by (apply list_lookup_insert_eq; by eapply lookup_lt_Some).
  eapply returns_mono; [eapply wake_blocked_spec; [|exact Hlook| |exact Hnq|]|].
  { destruct Hs. split; ksimpl; auto with kernel. }
  { by destruct Hf as [-> | ->]. }
  { exact (rq_room _ _ _ _ _ i Hk Hb Hnq). }
  intros [] s2 (Hf2 & Hs2 & Hts2 & Hrq2). cbn [tasks] in Hts2. rewrite list_insert_insert_eq in Hts2.
  change (rq _) with (rq s) in Hrq2 at 2.
  assert (Heps2 : endpoints s2 = <[ep := e']> (endpoints s)) by by rewrite (q_frame_eq _ _ Hf2).
  split; [|done].
  apply (wake_waiter_ok _ _ _ _ _ _ i t (woken (f t)) ep e e'); try done.
  - etransitivity; [|apply q_ipc_frame; exact Hf2]. done.
  - by rewrite (q_frame_eq _ _ Hf2).
  - by rewrite (q_frame_eq _ _ Hf2).
  - by destruct Hf as [-> | ->].
  - by destruct Hf as [-> | ->].
  - by destruct Hf as [-> | ->].
  - apply calm_awake; destruct Hf as [-> | ->]; simpl; congruence.
Qed.

(** What a part of the closing guarantees. *)
Record closing_step (x : slack) (B : Z) (ep : EndpointId) (s s' : KernelState) : Prop := {
  cg_ok : ipc_ok kr us x B s s';
  cg_tasks : rescued_tasks IPC_ERR_ENDPOINT_CLOSED (at_endpoint ep) (tasks s) (tasks s');
  cg_owners : ep_owner <$> endpoints s' = ep_owner <$> endpoints s }.

Lemma closing_step_trans x B ep s1 s2 s3 :
  closing_step x B ep s1 s2 -> closing_step x B ep s2 s3 -> closing_step x B ep s1 s3.
Proof.
  intros [] []. split; [by eapply ipc_ok_trans|by etransitivity|congruence].
Qed.

Lemma rescue_one x B s ep e e' i r f :
  KInv x kr us B s -> endpoints s !! ep = Some e -> is_closed e' = is_closed e ->
  ep_owner e' = ep_owner e -> reason_of (tasks s) i = Some r -> reason_ep r = Some ep ->
  ep_ok (upd_reason (reason_of (tasks s)) i None) ep e' -> f = closed_waiter \/ f = closed_sender ->
  returns (set_endpoint ep e' ;; rescue_closed i f) s (fun _ s' =>
    closing_step x B ep s s' /\ endpoints s' !! ep = Some e').
Proof.
  intros Hk He Hcl Hown Hr Hre Hep Hf.
  destruct (waiter_lookup _ _ _ _ _ _ _ (ki_core _ _ _ _ _ Hk) Hr) as (t & Ht & Htr & Hst & _).
  eapply returns_mono; [apply (rescue_closed_spec x B s ep e e' i t f); try done|].
  { intros r'. rewrite Htr. by intros [= <-]. }
  intros [] s' (Hok & Heps & Hts). split.
  - split; [done| |].
    + rewrite Hts. eapply rescued_insert; [done|]. right. exists r.
      by destruct Hf as [-> | ->].
    + rewrite Heps, list_fmap_insert, Hown. apply list_insert_id. by rewrite list_lookup_fmap, He.
  - rewrite Heps. apply list_lookup_insert_eq. by eapply lookup_lt_Some.
Qed.

Lemma close_send_loop_spec x B ep n s e :
  KInv x kr us B s -> endpoints s !! ep = Some e -> sq_len e = n ->
  returns (close_send_loop ep n) s (fun _ s' => closing_step x B ep s s' /\ exists e',
    endpoints s' !! ep = Some e' /\ sq_len e' = 0 /\ recv_waiter e' = recv_waiter e).
Proof.
  revert s e. induction n as [|n IH]; intros s e Hk He Hn; cbn [close_send_loop].
  { kstep. split; [|by exists e]. split; [by apply ipc_ok_refl|done..]. }
  pose proof (ci_eps _ _ _ _ _ (ki_core _ _ _ _ _ Hk) _ _ He) as Hep.
  pose proof (eo_wf _ _ _ Hep) as [H1 H2 H3 H4].
  destruct (read_live (send_queue e) (sq_len e) n) as (j & Hj & Hjl); [lia..|].
  set (e1 := {| e with sq_len := n |}).
  assert (Hse : senders e = senders e1 ++ [j]).
  { unfold senders. rewrite Hn. by apply live_pop. }
  assert (Hrj : reason_of (tasks s) j = Some (IpcSend ep)).
  { apply (eo_send _ _ _ Hep). rewrite Hse. set_solver. }
  kstep. rewrite (read_at_Ok _ _ _ Hj). kstep. apply returns_group.
  eapply returns_seq; [eapply (rescue_one x B s ep e e1); try done; [|by right]|].
  { eapply leave_send; try done; [split; simpl; lia|]. rewrite Hse. by rewrite Permutation_app_comm. }
  intros [] s1 [Hst1 He1]. eapply returns_mono; [apply (IH s1 e1); [apply Hst1|done..]|].
  intros [] s' (Hst' & e' & He' & Hz & Hw). split; [by eapply closing_step_trans|by exists e'].
Qed.

Lemma close_reply_loop_spec x B ep n s e :
  KInv x kr us B s -> endpoints s !! ep = Some e -> ep_rq_len e = n ->
  returns (close_reply_loop ep n) s (fun _ s' => closing_step x B ep s s' /\ exists e',
    endpoints s' !! ep = Some e' /\ ep_rq_len e' = 0 /\ recv_waiter e' = recv_waiter e /\
    sq_len e' = sq_len e).
Proof.
  revert s e. induction n as [|n IH]; intros s e Hk He Hn; cbn [close_reply_loop].
  { kstep. split; [|by exists e]. split; [by apply ipc_ok_refl|done..]. }
  pose proof (ci_eps _ _ _ _ _ (ki_core _ _ _ _ _ Hk) _ _ He) as Hep.
  pose proof (eo_wf _ _ _ Hep) as [H1 H2 H3 H4].
  destruct (read_live (reply_queue e) (ep_rq_len e) n) as (j & Hj & Hjl); [lia..|].
  set (e1 := {| e with ep_rq_len := n |}).
  assert (Hse : reply_waiters e = reply_waiters e1 ++ [j]).
  { unfold reply_waiters. rewrite Hn. by apply live_pop. }
  assert (exists p, reason_of (tasks s) j = Some (IpcReply p ep)) as [p Hrj].
  { apply (eo_reply _ _ _ Hep). rewrite Hse. set_solver. }
  kstep. rewrite (read_at_Ok _ _ _ Hj). kstep. apply returns_group.
  eapply returns_seq; [eapply (rescue_one x B s ep e e1); try done; [|by left]|].
  { eapply leave_reply; try done; [split; simpl; lia|]. rewrite Hse. by rewrite Permutation_app_comm. }
  intros [] s1 [Hst1 He1]. eapply returns_mono; [apply (IH s1 e1); [apply Hst1|done..]|].
  intros [] s' (Hst' & e' & He' & Hz & Hw & Hsq). split; [by eapply closing_step_trans|by exists e'].
Qed.

Definition closing (x : slack) (ep : EndpointId) : slack := mkSlack (sl_dead x) (Some ep).

(** Marking the endpoint closed starts the exception ... *)
Lemma closing_start x B s ep e :
  KInv x kr us B s -> sl_closing x = None -> endpoints s !! ep = Some e ->
  KInv (closing x ep) kr us B {| s with endpoints := <[ep := {| e with is_closed := true |}]> (endpoints s) |}.
Proof.
  intros [Hs Hci] Hx He. split; try done; [by destruct Hs|]. ksimpl.
  destruct Hci. split; try done.
  - by rewrite length_insert.
  - intros k ek [(<- & <- & _)|[_ Hk]]%list_lookup_insert_Some; [|by auto].
    destruct (ci_eps _ _ He) as [[]]. by split.
  - intros k ek i r [(<- & <- & _)|[_ Hk]]%list_lookup_insert_Some Hc Hne; [by destruct Hne|].
    apply (ci_closed _ _ i r Hk Hc). by rewrite Hx.
Qed.

(** ... and emptying its queues ends it. *)
Lemma closing_end x B s ep e :
  KInv (closing x ep) kr us B s -> endpoints s !! ep = Some e ->
  recv_waiter e = None -> sq_len e = 0 -> ep_rq_len e = 0 -> KInv x kr us B s.
Proof.
  intros [Hs Hci] He Hr Hsq Hrq. split; try done. pose proof (ci_eps _ _ _ _ _ Hci _ _ He) as Hep.
  assert (Hnone : forall i r, reason_of (tasks s) i = Some r -> reason_ep r <> Some ep).
  { intros i r Hi Hre. destruct r as [|e0|e0|p e0]; simplify_eq/=.
    - apply (eo_recv _ _ _ Hep) in Hi. congruence.
    - apply (eo_send _ _ _ Hep) in Hi. unfold senders in Hi. rewrite Hsq in Hi.
      by apply elem_of_nil in Hi.
    - assert (i ∈ reply_waiters e) as Hin by (apply (eo_reply _ _ _ Hep); eauto).
      unfold reply_waiters in Hin. rewrite Hrq in Hin. by apply elem_of_nil in Hin. }
  destruct Hci. split; try done.
  intros k ek i r Hk Hc Hne Hi. destruct (decide (k = ep)) as [->|Hd]; [by eapply Hnone|].
  apply (ci_closed _ _ i r Hk Hc); [simpl; congruence|done].
Qed.

(** The effect of closing an endpoint: it is closed, whoever waited on it is
    ready with the error, and nothing else happens. *)
Record closed_done (x : slack) (B : Z) (ep : EndpointId) (s s' : KernelState) : Prop := {
  cd_inv : KInv x kr us B s';
  cd_frame : ipc_frame s s';
  cd_calm : calm_tasks (tasks s) (tasks s');
  cd_cur : current_task s' = current_task s;
  cd_closed : is_closed <$> endpoints s' = <[ep := true]> (is_closed <$> endpoints s);
  cd_tasks : rescued_tasks IPC_ERR_ENDPOINT_CLOSED (at_endpoint ep) (tasks s) (tasks s');
  cd_owners : ep_owner <$> endpoints s' = ep_owner <$> endpoints s }.

(** The receiver, if one waits, leaves with the mark. *)
Lemma close_recv_spec x B s ep e :
  KInv x kr us B s -> sl_closing x = None -> endpoints s !! ep = Some e ->
  let e0 := {| e with is_closed := true |} in
  let s0 := {| s with endpoints := <[ep := e0]> (endpoints s) |} in
  returns (set_endpoint ep {| e with is_closed := true; recv_waiter := None |} ;;
           match recv_waiter e with
           | Some recv_idx => rescue_closed recv_idx closed_waiter
           | None => mret tt
           end) s (fun _ s' => closing_step (closing x ep) B ep s0 s' /\ exists e',
    endpoints s' !! ep = Some e' /\ recv_waiter e' = None).
Proof.
  intros Hk Hx He e0 s0. pose proof (closing_start _ _ _ _ _ Hk Hx He) as Hk0.
  assert (Hlt : ep < length (endpoints s)) by by eapply lookup_lt_Some.
  assert (He0 : endpoints s0 !! ep = Some e0) by by apply list_lookup_insert_eq.
  pose proof (ci_eps _ _ _ _ _ (ki_core _ _ _ _ _ Hk0) _ _ He0) as Hep.
  destruct (recv_waiter e) as [j|] eqn:Hw in |- *.
  - assert (Hr : reason_of (tasks s) j = Some (IpcRecv ep)) by by apply (eo_recv _ _ _ Hep).
    assert (returns (set_endpoint ep {| e with is_closed := true; recv_waiter := None |} ;;
      rescue_closed j closed_waiter) s0 (fun _ s' => closing_step (closing x ep) B ep s0 s' /\ endpoints s' !! ep = Some {| e with is_closed := true; recv_waiter := None |})) as Hret.
    { eapply (rescue_one _ B s0 ep e0); try done; [|by left]. by apply (leave_recv _ _ e0). }
    destruct Hret as ([] & s' & Hrun & Hst & He').
    erewrite bind_Ok in Hrun by (apply set_endpoint_Ok; unfold s0; simpl; by rewrite length_insert).
    simpl in Hrun. rewrite list_insert_insert_eq in Hrun.
    eapply returns_step; [by apply set_endpoint_Ok|]. cbv beta.
    eapply returns_Ok; [exact Hrun|]. split; [done|by eexists].
  - eapply returns_step; [by apply set_endpoint_Ok|]. kstep.
    assert (Heq : {| e with is_closed := true; recv_waiter := None |} = e0)
      by (unfold e0; destruct e; simpl in *; by subst).
    rewrite Heq. split; [|by exists e0]. split; [by apply ipc_ok_refl|done..].
Qed.

Lemma close_endpoint_spec x B s ep e :
  KInv x kr us B s -> sl_closing x = None -> endpoints s !! ep = Some e ->
  returns (close_endpoint_and_rescue_waiters ep) s (fun _ s' => closed_done x B ep s s').
Proof.
  intros Hk Hx He. pose proof Hk as [Hs Hci _ _ _ _ _].
  assert (Hlt : ep < length (endpoints s)) by by eapply lookup_lt_Some.
  unfold close_endpoint_and_rescue_waiters.
  rewrite (proj2 (Nat.leb_gt _ _)) by (by rewrite <- (ci_eps_len _ _ _ _ _ Hci)). kstep.
  destruct (is_closed e) eqn:Hc.
  { kstep. split; try done. rewrite list_insert_id; [done|]. by rewrite list_lookup_fmap, He, <- Hc. }
  apply returns_group. eapply returns_seq; [by apply (close_recv_spec x B s ep e)|].
  intros [] s1 (Hst1 & e1 & He1 & Hw1). kstep.
  eapply returns_seq; [by apply (close_send_loop_spec (closing x ep) B ep _ s1 e1); [apply Hst1|..]|].
  intros [] s2 (Hst2 & e2 & He2 & Hz2 & Hw2). kstep.
  eapply returns_mono; [by apply (close_reply_loop_spec (closing x ep) B ep _ s2 e2); [apply Hst2|..]|].
  intros [] s3 (Hst3 & e3 & He3 & Hz3 & Hw3 & Hz3').
  pose proof (closing_step_trans _ _ _ _ _ _ Hst1 (closing_step_trans _ _ _ _ _ _ Hst2 Hst3))
    as [[Hk' Hf Hcalm Hcur Hcl] Hts Hown].
  split; try done.
  - apply (closing_end _ _ _ _ _ Hk' He3); congruence.
  - etransitivity; [|exact Hf]. done.
  - etransitivity; [exact Hcl|]. simpl. by rewrite list_fmap_insert.
  - etransitivity; [exact Hown|]. simpl. rewrite list_fmap_insert. apply list_insert_id. by rewrite list_lookup_fmap, He.
Qed.

(** Closing several endpoints. *)
Lemma mark_closed_length eps l : length (mark_closed eps l) = length l.
Proof.
  unfold mark_closed. revert l. induction eps as [|e eps IH]; intros l; simpl; [done|].
  by rewrite IH, length_insert.
Qed.

Lemma mark_closed_keep eps l e : l !! e = Some true -> mark_closed eps l !! e = Some true.
Proof.
  unfold mark_closed. revert l. induction eps as [|e' eps IH]; intros l He; simpl; [done|].
  apply IH. destruct (decide (e' = e)) as [->|].
  - apply list_lookup_insert_eq. by eapply lookup_lt_Some.
  - by rewrite list_lookup_insert_ne.
Qed.

Lemma mark_closed_in eps l e : e ∈ eps -> e < length l -> mark_closed eps l !! e = Some true.
Proof.
  unfold mark_closed. revert l. induction eps as [|e' eps IH]; intros l Hin Hlt; simpl.
  { by apply elem_of_nil in Hin. }
  apply elem_of_cons in Hin as [<-|Hin]; [|apply IH; by rewrite ?length_insert].
  apply mark_closed_keep. by apply list_lookup_insert_eq.
Qed.

Definition at_endpoints (eps : list EndpointId) (r : BlockedReason) : Prop :=
  exists e, e ∈ eps /\ at_endpoint e r.

Record all_closed (x : slack) (B : Z) (eps : list EndpointId) (s s' : KernelState) : Prop := {
  ac_inv : KInv x kr us B s';
  ac_frame : ipc_frame s s';
  ac_calm : calm_tasks (tasks s) (tasks s');
  ac_cur : current_task s' = current_task s;
  ac_closed : is_closed <$> endpoints s' = mark_closed eps (is_closed <$> endpoints s);
  ac_tasks : rescued_tasks IPC_ERR_ENDPOINT_CLOSED (at_endpoints eps) (tasks s) (tasks s') }.

Lemma close_all_spec x B eps s :
  KInv x kr us B s -> sl_closing x = None -> Forall (fun e => e < MAX_ENDPOINTS) eps ->
  returns (for_each eps close_endpoint_and_rescue_waiters) s (fun _ s' => all_closed x B eps s s').
Proof.
  revert s. induction eps as [|e eps IH]; intros s Hk Hx Heps; cbn [for_each].
  { kstep. by split. }
  apply Forall_cons in Heps as [He Heps].
  destruct (core_endpoint _ _ _ _ _ (ki_core _ _ _ _ _ Hk) e He) as (ep & Hep & _).
  eapply returns_seq; [by apply (close_endpoint_spec x B s e ep)|].
  intros [] s1 [Hk1 Hf1 Hc1 Hcur1 Hcl1 Hts1 _].
  eapply returns_mono; [by apply (IH s1)|]. intros [] s' [Hk' Hf' Hc' Hcur' Hcl' Hts'].
  split; [done|by etransitivity|by etransitivity|congruence| |].
  - rewrite Hcl', Hcl1. done.
  - etransitivity; eapply Forall2_impl; try done; intros t t'; apply rescued_weaken.
    + intros r Hr. exists e. split; [by left|done].
    + intros r (e' & He' & Hr). exists e'. split; [by right|done].
Qed.

(** Nobody waits at them afterwards. *)
Lemma all_closed_nobody x B eps s s' i r :
  all_closed x B eps s s' -> sl_closing x = None -> Forall (fun e => e < MAX_ENDPOINTS) eps ->
  reason_of (tasks s') i = Some r -> ~ at_endpoints eps r.
Proof.
  intros [Hk Hf _ _ Hcl _] Hx Heps Hr (e & He & Hat). pose proof (ki_core _ _ _ _ _ Hk) as Hci.
  rewrite Forall_forall in Heps. specialize (Heps e He).
  destruct (core_endpoint _ _ _ _ _ Hci e Heps) as (ep & Hep & _).
  apply (ci_closed _ _ _ _ _ Hci e ep i r Hep); [|by rewrite Hx|done..].
  assert ((is_closed <$> endpoints s') !! e = Some true) as Hc.
  { rewrite Hcl. apply mark_closed_in; [done|]. rewrite <- (mark_closed_length eps), <- Hcl.
    rewrite length_fmap. by eapply lookup_lt_Some. }
  rewrite list_lookup_fmap, Hep in Hc. by injection Hc.
Qed.

(** ** Resolving the reply waiters of a dead task

    The loop takes the waiters out of their queues and clears their reasons,
    and they are woken only when all are found: in between they are blocked
    for no reason.  [L] is the list of those. *)

Definition wake_all (L : list nat) (ts : list Task) : list Task :=
  foldl (fun ts i => alter woken i ts) ts L.

Lemma wake_all_notin L ts j : j ∉ L -> wake_all L ts !! j = ts !! j.
Proof.
  unfold wake_all. revert ts. induction L as [|i L IH]; intros ts Hj; simpl; [done|].
  apply not_elem_of_cons in Hj as [Hne Hj]. rewrite IH by done. by apply list_lookup_alter_ne.
Qed.

Lemma wake_all_insert L ts j t :
  j ∉ L -> wake_all L (<[j := t]> ts) = <[j := t]> (wake_all L ts).
Proof.
  unfold wake_all. revert ts. induction L as [|i L IH]; intros ts Hj; simpl; [done|].
  apply not_elem_of_cons in Hj as [Hne Hj].
  rewrite <- IH by done. f_equal. rewrite !list_insert_alter. by apply list_alter_alter_ne.
Qed.

Lemma wake_all_length L ts : length (wake_all L ts) = length ts.
Proof.
  unfold wake_all. revert ts. induction L as [|i L IH]; intros ts; simpl; [done|].
  by rewrite IH, length_alter.
Qed.

Lemma wake_all_snoc L ts j t :
  j ∉ L -> wake_all (L ++ [j]) (<[j := t]> ts) = <[j := woken t]> (wake_all L ts).
Proof.
  intros Hj. unfold wake_all. rewrite foldl_app. simpl. fold (wake_all L (<[j := t]> ts)).
  rewrite wake_all_insert, !list_insert_alter by done. apply list_alter_alter_eq.
Qed.

(** Waking them all. *)
Lemma for_each_wake_spec L s :
  shape s -> NoDup (rq s ++ L) -> (forall i, i ∈ rq s ++ L -> i < MAX_TASKS) ->
  (forall i, i ∈ L -> state_of (tasks s) i = Some Blocked) ->
  returns (for_each L wake_task_to_ready) s (fun _ s' =>
    q_frame s s' /\ shape s' /\ tasks s' = wake_all L (tasks s) /\ rq s' = rq s ++ L).
Proof.
  revert s. induction L as [|i L IH]; intros s Hs Hnd Hb Hbl; cbn [for_each].
  { kstep. split; [reflexivity|]. split; [done|]. split; [done|]. by rewrite app_nil_r. }
  assert (Hi : state_of (tasks s) i = Some Blocked) by (apply Hbl; by left).
  destruct (tasks s !! i) as [t|] eqn:Ht; [|by unfold state_of in Hi; rewrite Ht in Hi].
  rewrite (state_of_lookup _ _ _ Ht) in Hi. injection Hi as Hst.
  pose proof Hnd as (Hndq & Hdis & HndL)%NoDup_app. apply NoDup_cons in HndL as [HiL HndL].
  assert (Hiq : i ∉ rq s) by (intros Hin; by eapply (Hdis i Hin); left).
  assert (Hlen : rq_len s < MAX_TASKS).
  { rewrite <- rq_length by done. apply (nodup_room _ i); [done| |by eapply lookup_bound|done].
    intros j Hj. apply Hb. set_solver. }
  eapply returns_seq; [by apply (wake_blocked_spec i t s)|].
  intros [] s1 (Hf1 & Hs1 & Hts1 & Hrq1).
  assert (Happ : rq s1 ++ L = rq s ++ i :: L) by (rewrite Hrq1; by rewrite <- app_assoc).
  eapply returns_mono; [apply (IH s1); [done|by rewrite Happ..|]|].
  - intros j Hj. rewrite Hts1, state_of_insert by by eapply lookup_lt_Some.
    rewrite decide_False by (intros ->; done). apply Hbl. by right.
  - intros [] s' (Hf' & Hs' & Hts' & Hrq'). split; [by transitivity s1|]. split; [done|].
    split; [|by rewrite Hrq'].
    rewrite Hts', Hts1. unfold wake_all. simpl. f_equal. rewrite list_insert_alter. apply list_alter_ext; [|done].
    intros t' Ht'. by simplify_eq.
Qed.

Definition killing (id : TaskId) : slack := mkSlack (Some id) None.

(** Once nobody waits for the dead task any more, the invariant is strict. *)
Lemma core_strengthen ts cur q eps id :
  CoreInv (killing id) ts cur q eps -> (forall i e, reason_of ts i <> Some (IpcReply id e)) ->
  CoreInv strict ts cur q eps.
Proof.
  intros [? ? ? ? ? ? ? ? Hc Hp] Hn. split; try done.
  intros i p e Hr _. apply (Hp i p e Hr). simpl. intros [= ->]. by apply (Hn i e).
Qed.


Definition awaits (id : TaskId) (r : BlockedReason) : Prop := exists e, r = IpcReply id e.

Record pending (id : TaskId) (s0 : KernelState) (L : list nat) (s : KernelState) : Prop := {
  pe_core : CoreInv (killing id) (wake_all L (tasks s)) (current_task s) ((rq s) ++ L) (endpoints s);
  pe_blocked i : i ∈ L -> exists t, tasks s !! i = Some t /\ t_state t = Blocked /\
    t_blocked_reason t = None;
  pe_shape : shape s;
  pe_frame : ipc_frame s0 s;
  pe_cur : current_task s = current_task s0;
  pe_counters : counters s = counters s0;
  pe_calm : calm_tasks (tasks s0) (wake_all L (tasks s));
  pe_tasks : rescued_tasks IPC_ERR_DEAD_PARTNER (awaits id) (tasks s0) (wake_all L (tasks s));
  pe_closed : is_closed <$> endpoints s = is_closed <$> endpoints s0 }.

Lemma pending_reason id s0 L s i :
  pending id s0 L s -> reason_of (wake_all L (tasks s)) i = reason_of (tasks s) i.
Proof.
  intros Hp. destruct (decide (i ∈ L)) as [Hi|Hi].
  - destruct (pe_blocked _ _ _ _ Hp i Hi) as (t & Ht & _ & Hr). rewrite (reason_of_lookup _ _ _ Ht), Hr.
    destruct (reason_of (wake_all L (tasks s)) i) as [r|] eqn:Hw; [|done].
    destruct (waiter_lookup _ _ _ _ _ _ _ (pe_core _ _ _ _ Hp) Hw) as (_ & _ & _ & _ & _ & Hq).
    destruct Hq. apply elem_of_app. by right.
  - unfold reason_of. by rewrite wake_all_notin.
Qed.

(** The task found at a position of the reply queue. *)
Lemma pending_waiter id s0 L s k e pos j :
  pending id s0 L s -> endpoints s !! k = Some e -> reply_waiters e !! pos = Some j ->
  exists t p, tasks s !! j = Some t /\ t_state t = Blocked /\
    t_blocked_reason t = Some (IpcReply p k) /\ (j ∉ L) /\ (j ∉ rq s ++ L) /\ j <> TASK0_INDEX /\ j < MAX_TASKS.
Proof.
  intros Hp He Hpos. pose proof (pe_core _ _ _ _ Hp) as Hci.
  pose proof (ci_eps _ _ _ _ _ Hci _ _ He) as Hep.
  destruct (eo_reply _ _ _ Hep j) as [Hjr _].
  destruct Hjr as [p Hr]; [by eapply list_elem_of_lookup_2|].
  destruct (waiter_lookup _ _ _ _ _ _ _ Hci Hr) as (t & Ht & Htr & Hst & Hj0 & Hjq).
  assert (HjL : j ∉ L) by (intros Hin; apply Hjq, elem_of_app; by right).
  rewrite wake_all_notin in Ht by done. exists t, p. split_and!; try done.
  eapply lookup_bound; [apply Hp|done].
Qed.

(** One waiter is found. *)
Lemma pending_found id s0 L s k e pos j t q :
  pending id s0 L s -> endpoints s !! k = Some e -> reply_waiters e !! pos = Some j ->
  tasks s !! j = Some t -> t_state t = Blocked -> t_blocked_reason t = Some (IpcReply id k) ->
  length q = length (reply_queue e) -> live q (ep_rq_len e - 1) ++ [j] ≡ₚ reply_waiters e ->
  let e' := {| e with reply_queue := q; ep_rq_len := ep_rq_len e - 1 |} in
  let t' := {| t with t_blocked_reason := None; t_last_reply := Some IPC_ERR_DEAD_PARTNER |} in
  pending id s0 (L ++ [j]) {| s with endpoints := <[k := e']> (endpoints s);
                                     tasks := <[j := t']> (tasks s) |}.
Proof.
  intros Hp He Hpos Ht Hst Hr Hlen Hperm e' t'.
  destruct (pending_waiter _ _ _ _ _ _ _ _ Hp He Hpos) as (t0 & p & Ht0 & _ & _ & HjL & Hjq & Hj0 & Hjb).
  assert (t0 = t) as -> by congruence. clear Ht0 p.
  assert (Hlt : j < length (tasks s)) by by eapply lookup_lt_Some.
  pose proof Hp as [Hci Hbl Hs Hf Hcur Hcnt Hcalm Hre Hcl].
  pose proof (ci_eps _ _ _ _ _ Hci _ _ He) as Hep. pose proof (eo_wf _ _ _ Hep) as [H1 H2 H3 H4].
  assert (Htw : wake_all L (tasks s) !! j = Some t) by by rewrite wake_all_notin.
  pose proof (ci_task _ _ _ _ _ Hci _ _ Htw) as Hok.
  split; ksimpl; try done.
  - rewrite wake_all_snoc by done. change (rq _) with (rq s). rewrite app_assoc.
    eapply core_move; try done; simpl.
    + eapply task_ok_awake; eauto; simpl; congruence.
    + apply NoDup_app. split; [apply Hci|]. split; [|apply NoDup_singleton].
      by intros i Hi ->%list_elem_of_singleton.
    + intros i Hi. set_solver.
    + set_solver.
    + intros r. rewrite Hr. by intros [= <-].
    + eapply leave_reply; try done; [split; simpl; lia|].
      unfold reply_waiters at 2. simpl. rewrite <- Hperm. by rewrite Permutation_app_comm.
  - intros i [Hi| ->%list_elem_of_singleton]%elem_of_app.
    + rewrite list_lookup_insert_ne by (intros <-; done). by apply Hbl.
    + exists t'. by rewrite list_lookup_insert_eq.
  - destruct Hs. split; ksimpl; auto with kernel.
  - etransitivity; [exact Hf|]. done.
  - rewrite wake_all_snoc by done. etransitivity; [exact Hcalm|].
    eapply calm_insert; [done|]. apply calm_awake; simpl; congruence.
  - rewrite wake_all_snoc by done. etransitivity; [exact Hre|].
    eapply rescued_insert; [done|]. right. exists (IpcReply id k). split_and!; try done. by exists k.
  - rewrite list_fmap_insert. etransitivity; [|exact Hcl]. apply list_insert_id.
    by rewrite list_lookup_fmap, He.
Qed.

Definition waits_reply (ts : list Task) (id : TaskId) (k : EndpointId) (i : nat) : Prop :=
  reason_of ts i = Some (IpcReply id k).

Lemma pending_none id s0 L s k e n :
  pending id s0 L s -> endpoints s !! k = Some e -> ep_rq_len e <= n ->
  (forall p i, p < n -> reply_waiters e !! p = Some i -> ~ waits_reply (tasks s) id k i) ->
  forall i, ~ waits_reply (tasks s) id k i.
Proof.
  intros Hp He Hn Hno i Hi. pose proof (ci_eps _ _ _ _ _ (pe_core _ _ _ _ Hp) _ _ He) as Hep.
  assert (i ∈ reply_waiters e) as [p Hpi]%list_elem_of_lookup.
  { apply (eo_reply _ _ _ Hep). exists id. by rewrite (pending_reason _ _ _ _ _ Hp). }
  apply (Hno p i); [|done..]. apply lookup_lt_Some in Hpi.
  rewrite reply_waiters_length in Hpi by apply Hep. lia.
Qed.

Lemma resolve_loop_spec id s0 fuel k pos L s e :
  pending id s0 L s -> endpoints s !! k = Some e -> ep_rq_len e <= pos + fuel ->
  (forall p i, p < pos -> reply_waiters e !! p = Some i -> ~ waits_reply (tasks s) id k i) ->
  returns (resolve_loop fuel id k pos L) s (fun L' s' => pending id s0 L' s' /\
    (forall i, ~ waits_reply (tasks s') id k i) /\
    (forall i r, reason_of (tasks s') i = Some r -> reason_of (tasks s) i = Some r)).
Proof.
  revert pos L s e. induction fuel as [|fuel IH]; intros pos L s e Hp He Hfuel Hno; cbn [resolve_loop].
  { kstep. split; [done|]. split; [|done]. apply (pending_none id s0 L s k e pos); [done|done|lia|done]. }
  kstep. destruct (Nat.ltb_spec pos (ep_rq_len e)) as [Hlt|Hge].
  2: { kstep. split; [done|]. split; [|done]. by apply (pending_none id s0 L s k e pos). }
  pose proof (ci_eps _ _ _ _ _ (pe_core _ _ _ _ Hp) _ _ He) as Hep.
  pose proof (eo_wf _ _ _ Hep) as [H1 H2 H3 H4]. pose proof (pe_shape _ _ _ _ Hp) as Hs.
  destruct (read_live (reply_queue e) (ep_rq_len e) pos) as (j & Hj & Hjl); [lia..|].
  destruct (pending_waiter _ _ _ _ _ _ _ _ Hp He Hjl) as (t & p & Ht & Hst & Hr & HjL & Hjq & Hj0 & Hjb).
  rewrite (read_at_Ok _ _ _ Hj). repeat kstep.
  rewrite (num_tasks_ltb s), (proj2 (Nat.ltb_lt j MAX_TASKS)) by done. repeat kstep.
  assert (Htest : waits_for_reply_of id e t = (p =? id)%Z).
  { unfold waits_for_reply_of. rewrite bool_decide_true, Hr, (eo_id _ _ _ Hep), Nat.eqb_refl by done.
    by rewrite andb_true_r. }
  rewrite Htest. destruct (Z.eqb_spec p id) as [->|Hne]; simpl.
  - destruct (swap_remove_spec (reply_queue e) (ep_rq_len e) pos j) as (q & Hq & Hl & Htk & Hperm);
      [lia|done|done|]. rewrite Hq. repeat kstep.
    eapply returns_step; [apply set_endpoint_Ok; by eapply lookup_lt_Some|]. cbv beta. repeat kstep.
    rewrite (proj2 (Nat.ltb_lt _ _)).
    2: { eapply (nodup_room L j); [| |done|done].
         - pose proof (ci_nodup _ _ _ _ _ (pe_core _ _ _ _ Hp)) as (_ & _ & ?)%NoDup_app. done.
         - intros i Hi. eapply core_q_bound; [apply Hp|]. apply elem_of_app. by right. }
    eapply returns_mono; [eapply IH|].
    + eapply (pending_found _ _ _ _ k e pos j t q); try done.
      rewrite Permutation_app_comm. simpl. by rewrite Hperm.
    + simpl. apply list_lookup_insert_eq. by eapply lookup_lt_Some.
    + simpl. lia.
    + simpl. intros p i Hpp Hi Hw. unfold waits_reply in Hw.
      rewrite reason_of_insert in Hw by by eapply lookup_lt_Some. case_decide; [done|].
      apply (Hno p i Hpp); [|done]. unfold reply_waiters in Hi |- *. simpl in Hi.
      unfold live in *. apply lookup_take_Some in Hi as [Hi _]. apply lookup_take_Some.
      split; [|lia]. rewrite <- (lookup_take_lt _ pos p), <- Htk by lia. by rewrite lookup_take_lt.
    + intros L' s' (Hp' & Hno' & Hmono). split; [done|]. split; [done|].
      intros i r Hi%Hmono. simpl in Hi. rewrite reason_of_insert in Hi by by eapply lookup_lt_Some.
      by case_decide.
  - eapply returns_mono; [eapply (IH (S pos)); [done|done|lia|]|done].
    intros p' i Hpp Hi. destruct (decide (p' = pos)) as [->|]; [|apply (Hno p'); [lia|done]].
    unfold reply_waiters in Hi. assert (i = j) as -> by congruence. unfold waits_reply.
    rewrite (reason_of_lookup _ _ _ Ht), Hr. congruence.
Qed.

Lemma resolve_endpoints_spec id s0 ks L s :
  pending id s0 L s -> (forall k, k ∈ ks -> k < MAX_ENDPOINTS) ->
  returns (resolve_endpoints id ks L) s (fun L' s' => pending id s0 L' s' /\
    (forall k i, k ∈ ks -> ~ waits_reply (tasks s') id k i) /\
    (forall i r, reason_of (tasks s') i = Some r -> reason_of (tasks s) i = Some r)).
Proof.
  revert L s. induction ks as [|k ks IH]; intros L s Hp Hks; cbn [resolve_endpoints].
  { kstep. split; [done|]. split; [|done]. intros k i Hk. by apply elem_of_nil in Hk. }
  destruct (core_endpoint _ _ _ _ _ (pe_core _ _ _ _ Hp) k) as (e & He & _); [apply Hks; by left|].
  kstep. eapply returns_seq; [apply (resolve_loop_spec id s0 _ k 0 L s e); [done|done|lia|lia]|].
  intros L1 s1 (Hp1 & Hno1 & Hm1).
  eapply returns_mono; [apply (IH L1 s1); [done|]|].
  - intros k' Hk'. apply Hks. by right.
  - intros L' s' (Hp' & Hno' & Hm'). split; [done|]. split; [|by auto].
    intros k' i [->|Hk']%elem_of_cons Hw; [|by eapply Hno'].
    by apply (Hno1 i), Hm'.
Qed.

(** The effect: whoever waited for a reply of the dead task is ready, with the
    error as the reply; nobody waits for the dead task any more. *)
Record resolved (id : TaskId) (B : Z) (s s' : KernelState) : Prop := {
  rd_ok : ipc_ok kr us strict B s s';
  rd_tasks : rescued_tasks IPC_ERR_DEAD_PARTNER (awaits id) (tasks s) (tasks s') }.

Lemma pending_start id B s : KInv (killing id) kr us B s -> pending id s [] s.
Proof.
  intros [Hs Hci]. split; try done.
  - by rewrite app_nil_r.
  - intros i Hi. by apply elem_of_nil in Hi.
Qed.

Lemma resolve_spec id B s :
  KInv (killing id) kr us B s ->
  returns (resolve_ipc_reply_waiters_for_dead_partner id) s (fun _ s' => resolved id B s s').
Proof.
  intros Hk. pose proof Hk as [Hs Hci _ _ Hcnt _ _].
  unfold resolve_ipc_reply_waiters_for_dead_partner. kstep.
  eapply returns_seq; [apply (resolve_endpoints_spec id s _ [] s); [by eapply pending_start|]|].
  { intros k Hin%elem_of_seq. rewrite (ci_eps_len _ _ _ _ _ Hci) in Hin. lia. }
  intros L s1 (Hp & Hno & _). pose proof Hp as [Hci1 Hbl Hs1 Hf1 Hcur1 Hcnt1 Hcalm1 Hre1 Hcl1].
  eapply returns_mono; [apply (for_each_wake_spec L s1); [done| | |]|].
  - apply Hci1.
  - apply (core_q_bound _ _ _ _ _ Hci1).
  - intros i Hi. destruct (Hbl i Hi) as (t & Ht & Hst & _). by rewrite (state_of_lookup _ _ _ Ht), Hst.
  - intros [] s' (Hf & Hs' & Hts & Hrq).
    assert (Heps : endpoints s' = endpoints s1) by by rewrite (q_frame_eq _ _ Hf).
    assert (Hcur : current_task s' = current_task s1) by by rewrite (q_frame_eq _ _ Hf).
    assert (Hcnt' : counters s' = counters s1) by by rewrite (q_frame_eq _ _ Hf).
    split; [|by rewrite Hts]. 
    assert (Hcore : CoreInv strict (tasks s') (current_task s') (rq s') (endpoints s')).
    { rewrite Hts, Hrq, Heps, Hcur. apply (core_strengthen _ _ _ _ id); [done|].
      intros i e Hw. pose proof Hw as Hb. rewrite (pending_reason _ _ _ _ _ Hp) in Hw.
      destruct (waiter_lookup _ _ _ _ _ _ _ Hci1 Hb) as (t & Ht & Htr & _).
      destruct (tk_reason _ _ (ci_task _ _ _ _ _ Hci1 _ _ Ht) _ Htr) as [_ (e' & [= <-] & He')].
      apply (Hno e i); [|done]. apply elem_of_seq. rewrite (ci_eps_len _ _ _ _ _ Hci). lia. }
    assert (Hcalm : calm_tasks (tasks s) (tasks s')) by by rewrite Hts.
    assert (Hf' : ipc_frame s s') by (etransitivity; [exact Hf1|by apply q_ipc_frame]).
    split; try done.
    + eapply KInv_step; try done. by rewrite Hcnt', Hcnt1.
    + congruence.
    + by rewrite Heps.
Qed.

End close.
