(* ===== verification/KillInv.v ===== *)
(** * Killing a task keeps the invariant *)

From stdpp Require Import base list option gmap sets.
From Stdlib Require Import ZArith Lia.
From S2P Require Import Prelude Addr AddressSpace FrameAlloc Queues KTypes Endpoint EventLog KState.
From S2P Require Import ArchIface Sched Ipc Kill Demo Syscall Tick IpcSpec Invariant IpcInv.
From S2P Require Import IpcRefine DumpRuns MemInv CloseInv.

(** ** Leaving every queue *)

Lemma mapM_res {X Y} (f : X -> res Y) (P : X -> Y -> Prop) l :
  (forall k x, l !! k = Some x -> exists y, f x = Ok y /\ P x y) ->
  exists l', mapM f l = Ok l' /\ Forall2 P l l'.
Proof.
  induction l as [|x l IH]; intros Hf; simpl; [by exists []; split; [|constructor]|].
  destruct (Hf 0 x eq_refl) as (y & -> & Hy).
  destruct IH as (l' & -> & Hl'); [intros k; apply (Hf (S k))|].
  exists (y :: l'). split; [done|by constructor].
Qed.

Lemma remove_task_from_endpoint_spec ρ e ep idx :
  ep_ok ρ e ep ->
  exists ep', remove_task_from_endpoint idx ep = Ok ep' /\
    ep_ok (upd_reason ρ idx None) e ep' /\ is_closed ep' = is_closed ep /\
    ep_owner ep' = ep_owner ep.
Proof.
  intros Hep. pose proof Hep as [[Hsa Hsl Hra Hrl] Hid Hsnd Hrnd Hr Hs Hp].
  unfold remove_task_from_endpoint.
  destruct (swap_remove_all_spec idx (send_queue ep) (sq_len ep)) as (sq & sn & -> & Hs1 & Hs2 & Hs3);
    [lia|]. simpl.
  destruct (swap_remove_all_spec idx (reply_queue ep) (ep_rq_len ep)) as (rq & rn & -> & Hr1 & Hr2 & Hr3);
    [lia|]. simpl.
  eexists. split; [done|]. split; [|done].
  split; unfold senders, reply_waiters, upd_reason in *; simpl; try done.
  - split; simpl; lia.
  - rewrite Hs3. by apply NoDup_filter.
  - rewrite Hr3. by apply NoDup_filter.
  - intros i. destruct (decide (recv_waiter ep = Some idx)) as [Hw|Hw].
    + split; [done|]. case_decide as Hd; [done|]. rewrite <- Hr, Hw. naive_solver.
    + case_decide as Hd; [subst; naive_solver|apply Hr].
  - intros i. rewrite Hs3, list_elem_of_filter, Hs. case_decide; naive_solver.
  - intros i. rewrite Hr3, list_elem_of_filter, Hp. case_decide; naive_solver.
Qed.

Lemma core_weaken ts cur q eps x : CoreInv strict ts cur q eps -> CoreInv x ts cur q eps.
Proof.
  intros [? ? ? ? ? ? ? ? Hc Hp]. split; try done.
  - intros e ep i r He Hcl _. by apply (Hc e ep).
  - intros i p e Hr _. by eapply Hp.
Qed.

(** The state of the queues when task [i] has left them and is dead. *)
Lemma core_kill x ts cur q eps i t eps' id :
  CoreInv x ts cur q eps -> ts !! i = Some t -> i <> TASK0_INDEX -> t_id t = id ->
  sl_dead x = Some id ->
  Forall2 (fun ep ep' => (forall e, ep_ok (reason_of ts) e ep ->
      ep_ok (upd_reason (reason_of ts) i None) e ep') /\ is_closed ep' = is_closed ep) eps eps' ->
  CoreInv x (<[i := killed t]> ts) cur (filter (.≠ i) q) eps'.
Proof.
  intros Hci Ht Hi0 Hid Hx Heps. pose proof (ci_task _ _ _ _ _ Hci _ _ Ht) as Hok.
  assert (Hlt : i < length ts) by by eapply lookup_lt_Some.
  eapply core_update; try done.
  - destruct Hok. split; simpl; try done.
  - apply NoDup_filter, Hci.
  - intros j Hj. rewrite list_elem_of_filter. naive_solver.
  - rewrite list_elem_of_filter. naive_solver.
  - rewrite <- (Forall2_length _ _ _ Heps). apply Hci.
  - intros e ep' He. destruct (Forall2_lookup_r _ _ _ _ _ Heps He) as (ep & He0 & Hep & _).
    eapply ep_ok_equiv; [intros j; by apply reason_of_upd|]. apply Hep. by apply (ci_eps _ _ _ _ _ Hci).
  - intros e ep' He Hc _. destruct (Forall2_lookup_r _ _ _ _ _ Heps He) as (ep & He0 & _ & Hcl).
    split; [|done]. exists ep. split; [done|congruence].
  - intros _ Hne. congruence.
Qed.

(** ** Unmapping the pages of the dead task *)

Lemma user_addr p :
  page_ok p -> exists va v, VirtPage_start_address p = Ok va /\
    u64_add USER_SPACE_BASE (virt_u64 va) = Ok v /\ is_user_space_addr_u64 v = true /\ (v mod 8 = 0)%Z.
Proof.
  intros Hp. unfold page_ok in Hp. unfold VirtPage_start_address.
  rewrite u64_mul_Ok by (unfold PAGE_SIZE, u64_max; lia). do 2 eexists. split; [done|]. simpl.
  change USER_SPACE_BASE with (32 * 2 ^ 39)%Z. unfold PAGE_SIZE.
  rewrite u64_add_Ok by (unfold u64_max; lia). split; [done|].
  split; [|rewrite Z.add_mod, (Z.mul_mod (page_number p)) by lia; change (4096 mod 8)%Z with 0%Z; by rewrite Z.mul_0_r].
  unfold is_user_space_addr_u64. change USER_SPACE_BASE with (32 * 2 ^ 39)%Z.
  change USER_SPACE_SIZE with (2 ^ 39)%Z. apply andb_true_intro.
  split; [apply Z.leb_le|apply Z.ltb_lt]; lia.
Qed.

Section kill_inv.
Context {A : Type} `{ArchLaws A} (kr : PhysFrame) (us : list PhysFrame).

Lemma arch_with_phys_mem_same (w : World A) (a' : A) :
  (let s := w_ks w in {| w with w_ks := {| s with phys_mem := phys_mem s |}; w_arch := a' |})
  = {| w with w_arch := a' |}.
Proof. by destruct w as [[] ? ? ? ? ?]. Qed.

Lemma unmap_pages_spec r pages k (w : World A) :
  arch_ready kr us (w_arch w) -> r ∈ us -> Forall page_ok pages ->
  NoDup (page_number <$> pages) ->
  (forall p, p ∈ page_number <$> pages -> is_Some (user_map (w_arch w) r !! p)) ->
  returns (unmap_pages r k pages) w (fun _ w' => exists a', w' = {| w with w_arch := a' |} /\
    arch_ready kr us a' /\ Cr3_read a' = Cr3_read (w_arch w) /\
    (forall p, user_map a' r !! p
       = if decide (p ∈ page_number <$> pages) then None else user_map (w_arch w) r !! p) /\
    (forall u, u ∈ us -> u <> r -> user_map a' u = user_map (w_arch w) u) /\
    kern_map kr a' = kern_map kr (w_arch w) /\ (forall g, arch_tables kr us a' g -> arch_tables kr us (w_arch w) g)).
Proof.
  intros Hrd Hr. revert k w Hrd. induction pages as [|p pages IH]; intros k w Hrd Hok Hnd Hin.
  { simpl. wstep. exists (w_arch w). split; [by destruct w|]. done. }
  cbn [unmap_pages]. apply returns_bind, returns_phys_mem.
  apply Forall_cons in Hok as [Hp Hok]. rewrite fmap_cons in *. apply NoDup_cons in Hnd as [Hni Hnd].
  eapply returns_mono; [apply (law_unmap_user kr us); try done; apply Hin; by left|].
  intros res [pm a1] (-> & E1 & E2 & E3 & E4 & E5 & E6 & E7). simpl in *. subst pm. cbv zeta.
  rewrite arch_with_phys_mem_same.
  assert (Htail : returns (unmap_pages r (S k) pages) {| w with w_arch := a1 |} (fun _ w' =>
    exists a', w' = {| w with w_arch := a' |} /\ arch_ready kr us a' /\
    Cr3_read a' = Cr3_read (w_arch w) /\
    (forall q, user_map a' r !! q
       = if decide (q ∈ page_number p :: (page_number <$> pages)) then None
         else user_map (w_arch w) r !! q) /\
    (forall u, u ∈ us -> u <> r -> user_map a' u = user_map (w_arch w) u) /\
    kern_map kr a' = kern_map kr (w_arch w) /\ (forall g, arch_tables kr us a' g -> arch_tables kr us (w_arch w) g))).
  { eapply returns_mono; [apply IH; try done|].
    - simpl. intros q Hq. rewrite E3, lookup_delete_ne by (intros <-; done). apply Hin. by right.
    - simpl. intros _ w' (a' & -> & F1 & F2 & F3 & F4 & F5 & F6). exists a'.
      split; [done|]. split; [done|]. split; [congruence|]. split; [|split; [|split; [congruence|by auto]]].
      + intros q. rewrite F3, E3. destruct (decide (q = page_number p)) as [->|Hne].
        * rewrite lookup_delete_eq. rewrite (decide_True (P := _ ∈ _ :: _)) by by left.
          by case_decide.
        * rewrite lookup_delete_ne by done.
          do 2 case_decide; try done; set_solver.
      + intros u Hu Hne. rewrite F4, E4 by done. done. }
  destruct (user_addr p Hp) as (va & v & Hva & Hv & Huser & _).
  destruct (Nat.ltb_spec k 4).
  - rewrite Hva. repeat wstep. rewrite Hv. repeat wstep.
    eapply returns_Ok; [by apply (law_debug_translate kr us)|]. cbv beta. exact Htail.
  - wstep. exact Htail.
Qed.

Lemma cleanup_spec x B w i asp :
  KInv x kr us B (w_ks w) -> MemInv kr us (Some i) (w_ks w) (w_arch w) -> 0 < i < MAX_TASKS ->
  address_spaces (w_ks w) !! i = Some asp ->
  returns (cleanup_user_mappings_of_address_space i) w (fun _ w' =>
    mem_step kr us None x B 0 w w' /\ exists asp',
      address_spaces (w_ks w') = <[i := asp']> (address_spaces (w_ks w)) /\ as_map asp' = ∅).
Proof.
  intros Hk Hm Hi Hasp.
  destruct (user_aspace _ _ _ _ _ i Hk Hi) as (asp0 & r & Hasp0 & Hkind & Hroot & Hus & Hrin).
  assert (asp0 = asp) as -> by congruence.
  pose proof (mi_wf _ _ _ _ _ Hm _ _ Hasp) as Hwf.
  assert (Hent : forall p x, as_map asp !! p = Some x -> PageFlags_contains x.2 USER = true).
  { intros p [f fl] Hp. eapply (mi_user _ _ _ _ _ Hm i asp); [lia|done..]. }
  destruct (user_pages_all asp Hwf Hent) as (Hnd & Hlen & Hdom).
  assert (Hcol : collect_user_pages asp = AddressSpace_user_mapping_pages asp).
  { unfold collect_user_pages. rewrite take_ge; [done|]. by rewrite length_fmap in Hlen. }
  pose proof (mi_agree _ _ _ _ _ Hm i asp r ltac:(lia) Hasp Hus) as Hag.
  unfold cleanup_user_mappings_of_address_space. wstep.
  rewrite (num_tasks_leb (w_ks w)) by apply Hk. rewrite (proj2 (Nat.leb_gt MAX_TASKS i)) by lia.
  repeat wstep. rewrite Hkind, Hroot, decide_False by (by intros []). cbv zeta. wstep.
  eapply returns_Ok; [apply set_address_space_Ok; by eapply lookup_lt_Some|]. cbv beta. wsimpl.
  rewrite Hcol. eapply returns_mono; [apply unmap_pages_spec; simpl; try done|].
  - apply Hm.
  - apply Forall_forall. intros p Hp. unfold page_ok.
    assert (page_number p ∈ page_number <$> AddressSpace_user_mapping_pages asp) as Hin.
    { apply list_elem_of_fmap. eauto. }
    apply Hdom in Hin as [[f fl] Hf]. eapply (mi_user _ _ _ _ _ Hm i asp); [lia|done..].
  - intros p Hp. rewrite Hag. by apply Hdom.
  - simpl. intros _ w' (a' & -> & E1 & E2 & E3 & E4 & E5 & E6).
    set (asp' := AddressSpace_clear_user_mappings asp).
    assert (Hempty : as_map asp' = ∅) by by apply clear_user_all.
    split; [|by exists asp'].
    split; wsimpl; try done.
    + eapply KInv_mem; [done|done|]. ksimpl. eapply roots_ok_insert; [apply Hk|done..].
    + assert (Hm' : let s := w_ks w in MemInv kr us (Some i) {| s with phys_mem := phys_mem s;
        address_spaces := <[i := asp']> (address_spaces s) |} a').
      { eapply MemInv_user; try done; [lia|by apply clear_user_wf| | |].
        - rewrite Hempty. apply map_empty. intros p. rewrite E3, Hag. case_decide as Hd; [done|].
          destruct (as_map asp !! p) eqn:Hp; [|done]. destruct Hd. apply Hdom. by rewrite Hp.
        - rewrite Hempty. intros p f fl Hl. by rewrite lookup_empty in Hl.
        - eapply Sep_same; [apply Hm|done|].
          intros j f [(asp0 & p & fl & Hl & Hp)|Hd]; [left|by right].
          apply list_lookup_insert_Some in Hl as [(<- & <- & _)|[_ Hl]]; [|by exists asp0, p, fl].
          by rewrite Hempty, lookup_empty in Hp. }
      cbv zeta in Hm'. destruct Hm'. split; try done. intros j aspj Hj Hd _.
      destruct (decide (j = i)) as [->|Hne]; [|eapply mi_dead; eauto; congruence].
      change (<[i := asp']> (address_spaces (w_ks w)) !! i = Some aspj) in Hj.
      rewrite list_lookup_insert_eq in Hj by (by eapply lookup_lt_Some). by simplify_eq.
    + unfold frames_left. ksimpl. lia.
Qed.

(** ** The halt when no user task is left *)

Definition alive_user (s : KernelState) (i : nat) : Prop :=
  i <> TASK0_INDEX /\ state_of (tasks s) i <> Some Dead.
#[local] Instance alive_user_dec s i : Decision (alive_user s i).
Proof. unfold alive_user. apply _. Defined.

Lemma alive_user_loop_spec x B s idxs n :
  KInv x kr us B s -> Forall (fun i => i < MAX_TASKS) idxs ->
  alive_user_loop idxs n s = Ok (n + length (filter (alive_user s) idxs), s).
Proof.
  intros Hk Hf. pose proof Hk as [Hs Hci [_ _ (a0 & Ha0 & Hk0 & _) Hu] _ _ _ _]. revert n.
  induction idxs as [|i idxs IH]; intros n; cbn [alive_user_loop].
  { cbn. by rewrite Nat.add_0_r. }
  apply Forall_cons in Hf as [Hi Hf]. specialize (IH Hf).
  destruct (core_lookup _ _ _ _ _ Hci i Hi) as [t Ht].
  pose proof (tk_as _ _ (ci_task _ _ _ _ _ Hci _ _ Ht)) as Has.
  rewrite bind_get, (bind_Ok _ _ _ _ _ (task_at_Ok _ _ _ Ht)). rewrite filter_cons.
  destruct (decide (t_state t = Dead)) as [Hd|Hd].
  { rewrite decide_False; [apply IH|]. intros [_ Hn]. apply Hn. by rewrite (state_of_lookup _ _ _ Ht), Hd. }
  rewrite Has, num_tasks_leb, (proj2 (Nat.leb_gt MAX_TASKS i)) by done.
  destruct (decide (i = 0)) as [->|Hne].
  - rewrite (bind_Ok _ _ _ _ _ (address_space_at_Ok _ _ _ Ha0)), Hk0.
    rewrite decide_False by done. rewrite decide_False by (by intros []). apply IH.
  - destruct (Hu i) as (a & r & Ha & Hka & _); [lia|].
    rewrite (bind_Ok _ _ _ _ _ (address_space_at_Ok _ _ _ Ha)), Hka. rewrite decide_True by done.
    rewrite decide_True; [rewrite IH; simpl; do 2 f_equal; lia|].
    split; [done|]. rewrite (state_of_lookup _ _ _ Ht). congruence.
Qed.

(** What holds between two ticks: [B] bounds everything that counts up and at
    least [F] frames are left. *)
Record Inv (B : Z) (F : nat) (w : World A) : Prop := {
  in_k : KInv strict kr us B (w_ks w);
  in_m : MemInv kr us None (w_ks w) (w_arch w);
  in_cr3 : cr3_ok kr w;
  in_run : running_ok (w_ks w);
  in_frames : F <= frames_left (w_ks w) }.

(** The fields no invariant is about. *)
Record flag_frame (s s' : KernelState) : Prop := { flag_frame_eq :
  s' = {| s with should_halt := should_halt s'; activity := activity s';
                 demo_sent_by_task2 := demo_sent_by_task2 s';
                 demo_sent_by_task1 := demo_sent_by_task1 s';
                 demo_early_sent_by_task0 := demo_early_sent_by_task0 s';
                 halt_dumped_no_user_tasks := halt_dumped_no_user_tasks s';
                 event_log := event_log s'; event_log_head := event_log_head s';
                 event_log_len := event_log_len s' |} }.

Lemma KInv_flags x B s s' : KInv x kr us B s -> flag_frame s s' -> KInv x kr us B s'.
Proof. intros [Hs Hci Hr Ht Hc Htk Htm] [->]. split; ksimpl; try done. by destruct Hs. Qed.

Lemma MemInv_flags d s s' a : MemInv kr us d s a -> flag_frame s s' -> MemInv kr us d s' a.
Proof. intros [] [->]. by split. Qed.

Lemma Inv_flags B F w s' : Inv B F w -> flag_frame (w_ks w) s' -> Inv B F {| w with w_ks := s' |}.
Proof.
  intros [Hk Hm Hc Hr Hf] Hfl. split; simpl.
  - by eapply KInv_flags.
  - by eapply MemInv_flags.
  - destruct Hfl as [->]. done.
  - destruct Hfl as [->]. done.
  - destruct Hfl as [->]. done.
Qed.

Lemma maybe_halt_spec B F w :
  Inv B F w ->
  returns maybe_halt_if_no_user_tasks w (fun _ w' =>
    Inv B F w' /\ abs (w_ks w') = abs (w_ks w) /\
    address_spaces (w_ks w') = address_spaces (w_ks w) /\
    tasks (w_ks w') = tasks (w_ks w) /\
    (should_halt (w_ks w') = true <->
       should_halt (w_ks w) = true \/
       halt_dumped_no_user_tasks (w_ks w) = false /\ forall i, i < MAX_TASKS -> ~ alive_user (w_ks w) i)).
Proof.
  intros Hinv. pose proof Hinv as [Hk Hm Hc3 Hr Hf]. pose proof Hk as [Hs Hci _ _ _ _ _].
  unfold maybe_halt_if_no_user_tasks. wstep.
  destruct (halt_dumped_no_user_tasks (w_ks w)) eqn:Hh.
  { wstep. split_and!; try done. naive_solver. }
  unfold alive_user_task_count. repeat wstep.
  assert (Hb : Forall (fun i => i < MAX_TASKS) (seq 0 (num_tasks (w_ks w)))).
  { apply Forall_forall. intros i Hi%elem_of_seq. rewrite (sh_num _ Hs) in Hi. lia. }
  eapply returns_Ok; [by apply (alive_user_loop_spec strict B)|]. cbv beta. simpl.
  assert (Heq : {| w with w_ks := w_ks w |} = w) by by destruct w. rewrite Heq.
  destruct (filter (alive_user (w_ks w)) (seq 0 (num_tasks (w_ks w)))) as [|i l] eqn:Hl.
  - assert (Hnone : forall i, i < MAX_TASKS -> ~ alive_user (w_ks w) i).
    { intros i Hi Ha. assert (i ∈ filter (alive_user (w_ks w)) (seq 0 (num_tasks (w_ks w)))) as Hin.
      { apply list_elem_of_filter. split; [done|]. apply elem_of_seq. rewrite (sh_num _ Hs). lia. }
      rewrite Hl in Hin. by apply elem_of_nil in Hin. }
    simpl. wstep. eapply returns_Ok; [eapply kernel_root_frame_Ok; by eapply KInv_aspaces|]. wstep.
    eapply returns_mono; [apply (law_switch_quiet kr us); [apply Hm|by left]|].
    intros [] a' (E1 & E2 & E3 & E4 & E5). repeat wstep.
    eapply returns_Ok; [by apply (dump_now_Ok strict kr us B)|]. repeat wstep. split_and!; try done.
    + split; simpl; try done.
      * by eapply KInv_flags.
      * destruct Hm. split; try done; [|by rewrite E3|by eapply Sep_same].
        intros i asp r Hi Hasp Hus. rewrite E2 by (by eapply list_elem_of_lookup_2). by eapply mi_agree.
      * by intros _.
    + naive_solver.
  - simpl. wstep. split_and!; try done. split; [by left|]. intros [?|[_ Hn]]; [done|].
    assert (i ∈ filter (alive_user (w_ks w)) (seq 0 (num_tasks (w_ks w)))) as [Ha Hi]%list_elem_of_filter.
    { rewrite Hl. by left. }
    apply elem_of_seq in Hi. rewrite (sh_num _ Hs) in Hi. destruct (Hn i); [lia|done].
Qed.

(** ** Killing *)

Lemma remove_task_from_endpoints_spec s i :
  (forall e ep, endpoints s !! e = Some ep -> ep_ok (reason_of (tasks s)) e ep) ->
  exists eps', remove_task_from_endpoints i s = Ok (tt, {| s with endpoints := eps' |}) /\
    Forall2 (fun ep ep' => (forall e, ep_ok (reason_of (tasks s)) e ep ->
        ep_ok (upd_reason (reason_of (tasks s)) i None) e ep') /\
      is_closed ep' = is_closed ep /\ ep_owner ep' = ep_owner ep /\ ep_id ep' = ep_id ep)
      (endpoints s) eps'.
Proof.
  intros Hall.
  destruct (mapM_res (remove_task_from_endpoint i) (fun ep ep' =>
    (forall e, ep_ok (reason_of (tasks s)) e ep ->
        ep_ok (upd_reason (reason_of (tasks s)) i None) e ep') /\
      is_closed ep' = is_closed ep /\ ep_owner ep' = ep_owner ep /\ ep_id ep' = ep_id ep) (endpoints s))
    as (eps' & Hrun & Heps).
  - intros k ep Hep. pose proof (Hall _ _ Hep) as Hok.
    destruct (remove_task_from_endpoint_spec _ _ _ i Hok) as (ep' & Hr & Hok' & Hcl & Hown).
    exists ep'. split; [done|]. split_and!; try done.
    + intros e He. assert (e = k) as -> by (rewrite <- (eo_id _ _ _ He); apply Hok).
      done.
    + rewrite (eo_id _ _ _ Hok'). symmetry. apply Hok.
  - exists eps'. split; [|done]. unfold remove_task_from_endpoints. rewrite bind_get, Hrun. done.
Qed.

Lemma owned_endpoints_same id eps eps' :
  Forall2 (fun ep ep' => ep_owner ep' = ep_owner ep /\ ep_id ep' = ep_id ep) eps eps' ->
  owned_endpoints id eps' = owned_endpoints id eps.
Proof.
  unfold owned_endpoints. induction 1 as [|ep ep' eps eps' [Ho Hi] _ IH]; [done|].
  rewrite !filter_cons, Ho. case_decide; [|done]. rewrite !fmap_cons, Hi. by f_equal.
Qed.

Lemma owned_bound x ts cur q eps id :
  CoreInv x ts cur q eps -> Forall (fun e => e < MAX_ENDPOINTS) (owned_endpoints id eps).
Proof.
  intros Hci. apply Forall_forall. intros e (ep & -> & [_ Hin]%list_elem_of_filter)%list_elem_of_fmap.
  apply list_elem_of_lookup in Hin as [k Hk]. rewrite (eo_id _ _ _ (ci_eps _ _ _ _ _ Hci _ _ Hk)).
  rewrite <- (ci_eps_len _ _ _ _ _ Hci). by eapply lookup_lt_Some.
Qed.

(** What the death means for another task. *)
Lemma kill_view_spec j id eps t t3 t4 :
  task_ok j t -> rescued IPC_ERR_ENDPOINT_CLOSED (at_endpoints eps) t t3 ->
  rescued IPC_ERR_DEAD_PARTNER (awaits id) t3 t4 ->
  (forall r, t_blocked_reason t3 = Some r -> ~ at_endpoints eps r) ->
  (forall e, t_blocked_reason t4 <> Some (IpcReply id e)) ->
  view t4 = kill_view id eps (view t).
Proof.
  intros Hok H3 H4 Hn3 Hn4.
  destruct H3 as [->|(r & Hr & (e & He & Hat) & Hmsg & Hst & Hre & Hrep)].
  - destruct H4 as [->|(r & Hr & (e & ->) & Hmsg & Hst & Hre & Hrep)].
    + unfold kill_view. simpl. destruct (status t) as [|e|e m|p e|] eqn:Hs; try done.
      * apply status_receiving in Hs. rewrite decide_False; [done|].
        intros Hin. eapply Hn3; [exact Hs|]. by exists e.
      * apply status_sending in Hs as [Hs _]. rewrite decide_False; [done|].
        intros Hin. eapply Hn3; [exact Hs|]. by exists e.
      * apply status_awaiting in Hs. rewrite decide_False.
        -- rewrite decide_False; [done|]. intros ->. by eapply Hn4.
        -- intros Hin. eapply Hn3; [exact Hs|]. by exists e.
    + assert (Hb : t_state t = Blocked) by (apply (tk_blocked _ _ Hok); by rewrite Hr).
      unfold kill_view, view, status. simpl. rewrite Hst, Hb, Hr, Hmsg, Hrep.
      rewrite decide_False, decide_True; [done|done|].
      intros Hin. eapply Hn3; [exact Hr|]. by exists e.
  - destruct H4 as [->|(r' & Hr' & _)]; [|congruence].
    assert (Hb : t_state t = Blocked) by (apply (tk_blocked _ _ Hok); by rewrite Hr).
    unfold kill_view, view, status. simpl. rewrite Hst, Hb, Hr, Hmsg, Hrep.
    unfold at_endpoint in Hat. destruct r as [|e'|e'|p e']; simplify_eq/=.
    + by rewrite decide_True.
    + destruct (tk_send _ _ Hok _ Hr) as [m ->]. by rewrite decide_True.
    + by rewrite decide_True.
Qed.

Lemma killed_stays ts i t err P err' P' ts3 ts4 :
  i < length ts -> rescued_tasks err P (<[i := killed t]> ts) ts3 -> rescued_tasks err' P' ts3 ts4 ->
  ts4 !! i = Some (killed t).
Proof.
  intros Hlt H3 H4.
  assert (Hk : <[i := killed t]> ts !! i = Some (killed t)) by by apply list_lookup_insert_eq.
  assert (H3i : ts3 !! i = Some (killed t)).
  { rewrite <- Hk. eapply rescued_awake; [done|]. by rewrite (reason_of_lookup _ _ _ Hk). }
  rewrite <- H3i. eapply rescued_awake; [done|]. by rewrite (reason_of_lookup _ _ _ H3i).
Qed.

Lemma kill_tasks_spec x cur q eps0 ts i t eps ts3 ts4 :
  CoreInv x ts cur q eps0 -> ts !! i = Some t ->
  rescued_tasks IPC_ERR_ENDPOINT_CLOSED (at_endpoints eps) (<[i := killed t]> ts) ts3 ->
  rescued_tasks IPC_ERR_DEAD_PARTNER (awaits (id_of i)) ts3 ts4 ->
  (forall j r, reason_of ts3 j = Some r -> ~ at_endpoints eps r) ->
  (forall j e, reason_of ts4 j <> Some (IpcReply (id_of i) e)) ->
  view <$> ts4 = imap (fun j a => if decide (j = i) then mkATask Gone None None
                                  else kill_view (id_of i) eps a) (view <$> ts).
Proof.
  intros Hci Ht H3 H4 Hn3 Hn4. pose proof (lookup_lt_Some _ _ _ Ht) as Hlt.
  apply list_eq. intros j. rewrite list_lookup_imap, !list_lookup_fmap.
  destruct (decide (j = i)) as [->|Hne].
  { by rewrite (killed_stays _ _ _ _ _ _ _ _ _ Hlt H3 H4), Ht. }
  destruct (ts !! j) as [tj|] eqn:Hj; simpl.
  - assert (<[i := killed t]> ts !! j = Some tj) as Hk by by rewrite list_lookup_insert_ne.
    destruct (Forall2_lookup_l _ _ _ _ _ H3 Hk) as (t3 & Ht3 & Hr3).
    destruct (Forall2_lookup_l _ _ _ _ _ H4 Ht3) as (t4 & Ht4 & Hr4).
    rewrite Ht4. simpl. f_equal. eapply kill_view_spec; [by apply (ci_task _ _ _ _ _ Hci)|done|done| |].
    + intros r Hr. apply (Hn3 j). by rewrite (reason_of_lookup _ _ _ Ht3).
    + intros e He. apply (Hn4 j e). by rewrite (reason_of_lookup _ _ _ Ht4).
  - apply lookup_ge_None in Hj. rewrite (proj2 (lookup_ge_None _ _)); [done|].
    rewrite <- (Forall2_length _ _ _ H4), <- (Forall2_length _ _ _ H3), length_insert. done.
Qed.

(** In a strict state nobody awaits a dead task. *)
Lemma nobody_awaits_dead ts cur q eps i t j e :
  CoreInv strict ts cur q eps -> ts !! i = Some t -> t_state t = Dead ->
  reason_of ts j <> Some (IpcReply (id_of i) e).
Proof.
  intros Hci Ht Hd Hr.
  destruct (ci_partner _ _ _ _ _ Hci j _ e Hr) as (k & tk & Hk & Hid & _ & _ & Hkd); [done|].
  rewrite (tk_id _ _ (ci_task _ _ _ _ _ Hci _ _ Hk)) in Hid.
  assert (k = i) as -> by (unfold id_of in Hid; lia). congruence.
Qed.

Lemma count_kill_spec x B s reason :
  KInv x kr us B s -> (B < u64_max)%Z ->
  exists c, count_kill reason s = Ok (tt, {| s with counters := c |}) /\ counters_le (B + 1) c.
Proof.
  intros Hk HB. pose proof (ki_counters _ _ _ _ _ Hk) as Hc.
  destruct reason; eexists; (split; [apply bump_Ok; destruct Hc; lia|]); destruct Hc; split; simpl; lia.
Qed.

Lemma remove_from_wait_queue_Ok i s :
  shape s -> remove_from_wait_queue i s = Ok (false, s).
Proof.
  intros Hs. unfold remove_from_wait_queue. rewrite bind_get. destruct (num_tasks s <=? i); [done|].
  rewrite (sh_wq _ Hs). done.
Qed.

(** Task [i] leaves every queue and is dead, its demo state reset. *)
Lemma bury_spec B s a i t c q n eps' :
  KInv strict kr us B s -> MemInv kr us None s a -> tasks s !! i = Some t -> i <> TASK0_INDEX ->
  counters_le (B + 1) c -> (0 <= B)%Z ->
  let s1 := {| s with counters := c; ready_queue := q; rq_len := n |} in
  shape s1 -> rq s1 = filter (.≠ i) (rq s) ->
  Forall2 (fun ep ep' => (forall e, ep_ok (reason_of (tasks s)) e ep ->
      ep_ok (upd_reason (reason_of (tasks s)) i None) e ep') /\
    is_closed ep' = is_closed ep /\ ep_owner ep' = ep_owner ep /\ ep_id ep' = ep_id ep)
    (endpoints s) eps' ->
  let s2 := {| s with counters := c; ready_queue := q; rq_len := n; endpoints := eps';
    tasks := <[i := killed t]> (tasks s); mem_demo_stage := <[i := 0%Z]> (mem_demo_stage s);
    mem_demo_mapped := <[i := false]> (mem_demo_mapped s);
    mem_demo_frame := <[i := None]> (mem_demo_frame s); demo_early_sent_by_task0 := false |} in
  KInv (killing (t_id t)) kr us (B + 1) s2 /\ MemInv kr us (Some i) s2 a.
Proof.
  intros Hk Hm Ht Hi0 Hc HB s1 Hs1 Hrq Heps s2. pose proof Hk as [Hs Hci Hr Htb _ Htk Htm].
  assert (Hlt : i < length (tasks s)) by by eapply lookup_lt_Some.
  split.
  - split; try done.
    + destruct Hs1. split; simpl in *; auto with kernel.
    + change (CoreInv (killing (t_id t)) (<[i := killed t]> (tasks s)) (current_task s) (rq s1) eps').
      rewrite Hrq. eapply core_kill; [by apply core_weaken|done..|].
      eapply Forall2_impl; [exact Heps|]. naive_solver.
    + simpl. apply Forall_insert; [by apply (task_bound_mono B); [lia|]|].
      rewrite Forall_lookup in Htb. destruct (Htb i t Ht) as [[] []]. split; simpl; lia.
    + simpl. lia.
    + simpl. lia.
  - subst s2. destruct Hm. split; ksimpl; rewrite ?length_insert; try done.
    + intros j asp Hasp Hd Hne. eapply mi_dead; [done| |done].
      rewrite state_of_insert in Hd by done. by rewrite decide_False in Hd by congruence.
    + destruct mi_kernel as (asp & b & ? & ? & ?). exists asp, b. by rewrite list_lookup_insert_ne.
    + intros j f [(<- & ? & _)|[_ Hj]]%list_lookup_insert_Some; [done|by eauto].
    + eapply Sep_same; [done|done|]. intros j f [?|Hj]; [by left|right].
      by apply list_lookup_insert_Some in Hj as [(_ & ? & _)|[_ Hj]].
Qed.

(** Killing a live user task: every invariant is kept, the effect on IPC is
    the specified one, and the task's address space is empty. *)
Record kill_done (i : nat) (B : Z) (F : nat) (w w' : World A) : Prop := {
  kd_inv : Inv B F w';
  kd_abs : abs (w_ks w')
    = kill_spec i (owned_endpoints (id_of i) (endpoints (w_ks w))) (abs (w_ks w));
  kd_dead : state_of (tasks (w_ks w')) i = Some Dead;
  kd_space : exists asp, address_spaces (w_ks w') = <[i := asp]> (address_spaces (w_ks w)) /\
    as_map asp = ∅;
  kd_halt : halt_dumped_no_user_tasks (w_ks w) = false ->
    (forall j, j < MAX_TASKS -> ~ alive_user (w_ks w') j) -> should_halt (w_ks w') = true }.

(** Killing another task leaves the running one untouched. *)
Lemma kill_spares_current x q eps0 s i t err P ts3 err' P' s4 :
  CoreInv x (tasks s) (current_task s) q eps0 -> running_ok s -> i <> current_task s ->
  rescued_tasks err P (<[i := killed t]> (tasks s)) ts3 -> rescued_tasks err' P' ts3 (tasks s4) ->
  current_task s4 = current_task s -> running_ok s4.
Proof.
  unfold running_ok, state_of. intros Hci Hrun Hne Hts3 Hts4 ->.
  assert (Hcr : reason_of (<[i := killed t]> (tasks s)) (current_task s) = None).
  { transitivity (reason_of (tasks s) (current_task s));
      [unfold reason_of; by rewrite list_lookup_insert_ne|].
    destruct (tasks s !! current_task s) as [tc|] eqn:Htc; [|done].
    rewrite (reason_of_lookup _ _ _ Htc).
    simpl in Hrun.
    eapply (core_not_blocked_reason _ _ _ _ _ Hci); [done|congruence]. }
  pose proof (rescued_awake _ _ _ _ _ Hts3 Hcr) as H3.
  rewrite (rescued_awake _ _ _ _ _ Hts4), H3, list_lookup_insert_ne; try done.
  unfold reason_of in *. by rewrite H3.
Qed.

(** A task that killed itself yields the processor; otherwise nothing happens. *)
Lemma kill_reschedules B F w i :
  KInv strict kr us B (w_ks w) -> MemInv kr us None (w_ks w) (w_arch w) -> cr3_ok kr w ->
  F <= frames_left (w_ks w) -> (B < u64_max)%Z ->
  (i <> current_task (w_ks w) -> running_ok (w_ks w)) ->
  returns (if i =? current_task (w_ks w) then schedule_next_task else mret tt) w
    (fun _ w' => Inv (B + 1) F w' /\ core_step kr us w w' /\ abs (w_ks w') = abs (w_ks w)).
Proof.
  intros Hk Hm Hc3 HF HB Hrun. destruct (Nat.eqb_spec i (current_task (w_ks w))) as [Heq|Hne].
  - eapply returns_mono; [apply (schedule_inv kr us strict _ B); [done|apply Hm|done]|].
    intros [] w' (Hk' & Hr' & Hst & Habs). split_and!; try done. split; try done.
    + exact (MemInv_core_step _ _ _ _ _ Hm Hst).
    + by apply Hst.
    + destruct Hst as [_ [Hf] _ _ _ _ _]. unfold frames_left in *. by rewrite Hf.
  - kstep. split_and!; try done. split; try done; [|by apply Hrun].
    by apply (KInv_mono _ _ _ B); [lia|].
Qed.

(** The second half of [kill_task]: the task is dead and out of the queues. *)
Lemma kill_finish_spec B F w i t w1 :
  KInv strict kr us B (w_ks w) -> tasks (w_ks w) !! i = Some t -> i <> TASK0_INDEX ->
  i < MAX_TASKS -> (B + 2 <= u64_max)%Z ->
  (i <> current_task (w_ks w) -> running_ok (w_ks w)) ->
  cr3_ok kr w1 -> F <= frames_left (w_ks w1) ->
  KInv (killing (t_id t)) kr us (B + 1) (w_ks w1) -> MemInv kr us None (w_ks w1) (w_arch w1) ->
  tasks (w_ks w1) = <[i := killed t]> (tasks (w_ks w)) ->
  current_task (w_ks w1) = current_task (w_ks w) ->
  halt_dumped_no_user_tasks (w_ks w1) = halt_dumped_no_user_tasks (w_ks w) ->
  is_closed <$> endpoints (w_ks w1) = is_closed <$> endpoints (w_ks w) ->
  owned_endpoints (t_id t) (endpoints (w_ks w1)) = owned_endpoints (t_id t) (endpoints (w_ks w)) ->
  (exists asp, address_spaces (w_ks w1) = <[i := asp]> (address_spaces (w_ks w)) /\ as_map asp = ∅) ->
  forall reason,
  returns (ks (for_each (owned_endpoints (t_id t) (endpoints (w_ks w1))) close_endpoint_and_rescue_waiters) ;;
    ks (resolve_ipc_reply_waiters_for_dead_partner (t_id t)) ;;
    ks (push_event (TaskKilled (t_id t) reason)) ;;
    ks (push_event (TaskStateChanged (t_id t) Dead)) ;;
    s ← kget;
    (if i =? current_task s then schedule_next_task else mret tt) ;;
    maybe_halt_if_no_user_tasks) w1 (fun _ w' => kill_done i (B + 2) F w w').
Proof.
  intros Hk Ht Hi0 Hib HB Hrun Hc3 HF Hk1 Hm1 Hts1 Hcur1 Hh1 Hcl1 Hown1 Hsp1 reason.
  pose proof (ki_core _ _ _ _ _ Hk) as Hci.
  pose proof (tk_id _ _ (ci_task _ _ _ _ _ Hci _ _ Ht)) as Hid. fold (id_of i) in Hid.
  pose proof (owned_bound _ _ _ _ _ (t_id t) Hci) as Hob. rewrite Hown1, Hid in *.
  set (eps := owned_endpoints (id_of i) (endpoints (w_ks w))) in *.
  wstep. eapply returns_mono; [by apply (close_all_spec kr us (killing (id_of i)) (B + 1) eps)|].
  intros [] s3 Hac. pose proof Hac as [Hk3 Hf3 Hcalm3 Hcur3 Hcl3 Hts3].
  wstep. eapply returns_mono; [by apply (resolve_spec kr us (id_of i) (B + 1) s3)|].
  intros [] s4 [[Hk4 Hf4 Hcalm4 Hcur4 Hcl4] Hts4]. cbv beta. repeat wstep.
  match goal with |- returns _ {| w1 with w_ks := ?s5 |} _ => pose (s5' := s5) end.
  assert (Hok5 : ipc_ok kr us strict (B + 1) s4 s5') by by apply push_ok.
  assert (Hts5 : tasks s5' = tasks s4) by done.
  assert (Heps5 : endpoints s5' = endpoints s4) by done.
  change (returns ((if i =? current_task s5' then schedule_next_task else mret tt) ;;
    maybe_halt_if_no_user_tasks) {| w1 with w_ks := s5' |} (fun _ w' => kill_done i (B + 2) F w w')).
  clearbody s5'. clear x x0 x1 x2 x3 x4. destruct Hok5 as [Hk5 Hf5 Hcalm5 Hcur5 Hcl5].
  assert (Hst5 : core_step kr us w1 {| w1 with w_ks := s5' |}).
  { apply core_step_ks; [by transitivity s3; [|transitivity s4]|
      by transitivity (tasks s3); [|transitivity (tasks s4)]|congruence]. }
  assert (Hlt : i < length (tasks (w_ks w))) by by eapply lookup_lt_Some. rewrite Hts1 in Hts3.
  assert (Hi5 : tasks s5' !! i = Some (killed t)) by (rewrite Hts5; by eapply killed_stays).
  assert (Habs5 : abs s5' = kill_spec i eps (abs (w_ks w))).
  { unfold abs, kill_spec. simpl. f_equal; [|by rewrite Hcl5, Hcl4, Hcl3, Hcl1].
    rewrite Hts5. eapply kill_tasks_spec; [exact Hci|done..| |].
    - intros j r Hr. by eapply (all_closed_nobody kr us).
    - intros j e. rewrite Hts5 in Hi5. by eapply nobody_awaits_dead; [apply Hk4|..]. }
  assert (Hm5 : MemInv kr us None s5' (w_arch w1)).
  { exact (MemInv_core_step _ _ _ _ _ Hm1 Hst5). }
  eapply returns_seq; [apply (kill_reschedules (B + 1) F {| w1 with w_ks := s5' |} i); simpl; try done; try lia|].
  { by apply Hst5. }
  { destruct Hst5 as [_ [Hf6] _ _ _ _ _]. unfold frames_left in *. simpl in *. by rewrite Hf6. }
  { assert (Hcur : current_task s5' = current_task (w_ks w)) by congruence. rewrite Hcur. intros Hne.
    eapply (kill_spares_current _ _ _ (w_ks w)); [exact Hci|auto|exact Hne|exact Hts3| |done]. by rewrite Hts5. }
  replace (B + 1 + 1)%Z with (B + 2)%Z by lia. intros [] w6 (Hinv6 & Hst56 & Habs6).
  assert (Hst6 : core_step kr us w1 w6) by by etransitivity.
  eapply returns_mono; [by apply maybe_halt_spec|].
  intros [] w' (Hinv' & Habs' & Has' & Hts' & Hhalt). split; try done.
  - simpl in Habs6. by rewrite Habs', Habs6, Habs5.
  - rewrite Hts'. apply (calm_dead_of _ _ _ (cs_calm _ _ _ _ Hst6)).
    by rewrite Hts1, state_of_insert, decide_True.
  - destruct Hsp1 as (asp & Hasp & Hempty). exists asp. split; [|done].
    rewrite Has', <- Hasp. by rewrite (ipc_frame_eq _ _ (cs_frame _ _ _ _ Hst6)).
  - intros Hhd Hnone. apply Hhalt. right.
    rewrite (ipc_frame_eq _ _ (cs_frame _ _ _ _ Hst6)). simpl. split; [congruence|].
    unfold alive_user in *. by rewrite Hts' in Hnone.
Qed.

Lemma kill_task_spec B F w i t reason :
  KInv strict kr us B (w_ks w) -> MemInv kr us None (w_ks w) (w_arch w) -> cr3_ok kr w ->
  F <= frames_left (w_ks w) -> (B + 2 <= u64_max)%Z ->
  (i <> current_task (w_ks w) -> running_ok (w_ks w)) ->
  tasks (w_ks w) !! i = Some t -> t_state t <> Dead -> i <> TASK0_INDEX ->
  returns (kill_task i reason) w (fun _ w' => kill_done i (B + 2) F w w').
Proof.
  intros Hk Hm Hc3 HF HB Hrun Ht Hd Hi0. pose proof Hk as [Hs Hci _ _ _ Htk _].
  pose proof (lookup_bound _ _ _ Hs Ht) as Hib.
  pose proof (tk_as _ _ (ci_task _ _ _ _ _ Hci _ _ Ht)) as Has.
  unfold kill_task. wstep.
  destruct (count_kill_spec _ _ _ reason Hk) as (c & Hcount & Hc); [lia|].
  eapply returns_Ok; [exact Hcount|]. cbv beta. repeat wstep.
  rewrite (num_tasks_leb (w_ks w)), (proj2 (Nat.leb_gt _ _)) by done. repeat wstep.
  set (s0 := w_ks w) in *.
  eapply returns_mono; [apply remove_from_ready_queue_spec; by destruct Hs|].
  intros _ s2 (q & n & -> & Hs2 & Hrq2). cbv beta. wstep.
  eapply returns_Ok; [by apply remove_from_wait_queue_Ok|]. cbv beta. wstep.
  match goal with |- returns _ ?s2 _ =>
    destruct (remove_task_from_endpoints_spec s2 i) as (eps' & Hrun' & Heps); [apply Hci|] end.
  eapply returns_Ok; [exact Hrun'|]. cbv beta. ksimpl. repeat wstep.
  unfold set_mem_demo_stage, set_mem_demo_mapped, set_mem_demo_frame. repeat wstep.
  rewrite write_at_Ok by (rewrite (mi_stage_len _ _ _ _ _ Hm); done). repeat wstep.
  rewrite write_at_Ok by (rewrite (mi_mapped_len _ _ _ _ _ Hm); done). repeat wstep.
  rewrite write_at_Ok by (rewrite (mi_frame_len _ _ _ _ _ Hm); done). repeat wstep.
  destruct (bury_spec B s0 (w_arch w) i t c q n eps') as [Hk3 Hm3]; try done; [lia|].
  match goal with |- returns _ ?w3 _ => set (w3' := w3) in *; change (KInv (killing (t_id t)) kr us (B + 1) (w_ks w3')) in Hk3;
    change (MemInv kr us (Some i) (w_ks w3') (w_arch w3')) in Hm3 end.
  destruct (user_aspace _ _ _ _ _ i Hk3) as (asp & r & Hasp & _); [unfold TASK0_INDEX in *; lia|].
  rewrite Has. eapply returns_seq.
  { apply (cleanup_spec (killing (t_id t)) (B + 1) w3' i asp); [done|done|unfold TASK0_INDEX in *; lia|done]. }
  intros [] w4 ([Hk4 Hm4 Hf4 Hw4 Hcr4 Hfr4] & Hsp4). wstep.
  assert (Hown : forall id, owned_endpoints id eps' = owned_endpoints id (endpoints s0)).
  { intros id. apply owned_endpoints_same. eapply Forall2_impl; [exact Heps|]. naive_solver. }
  assert (Hcl : is_closed <$> eps' = is_closed <$> endpoints s0).
  { symmetry. apply list_eq_Forall2, Forall2_fmap_2. eapply Forall2_impl; [exact Heps|]. naive_solver. }
  pose proof (mem_frame_eq _ _ Hf4) as Hf4'.
  apply (kill_finish_spec B F w i t w4); try done; try (by rewrite Hf4').
  - intros Hc0. rewrite Hcr4. apply Hc3. rewrite Hf4' in Hc0. exact Hc0.
  - change (frames_left (w_ks w3')) with (frames_left s0) in Hfr4. lia.
Qed.

End kill_inv.
