(* ===== verification/CheckInv.v ===== *)
(** * The run-time checker finds nothing

    In a state that satisfies the invariant, [debug_check_invariants] returns
    and reports no violation: the invariant implies every property the kernel
    checks about itself. *)

From stdpp Require Import base list option gmap sets strings.
From Stdlib Require Import ZArith Lia.
From S2P Require Import Prelude Addr AddressSpace FrameAlloc Queues KTypes Endpoint EventLog KState.
From S2P Require Import ArchIface Sched Ipc Checks Kill Demo Syscall Tick IpcSpec Invariant IpcInv.
From S2P Require Import IpcRefine MemInv CloseInv KillInv.

(** ** Silent checks *)

Definition silent (m : K (list string)) (s : KernelState) : Prop := m s = Ok ([], s).

Lemma report_all_silent {X} (f : X -> K (list string)) l s :
  (forall x, x ∈ l -> silent (f x) s) -> silent (report_all f l) s.
Proof.
  unfold silent. induction l as [|x l IH]; intros Hf; cbn [report_all]; [done|].
  rewrite (bind_Ok _ _ _ _ _ (Hf x ltac:(by left))).
  rewrite (bind_Ok _ _ _ _ _ (IH ltac:(intros y Hy; apply Hf; by right))). done.
Qed.

Lemma each_task_silent f s :
  (forall i t, tasks s !! i = Some t -> silent (f i t) s) -> silent (each_task f) s.
Proof.
  intros Hf. unfold each_task, silent. rewrite bind_get. apply report_all_silent.
  intros [i t] [k Hk]%list_elem_of_lookup. rewrite list_lookup_imap in Hk.
  destruct (take _ _ !! k) as [t'|] eqn:Ht; [|done]. simpl in Hk. injection Hk as <- <-.
  apply lookup_take_Some in Ht as [Ht _]. by apply Hf.
Qed.

(** A check that ends in reports none of which applies. *)
Lemma silent_ret l s : l = [] -> silent (mret l) s.
Proof. by intros ->. Qed.

Lemma report_no b msg : b = false -> report b msg = [].
Proof. by intros ->. Qed.

(** No report of the list applies. *)
Ltac quiet :=
  rewrite !report_no by first [done | apply bool_decide_false; naive_solver]; done.

Section checks.
Context {A : Type} `{ArchLaws A} (kr : PhysFrame) (us : list PhysFrame).
Context (B : Z) (F : nat) (w : World A) (Hinv : Inv kr us B F w).

Let s := w_ks w.
Let Hk : KInv strict kr us B s := in_k _ _ _ _ _ Hinv.
Let Hm : MemInv kr us None s (w_arch w) := in_m _ _ _ _ _ Hinv.
Let Hci : CoreInv strict (tasks s) (current_task s) (rq s) (endpoints s) := ki_core _ _ _ _ _ Hk.
Let Hs : shape s := ki_shape _ _ _ _ _ Hk.

Lemma no_one_waits i : is_in_wait_queue i s = Ok (false, s).
Proof. unfold is_in_wait_queue. by rewrite bind_get, (sh_wq _ Hs). Qed.

Lemma user_space_index i : i ∈ user_space_indices s -> 0 < i < MAX_TASKS.
Proof.
  unfold user_space_indices, FIRST_USER_ASID_INDEX. rewrite (sh_num _ Hs), elem_of_seq.
  unfold MAX_TASKS. lia.
Qed.

Lemma kernel_space_silent : silent check_kernel_space s.
Proof.
  destruct (ro_kernel _ _ _ (ki_roots _ _ _ _ _ Hk)) as (a & Ha & Hkd & Hr).
  unfold silent, check_kernel_space. rewrite (bind_Ok _ _ _ _ _ (address_space_at_Ok _ _ _ Ha)), Hr.
  by rewrite bool_decide_false by naive_solver.
Qed.

Lemma user_spaces_silent : silent check_user_spaces s.
Proof.
  unfold silent, check_user_spaces. rewrite bind_get. apply report_all_silent.
  intros i Hi%user_space_index. destruct (user_aspace _ _ _ _ _ i Hk Hi) as (a & r & Ha & Hkd & Hr & _).
  unfold silent. rewrite (bind_Ok _ _ _ _ _ (address_space_at_Ok _ _ _ Ha)), Hr.
  by rewrite bool_decide_false by naive_solver.
Qed.

Lemma reasons_silent : silent check_reasons s.
Proof.
  apply each_task_silent. intros i t Ht. pose proof (ci_task _ _ _ _ _ Hci _ _ Ht) as [_ _ Hb _ _ Hd _].
  pose proof (core_not_blocked_reason _ _ _ _ _ Hci _ _ Ht) as Hnone.
  apply silent_ret. destruct (t_state t) eqn:Hst.
  - by rewrite Hnone.
  - by rewrite Hnone.
  - destruct (proj1 Hb) as [r ->]; done.
  - destruct (Hd eq_refl) as (_ & -> & -> & -> & ->). by rewrite Hnone.
Qed.

Lemma current_silent : silent check_current s.
Proof.
  destruct (core_lookup _ _ _ _ _ Hci (current_task s) (ci_cur _ _ _ _ _ Hci)) as [t Ht].
  pose proof (in_run _ _ _ _ _ Hinv) as Hr. unfold running_ok in Hr. fold s in Hr.
  rewrite (state_of_lookup _ _ _ Ht) in Hr. injection Hr as Hr.
  unfold silent, check_current. rewrite bind_get, num_tasks_leb by done.
  rewrite (proj2 (Nat.leb_gt _ _)) by apply Hci.
  rewrite (bind_Ok _ _ _ _ _ (task_at_Ok _ _ _ Ht)), Hr. done.
Qed.

Lemma mapping_lookup a m :
  AddressSpace_wf a -> m ∈ AddressSpace_mappings a ->
  as_map a !! page_number (m_page m) = Some (m_frame m, m_flags m).
Proof.
  intros Hwf Hin. unfold as_map, table_map. apply elem_of_list_to_map.
  - rewrite table_pages_fst. apply Hwf.
  - apply list_elem_of_fmap. by exists m.
Qed.

Lemma user_mappings_silent : silent check_user_mappings s.
Proof.
  unfold silent, check_user_mappings. rewrite bind_get. apply report_all_silent.
  intros i Hi%user_space_index. destruct (user_aspace _ _ _ _ _ i Hk Hi) as (a & r & Ha & Hkd & _).
  unfold silent. rewrite (bind_Ok _ _ _ _ _ (address_space_at_Ok _ _ _ Ha)), Hkd.
  rewrite decide_False by naive_solver. apply report_all_silent. intros m Hm'.
  pose proof (mapping_lookup a m (mi_wf _ _ _ _ _ Hm _ _ Ha) Hm') as Hl.
  destruct (mi_user _ _ _ _ _ Hm i a _ _ _ ltac:(lia) Ha Hl) as [Hp [_ Hfl]].
  unfold silent, check_mapping. rewrite Hfl. simpl. unfold PAGE_SIZE.
  rewrite u64_mul_Ok by (unfold u64_max; lia). apply silent_ret, report_no.
  apply Z.leb_gt. change USER_SPACE_SIZE with (2 ^ 39)%Z. lia.
Qed.

(** ** Endpoints *)

Lemma closed_silent k e : endpoints s !! k = Some e -> check_closed e = [].
Proof.
  intros He. apply report_no. destruct (is_closed e) eqn:Hc; [|done]. simpl.
  pose proof (ci_eps _ _ _ _ _ Hci _ _ He) as Hep.
  assert (Hno : forall i r, reason_of (tasks s) i = Some r -> reason_ep r <> Some k).
  { intros i r. by apply (ci_closed _ _ _ _ _ Hci k e i r). }
  rewrite <- senders_length, <- reply_waiters_length by apply Hep.
  destruct (recv_waiter e) as [j|] eqn:Hw.
  { apply (eo_recv _ _ _ Hep) in Hw. by destruct (Hno _ _ Hw). }
  destruct (senders e) as [|j l] eqn:Hse.
  2: { assert (Hj : reason_of (tasks s) j = Some (IpcSend k)) by (apply (eo_send _ _ _ Hep); rewrite Hse; by left).
       by destruct (Hno _ _ Hj). }
  destruct (reply_waiters e) as [|j l] eqn:Hrw; [done|].
  destruct (proj1 (eo_reply _ _ _ Hep j)) as [p Hj]; [rewrite Hrw; by left|]. by destruct (Hno _ _ Hj).
Qed.

(** A task in a queue of an endpoint. *)
Lemma queued_task i r :
  reason_of (tasks s) i = Some r ->
  exists t, task_at i s = Ok (t, s) /\ t_blocked_reason t = Some r /\ t_state t = Blocked /\
    (num_tasks s <=? i) = false /\ is_kernel_task_index i s = Ok (false, s).
Proof.
  intros Hr. destruct (waiter_lookup _ _ _ _ _ _ _ Hci Hr) as (t & Ht & Htr & Hst & Hi0 & _).
  pose proof (lookup_bound _ _ _ Hs Ht) as Hb. exists t. split_and!; try done.
  - by apply task_at_Ok.
  - rewrite num_tasks_leb by done. by apply Nat.leb_gt.
  - rewrite (is_kernel_task_Ok _ _ _ _ _ _ Hk Hb). by rewrite (proj2 (Nat.eqb_neq _ _)).
Qed.

Lemma recv_waiter_silent k e : endpoints s !! k = Some e -> silent (check_recv_waiter e) s.
Proof.
  intros He. pose proof (ci_eps _ _ _ _ _ Hci _ _ He) as Hep. unfold silent, check_recv_waiter.
  destruct (recv_waiter e) as [j|] eqn:Hw; [|done]. apply (eo_recv _ _ _ Hep) in Hw.
  destruct (queued_task _ _ Hw) as (t & Ht & Hr & Hst & Hn & Hkt).
  rewrite bind_get, Hn, (bind_Ok _ _ _ _ _ Ht), (bind_Ok _ _ _ _ _ Hkt), Hst, Hr, (eo_id _ _ _ Hep).
  apply silent_ret. quiet.
Qed.

Lemma senders_silent k e pos :
  endpoints s !! k = Some e -> pos < sq_len e -> silent (check_sender e pos) s.
Proof.
  intros He Hpos. pose proof (ci_eps _ _ _ _ _ Hci _ _ He) as Hep.
  destruct (read_live (send_queue e) (sq_len e) pos) as (j & Hj & Hjl).
  { pose proof (eo_wf _ _ _ Hep) as []. lia. }
  { done. }
  assert (Hr : reason_of (tasks s) j = Some (IpcSend k))
    by (apply (eo_send _ _ _ Hep); by eapply list_elem_of_lookup_2).
  destruct (queued_task _ _ Hr) as (t & Ht & Htr & Hst & Hn & Hkt).
  unfold silent, check_sender. rewrite (read_at_Ok _ _ _ Hj), bind_lift_Ok.
  rewrite bind_get, Hn, (bind_Ok _ _ _ _ _ Ht), (bind_Ok _ _ _ _ _ Hkt), Hst, Htr, (eo_id _ _ _ Hep).
  apply silent_ret. quiet.
Qed.

(** Whoever awaits a reply awaits it from a live task. *)
Lemma partner_silent i p e :
  reason_of (tasks s) i = Some (IpcReply p e) -> partner_is_dead p s = Ok (false, s).
Proof.
  intros Hr. destruct (ci_partner _ _ _ _ _ Hci i p e Hr) as (j & tj & Hj & Hid & _ & _ & Hd); [done|].
  unfold partner_is_dead. rewrite bind_get.
  destruct (list_find (fun x => t_id x = p) (tasks s)) as [[k tk]|] eqn:Hf; [|done].
  apply list_find_Some in Hf as (Hkt & Hkid & _).
  assert (k = j) as ->.
  { pose proof (tk_id _ _ (ci_task _ _ _ _ _ Hci _ _ Hkt)). pose proof (tk_id _ _ (ci_task _ _ _ _ _ Hci _ _ Hj)).
    lia. }
  simplify_eq. by rewrite bool_decide_false.
Qed.

Lemma reply_waiters_silent k e pos :
  endpoints s !! k = Some e -> pos < ep_rq_len e -> silent (check_reply_waiter e pos) s.
Proof.
  intros He Hpos. pose proof (ci_eps _ _ _ _ _ Hci _ _ He) as Hep.
  destruct (read_live (reply_queue e) (ep_rq_len e) pos) as (j & Hj & Hjl).
  { pose proof (eo_wf _ _ _ Hep) as []. lia. }
  { done. }
  destruct (proj1 (eo_reply _ _ _ Hep j)) as [p Hr]; [by eapply list_elem_of_lookup_2|].
  destruct (queued_task _ _ Hr) as (t & Ht & Htr & Hst & Hn & Hkt).
  unfold silent, check_reply_waiter. rewrite (read_at_Ok _ _ _ Hj), bind_lift_Ok.
  rewrite bind_get, Hn, (bind_Ok _ _ _ _ _ Ht), (bind_Ok _ _ _ _ _ Hkt), Hst, Htr, (eo_id _ _ _ Hep), Nat.eqb_refl.
  rewrite (bind_Ok _ _ s [] s); [|by rewrite (bind_Ok _ _ _ _ _ (partner_silent _ _ _ Hr))].
  apply silent_ret. quiet.
Qed.

Lemma endpoints_silent : silent check_endpoints s.
Proof.
  unfold silent, check_endpoints. rewrite bind_get. apply report_all_silent.
  intros e [k He]%list_elem_of_lookup. unfold silent, check_endpoint.
  rewrite (bind_Ok _ _ _ _ _ (recv_waiter_silent k e He)).
  rewrite (bind_Ok _ _ s [] s), (bind_Ok _ _ s [] s).
  - by rewrite (closed_silent k e He).
  - apply report_all_silent. intros pos Hp%elem_of_seq. apply (reply_waiters_silent k); [done|lia].
  - apply report_all_silent. intros pos Hp%elem_of_seq. apply (senders_silent k); [done|lia].
Qed.

(** ** Dead tasks, the wait queue, and the reverse checks *)

Lemma dead_silent : silent check_dead s.
Proof.
  apply each_task_silent. intros i t Ht. case_decide as Hd; [done|].
  assert (Hdead : t_state t = Dead) by (destruct (decide (t_state t = Dead)); tauto).
  pose proof (ci_task _ _ _ _ _ Hci _ _ Ht) as Hok. pose proof (lookup_bound _ _ _ Hs Ht) as Hb.
  destruct (tk_dead _ _ Hok Hdead) as [Hi0 _].
  assert (Hnq : i ∉ rq s) by (eapply core_not_queued; [done..|congruence]).
  destruct (user_aspace _ _ _ _ _ i Hk) as (a & r & Ha & Hkd & _); [unfold TASK0_INDEX in *; lia|].
  assert (Hempty : as_map a = ∅).
  { apply (mi_dead _ _ _ _ _ Hm i); [done| |done]. by rewrite (state_of_lookup _ _ _ Ht), Hdead. }
  unfold silent. rewrite (bind_Ok _ _ _ _ _ (is_in_ready_queue_Ok i s Hs)).
  rewrite (bind_Ok _ _ _ _ _ (no_one_waits i)), bind_get, (tk_as _ _ Hok).
  rewrite num_tasks_ltb, (proj2 (Nat.ltb_lt _ _)) by done.
  rewrite (bind_Ok _ _ s false s).
  - apply silent_ret. quiet.
  - rewrite (bind_Ok _ _ _ _ _ (address_space_at_Ok _ _ _ Ha)), Hkd.
    destruct (AddressSpace_mappings a) as [|m l] eqn:Hms; [done|].
    pose proof (mapping_lookup a m (mi_wf _ _ _ _ _ Hm _ _ Ha)) as Hl. rewrite Hms, Hempty in Hl.
    by rewrite lookup_empty in Hl; specialize (Hl ltac:(by left)).
Qed.

Lemma wait_queue_silent : silent check_wait_queue s.
Proof. unfold silent, check_wait_queue. by rewrite bind_get, (sh_wq _ Hs). Qed.

Lemma not_sleeping i t : tasks s !! i = Some t -> t_blocked_reason t <> Some Sleep.
Proof.
  intros Ht Hr. by destruct (tk_reason _ _ (ci_task _ _ _ _ _ Hci _ _ Ht) _ Hr) as [_ (e & ? & _)].
Qed.

Lemma sleepers_silent : silent check_sleepers s.
Proof.
  apply each_task_silent. intros i t Ht. rewrite decide_False; [done|]. intros [_ Hr].
  by apply (not_sleeping i t).
Qed.

Lemma reverse_silent : silent check_reverse s.
Proof.
  apply each_task_silent. intros i t Ht. case_decide as Hb; [done|].
  assert (Hst : t_state t = Blocked) by (destruct (decide (t_state t = Blocked)); tauto).
  pose proof (ci_task _ _ _ _ _ Hci _ _ Ht) as Hok.
  destruct (proj1 (tk_blocked _ _ Hok) Hst) as [r Hr]. rewrite Hr.
  destruct (tk_reason _ _ Hok _ Hr) as [_ (k & Hep & Hkb)].
  destruct (core_endpoint _ _ _ _ _ Hci k Hkb) as (e & He & Heok).
  assert (Hri : reason_of (tasks s) i = Some r) by by rewrite (reason_of_lookup _ _ _ Ht).
  unfold silent. destruct r as [|k'|k'|p k']; [done|injection Hep as ->..];
    rewrite (proj2 (Nat.leb_gt _ _)), (bind_Ok _ _ _ _ _ (endpoint_at_Ok _ _ _ He)) by done.
  - rewrite (bind_Ok _ _ _ _ _ (no_one_waits i)). apply silent_ret.
    apply (eo_recv _ _ _ Heok) in Hri. quiet.
  - pose proof (eo_wf _ _ _ Heok) as []. rewrite queue_contains_spec by lia. rewrite bind_lift_Ok.
    rewrite (bind_Ok _ _ _ _ _ (no_one_waits i)). apply silent_ret.
    apply (eo_send _ _ _ Heok) in Hri. by rewrite bool_decide_true.
  - pose proof (eo_wf _ _ _ Heok) as []. rewrite queue_contains_spec by lia. rewrite bind_lift_Ok.
    rewrite (bind_Ok _ _ _ _ _ (partner_silent _ _ _ Hri)).
    rewrite (bind_Ok _ _ _ _ _ (no_one_waits i)). apply silent_ret.
    rewrite bool_decide_true; [done|]. apply (eo_reply _ _ _ Heok). by exists p.
Qed.

Lemma debug_check_silent : silent debug_check_invariants s.
Proof.
  unfold silent, debug_check_invariants.
  rewrite (bind_Ok _ _ _ _ _ kernel_space_silent), (bind_Ok _ _ _ _ _ user_spaces_silent).
  rewrite (bind_Ok _ _ _ _ _ reasons_silent), (bind_Ok _ _ _ _ _ current_silent).
  rewrite (bind_Ok _ _ _ _ _ user_mappings_silent), (bind_Ok _ _ _ _ _ endpoints_silent).
  rewrite (bind_Ok _ _ _ _ _ dead_silent), (bind_Ok _ _ _ _ _ wait_queue_silent).
  rewrite (bind_Ok _ _ _ _ _ sleepers_silent), (bind_Ok _ _ _ _ _ reverse_silent). done.
Qed.

End checks.
