(* ===== verification/DumpInv.v ===== *)
(** * The dump of a kernel state

    In every state of the invariant the final dump returns, and its event
    section can be read back. *)

From stdpp Require Import base list option strings.
From Stdlib Require Import ZArith Lia.
From S2P Require Import Prelude Addr AddressSpace Queues KTypes Endpoint EventLog KState Console Dump ArchIface.
From S2P Require Import Sched Ipc Kill Syscall Tick Invariant DumpRuns MemInv KillInv.

Lemma for_each_emit {X} (l : list X) (f : X -> list Line) out :
  for_each l (fun x => emit (f x)) out = Ok (tt, out ++ (l ≫= f)).
Proof.
  revert out. induction l as [|x l IH]; intros out; simpl; [by rewrite app_nil_r|].
  rewrite (bind_Ok _ _ _ tt (out ++ f x)) by done. rewrite IH. by rewrite app_assoc.
Qed.

Lemma events_length evs : length evs <= length (evs ≫= log_event_to_vga).
Proof.
  induction evs as [|ev evs IH]; [done|].
  change ((ev :: evs) ≫= log_event_to_vga) with (log_event_to_vga ev ++ (evs ≫= log_event_to_vga)).
  rewrite length_app. destruct (event_not_end ev) as (msg & tl & -> & _). cbn [length]. lia.
Qed.

Section dump.
Context {A : Type} `{ArchLaws A} (kr : PhysFrame) (us : list PhysFrame) (B : Z) (F : nat) (w : World A).
Context (Hinv : KillInv.Inv kr us B F w).
#[local] Abbreviation s := (w_ks w).

(** C29: the dump can be read back.  In every state of the invariant the final
    dump returns (no index is out of range), and reading the lines between the
    two headers gives exactly the events of the log, in order. *)
Theorem dump_reads_back :
  exists out, dump_events s [] = Ok (tt, out) /\ read_dump out = Some (dumped_events s).
Proof.
  set (evs := dumped_events s). unfold dump_events. fold evs.
  rewrite (bind_Ok _ _ _ tt [Info DUMP_START]) by done.
  rewrite (bind_Ok _ _ _ _ _ (for_each_emit evs log_event_to_vga _)).
  set (out := [Info DUMP_START] ++ (evs ≫= log_event_to_vga)).
  rewrite (bind_Ok _ _ _ tt (out ++ [Info DUMP_END])) by done.
  destruct (dump_rest_appends _ _ _ _ _ (KillInv.in_k _ _ _ _ _ Hinv) (out ++ [Info DUMP_END])) as (ls & E). eexists. split; [exact E|]. unfold out, read_dump.
  rewrite <- !app_assoc. cbn [app read_text mbind option_bind]. rewrite String.eqb_refl.
  apply read_events_printed. rewrite length_app. cbn [length]. pose proof (events_length evs). lia.
Qed.

End dump.
