(* ===== verification/TickInv.v ===== *)
(** * The tick keeps the invariant

    Every step of a tick returns and keeps [Inv]: the memory demo, the system
    calls, the accounting and the switch at the end of a time slice. *)

From stdpp Require Import base list option gmap sets strings.
From Stdlib Require Import ZArith Lia.
From S2P Require Import Prelude Addr AddressSpace FrameAlloc Queues KTypes Endpoint EventLog KState.
From S2P Require Import ArchIface Sched Ipc Checks Kill Demo Syscall Tick IpcSpec Invariant IpcInv.
From S2P Require Import IpcRefine MemInv CloseInv KillInv CheckInv.

(** What a memory call may take: a frame and the tables to map it. *)
Definition CALL_FRAMES : nat := PAGE_TABLE_FRAMES + 1.
Ltac flia := unfold CALL_FRAMES, PAGE_TABLE_FRAMES in *; lia.

Section tick_inv.
Context {A : Type} `{ArchLaws A} (kr : PhysFrame) (us : list PhysFrame).

Abbreviation Inv := (Inv kr us).

(** ** How steps keep [Inv] *)

Lemma Inv_mono B B' F F' w : Inv B F w -> (B <= B')%Z -> F' <= F -> Inv B' F' w.
Proof. intros [] HB HF. split; try done; [by eapply KInv_mono|lia]. Qed.

Lemma Inv_core_step B B' F w w' :
  Inv B F w -> core_step kr us w w' -> KInv strict kr us B' (w_ks w') -> running_ok (w_ks w') ->
  Inv B' F w'.
Proof.
  intros [Hk Hm Hc3 Hr HF] Hst Hk' Hr'. split; try done.
  - exact (MemInv_core_step _ _ _ _ _ Hm Hst).
  - by apply Hst.
  - destruct Hst as [_ [Hf] _ _ _ _ _]. unfold frames_left in *. by rewrite Hf.
Qed.

Lemma Inv_ipc_ok B B' F w s' :
  Inv B F w -> ipc_ok kr us strict B' (w_ks w) s' -> running_ok s' -> Inv B' F {| w with w_ks := s' |}.
Proof.
  intros Hinv [Hk Hf Hc Hcur _] Hr. eapply Inv_core_step; [done| |done..]. by apply core_step_ks.
Qed.

Lemma Inv_mem_step B F n w w' : Inv B F w -> mem_step kr us None strict B n w w' -> Inv B (F - n) w'.
Proof.
  intros [Hk Hm Hc3 Hr HF] [Hk' Hm' Hf Hw Hcr Hfr]. pose proof (mem_frame_eq _ _ Hf) as Hf'.
  split; try done.
  - intros Hc0. rewrite Hcr. apply Hc3. rewrite Hf' in Hc0. exact Hc0.
  - unfold running_ok. rewrite Hf'. exact Hr.
  - lia.
Qed.

(** The current task. *)
Lemma Inv_current B F w :
  Inv B F w -> exists t, tasks (w_ks w) !! current_task (w_ks w) = Some t /\ t_state t = Running /\
    t_blocked_reason t = None /\ task_ok (current_task (w_ks w)) t /\
    current_task (w_ks w) < MAX_TASKS /\ task_bound B t.
Proof.
  intros [Hk _ _ Hr _]. pose proof Hk as [Hs Hci _ Htb _ _ _].
  destruct (core_lookup _ _ _ _ _ Hci (current_task (w_ks w))) as [t Ht]; [apply Hci|].
  unfold running_ok in Hr. rewrite (state_of_lookup _ _ _ Ht) in Hr. injection Hr as Hr.
  exists t. split_and!; try done.
  - eapply core_not_blocked_reason; [done..|congruence].
  - by apply (ci_task _ _ _ _ _ Hci).
  - apply Hci.
  - rewrite Forall_lookup in Htb. by apply (Htb (current_task (w_ks w))).
Qed.

Lemma Inv_calling B F w t :
  Inv B F w -> (B + 2 <= u64_max)%Z -> tasks (w_ks w) !! current_task (w_ks w) = Some t ->
  t_state t = Running -> calling kr us B w t.
Proof. intros [Hk Hm _ _ _] HB Ht Hr. split; try done. apply Hm. Qed.

(** Changing mailboxes of a live task. *)
Record touched (i : nat) (t t' : Task) : Prop := {
  tc_id : t_id t' = t_id t;
  tc_as : t_address_space_id t' = t_address_space_id t;
  tc_state : t_state t' = t_state t;
  tc_reason : t_blocked_reason t' = t_blocked_reason t;
  tc_runtime : t_runtime_ticks t' = t_runtime_ticks t;
  tc_slice : t_time_slice_used t' = t_time_slice_used t;
  tc_prio : t_priority t' = t_priority t;
  tc_send : t_pending_send_msg t' = t_pending_send_msg t;
  tc_call sc : t_pending_syscall t' = Some sc ->
    t_pending_syscall t = Some sc \/ i <> TASK0_INDEX /\ syscall_ok sc }.

Lemma Inv_touch B F w i t t' :
  Inv B F w -> tasks (w_ks w) !! i = Some t -> t_state t <> Dead -> touched i t t' ->
  let s := w_ks w in
  Inv B F {| w with w_ks := {| s with tasks := <[i := t']> (tasks s) |} |}.
Proof.
  intros Hinv Ht Hd [] s. pose proof (in_k _ _ _ _ _ Hinv) as Hk.
  pose proof (ci_task _ _ _ _ _ (ki_core _ _ _ _ _ Hk) _ _ Ht) as Hok.
  apply (Inv_ipc_ok B B F w); [done| |].
  - eapply benign_ok; [done|done| |done|done|by apply calm_fields].
    eapply task_ok_fields; try done.
    + rewrite tc_send0. apply Hok.
    + intros sc Hsc. destruct (tc_call0 sc Hsc) as [Hold|?]; [|done]. by apply Hok.
  - pose proof (in_run _ _ _ _ _ Hinv) as Hr. unfold running_ok in *. simpl.
    rewrite state_of_insert by (by eapply lookup_lt_Some). case_decide as Hc; [|done].
    rewrite tc_state0, <- (state_of_lookup _ _ _ Ht), <- Hc. done.
Qed.

(** The stage of the memory demo. *)
Lemma set_stage_spec B F w i v :
  Inv B F w -> i < MAX_TASKS ->
  returns (set_mem_demo_stage i v) (w_ks w) (fun _ s' => Inv B F {| w with w_ks := s' |} /\
    tasks s' = tasks (w_ks w)).
Proof.
  intros [Hk Hm Hc3 Hr HF] Hi. unfold set_mem_demo_stage. repeat kstep.
  rewrite write_at_Ok by (rewrite (mi_stage_len _ _ _ _ _ Hm); done). repeat kstep.
  split; [|done]. split; simpl; try done.
  - eapply KInv_mem; [done|done|]. apply Hk.
  - destruct Hm. split; ksimpl; rewrite ?length_insert; done.
Qed.

(** A change of the architecture that keeps the maps. *)
Lemma Inv_arch B F w a' :
  Inv B F w -> arch_same kr us (w_arch w) a' ->
  (current_task (w_ks w) = TASK0_INDEX -> Cr3_read a' = kr) -> Inv B F {| w with w_arch := a' |}.
Proof.
  intros [Hk Hm Hc3 Hr HF] (E1 & E2 & E3 & E5) E4. split; simpl; try done.
  destruct Hm. split; try done; [|by rewrite E3|by eapply Sep_same].
  intros i asp r Hi Hasp Hus. rewrite E2 by (by eapply list_elem_of_lookup_2). by eapply mi_agree.
Qed.

(** ** The memory demo *)

Lemma demo_page_ok i : page_ok (demo_page_for_task i).
Proof.
  unfold page_ok, demo_page_for_task, DEMO_VIRT_PAGE_INDEX_TASK0, DEMO_VIRT_PAGE_INDEX_USER.
  destruct i as [|[|[|]]]; simpl; lia.
Qed.

Lemma issue_spec B F w t sc :
  Inv B F w -> tasks (w_ks w) !! current_task (w_ks w) = Some t -> t_state t = Running ->
  current_task (w_ks w) <> TASK0_INDEX -> syscall_ok sc ->
  returns (issue (current_task (w_ks w)) sc) (w_ks w) (fun _ s' =>
    Inv B F {| w with w_ks := s' |} /\ current_task s' = current_task (w_ks w)).
Proof.
  intros Hinv Ht Hr Hi0 Hsc. unfold issue. kstep. split; [|done].
  eapply Inv_touch; [done|done|congruence|]. split; try done. simpl. intros sc' [= <-]. by right.
Qed.

Section features.
Context (ft : Features).

Lemma kill_current_spec B F w pf :
  Inv B F w -> (B + 2 <= u64_max)%Z -> current_task (w_ks w) <> TASK0_INDEX ->
  returns (kill_current_task_due_to_user_pf ft pf) w (fun _ w' => Inv (B + 2) F w' /\
    (w' = w \/ state_of (tasks (w_ks w')) (current_task (w_ks w)) = Some Dead)).
Proof.
  intros Hinv HB Hi0. destruct (Inv_current _ _ _ Hinv) as (t & Ht & Hr & _ & Hok & Hb & _).
  pose proof Hinv as [Hk Hm Hc3 _ HF].
  destruct (user_aspace _ _ _ _ _ _ Hk ltac:(split; [|exact Hb]; unfold TASK0_INDEX in *; lia))
    as (asp & r & Hasp & _).
  destruct (lookup_lt_is_Some_2 (mem_demo_stage (w_ks w)) (current_task (w_ks w))) as [st Hst];
    [by rewrite (mi_stage_len _ _ _ _ _ Hm)|].
  unfold kill_current_task_due_to_user_pf. repeat wstep. rewrite (tk_as _ _ Hok). repeat wstep.
  eapply returns_Ok; [apply at_index_Ok; exact Hst|]. cbv beta.
  assert (Hw : {| w with w_ks := w_ks w |} = w) by by destruct w. rewrite Hw.
  destruct (ignore_user_pf_demo ft).
  - wstep. split; [|by left]. eapply Inv_mono; [done|lia..].
  - eapply returns_mono; [by apply (kill_task_spec kr us B F w (current_task (w_ks w)) t); try done; congruence|].
    intros [] w' Hkd. split; [|right]; apply Hkd.
Qed.

(** The frames a user root maps hold no page table. *)
Lemma user_frames_data B F w r p f fl :
  Inv B F w -> r ∈ us -> user_map (w_arch w) r !! p = Some (f, fl) ->
  ~ arch_tables kr us (w_arch w) f.
Proof.
  intros [Hk Hm _ _ _] [j Hj]%list_elem_of_lookup_1 Hp.
  pose proof (ro_len _ _ _ (ki_roots _ _ _ _ _ Hk)) as Hl.
  assert (S j < MAX_TASKS) by (apply lookup_lt_Some in Hj; unfold MAX_TASKS in *; lia).
  destruct (user_aspace _ _ _ _ _ (S j) Hk) as (asp & r' & Hasp & _); [lia|].
  rewrite (mi_agree _ _ _ _ _ Hm (S j) asp r) in Hp by (rewrite ?Nat.sub_succ, ?Nat.sub_0_r; by auto with lia).
  eapply (sep_data _ _ _ _ _ _ (mi_sep _ _ _ _ _ Hm) (S j)). left. by exists asp, p, fl.
Qed.

(** Whoever maps a frame owns it. *)
Lemma mapped_owned B F w i r p f fl :
  Inv B F w -> 0 < i < MAX_TASKS -> us !! (i - 1) = Some r -> user_map (w_arch w) r !! p = Some (f, fl) ->
  (0 <= p < 2 ^ 27)%Z /\ user_flags fl /\ owns (address_spaces (w_ks w)) (mem_demo_frame (w_ks w)) i f.
Proof.
  intros [Hk Hm _ _ _] Hi Hr Hp. destruct (user_aspace _ _ _ _ _ i Hk Hi) as (asp & r' & Hasp & _).
  rewrite (mi_agree _ _ _ _ _ Hm i asp r) in Hp by (done || lia).
  destruct (mi_user _ _ _ _ _ Hm i asp p f fl ltac:(lia) Hasp Hp) as [Hb Hu].
  split; [done|]. split; [done|]. left. by exists asp, p, fl.
Qed.

(** Two user tasks map no common frame. *)
Lemma isolated_frames B F w i j ri rj p q f g fl fl' :
  Inv B F w -> 0 < i < MAX_TASKS -> 0 < j < MAX_TASKS -> i <> j ->
  us !! (i - 1) = Some ri -> us !! (j - 1) = Some rj ->
  user_map (w_arch w) ri !! p = Some (f, fl) -> user_map (w_arch w) rj !! q = Some (g, fl') -> g <> f.
Proof.
  intros Hinv Hi Hj Hij Hri Hrj Hf Hg ->.
  destruct (mapped_owned B F w i ri p f fl Hinv Hi Hri Hf) as (_ & _ & Hoi).
  destruct (mapped_owned B F w j rj q f fl' Hinv Hj Hrj Hg) as (_ & _ & Hoj).
  apply Hij. by eapply (sep_iso _ _ _ _ _ _ (mi_sep _ _ _ _ _ (in_m _ _ _ _ _ Hinv))).
Qed.

(** An access through the user's root. *)
Lemma guarded_rw_spec B F w r v x (Q : result Z PageFaultInfo -> World A -> Prop) :
  Inv B F w -> current_task (w_ks w) <> TASK0_INDEX -> r ∈ us ->
  is_user_space_addr_u64 v = true -> (v mod 8 = 0)%Z ->
  (forall res a', Inv B F {| w with w_arch := a' |} -> arch_ready kr us a' -> Q res {| w with w_arch := a' |}) ->
  returns (arch (guarded_user_rw_u64_in_root r kr v x)) w Q.
Proof.
  intros Hinv Hi0 Hr Hv Hv8 HQ. apply returns_arch.
  eapply returns_mono; [apply (law_rw kr us); [apply Hinv|done..|]|].
  { intros p f fl. by eapply user_frames_data. }
  intros res a' (E1 & E2 & E3 & E4 & E5). apply HQ; [|done]. by apply (Inv_arch B F w).
Qed.

Lemma mem_demo_user_spec B F w t r :
  Inv B F w -> (B + 2 <= u64_max)%Z -> current_task (w_ks w) <> TASK0_INDEX ->
  tasks (w_ks w) !! current_task (w_ks w) = Some t -> t_state t = Running -> r ∈ us ->
  let i := current_task (w_ks w) in
  returns (mem_demo_user ft i (t_id t) (demo_page_for_task i) USER_DEMO_FLAGS r) w
    (fun _ w' => Inv (B + 2) F w').
Proof.
  intros Hinv HB Hi0 Ht Hrun Hr i. pose proof Hinv as [Hk Hm Hc3 _ HF].
  assert (Hib : i < MAX_TASKS) by apply (ki_core _ _ _ _ _ Hk).
  destruct (lookup_lt_is_Some_2 (mem_demo_stage (w_ks w)) i) as [st Hst];
    [by rewrite (mi_stage_len _ _ _ _ _ Hm)|].
  destruct (user_addr _ (demo_page_ok i)) as (va & v & Hva & Hv & Huser & Hv8).
  assert (Hw : {| w with w_ks := w_ks w |} = w) by by destruct w.
  assert (Hstage : forall F' w' x, Inv (B + 2) F' w' ->
    returns (ks (set_mem_demo_stage i x)) w' (fun _ w' => Inv (B + 2) F' w')).
  { intros F' w' x Hw'. apply returns_ks.
    eapply returns_mono; [by apply set_stage_spec|]. by intros [] s' []. }
  assert (Hissue : forall sc x, syscall_ok sc ->
    returns (ks (issue i sc) ;; ks (set_mem_demo_stage i x)) w (fun _ w' => Inv (B + 2) F w')).
  { intros sc x Hsc. apply returns_bind, returns_ks.
    eapply returns_mono; [by apply (issue_spec B F w t)|]. intros [] s' [Hs' _].
    apply Hstage. eapply Inv_mono; [done|lia..]. }
  assert (Haccess : forall x (Qok : ST (World A) unit),
    (forall a', Inv B F {| w with w_arch := a' |} -> arch_ready kr us a' ->
       returns Qok {| w with w_arch := a' |} (fun _ w' => Inv (B + 2) F w')) ->
    returns (kernel_root ← ks kernel_root_frame;
      rw ← arch (guarded_user_rw_u64_in_root r kernel_root v x);
      match rw with
      | Okay _ => Qok
      | Err pf => kill_current_task_due_to_user_pf ft pf ;; ks (set_mem_demo_stage i 0)
      end) w (fun _ w' => Inv (B + 2) F w')).
  { intros x Qok HQ. wstep. eapply returns_Ok; [eapply kernel_root_frame_Ok; by eapply KInv_aspaces|].
    cbv beta. rewrite Hw. eapply returns_bind, (guarded_rw_spec B F w); try done.
    intros [n|pf] a' Hinv' Hrd; [by apply HQ|].
    eapply returns_seq; [by apply (kill_current_spec B F {| w with w_arch := a' |})|].
    intros [] w' [Hw' _]. by apply Hstage. }
  unfold mem_demo_user. wstep. rewrite Hva. repeat wstep. rewrite Hv. repeat wstep.
  eapply returns_Ok; [apply at_index_Ok; exact Hst|]. cbv beta. rewrite Hw.
  destruct (st =? 0)%Z; [apply Hissue; split; [apply demo_page_ok|done]|].
  destruct (st =? 1)%Z.
  { apply Haccess. intros a' Hinv' Hrd. apply returns_bind, returns_arch. simpl.
    eapply returns_Ok; [by apply (law_debug_translate kr us)|]. cbv beta.
    apply Hstage. eapply Inv_mono; [exact Hinv'|lia..]. }
  destruct (st =? 2)%Z; [apply Hissue, demo_page_ok|].
  assert (Hzero : returns (ks (set_mem_demo_stage i 0%Z)) w (fun _ w' => Inv (B + 2) F w')).
  { apply Hstage. eapply Inv_mono; [done|lia..]. }
  destruct (st =? 3)%Z; [|done]. destruct (pf_demo ft); [|done].
  apply Haccess. intros a' Hinv' _. apply Hstage. eapply Inv_mono; [done|lia..].
Qed.

End features.

(** ** The kernel's page *)

Definition kernel_entry (b : bool) (asp : AddressSpace) (a : A) : Prop :=
  if b then (exists y, as_map asp = {[kernel_page := y]}) /\ is_Some (kern_map kr a !! kernel_page)
  else as_map asp = ∅ /\ kern_map kr a !! kernel_page = None.

Lemma MemInv_kernel s a asp' b' a' pm l h n :
  MemInv kr us None s a -> state_of (tasks s) 0 <> Some Dead -> AddressSpace_wf asp' ->
  arch_ready kr us a' -> (forall u, u ∈ us -> user_map a' u = user_map a u) ->
  Sep kr us pm (<[0 := asp']> (address_spaces s)) (mem_demo_frame s) a' ->
  kernel_entry b' asp' a' ->
  MemInv kr us None {| s with phys_mem := pm; address_spaces := <[0 := asp']> (address_spaces s);
    mem_demo_mapped := <[0 := b']> (mem_demo_mapped s); event_log := l; event_log_head := h;
    event_log_len := n |} a'.
Proof.
  intros Hm Hnd Hwf Hrd Hu Hpm Hent. destruct Hm. destruct mi_kernel as (a0 & b & Ha0 & Hb & _).
  split; ksimpl; rewrite ?length_insert; try done.
  - intros j asp [(<- & <- & _)|[_ Hj]]%list_lookup_insert_Some; [done|eauto].
  - intros j asp r Hj. rewrite list_lookup_insert_ne by lia. intros Hasp Hr.
    rewrite Hu by (by eapply list_elem_of_lookup_2). eauto.
  - intros j asp p f fl Hj. rewrite list_lookup_insert_ne by lia. by apply mi_user.
  - intros j asp [(<- & <- & _)|[_ Hj]]%list_lookup_insert_Some; [done|eauto].
  - exists asp', b'. rewrite !list_lookup_insert_eq by (by eapply lookup_lt_Some). done.
Qed.

Lemma kernel_apply_spec B F w act asp b tid :
  Inv B F w -> current_task (w_ks w) = TASK0_INDEX ->
  address_spaces (w_ks w) !! 0 = Some asp -> mem_demo_mapped (w_ks w) !! 0 = Some b ->
  (AddressSpace_apply act asp).1 = Okay tt -> action_frame (w_ks w) 0 act ->
  returns (apply_mem_action_with_mapper act None) (phys_mem (w_ks w), w_arch w) (fun res pa =>
    res = Okay tt /\ arch_ready kr us pa.2 /\ Cr3_read pa.2 = Cr3_read (w_arch w) /\
    (forall u, u ∈ us -> user_map pa.2 u = user_map (w_arch w) u) /\
    (exists k, frames_taken k (phys_mem (w_ks w)) pa.1 /\ forall g, arch_tables kr us pa.2 g ->
       arch_tables kr us (w_arch w) g \/ g ∈ take k (free_frames (phys_mem (w_ks w)))) /\
    kernel_entry (negb b) (AddressSpace_apply act asp).2 pa.2) ->
  returns (r ← ks (apply_logical 0 act);
    match r with
    | Err _ => panic_with (PanicMsg "address_space.apply failed; abort (fail-stop)")
    | Okay _ =>
        r ← arch_with_phys_mem (apply_mem_action_with_mapper act None);
        match r with
        | Err _ => panic_with (PanicMsg "arch apply_mem_action failed")
        | Okay _ =>
            s ← kget;
            b ← ks (at_index (mem_demo_mapped s) 0);
            ks (set_mem_demo_mapped 0 (negb b)) ;;
            ks (push_event (MemActionApplied tid 0 act))
        end
    end) w (fun _ w' => Inv B (F - PAGE_TABLE_FRAMES) w').
Proof.
  intros Hinv Hc0 Hasp Hb Happ Hown Harch. pose proof Hinv as [Hk Hm Hc3 Hr HF].
  pose proof (AddressSpace_apply_refines act asp (mi_wf _ _ _ _ _ Hm _ _ Hasp)) as [_ Hspec].
  pose proof (wf_apply act asp (mi_wf _ _ _ _ _ Hm _ _ Hasp)) as Hwf'.
  pose proof (AddressSpace_apply_frame act asp) as (Hkd & Hrt & _).
  destruct (AddressSpace_apply act asp) as [res asp'] eqn:Hrun. simpl in *. subst res.
  unfold apply_logical. repeat wstep. rewrite Hrun.
  eapply returns_step; [apply set_address_space_Ok; by eapply lookup_lt_Some|]. repeat wstep.
  apply returns_bind, returns_phys_mem. wsimpl.
  eapply returns_mono; [exact Harch|]. intros res [pm a'] (-> & E1 & E2 & E3 & (k & E4 & E5) & E6).
  simpl in *. repeat wstep. eapply returns_Ok; [apply at_index_Ok; exact Hb|]. cbv beta.
  unfold set_mem_demo_mapped. repeat wstep.
  rewrite write_at_Ok by (by eapply lookup_lt_Some). repeat wstep.
  split; simpl; try done.
  - eapply KInv_mem; [done|done|]. ksimpl. eapply roots_ok_insert; [apply Hk|done..].
  - eapply MemInv_kernel; try done.
    + unfold running_ok in Hr. rewrite Hc0 in Hr. by setoid_rewrite Hr.
    + eapply Sep_step; [apply Hm|exact E4|done|]. by eapply owns_apply.
  - intros _. simpl. rewrite E2. by apply Hc3.
  - pose proof E4 as (Hk3 & _ & Hrem). unfold frames_left in *. simpl. rewrite Hrem.
    pose proof (drop_length_le (pmm_remaining (phys_mem (w_ks w))) k Hk3). lia.
Qed.

Lemma mem_demo_kernel_spec B F w tid :
  Inv B F w -> PAGE_TABLE_FRAMES + 1 <= F -> current_task (w_ks w) = TASK0_INDEX ->
  returns (mem_demo_kernel 0 0 tid (demo_page_for_task 0) (PageFlags_union PRESENT WRITABLE)) w
    (fun _ w' => Inv B (F - (PAGE_TABLE_FRAMES + 1)) w').
Proof.
  intros Hinv HF4 Hc0. pose proof Hinv as [Hk Hm Hc3 Hr HF].
  destruct (mi_kernel _ _ _ _ _ Hm) as (asp & b & Hasp & Hb & Hent).
  pose proof (mi_wf _ _ _ _ _ Hm _ _ Hasp) as Hwf. set (p := demo_page_for_task 0).
  assert (Hp : page_number p = kernel_page) by done.
  assert (Hw : {| w with w_ks := w_ks w |} = w) by by destruct w.
  unfold mem_demo_kernel. repeat wstep. eapply returns_Ok; [apply at_index_Ok; exact Hb|].
  cbv beta. rewrite Hw. destruct b; simpl.
  - wstep. destruct Hent as [(y & Hmap) Hkm].
    assert (Hspec : apply_spec (Unmap p) (as_map asp) = (Okay tt, ∅)).
    { unfold apply_spec. rewrite Hp, Hmap, lookup_singleton_eq. by rewrite delete_singleton_eq. }
    destruct (AddressSpace_apply_by_spec _ _ _ _ Hwf Hspec) as (asp' & Happ & Hmap' & _).
    eapply returns_mono; [eapply (kernel_apply_spec B F w (Unmap p) asp true); try done; rewrite Happ; [done|]|].
    + eapply returns_mono; [apply (law_unmap_kernel kr us); [apply Hm|by apply Hc3|apply demo_page_ok|by rewrite Hp]|].
      intros res [pm a'] (-> & E1 & E2 & E3 & E4 & -> & E5). simpl in *.
      split_and!; try done; [|by rewrite E3, Hp; apply lookup_delete_eq].
      exists 0. split; [|by auto]. by eapply frames_taken_0, mi_pmm.
    + intros [] w' Hw'. eapply Inv_mono; [exact Hw'|lia|unfold PAGE_TABLE_FRAMES; lia].
  - apply returns_assoc. wstep.
    eapply returns_mono; [apply (get_or_alloc_spec kr us None (w_ks w) (w_arch w) 0);
      [done|apply Hk|unfold MAX_TASKS; lia|lia]|].
    intros mf s1 ((f & -> & Hf & Hdf) & Hm1 & Hf1 & Has1 & Hmm1 & Hfr1). wstep.
    set (w1 := {| w with w_ks := s1 |}).
    assert (Hinv1 : Inv B (F - 1) w1).
    { eapply Inv_mem_step; [done|]. split; simpl; try done.
      eapply KInv_mem; [done|done|]. rewrite Has1. apply Hk. }
    destruct Hent as [Hmap Hkm]. set (fl := PageFlags_union PRESENT WRITABLE).
    assert (Hspec : apply_spec (Map p f fl) (as_map asp) = (Okay tt, {[kernel_page := (f, fl)]})).
    { unfold apply_spec. rewrite Hp, Hmap, lookup_empty, map_size_empty, decide_True by (unfold MAX_MAPPINGS; lia).
      by rewrite insert_empty. }
    destruct (AddressSpace_apply_by_spec _ _ _ _ Hwf Hspec) as (asp' & Happ & Hmap' & _).
    assert (Hc01 : current_task (w_ks w1) = TASK0_INDEX)
      by (simpl; by rewrite (mem_frame_eq _ _ Hf1)).
    eapply returns_mono; [eapply (kernel_apply_spec B (F - 1) w1 (Map p f fl) asp false);
      [done|done|simpl; by rewrite Has1|simpl; by rewrite Hmm1|by rewrite Happ|by right|rewrite Happ]|].
    + eapply returns_mono; [apply (law_map_kernel kr us); try done|].
      * apply Hm1.
      * by apply (in_cr3 _ _ _ _ _ Hinv1).
      * apply Hm.
      * apply (mi_sep _ _ _ _ _ Hm1).
      * unfold frames_left, PAGE_TABLE_FRAMES in *. simpl. lia.
      * intros res [pm a'] (-> & E1 & E2 & E3 & E4 & E5). simpl in *.
        split_and!; try done.
        -- rewrite Hmap'. eauto.
        -- rewrite E3, Hp, lookup_insert_eq. eauto.
    + intros [] w' Hw'. eapply Inv_mono; [exact Hw'|lia|unfold PAGE_TABLE_FRAMES; lia].
Qed.

Lemma Inv_world B F w w' : Inv B F w -> w_ks w' = w_ks w -> w_arch w' = w_arch w -> Inv B F w'.
Proof. intros [] Hk Ha. split; unfold cr3_ok in *; rewrite ?Hk, ?Ha; done. Qed.

(** The clocks. *)
Lemma Inv_clock B B' F w n m l h k :
  Inv B F w -> (B <= B')%Z -> (0 <= n <= B')%Z -> (0 <= m <= B')%Z -> let s := w_ks w in
  Inv B' F {| w with w_ks := {| s with tick_count := n; time_ticks := m; event_log := l;
                                       event_log_head := h; event_log_len := k |} |}.
Proof.
  intros Hinv HB Hn Hm s. destruct (Inv_mono _ _ _ _ _ Hinv HB (Nat.le_refl F)) as [[Hs ? ? ? ? ? ?] [] ? ? ?].
  split; try done; split; try done. by destruct Hs.
Qed.

Lemma maybe_wake_Ok s : shape s -> maybe_wake_one_sleep_task s = Ok (tt, s).
Proof. intros Hs. unfold maybe_wake_one_sleep_task. by rewrite bind_get, (sh_wq _ Hs). Qed.

Section demo.
Context (ft : Features).

Lemma do_mem_demo_normal_spec B F w :
  Inv B F w -> (B + 2 <= u64_max)%Z -> CALL_FRAMES <= F ->
  returns (do_mem_demo_normal ft) w (fun _ w' => Inv (B + 2) (F - CALL_FRAMES) w').
Proof.
  intros Hinv HB HF. destruct (Inv_current _ _ _ Hinv) as (t & Ht & Hr & _ & Hok & Hb & _).
  pose proof Hinv as [Hk Hm Hc3 _ _]. pose proof (ki_shape _ _ _ _ _ Hk) as Hs.
  assert (Hw : {| w with w_ks := w_ks w |} = w) by by destruct w.
  unfold do_mem_demo_normal. repeat wstep. rewrite decide_False by congruence.
  rewrite (tk_as _ _ Hok), (num_tasks_ltb (w_ks w)), (proj2 (Nat.ltb_lt _ MAX_TASKS)) by done.
  destruct (Nat.eqb_spec (current_task (w_ks w)) TASK0_INDEX) as [Hc0|Hc0]; simpl.
  - destruct (ro_kernel _ _ _ (ki_roots _ _ _ _ _ Hk)) as (a0 & Ha0 & _).
    rewrite Hc0. repeat wstep. rewrite Hw.
    eapply returns_mono; [apply (mem_demo_kernel_spec B F w); [done|flia|done]|].
    intros [] w' Hw'. eapply Inv_mono; [exact Hw'|flia..].
  - destruct (user_aspace _ _ _ _ _ _ Hk ltac:(split; [|exact Hb]; unfold TASK0_INDEX in *; lia))
      as (asp & r & Hasp & Hkd & Hroot & _ & Hrin).
    repeat wstep. rewrite decide_False by (rewrite Hkd; by intros []). repeat wstep. rewrite Hw, Hroot.
    eapply returns_mono; [by apply (mem_demo_user_spec ft B F w)|].
    intros [] w' Hw'. eapply Inv_mono; [exact Hw'|flia..].
Qed.

(** The injected faults only make a task issue a memory call. *)
Lemma on_mem_demo_spec B F w :
  Inv B F w -> returns (on_mem_demo ft) w (fun _ w' => Inv B F w').
Proof.
  intros Hinv. destruct (Inv_current _ _ _ Hinv) as (t & Ht & Hr & _ & Hok & Hb & _).
  pose proof Hinv as [Hk Hm Hc3 _ _]. pose proof (ki_shape _ _ _ _ _ Hk) as Hs.
  assert (Hissue : forall sc, current_task (w_ks w) <> TASK0_INDEX -> syscall_ok sc ->
    let s := w_ks w in Inv B F {| w with w_ks := {| s with tasks :=
      <[current_task s := {| t with t_pending_syscall := Some sc |}]> (tasks s) |} |}).
  { intros sc Hc0 Hsc. eapply Inv_touch; [done|done|congruence|]. split; try done.
    simpl. intros sc' [= <-]. by right. }
  unfold on_mem_demo. destruct (evil_double_map ft); [|destruct (evil_unmap_not_mapped ft); [|by wstep]].
  - unfold evil_double_map_step. wstep.
    destruct (Nat.eqb_spec (current_task (w_ks w)) TASK0_INDEX) as [Hc0|Hc0]; [by wstep|].
    rewrite (num_tasks_leb (w_ks w)), (proj2 (Nat.leb_gt _ _)) by done. repeat wstep.
    assert (Hw : {| w with w_ks := w_ks w |} = w) by by destruct w. rewrite Hw.
    rewrite decide_False by congruence. case_match; [by wstep|].
    case_decide; [by wstep|]. wstep. case_match; [by wstep|]. repeat wstep.
    eapply Inv_world; [apply (Hissue (SysPageMap (demo_page_for_task (current_task (w_ks w)))
      USER_DEMO_FLAGS))|done..]; [done|]. split; [apply demo_page_ok|done].
  - unfold evil_unmap_not_mapped_step. wstep.
    destruct (Nat.eqb_spec (current_task (w_ks w)) TASK0_INDEX) as [Hc0|Hc0]; [by wstep|].
    rewrite (num_tasks_leb (w_ks w)), (proj2 (Nat.leb_gt _ _)) by done. repeat wstep.
    assert (Hw : {| w with w_ks := w_ks w |} = w) by by destruct w. rewrite Hw.
    rewrite decide_False by congruence. case_match; [by wstep|].
    case_decide; [by wstep|]. repeat wstep. case_match; repeat wstep; [by eapply Inv_world|].
    eapply Inv_world; [apply (Hissue (SysPageUnmap (demo_page_for_task (current_task (w_ks w)))))|done..];
      [done|]. apply demo_page_ok.
Qed.

Lemma do_mem_demo_spec B F w :
  Inv B F w -> (B + 2 <= u64_max)%Z -> CALL_FRAMES <= F ->
  returns (do_mem_demo ft) w (fun _ w' => Inv (B + 2) (F - CALL_FRAMES) w').
Proof.
  intros Hinv HB HF. unfold do_mem_demo. eapply returns_seq; [by apply on_mem_demo_spec|].
  intros [|] w' Hinv'; [|by apply do_mem_demo_normal_spec].
  wstep. eapply Inv_mono; [exact Hinv'|flia..].
Qed.

(** ** The action of a tick *)

Lemma tick_action_spec B F w act :
  Inv B F w -> (B + 2 <= u64_max)%Z -> CALL_FRAMES <= F ->
  returns (tick_action ft act) w (fun _ w' => Inv (B + 2) (F - CALL_FRAMES) w').
Proof.
  intros Hinv HB HF. pose proof Hinv as [Hk Hm Hc3 Hr Hfr]. unfold tick_action. destruct act.
  - wstep. eapply Inv_mono; [exact Hinv|flia..].
  - pose proof (ki_time _ _ _ _ _ Hk) as Htime. repeat wstep. rewrite u64_add_Ok by lia. repeat wstep.
    eapply returns_Ok; [apply maybe_wake_Ok; by destruct (ki_shape _ _ _ _ _ Hk)|]. cbv beta.
    pose proof (ki_tick _ _ _ _ _ Hk).
    eapply Inv_mono; [|apply Z.le_refl|]; [by eapply Inv_clock; [exact Hinv|lia..]|flia].
  - repeat wstep. destruct (pmm_allocate_spec (phys_mem (w_ks w)) (mi_pmm _ _ _ _ _ Hm)) as (pm & -> & Hwf & Hrem).
    unfold frames_left in *.
    destruct (pmm_remaining (phys_mem (w_ks w))) as [|phys rest] eqn:Hrm; [simpl in *; flia|].
    cbn [head]. repeat wstep. eapply (Inv_mono B _ (F - 1)); [|lia|flia]. split; wsimpl; try done.
    + eapply KInv_mem; [done|done|]. apply Hk.
    + apply (MemInv_frames _ _ _ _ _ pm (mem_demo_frame (w_ks w))); [done| |by apply Hm..].
      eapply Sep_take; [apply Hm|done|by rewrite Hrm].
    + unfold frames_left. simpl. rewrite Hrem. simpl in *. lia.
  - destruct (ring3_mailbox_loop ft); [|by apply do_mem_demo_spec].
    wstep. eapply Inv_mono; [exact Hinv|flia..].
Qed.

(** ** The user programs *)

(** What the programs do to the kernel state. *)
Record user_ok (B : Z) (F : nat) (w : World A) (s' : KernelState) : Prop := {
  uo_inv : Inv B F {| w with w_ks := s' |};
  uo_cur : current_task s' = current_task (w_ks w);
  uo_state i : state_of (tasks s') i = state_of (tasks (w_ks w)) i }.

Lemma user_ok_refl B F w : Inv B F w -> user_ok B F w (w_ks w).
Proof. intros Hinv. split; [by destruct w|done..]. Qed.

Lemma user_ok_trans B F w s1 s2 :
  user_ok B F w s1 -> user_ok B F {| w with w_ks := s1 |} s2 -> user_ok B F w s2.
Proof. intros [? ? E1] [? ? E2]. split; [done|simpl in *; congruence|]. intros i. by rewrite E2, <- E1. Qed.

Lemma upd_touch B F w i f :
  Inv B F w -> i < MAX_TASKS -> state_of (tasks (w_ks w)) i <> Some Dead ->
  (forall t, touched i t (f t)) ->
  returns (upd_task i f) (w_ks w) (fun _ s' => user_ok B F w s').
Proof.
  intros Hinv Hi Hd Hf. pose proof (in_k _ _ _ _ _ Hinv) as Hk.
  destruct (core_lookup _ _ _ _ _ (ki_core _ _ _ _ _ Hk) i Hi) as [t Ht].
  rewrite (state_of_lookup _ _ _ Ht) in Hd. kstep. split; [|done|].
  - eapply Inv_touch; [done|done|congruence|done].
  - intros j. simpl. rewrite state_of_insert by (by eapply lookup_lt_Some).
    case_decide as Hj; [|done]. subst j. rewrite (state_of_lookup _ _ _ Ht). f_equal. apply Hf.
Qed.

Lemma touched_fields i t t' :
  t_id t' = t_id t -> t_address_space_id t' = t_address_space_id t ->
  t_state t' = t_state t -> t_blocked_reason t' = t_blocked_reason t ->
  t_runtime_ticks t' = t_runtime_ticks t -> t_time_slice_used t' = t_time_slice_used t ->
  t_priority t' = t_priority t -> t_pending_send_msg t' = t_pending_send_msg t ->
  t_pending_syscall t' = t_pending_syscall t -> touched i t t'.
Proof. intros. split; try done. intros sc. left. congruence. Qed.

(** A live task. *)
Definition live_task (w : World A) (i : nat) : Prop :=
  i < MAX_TASKS /\ state_of (tasks (w_ks w)) i <> Some Dead.

Lemma live_task_step B F w s' i : live_task w i -> user_ok B F w s' -> live_task {| w with w_ks := s' |} i.
Proof. intros [Hi Hd] [_ _ Hs]. split; [done|]. simpl. by rewrite Hs. Qed.

Lemma live_task_lookup B F w i :
  Inv B F w -> live_task w i -> exists t, tasks (w_ks w) !! i = Some t /\ t_state t <> Dead.
Proof.
  intros Hinv [Hi Hd]. pose proof (in_k _ _ _ _ _ Hinv) as Hk.
  destruct (core_lookup _ _ _ _ _ (ki_core _ _ _ _ _ Hk) i Hi) as [t Ht]. exists t. split; [done|].
  rewrite (state_of_lookup _ _ _ Ht) in Hd. congruence.
Qed.

Lemma consume_last_reply_spec B F w i :
  Inv B F w -> live_task w i ->
  returns (consume_last_reply i) (w_ks w) (fun _ s' => user_ok B F w s').
Proof.
  intros Hinv Hl. destruct (live_task_lookup _ _ _ _ Hinv Hl) as (t & Ht & Hd).
  unfold consume_last_reply. kstep. destruct (t_last_reply t); [|kstep; by apply user_ok_refl].
  apply upd_touch; [done|apply Hl|apply Hl|]. intros t'. by apply touched_fields.
Qed.

Lemma take_unread_spec B F w i :
  Inv B F w -> live_task w i ->
  returns (take_unread_last_syscall_ret i) (w_ks w) (fun _ s' => user_ok B F w s').
Proof.
  intros Hinv Hl. destruct (live_task_lookup _ _ _ _ Hinv Hl) as (t & Ht & Hd).
  pose proof (ki_shape _ _ _ _ _ (in_k _ _ _ _ _ Hinv)) as Hs. destruct Hl as [Hi Hd'].
  unfold take_unread_last_syscall_ret. kstep.
  rewrite num_tasks_leb, (proj2 (Nat.leb_gt _ _)) by done. kstep. rewrite decide_False by done.
  destruct (t_last_syscall_ret_unread t); simpl; [|kstep; by apply user_ok_refl].
  eapply returns_step; [apply set_task_Ok; by eapply lookup_lt_Some|]. kstep. split; [|done|].
  - eapply Inv_touch; [done|done|done|]. by apply touched_fields.
  - intros j. simpl. rewrite state_of_insert by (by eapply lookup_lt_Some).
    case_decide as Hj; [|done]. subst j. by rewrite (state_of_lookup _ _ _ Ht).
Qed.

Lemma issue_any_spec B F w i sc :
  Inv B F w -> live_task w i -> i <> TASK0_INDEX -> syscall_ok sc ->
  returns (issue i sc) (w_ks w) (fun _ s' => user_ok B F w s').
Proof.
  intros Hinv Hl Hi0 Hsc. apply upd_touch; [done|apply Hl|apply Hl|].
  intros t. split; try done. simpl. intros sc' [= <-]. by right.
Qed.

Lemma user_flags_ok B F w s' :
  Inv B F w -> flag_frame (w_ks w) s' -> user_ok B F w s'.
Proof.
  intros Hinv Hf. split; [by apply Inv_flags|..]; by rewrite (flag_frame_eq _ _ Hf).
Qed.

Lemma task1_step_spec B F w i :
  Inv B F w -> live_task w i -> i <> TASK0_INDEX ->
  returns (task1_step ft i) (w_ks w) (fun _ s' => user_ok B F w s').
Proof.
  intros Hinv Hl Hi0. unfold task1_step.
  eapply returns_seq; [by apply consume_last_reply_spec|]. intros [] s1 Hs1.
  pose proof (uo_inv _ _ _ _ Hs1) as Hinv1. pose proof (live_task_step _ _ _ _ _ Hl Hs1) as Hl1.
  destruct (ipc_demo_single_slow ft); [by kstep|]. kstep.
  destruct (demo_sent_by_task1 s1) eqn:Hsent; simpl.
  - case_match; [|by kstep].
    destruct (core_endpoint _ _ _ _ _ (ki_core _ _ _ _ _ (in_k _ _ _ _ _ Hinv1)) IPC_DEMO_EP0) as (e & He & _);
      [unfold IPC_DEMO_EP0, MAX_ENDPOINTS; lia|]. simpl in He.
    kstep. case_decide; [|by kstep].
    eapply returns_mono; [by apply (issue_any_spec B F {| w with w_ks := s1 |})|].
    intros [] s2. by apply user_ok_trans.
  - kstep. match goal with |- returns _ ?s2 _ => assert (Hs2 : user_ok B F {| w with w_ks := s1 |} s2);
      [by apply user_flags_ok|] end.
    eapply returns_mono; [eapply (issue_any_spec B F {| w with w_ks := _ |}); [apply Hs2| |done|done]|].
    + by eapply (live_task_step _ _ {| w with w_ks := s1 |}).
    + intros [] s3 Hs3. eapply user_ok_trans; [exact Hs1|]. by eapply (user_ok_trans _ _ {| w with w_ks := s1 |}).
Qed.

Lemma server_step_spec B F w i :
  Inv B F w -> live_task w i -> i <> TASK0_INDEX ->
  returns (server_step i) (w_ks w) (fun _ s' => user_ok B F w s').
Proof.
  intros Hinv Hl Hi0. destruct (live_task_lookup _ _ _ _ Hinv Hl) as (t & Ht & Hd).
  unfold server_step. kstep. destruct (t_last_msg t); [|by apply issue_any_spec].
  eapply returns_seq; [apply upd_touch; [done|apply Hl|apply Hl|intros t'; by apply touched_fields]|].
  intros [] s1 Hs1.
  eapply returns_mono; [eapply (issue_any_spec B F {| w with w_ks := s1 |}); [apply Hs1| |done|done]|].
  - by eapply live_task_step.
  - intros [] s2. by apply user_ok_trans.
Qed.

Lemma user_step_spec B F w i :
  Inv B F w -> i < MAX_TASKS ->
  returns (user_step_issue_syscall ft i) (w_ks w) (fun _ s' => user_ok B F w s').
Proof.
  intros Hinv Hi. pose proof (in_k _ _ _ _ _ Hinv) as Hk.
  destruct (core_lookup _ _ _ _ _ (ki_core _ _ _ _ _ Hk) i Hi) as [t Ht].
  pose proof (ki_shape _ _ _ _ _ Hk) as Hs. pose proof (user_ok_refl _ _ _ Hinv) as Hrefl.
  unfold user_step_issue_syscall. kstep. rewrite num_tasks_leb, (proj2 (Nat.leb_gt _ _)) by done. kstep.
  case_decide as Hd; [by kstep|]. case_decide; [by kstep|]. case_decide; [by kstep|].
  assert (Hl : live_task w i) by (split; [done|]; rewrite (state_of_lookup _ _ _ Ht); congruence).
  eapply returns_seq; [by apply take_unread_spec|]. intros r s1 Hs1.
  pose proof (live_task_step _ _ _ _ _ Hl Hs1) as Hl1. pose proof (uo_inv _ _ _ _ Hs1) as Hinv1.
  assert (Hnext : forall m : K unit, returns m s1 (fun _ s' => user_ok B F {| w with w_ks := s1 |} s') ->
    returns m s1 (fun _ s' => user_ok B F w s')).
  { intros m Hm. eapply returns_mono; [exact Hm|]. intros [] s2. by apply user_ok_trans. }
  apply Hnext. destruct (Nat.eqb_spec i TASK0_INDEX); [by apply (consume_last_reply_spec _ _ {| w with w_ks := s1 |})|].
  destruct (i =? TASK1_INDEX); [by apply (task1_step_spec _ _ {| w with w_ks := s1 |})|].
  by apply (server_step_spec _ _ {| w with w_ks := s1 |}).
Qed.

(** ** System calls *)

Context (Hft : ring3_mailbox ft = false).

Lemma Inv_push B F w l h n :
  Inv B F w -> let s := w_ks w in
  Inv B F {| w with w_ks := {| s with event_log := l; event_log_head := h; event_log_len := n |} |}.
Proof. intros Hinv s. by apply Inv_flags. Qed.

Lemma do_call_inv B F w c :
  Inv B F w -> (B + 2 <= u64_max)%Z ->
  returns (do_call ft c) w (fun _ w' => Inv (B + 2) F w' /\ calm_tasks (tasks (w_ks w)) (tasks (w_ks w'))).
Proof.
  intros Hinv HB. destruct (Inv_current _ _ _ Hinv) as (t & Ht & Hr & _).
  eapply returns_mono; [eapply (ipc_call_spec kr us ft Hft); by eapply Inv_calling|].
  intros [] w' ((Hk & Hrun & Hst) & _). split; [by eapply Inv_core_step|apply Hst].
Qed.

Lemma after_recv_spec B F w i :
  Inv B F w -> (B + 2 <= u64_max)%Z -> live_task w i -> i <> TASK0_INDEX ->
  returns (on_after_ipc_recv ft i (id_of i)) w (fun _ w' => Inv (B + 2) F w').
Proof.
  intros Hinv HB Hl Hi0. unfold on_after_ipc_recv.
  assert (Hdone : Inv (B + 2) F w) by (eapply Inv_mono; [exact Hinv|lia..]).
  destruct (dead_partner_test ft); [|by wstep]. wstep. case_match; [|by wstep]. wstep.
  case_match; [|wstep; by eapply Inv_world].
  destruct (live_task_lookup _ _ _ _ Hinv Hl) as (t & Ht & Hd). pose proof Hinv as [Hk Hm Hc3 Hr HF].
  eapply returns_mono; [eapply (kill_task_spec kr us B F _ i t); try done|]. intros [] w' Hkd. apply Hkd.
Qed.

Lemma set_ret_spec B F w v :
  Inv B F w -> returns (set_last_syscall_ret_for_current v) (w_ks w) (fun _ s' => user_ok B F w s').
Proof.
  intros Hinv. destruct (Inv_current _ _ _ Hinv) as (t & Ht & Hr & _ & Hok & Hb & _).
  pose proof (ki_shape _ _ _ _ _ (in_k _ _ _ _ _ Hinv)) as Hs.
  unfold set_last_syscall_ret_for_current. kstep. rewrite num_tasks_leb, (proj2 (Nat.leb_gt _ _)) by done.
  kstep. rewrite decide_False by congruence. apply upd_touch; [done|done| |].
  - rewrite (state_of_lookup _ _ _ Ht). congruence.
  - intros t'. by apply touched_fields.
Qed.

Lemma handle_syscall_spec B F w sc :
  Inv B F w -> (B + 4 <= u64_max)%Z -> CALL_FRAMES <= F -> current_task (w_ks w) <> TASK0_INDEX ->
  syscall_ok sc -> returns (handle_syscall ft sc) w (fun _ w' => Inv (B + 4) (F - CALL_FRAMES) w').
Proof.
  intros Hinv HB HF Hi0 Hsc. destruct (Inv_current _ _ _ Hinv) as (t & Ht & Hr & _ & Hok & Hb & _).
  pose proof (in_k _ _ _ _ _ Hinv) as Hk. pose proof (ki_shape _ _ _ _ _ Hk) as Hs.
  destruct (user_aspace _ _ _ _ _ _ Hk ltac:(split; [|exact Hb]; unfold TASK0_INDEX in *; lia))
    as (asp & r & Hasp & Hkd & _).
  unfold handle_syscall. wstep. rewrite !(num_tasks_leb (w_ks w)), (proj2 (Nat.leb_gt _ _)) by done.
  repeat wstep. rewrite (tk_as _ _ Hok). rewrite !(num_tasks_leb (w_ks w)), (proj2 (Nat.leb_gt _ _)) by done.
  repeat wstep. rewrite bool_decide_false by congruence. simpl. repeat wstep.
  pose proof (Inv_push _ _ _ x x0 x1 Hinv) as Hinv1. cbv zeta in Hinv1.
  match type of Hinv1 with Inv _ _ ?w1 => set (w1' := w1) in * end.
  assert (Hcall : forall c, returns (do_call ft c) w1' (fun _ w' => Inv (B + 4) (F - CALL_FRAMES) w')).
  { intros c. eapply returns_mono; [apply do_call_inv; [done|lia]|]. intros [] w' [Hw' _].
    eapply Inv_mono; [exact Hw'|flia..]. }
  assert (Hret : forall v w', Inv B (F - CALL_FRAMES) w' ->
    returns (ks (set_last_syscall_ret_for_current v)) w' (fun _ w' => Inv (B + 4) (F - CALL_FRAMES) w')).
  { intros v w' Hw'. apply returns_ks. eapply returns_mono; [by apply set_ret_spec|].
    intros [] s' Hs'. eapply Inv_mono; [apply Hs'|lia..]. }
  rewrite (tk_id _ _ Hok). fold (id_of (current_task (w_ks w))).
  destruct sc as [ep|ep m|ep m|p fl|p].
  - apply returns_bind. eapply returns_mono; [apply (do_call_inv B F w1' (CallRecv ep)); [done|lia]|].
    intros [] w' [Hw' Hcalm]. eapply returns_mono; [apply (after_recv_spec (B + 2) F w'); try done; [lia|]|].
    + split; [done|]. intros Hd. apply (calm_dead_of _ _ _ Hcalm) in Hd. simpl in Hd.
      rewrite (state_of_lookup _ _ _ Ht) in Hd. congruence.
    + intros [] w2 Hw2. eapply Inv_mono; [exact Hw2|flia..].
  - apply (Hcall (CallSend ep m)).
  - apply (Hcall (CallReply ep m)).
  - destruct Hsc as [Hp Hfl]. apply returns_bind.
    eapply returns_mono; [apply (page_map_spec kr us None strict B w1' _ t p fl asp); try done|].
    + apply Hinv1.
    + apply Hinv1.
    + unfold TASK0_INDEX in *. lia.
    + congruence.
    + pose proof (in_frames _ _ _ _ _ Hinv1). flia.
    + intros v w' [Hst _]. apply Hret. by apply (Inv_mem_step B F _ w1').
  - apply returns_bind.
    eapply returns_mono; [apply (page_unmap_spec kr us None strict B w1' _ t p asp); try done|].
    + apply Hinv1.
    + apply Hinv1.
    + unfold TASK0_INDEX in *. lia.
    + congruence.
    + pose proof (in_frames _ _ _ _ _ Hinv1). flia.
    + intros v w' [Hst _]. apply Hret.
      eapply Inv_mono; [exact (Inv_mem_step B F _ w1' w' Hinv1 Hst)|flia..].
Qed.

Lemma handle_pending_spec B F w :
  Inv B F w -> (B + 4 <= u64_max)%Z -> CALL_FRAMES <= F ->
  returns (handle_pending_syscall_if_any ft) w (fun _ w' => Inv (B + 4) (F - CALL_FRAMES) w').
Proof.
  intros Hinv HB HF. destruct (Inv_current _ _ _ Hinv) as (t & Ht & Hr & _ & Hok & Hb & _).
  pose proof (ki_shape _ _ _ _ _ (in_k _ _ _ _ _ Hinv)) as Hs.
  unfold handle_pending_syscall_if_any. wstep.
  rewrite !(num_tasks_leb (w_ks w)), (proj2 (Nat.leb_gt _ _)) by done. repeat wstep.
  rewrite decide_False by congruence.
  assert (Hw : {| w with w_ks := w_ks w |} = w) by by destruct w.
  destruct (t_pending_syscall t) as [sc|] eqn:Hsc.
  - destruct (tk_pending _ _ Hok sc Hsc) as [Hi0 Hscok]. repeat wstep.
    apply handle_syscall_spec; try done.
    apply (Inv_push _ _ (let s := w_ks w in {| w with w_ks := {| s with tasks :=
      <[current_task s := {| t with t_pending_syscall := None |}]> (tasks s) |} |})).
    eapply Inv_touch; [done|done|congruence|]. by split.
  - wstep. rewrite Hw. eapply Inv_mono; [exact Hinv|flia..].
Qed.

(** ** Accounting *)

(** Changing the counters of a task. *)
Lemma Inv_count B F w i t rt sl :
  Inv B F w -> tasks (w_ks w) !! i = Some t -> t_state t <> Dead ->
  (0 <= rt <= B + 1)%Z -> (0 <= sl <= B + 1)%Z -> let s := w_ks w in
  Inv (B + 1) F {| w with w_ks := {| s with tasks :=
    <[i := {| t with t_runtime_ticks := rt; t_time_slice_used := sl |}]> (tasks s) |} |}.
Proof.
  intros Hinv Ht Hd Hrt Hsl s. assert (HB : (B <= B + 1)%Z) by lia.
  pose proof (Inv_mono _ _ _ _ _ Hinv HB (Nat.le_refl F)) as [Hk Hm Hc3 Hr HF].
  pose proof Hk as [Hs Hci Hro Htb Hc Htk Htm]. pose proof (ci_task _ _ _ _ _ Hci _ _ Ht) as Hok.
  split; try done.
  - split; try done; simpl.
    + destruct Hs. split; simpl; auto with kernel.
    + eapply core_benign; [done|done| |done|done].
      eapply task_ok_fields; try done; apply Hok.
    + apply Forall_insert; [done|]. by split.
  - destruct Hm. split; try done. intros j asp Hasp Hdj. eapply mi_dead; [done|].
    simpl in Hdj. rewrite state_of_insert in Hdj by (by eapply lookup_lt_Some).
    case_decide; [|done]. subst. by rewrite (state_of_lookup _ _ _ Ht).
  - unfold running_ok in *. simpl. rewrite state_of_insert by (by eapply lookup_lt_Some).
    case_decide as Hc0; [|done]. simpl. by rewrite <- (state_of_lookup _ _ _ Ht), <- Hc0.
Qed.

Lemma update_runtime_spec B F w i :
  Inv B F w -> (B + 1 <= u64_max)%Z -> i < MAX_TASKS ->
  returns (update_runtime_for i) (w_ks w) (fun _ s' => Inv (B + 1) F {| w with w_ks := s' |}).
Proof.
  intros Hinv HB Hi. pose proof (in_k _ _ _ _ _ Hinv) as Hk. pose proof Hk as [Hs Hci _ Htb _ _ _].
  destruct (core_lookup _ _ _ _ _ Hci i Hi) as [t Ht].
  rewrite Forall_lookup in Htb. destruct (Htb i t Ht) as [Hrt Hsl].
  unfold update_runtime_for. kstep. rewrite num_tasks_leb, (proj2 (Nat.leb_gt _ _)) by done. kstep.
  case_decide as Hd.
  { kstep. apply (Inv_mono B _ F); [by destruct w|lia|done]. }
  rewrite u64_add_Ok by lia. repeat kstep.
  apply (Inv_push _ _ (let s := w_ks w in {| w with w_ks := {| s with tasks :=
      <[i := {| t with t_runtime_ticks := (t_runtime_ticks t + 1)%Z |}]> (tasks s) |} |})).
  apply (Inv_count B F w i t (t_runtime_ticks t + 1) (t_time_slice_used t)); [done..|lia|lia].
Qed.

Lemma time_slice_spec B F w i :
  Inv B F w -> (B + 2 <= u64_max)%Z -> i < MAX_TASKS ->
  returns (update_time_slice_for_and_maybe_schedule i) w (fun _ w' => Inv (B + 2) F w').
Proof.
  intros Hinv HB Hi. pose proof (in_k _ _ _ _ _ Hinv) as Hk. pose proof Hk as [Hs Hci _ Htb _ _ _].
  destruct (core_lookup _ _ _ _ _ Hci i Hi) as [t Ht].
  rewrite Forall_lookup in Htb. destruct (Htb i t Ht) as [Hrt Hsl].
  assert (Hw : {| w with w_ks := w_ks w |} = w) by by destruct w.
  assert (Hskip : Inv (B + 2) F w) by (eapply Inv_mono; [exact Hinv|lia|done]).
  unfold update_time_slice_for_and_maybe_schedule. wstep.
  rewrite num_tasks_leb, (proj2 (Nat.leb_gt _ _)) by done. repeat wstep. rewrite Hw.
  case_decide as Hd; [by wstep|]. case_match; [by wstep|]. case_decide as Hrun; [by wstep|].
  repeat wstep. rewrite u64_add_Ok by lia. repeat wstep.
  assert (Hinv1 : let s := w_ks w in Inv (B + 1) F {| w with w_ks := {| s with tasks :=
      <[i := {| t with t_time_slice_used := (t_time_slice_used t + 1)%Z |}]> (tasks s) |} |}).
  { apply (Inv_count B F w i t (t_runtime_ticks t) (t_time_slice_used t + 1)); [done..|lia|lia]. }
  cbv zeta in Hinv1. case_match; [|wstep; eapply Inv_mono; [exact Hinv1|lia|done]]. repeat wstep.
  match goal with |- returns _ ?w2 _ => pose (w2' := w2);
    assert (Hinv2 : Inv (B + 1) F w2') by exact (Inv_push _ _ _ x x0 x1 Hinv1) end.
  assert (Hlook : tasks (w_ks w2') !! i = Some {| t with t_time_slice_used := (t_time_slice_used t + 1)%Z |})
    by (apply list_lookup_insert_eq; by eapply lookup_lt_Some).
  change (returns (if rq_len (w_ks w) =? 0
    then ks (upd_task i (fun t => {| t with t_time_slice_used := 0%Z |}))
    else schedule_next_task) w2' (fun _ w' => Inv (B + 2) F w')).
  clearbody w2'. replace (B + 2)%Z with (B + 1 + 1)%Z by lia. case_match.
  - repeat wstep. apply (Inv_count (B + 1) F w2' i _ _ 0 Hinv2 Hlook); [done|simpl; lia|lia].
  - eapply returns_mono; [apply (schedule_inv kr us strict _ (B + 1)); [apply Hinv2|apply Hinv2|lia]|].
    intros [] w' (Hk' & Hrun' & Hst & _). by eapply Inv_core_step.
Qed.

(** ** The tick *)

Lemma tick_after_death_spec B F w na :
  Inv B F w -> returns (tick_after_death na) w (fun _ w' => Inv B F w').
Proof.
  intros Hinv. unfold tick_after_death. repeat wstep.
  pose proof (ki_shape _ _ _ _ _ (in_k _ _ _ _ _ Hinv)) as Hs.
  destruct (Inv_current _ _ _ Hinv) as (t & Ht & Hr & _ & _ & Hb & _).
  rewrite (num_tasks_ltb (w_ks w)), (proj2 (Nat.ltb_lt _ MAX_TASKS)) by done. repeat wstep.
  rewrite decide_False by (intros Hn; by apply Hn). wstep. by apply Inv_flags.
Qed.

Lemma maybe_block_Ok i s t :
  shape s -> tasks s !! i = Some t -> maybe_block_task i s = Ok (false, s).
Proof.
  intros Hs Ht. unfold maybe_block_task. rewrite bind_get.
  destruct (num_tasks s <=? i); [done|]. rewrite (bind_Ok _ _ _ _ _ (task_at_Ok _ _ _ Ht)).
  case_decide; [done|]. by destruct (negb _).
Qed.

Lemma tick_finish_spec B F w i na :
  Inv B F w -> (B + 7 <= u64_max)%Z -> CALL_FRAMES <= F -> i < MAX_TASKS ->
  returns (tick_finish ft i na) w (fun _ w' => Inv (B + 7) (F - CALL_FRAMES) w').
Proof.
  intros Hinv HB HF Hi. unfold tick_finish.
  eapply returns_seq with (R := fun _ w1 => Inv B F w1).
  { case_match; [by wstep|]. apply returns_ks. eapply returns_mono; [by apply user_step_spec|].
    intros [] s1 Hs1. apply Hs1. }
  intros [] w1 Hinv1. wstep.
  eapply returns_seq with (R := fun _ w2 => Inv (B + 4) (F - CALL_FRAMES) w2).
  { case_match; [apply handle_pending_spec; [done|lia|done]|].
    wstep. eapply Inv_mono; [exact Hinv1|flia..]. }
  intros [] w2 Hinv2. wstep.
  eapply returns_mono; [apply (update_runtime_spec (B + 4)); [done|lia|done]|]. intros [] s3 Hinv3.
  replace (B + 4 + 1)%Z with (B + 5)%Z in Hinv3 by lia.
  pose (w3 := {| w2 with w_ks := s3 |}). change (Inv (B + 5) (F - CALL_FRAMES) w3) in Hinv3.
  change (returns (s ← kget;
    still_running ←
      (if (i =? current_task s)%nat
       then t ← ks (task_at i); mret (bool_decide (t_state t = Running)) else mret false);
    blocked_by_sleep ← (if still_running : bool then ks (maybe_block_task i) else mret false);
    (if still_running && negb blocked_by_sleep
     then update_time_slice_for_and_maybe_schedule i else mret tt) ;;
    kmodify (fun s => {| s with activity := na |}) ;;
    maybe_halt_if_no_user_tasks) w3 (fun _ w' => Inv (B + 7) (F - CALL_FRAMES) w')).
  clearbody w3. wstep. pose proof (in_k _ _ _ _ _ Hinv3) as Hk3.
  destruct (core_lookup _ _ _ _ _ (ki_core _ _ _ _ _ Hk3) i Hi) as [t Ht].
  assert (Hw : {| w3 with w_ks := w_ks w3 |} = w3) by by destruct w3.
  eapply returns_seq with (R := fun _ w => w = w3).
  { case_match; [|by wstep]. by repeat wstep. }
  intros still ? ->.
  eapply returns_seq with (R := fun b w => b = false /\ w = w3).
  { destruct still; [|by wstep]. wstep.
    eapply returns_Ok; [eapply maybe_block_Ok; [apply Hk3|done]|]. done. }
  intros ? ? [-> ->].
  eapply returns_seq with (R := fun _ w' => Inv (B + 7) (F - CALL_FRAMES) w').
  { destruct still; simpl.
    - replace (B + 7)%Z with (B + 5 + 2)%Z by lia. apply time_slice_spec; [done|lia|done].
    - wstep. eapply Inv_mono; [exact Hinv3|lia..]. }
  intros [] w4 Hinv4. repeat wstep.
  eapply returns_mono; [apply maybe_halt_spec; by apply Inv_flags|]. intros [] w' [Hinv' _]. exact Hinv'.
Qed.

Definition TICK_COST : Z := 10.
Definition TICK_FRAMES : nat := 2 * CALL_FRAMES.

Lemma tick_spec B F w :
  Inv B F w -> (B + TICK_COST <= u64_max)%Z -> TICK_FRAMES <= F ->
  returns (tick ft) w (fun reports w' => reports = [] /\ Inv (B + TICK_COST) (F - TICK_FRAMES) w').
Proof.
  unfold TICK_COST, TICK_FRAMES. intros Hinv HB HF. unfold tick. wstep.
  destruct (should_halt (w_ks w)).
  { wstep. split; [done|]. eapply Inv_mono; [exact Hinv|lia..]. }
  pose proof (ki_tick _ _ _ _ _ (in_k _ _ _ _ _ Hinv)) as Htick.
  pose proof (ki_time _ _ _ _ _ (in_k _ _ _ _ _ Hinv)) as Htime.
  destruct (Inv_current _ _ _ Hinv) as (t & Ht & Hr & _ & _ & Hb & _).
  repeat wstep. rewrite u64_add_Ok by lia. repeat wstep.
  destruct (next_activity_and_action (activity (w_ks w))) as [na act].
  eapply returns_seq.
  { apply (tick_action_spec (B + 1) F); [|lia|flia].
    apply (Inv_clock B (B + 1) F w (tick_count (w_ks w) + 1) (time_ticks (w_ks w)) x x0 x1 Hinv); lia. }
  replace (B + 1 + 2)%Z with (B + 3)%Z by lia.
  intros [] w1 Hinv1. pose proof (in_k _ _ _ _ _ Hinv1) as Hk1.
  destruct (core_lookup _ _ _ _ _ (ki_core _ _ _ _ _ Hk1) (current_task (w_ks w)) Hb) as [t1 Ht1].
  assert (Hw : {| w1 with w_ks := w_ks w1 |} = w1) by by destruct w1.
  wstep. rewrite (num_tasks_ltb (w_ks w1)), (proj2 (Nat.ltb_lt _ MAX_TASKS)) by (done || apply Hk1).
  repeat wstep. rewrite Hw.
  eapply returns_seq with (R := fun _ w' => Inv (B + 10) (F - 2 * CALL_FRAMES) w').
  { case_match.
    - eapply returns_mono; [by apply tick_after_death_spec|]. intros [] w' Hw'.
      eapply Inv_mono; [exact Hw'|flia..].
    - eapply returns_mono; [apply (tick_finish_spec (B + 3) (F - CALL_FRAMES)); [done|lia|flia|done]|].
      intros [] w' Hw'. eapply Inv_mono; [exact Hw'|flia..]. }
  intros [] w' Hw'. wstep. eapply returns_Ok; [exact (debug_check_silent _ _ _ _ _ Hw')|].
  split; [done|]. by destruct w'.
Qed.

End demo.

End tick_inv.
