(* ===== verification/Turn.v ===== *)
(** * Turns: how long a task of lower priority can run

    Between two task switches the running task keeps the processor and only its
    time slice counts up; a switch picks a ready task of highest priority.  So
    after at most one quantum of ticks no ready task has a higher priority than
    the running one: priority inversion is bounded. *)

From stdpp Require Import base list option gmap sets strings.
From Stdlib Require Import ZArith Lia.
From S2P Require Import Prelude Addr AddressSpace FrameAlloc Queues KTypes Endpoint EventLog KState.
From S2P Require Import ArchIface Sched Ipc Checks Kill Demo Syscall Tick Frames.

(** ** Holding the processor *)

(** A change of a task that does not let it run and does not count its slice. *)
Record tstep (t t' : Task) : Prop := {
  ts_prio : t_priority t' = t_priority t;
  ts_run : t_state t' = Running -> t_state t = Running /\ t_time_slice_used t' = t_time_slice_used t }.

#[export] Instance tstep_preorder : PreOrder tstep.
Proof.
  split.
  - intros t. by split.
  - intros t1 t2 t3 [H1 R1] [H2 R2]. split; [congruence|]. intros H3.
    destruct (R2 H3) as [H2' ?]. destruct (R1 H2'). split; [done|congruence].
Qed.

(** No switch: whoever runs still runs, in the same slice. *)
Record held (s s' : KernelState) : Prop := {
  hd_shape : shape s -> shape s';
  hd_cur : current_task s' = current_task s;
  hd_quantum : quantum s' = quantum s;
  hd_tasks : Forall2 tstep (tasks s) (tasks s') }.

#[export] Instance held_preorder : PreOrder held.
Proof.
  split.
  - intros s. split; auto. reflexivity.
  - intros s1 s2 s3 [] []. split; [auto|congruence|congruence|by etransitivity].
Qed.

(** A change of other fields. *)
Lemma held_fields s s' :
  num_tasks s' = num_tasks s -> ready_queue s' = ready_queue s -> rq_len s' = rq_len s ->
  wq_len s' = wq_len s -> current_task s' = current_task s -> quantum s' = quantum s ->
  tasks s' = tasks s -> held s s'.
Proof.
  intros H1 H2 H3 H4 H5 H6 H7. split; [|done|done|by rewrite H7].
  intros []. split; congruence.
Qed.

#[export] Instance held_insensitive : Insensitive held.
Proof. split; [exact _|intros; by apply held_fields..]. Qed.

Lemma held_task s i t t' :
  tasks s !! i = Some t -> tstep t t' -> held s {| s with tasks := <[i := t']> (tasks s) |}.
Proof.
  intros Ht Hs. split; simpl; try done.
  - intros []. split; simpl; rewrite ?length_insert; done.
  - apply Forall2_same_length_lookup_2; [by rewrite length_insert|].
    intros j x y Hx [(<- & <- & _)|[_ Hy]]%list_lookup_insert_Some; by simplify_eq.
Qed.

Lemma task_at_inv i s t s' : task_at i s = Ok (t, s') -> tasks s !! i = Some t /\ s' = s.
Proof.
  unfold task_at. rewrite bind_get. unfold at_index. destruct (tasks s !! i); by intros [= -> ->].
Qed.

Lemma set_task_inv i t s a s' :
  set_task i t s = Ok (a, s') -> s' = {| s with tasks := <[i := t]> (tasks s) |}.
Proof.
  unfold set_task. intros H. run_inv. unfold write_at in *. by case_match; simplify_eq.
Qed.

Lemma held_upd_task i f : (forall t, tstep t (f t)) -> preserves held (upd_task i f).
Proof.
  intros Hf s a s' H. unfold upd_task in H. run_inv. apply task_at_inv in H0 as [Ht ->].
  apply set_task_inv in H as ->. by eapply held_task.
Qed.

Lemma held_bump g u : preserves held (bump g u).
Proof. intros s a s' H. unfold bump in H. run_inv. by apply held_fields. Qed.

(** A change of the ready queue within its bounds. *)
Lemma held_queue s q n :
  (shape s -> length q = MAX_TASKS /\ n <= MAX_TASKS) -> held s {| s with ready_queue := q; rq_len := n |}.
Proof.
  intros Hq. split; simpl; try done. intros Hs. destruct (Hq Hs). destruct Hs. split; done.
Qed.

Lemma returns_result {S A} (m : ST S A) s Q a s' : returns m s Q -> m s = Ok (a, s') -> Q a s'.
Proof. intros (b & s1 & H1 & HQ) H2. congruence. Qed.

Lemma held_remove_ready i : preserves held (remove_from_ready_queue i).
Proof.
  intros s a s' H. unfold remove_from_ready_queue in H. run_inv; [reflexivity|]. apply held_queue. intros Hs.
  destruct (compact_spec (fun v => Ok (negb (v =? i))) (fun v => negb (v =? i)) (ready_queue s) (rq_len s))
    as (q' & n' & b' & Hc & Hq & Hn & _); [destruct Hs; lia|done|].
  assert (l = q' /\ n = n') as [-> ->] by (split; congruence). destruct Hs. lia.
Qed.

Lemma held_compact : preserves held compact_ready_queue_to_ready_only.
Proof.
  intros s a s' H. pose proof H as H'. unfold compact_ready_queue_to_ready_only in H. run_inv.
  apply held_queue. intros Hs.
  destruct (returns_result _ _ _ _ _ (compact_ready_spec _ Hs) H') as (q' & n' & Heq & [] & _).
  simpl in *. done.
Qed.

(** The wait queue is empty in a state of the right shape. *)
Lemma held_remove_wait i : preserves held (remove_from_wait_queue i).
Proof.
  intros s a s' H. unfold remove_from_wait_queue in H. run_inv; [reflexivity|].
  destruct x as [[q n]|]; [|by run_inv].
  apply bind_inv in H as ([] & s1 & Hput & H). injection Hput as <-.
  etransitivity; [|by_operation H; keeps].
  split; simpl; try done. intros []. rewrite sh_wq in *. discriminate.
Qed.

#[local] Hint Resolve held_upd_task held_bump held_remove_ready held_compact held_remove_wait : frames.
#[local] Hint Extern 1 (forall t, tstep t _) => (intros ?; split; simpl; [done|by intros]) : frames.

Lemma held_push_ready (b : bool) i ev :
  preserves held (s ← get;
    (if negb b && (rq_len s <? MAX_TASKS) then
       q ← lift_res (write_at (ready_queue s) (rq_len s) i);
       put {| s with ready_queue := q; rq_len := S (rq_len s) |}
     else mret tt) ;; push_event ev).
Proof.
  apply preserves_get_bind. intros s c s' H.
  apply bind_inv in H as ([] & s1 & H1 & H2). transitivity s1; [|by eapply (preserves_push_event held)].
  run_inv; [|reflexivity]. apply held_queue. intros [].
  unfold write_at in *. case_match; simplify_eq. rewrite length_insert.
  match goal with E : _ && _ = true |- _ => apply andb_prop in E as [_ ?%Nat.ltb_lt] end. lia.
Qed.

#[local] Hint Resolve held_push_ready : frames.
Lemma held_wake i : preserves held (wake_task_to_ready i).
Proof. unfold wake_task_to_ready. keeps. Qed.

Lemma remove_ready_tasks i s b s' : remove_from_ready_queue i s = Ok (b, s') -> tasks s' = tasks s.
Proof. intros H. unfold remove_from_ready_queue in H. by run_inv. Qed.

Lemma upd_task_inv i f s a s' :
  upd_task i f s = Ok (a, s') ->
  exists t, tasks s !! i = Some t /\ s' = {| s with tasks := <[i := f t]> (tasks s) |}.
Proof.
  intros H. unfold upd_task in H. apply bind_inv in H as (t & s1 & H1 & H).
  apply task_at_inv in H1 as [Ht ->]. exists t. split; [done|]. by eapply set_task_inv.
Qed.

Lemma held_block i r : r <> Sleep -> preserves held (block_task i r).
Proof.
  intros Hr s a s' H. unfold block_task in H. apply bind_inv in H as (s0 & s1 & H0 & H). ok_inv H0.
  destruct (num_tasks s <=? i); [by run_inv|].
  apply bind_inv in H as (t & s1 & H1 & H). apply task_at_inv in H1 as [Ht ->].
  destruct (decide (t_state t = Dead)); [by run_inv|].
  apply bind_inv in H as (b & s1 & H1 & H). transitivity s1; [by eapply held_remove_ready|].
  apply remove_ready_tasks in H1.
  destruct (decide (t_state t = Blocked)) as [Hb|Hb].
  - apply bind_inv in H as ([] & s2 & H2 & H). transitivity s2.
    + apply upd_task_inv in H2 as (t' & Ht' & ->). eapply held_task; [done|].
      split; simpl; [done|]. congruence.
    + by_operation H. destruct (t_blocked_reason t) as [[]|], r; try congruence; keeps.
  - by_operation H. destruct r; try congruence; keeps.
Qed.

#[local] Hint Resolve held_wake held_block : frames.
#[local] Hint Extern 1 (_ <> Sleep) => discriminate : frames.

(** ** IPC up to the switch *)

Lemma held_reject_kernel : preserves held reject_ipc_if_kernel_current.
Proof. unfold reject_ipc_if_kernel_current, is_kernel_task_index. keeps. Qed.
Lemma held_reject_closed ep : preserves held (reject_ipc_if_endpoint_closed ep).
Proof. unfold reject_ipc_if_endpoint_closed. keeps. Qed.
#[local] Hint Resolve held_reject_kernel held_reject_closed : frames.
Lemma held_entry ep : preserves held (ipc_entry ep).
Proof. unfold ipc_entry. keeps. Qed.
Lemma held_rescue i err : preserves held (rescue_task_with_error i err).
Proof. unfold rescue_task_with_error. keeps. Qed.
#[local] Hint Resolve held_entry held_rescue : frames.
Lemma held_dequeue_valid fuel ep : preserves held (dequeue_valid_sender fuel ep).
Proof. induction fuel as [|fuel IH]; cbn [dequeue_valid_sender]; keeps. Qed.
#[local] Hint Resolve held_dequeue_valid : frames.
Lemma held_recv_fast ep i : preserves held (ipc_recv_fastpath ep i).
Proof. unfold ipc_recv_fastpath. keeps. Qed.
Lemma held_take_loop ep p n r : preserves held (take_reply_waiter_loop ep p n r).
Proof. revert r. induction n as [|n IH]; intros r; cbn [take_reply_waiter_loop]; keeps. Qed.
#[local] Hint Resolve held_take_loop : frames.
Lemma held_take ep p : preserves held (take_reply_waiter_for_partner ep p).
Proof. unfold take_reply_waiter_for_partner. keeps. Qed.
#[local] Hint Resolve held_take : frames.
Lemma held_reply ep m : preserves held (ipc_reply ep m).
Proof. unfold ipc_reply. keeps. Qed.

(** ** Choosing *)

(** No queued task has a higher priority than the running one. *)
Definition chosen (s : KernelState) : Prop :=
  forall j, j ∈ rq s -> (prio_of (tasks s) j <= prio_of (tasks s) (current_task s))%Z.

(** The queue, the priorities and the current task are as before. *)
Record same_choice (s s' : KernelState) : Prop := {
  sc_cur : current_task s' = current_task s;
  sc_rq : rq s' = rq s;
  sc_prio i : prio_of (tasks s') i = prio_of (tasks s) i }.

#[export] Instance same_choice_preorder : PreOrder same_choice.
Proof.
  split; [done|]. intros s1 s2 s3 [] []. split; [congruence..|]. intros i. congruence.
Qed.
#[export] Instance same_choice_insensitive : Insensitive same_choice.
Proof. split; [exact _|done..]. Qed.

Lemma chosen_same s s' : same_choice s s' -> chosen s -> chosen s'.
Proof. intros [Hc Hq Hp] Hs j. rewrite Hq, Hc, !Hp. apply Hs. Qed.

Lemma prio_of_insert ts i t t' k :
  ts !! i = Some t -> t_priority t' = t_priority t -> prio_of (<[i := t']> ts) k = prio_of ts k.
Proof.
  intros Ht Hp. unfold prio_of. destruct (decide (k = i)) as [->|].
  - rewrite list_lookup_insert_eq by (by eapply lookup_lt_Some). rewrite Ht. simpl. by rewrite Hp.
  - by rewrite list_lookup_insert_ne.
Qed.

Lemma same_choice_upd_task i f : (forall t, t_priority (f t) = t_priority t) -> preserves same_choice (upd_task i f).
Proof.
  intros Hf s a s' H. apply upd_task_inv in H as (t & Ht & ->). split; [done..|].
  intros k. simpl. by eapply prio_of_insert.
Qed.
Lemma same_choice_bump g u : preserves same_choice (bump g u).
Proof. intros s a s' H. unfold bump in H. by run_inv. Qed.

#[local] Hint Resolve same_choice_upd_task same_choice_bump : frames.

Section schedule.
Context {A : Type} `{ArchOps A}.

Lemma chosen_empty s : rq_len s = 0 -> chosen s.
Proof. intros H0 j. unfold rq. rewrite H0. intros []%elem_of_nil. Qed.

(** The number of queued tasks is as before. *)
Definition same_len (s s' : KernelState) : Prop := rq_len s' = rq_len s.
#[local] Instance same_len_preorder : PreOrder same_len.
Proof. split; [done|]. intros s1 s2 s3. unfold same_len. congruence. Qed.
#[local] Instance same_len_insensitive : Insensitive same_len.
Proof. split; [exact _|done..]. Qed.
Lemma same_len_upd_task i f : preserves same_len (upd_task i f).
Proof. intros s a s' H1. by apply upd_task_inv in H1 as (t & Ht & ->). Qed.
Lemma same_len_current i : preserves (@on_ks A same_len) (kmodify (fun s => {| s with current_task := i |})).
Proof. by apply preserves_kmodify. Qed.
#[local] Hint Resolve same_len_upd_task same_len_current : frames.

Lemma run_idle_empty w a w' :
  rq_len (w_ks w) = 0 -> run_idle (A := A) w = Ok (a, w') -> chosen (w_ks w').
Proof.
  intros H0 Hrun. apply chosen_empty. rewrite <- H0. change (on_ks same_len w w'). by_operation Hrun.
  unfold run_idle. keeps.
Qed.

Lemma held_dump_ready : preserves held dump_ready_queue.
Proof. unfold dump_ready_queue. keeps. Qed.

Lemma best_le ts l i q j : best ts l i -> l ≡ₚ i :: q -> j ∈ q -> (prio_of ts j <= prio_of ts i)%Z.
Proof.
  intros (pos & _ & Hall) Hp Hj. assert (j ∈ l) as [pos' Hj']%list_elem_of_lookup by (rewrite Hp; by right).
  by apply (Hall pos' j Hj').
Qed.

Lemma run_highest_best w a w' prev :
  shape (w_ks w) -> run_highest (A := A) prev w = Ok (a, w') -> chosen (w_ks w').
Proof.
  intros Hs Hrun. unfold run_highest in Hrun. apply bind_inv in Hrun as ([] & w0 & Hd & Hrun).
  apply (hd_shape _ _ (preserves_ks held _ held_dump_ready _ _ _ Hd)) in Hs. clear Hd.
  apply bind_inv in Hrun as (r & w1 & Hq & Hrun). apply ks_inv in Hq as (s1 & Hq & ->).
  destruct (returns_result _ _ _ _ _ (dequeue_ready_spec _ Hs) Hq) as (_ & Hs1 & Hts & Hr).
  apply bind_inv in Hrun as (? & w2 & Hg & Hrun). injection Hg as <- <-. cbn [w_ks] in Hrun.
  destruct r as [i|].
  2: { eapply (chosen_same s1); [|intros j; destruct Hr as [_ ->]; by intros []%elem_of_nil].
       by_world Hrun. keeps. }
  destruct Hr as [Hbest Hperm]. destruct (num_tasks s1 <=? i) eqn:Hi.
  { apply Nat.leb_le in Hi. rewrite (sh_num _ Hs1) in Hi. exfalso. apply (Nat.lt_irrefl MAX_TASKS).
    eapply Nat.le_lt_trans; [exact Hi|]. apply (is_ready_bound _ _ Hs).
    destruct Hbest as (pos & [Hrd _]%list_elem_of_lookup_2%list_elem_of_filter & _). by apply Is_true_eq_true. }
  apply bind_inv in Hrun as (t & w2 & Ht & Hrun). apply ks_inv in Ht as (? & [Ht ->]%task_at_inv & ->).
  apply bind_inv in Hrun as ([] & w2 & Hu & Hrun). apply ks_inv in Hu as (? & (t' & Ht' & ->)%upd_task_inv & ->).
  simpl in Ht'. apply bind_inv in Hrun as ([] & w2 & Hm & Hrun). apply ks_inv in Hm as (? & Hm & ->). injection Hm as <-.
  match type of Hrun with _ ?w2 = _ => apply (chosen_same (w_ks w2)) end; [by_world Hrun; keeps|].
  intros j Hj. simpl. rewrite !(prio_of_insert _ _ _ _ _ Ht') by done. rewrite Hts.
  eapply best_le; done.
Qed.

Lemma held_wake_sleep l : preserves held (wake_sleep_loop l).
Proof. induction l as [|p l IH]; cbn [wake_sleep_loop]; keeps. Qed.
#[local] Hint Resolve held_wake_sleep : frames.
Lemma held_wake_one : preserves held maybe_wake_one_sleep_task.
Proof. unfold maybe_wake_one_sleep_task. keeps. Qed.

Lemma held_enqueue_ready i : preserves held (enqueue_ready i).
Proof.
  unfold enqueue_ready. apply preserves_get_bind. intros s a s' Hrun.
  destruct (_ || _) eqn:Hg; [by run_inv|]. apply orb_false_elim in Hg as [Hg _]. apply Nat.leb_gt in Hg.
  apply bind_inv in Hrun as (b & s1 & Hb & Hrun).
  assert (s1 = s) as -> by (unfold is_in_ready_queue in Hb; by run_inv). destruct b; [by run_inv|].
  apply bind_inv in Hrun as (t & s1 & [_ ->]%task_at_inv & Hrun). destruct (decide _); [by run_inv|].
  apply bind_inv in Hrun as (q & s1 & Hw & Hrun). apply lift_inv in Hw as [Hw ->].
  apply bind_inv in Hrun as ([] & s1 & Hp & Hrun). ok_inv Hp.
  etransitivity; [|by_operation Hrun; keeps]. apply held_queue. intros [].
  unfold write_at in Hw. case_match; simplify_eq. rewrite length_insert. lia.
Qed.
#[local] Hint Resolve held_wake_one held_enqueue_ready : frames.
Lemma held_requeue i id : preserves held (requeue_prev i id).
Proof. unfold requeue_prev. keeps. Qed.
#[local] Hint Resolve held_requeue : frames.

(** The next call of a run keeps the shape. *)
Ltac peel Hrun Hs :=
  let x := fresh "x" in let w1 := fresh "w" in let H1 := fresh "H" in
  apply bind_inv in Hrun as (x & w1 & H1 & Hrun); cbv beta zeta in Hrun;
  match type of Hs with shape (w_ks ?w0) =>
    assert (shape (w_ks w1)) by (apply (hd_shape (w_ks w0)); [by_world H1; keeps|exact Hs]);
    clear Hs; rename select (shape (w_ks w1)) into Hs end.

(** A switch from any state of the right shape runs a task of highest priority. *)
Lemma schedule_chosen w a w' :
  shape (w_ks w) -> schedule_next_task (A := A) w = Ok (a, w') -> chosen (w_ks w').
Proof.
  intros Hs Hrun. unfold schedule_next_task in Hrun.
  apply bind_inv in Hrun as (s0 & w0 & Hg & Hrun). injection Hg as <- <-. cbv zeta in Hrun.
  assert (Htail : forall w1, shape (w_ks w1) ->
    (s ← kget; if rq_len s =? 0 then run_idle else run_highest (current_task (w_ks w))) w1 = Ok (a, w') ->
    chosen (w_ks w')).
  { intros w1 Hs1 H1. apply bind_inv in H1 as (s1 & w2 & Hg & H1). injection Hg as <- <-.
    destruct (Nat.eqb_spec (rq_len (w_ks w1)) 0); [by eapply run_idle_empty|by eapply run_highest_best]. }
  do 5 peel Hrun Hs. apply bind_inv in Hrun as (s1 & ? & Hg & Hrun). injection Hg as <- <-.
  destruct (rq_len _ =? 0); [|by eapply run_highest_best]. peel Hrun Hs. by eapply Htail.
Qed.

(** ** Turns *)

(** From a state of the right shape the operation either does not switch, or it
    returns a result in [Q] and the task it leaves running was chosen. *)
Definition turns_if {X} (Q : X -> Prop) (m : W A X) : Prop :=
  forall w a w', shape (w_ks w) -> m w = Ok (a, w') -> on_ks held w w' \/ chosen (w_ks w') /\ Q a.
Abbreviation turns := (turns_if (fun _ => True)).

Lemma turns_held {X} Q (m : W A X) : preserves (on_ks held) m -> turns_if Q m.
Proof. intros Hm w a w' _ Hrun. left. by eapply Hm. Qed.
Lemma turns_schedule : turns schedule_next_task.
Proof. intros w a w' Hs Hrun. right. split; [by eapply schedule_chosen|done]. Qed.
Lemma turns_bind {X Y} Q (m : W A X) (f : X -> W A Y) :
  preserves (on_ks held) m -> (forall a, turns_if Q (f a)) -> turns_if Q (m ≫= f).
Proof.
  intros Hm Hf w b w' Hs (a & w1 & H1 & H2)%bind_inv. apply Hm in H1 as Hh.
  destruct (Hf a w1 b w' (hd_shape _ _ Hh Hs) H2) as [Hh'|?]; [left|by right]. by transitivity w1.
Qed.
(** Nothing is queued after the switch. *)
Lemma turns_then {X Y} P (m : W A X) (f : X -> W A Y) :
  turns_if P m -> (forall a, turns (f a)) -> (forall a, P a -> preserves (on_ks same_choice) (f a)) ->
  turns (m ≫= f).
Proof.
  intros Hm Hf Hc w b w' Hs (a & w1 & H1 & H2)%bind_inv. destruct (Hm w a w1 Hs H1) as [Hh|[Hch Ha]].
  - destruct (Hf a w1 b w' (hd_shape _ _ Hh Hs) H2) as [Hh'|?]; [left|by right]. by transitivity w1.
  - right. split; [|done]. eapply chosen_same; [by eapply Hc|done].
Qed.
Lemma turns_ret {X} Q (m : W A unit) (b : X) : turns m -> Q b -> turns_if Q (m ;; mret b).
Proof.
  intros Hm Hb w a w' Hs (x & w1 & H1 & H2)%bind_inv. injection H2 as <- <-.
  destruct (Hm w x w1 Hs H1) as [?|[? _]]; auto.
Qed.

Ltac turns_step :=
  first
  [ apply turns_schedule
  | match goal with
    | |- turns_if _ (_ ≫= _) => apply turns_bind; [solve [keeps]|intros ?]
    | |- turns_if _ (schedule_next_task ≫= _) => apply turns_ret; [apply turns_schedule|done]
    | |- turns_if _ (if ?b then _ else _) => destruct b
    | |- turns_if _ (match ?x with _ => _ end) => destruct x
    | |- turns_if _ (mret _) => apply turns_held; keeps
    | |- turns_if _ (ks _) => apply turns_held; solve [keeps]
    end ].
Ltac turning := repeat (cbv zeta beta; turns_step).

#[local] Hint Resolve held_recv_fast held_reply : frames.

Section turns.
Context (ft : Features).

Lemma turns_after_send : turns (schedule_after_send ft).
Proof. unfold schedule_after_send. turning. Qed.
Lemma turns_recv ep : turns (ipc_recv ft ep).
Proof. unfold ipc_recv, ipc_recv_slowpath. turning. Qed.
(** The fast path only switches when it delivered. *)
Lemma turns_send_fast ep i m : turns_if (fun b => b = true) (ipc_send_fastpath ft ep i m).
Proof. unfold ipc_send_fastpath. turning. apply turns_ret; [apply turns_after_send|done]. Qed.
Lemma turns_send_slow ep i m : turns (ipc_send_slowpath ft ep i m).
Proof. unfold ipc_send_slowpath. turning. apply turns_after_send. Qed.
Lemma turns_send ep m : turns (ipc_send ft ep m).
Proof.
  unfold ipc_send. turning. eapply turns_then; [apply turns_send_fast| |].
  - intros [|]; turning. apply turns_send_slow.
  - intros b ->. keeps.
Qed.

(** *** Killing *)

Lemma held_unmap_pages root n l : preserves (@on_ks A held) (unmap_pages root n l).
Proof. revert n. induction l as [|p l IH]; intros n; cbn [unmap_pages]; keeps. Qed.
#[local] Hint Resolve held_unmap_pages : frames.
Lemma held_cleanup i : preserves (@on_ks A held) (cleanup_user_mappings_of_address_space i).
Proof. unfold cleanup_user_mappings_of_address_space. keeps. Qed.
Lemma held_rescue_closed i f : (forall t, tstep t (f t)) -> preserves held (rescue_closed i f).
Proof. intros Hf. unfold rescue_closed. keeps. Qed.
Lemma tstep_closed_waiter t : tstep t (closed_waiter t).
Proof. by split. Qed.
Lemma tstep_closed_sender t : tstep t (closed_sender t).
Proof. by split. Qed.
Lemma tstep_killed t : tstep t (killed t).
Proof. by split. Qed.
#[local] Hint Resolve held_cleanup held_rescue_closed tstep_closed_waiter tstep_closed_sender tstep_killed : frames.
Lemma held_close_send ep n : preserves held (close_send_loop ep n).
Proof. induction n as [|n IH]; cbn [close_send_loop]; keeps. Qed.
Lemma held_close_reply ep n : preserves held (close_reply_loop ep n).
Proof. induction n as [|n IH]; cbn [close_reply_loop]; keeps. Qed.
#[local] Hint Resolve held_close_send held_close_reply : frames.
Lemma held_close ep : preserves held (close_endpoint_and_rescue_waiters ep).
Proof. unfold close_endpoint_and_rescue_waiters. keeps. Qed.
Lemma held_resolve_loop fuel p k pos wl : preserves held (resolve_loop fuel p k pos wl).
Proof. revert pos wl. induction fuel as [|fuel IH]; intros pos wl; cbn [resolve_loop]; keeps. Qed.
#[local] Hint Resolve held_close held_resolve_loop : frames.
Lemma held_resolve_endpoints p l wl : preserves held (resolve_endpoints p l wl).
Proof. revert wl. induction l as [|k l IH]; intros wl; cbn [resolve_endpoints]; keeps. Qed.
#[local] Hint Resolve held_resolve_endpoints : frames.
Lemma held_resolve p : preserves held (resolve_ipc_reply_waiters_for_dead_partner p).
Proof. unfold resolve_ipc_reply_waiters_for_dead_partner. keeps. Qed.
Lemma held_count_kill r : preserves held (count_kill r).
Proof. unfold count_kill. keeps. Qed.
#[local] Hint Resolve held_resolve held_count_kill : frames.

Section halt.
Context (R : KernelState -> KernelState -> Prop) `{!Insensitive R}.
Lemma preserves_alive_loop l n : preserves R (alive_user_loop l n).
Proof. revert n. induction l as [|i l IH]; intros n; cbn [alive_user_loop]; keeps. Qed.
Lemma preserves_dump_now : preserves R dump_now.
Proof. unfold dump_now. keeps. Qed.
Lemma preserves_maybe_halt : preserves (@on_ks A R) maybe_halt_if_no_user_tasks.
Proof.
  pose proof preserves_alive_loop. pose proof preserves_dump_now. unfold maybe_halt_if_no_user_tasks, alive_user_task_count. keeps.
Qed.
End halt.
#[local] Hint Resolve preserves_maybe_halt : frames.

Lemma turns_kill i r : turns (kill_task i r).
Proof.
  unfold kill_task. turning. eapply turns_then; [|intros []; apply turns_held; keeps|intros [] _; keeps]. turning.
Qed.

Lemma turns_kill_current pf : turns (kill_current_task_due_to_user_pf ft pf).
Proof. unfold kill_current_task_due_to_user_pf. turning. apply turns_kill. Qed.

(** *** System calls and programs *)

Lemma held_page_map i p fl : preserves (@on_ks A held) (syscall_page_map i p fl).
Proof. unfold syscall_page_map. keeps. Qed.
Lemma held_page_unmap i p : preserves (@on_ks A held) (syscall_page_unmap i p).
Proof. unfold syscall_page_unmap. keeps. Qed.
Lemma held_set_ret v : preserves held (set_last_syscall_ret_for_current v).
Proof. unfold set_last_syscall_ret_for_current. keeps. Qed.
#[local] Hint Resolve held_page_map held_page_unmap held_set_ret : frames.

(** The fault injection after a receive kills without a switch and is left out. *)
Context (Hdp : dead_partner_test ft = false).

Lemma turns_syscall sc : turns (handle_syscall ft sc).
Proof.
  unfold handle_syscall. turning; [|apply turns_send].
  eapply turns_then; [apply turns_recv|intros []; apply turns_held|intros [] _];
    unfold on_after_ipc_recv; rewrite Hdp; keeps.
Qed.
Lemma turns_pending : turns (handle_pending_syscall_if_any ft).
Proof. unfold handle_pending_syscall_if_any. turning. apply turns_syscall. Qed.

Lemma take_unread_inv i s r s' :
  take_unread_last_syscall_ret i s = Ok (r, s') ->
  s' = s \/ exists t, tasks s !! i = Some t /\ s' = {| s with tasks := <[i := {| t with
    t_last_syscall_ret_unread := false; t_last_syscall_ret := None |}]> (tasks s) |}.
Proof.
  intros Hrun. unfold take_unread_last_syscall_ret in Hrun. rewrite bind_get in Hrun.
  destruct (num_tasks s <=? i); [run_inv; by left|].
  apply bind_inv in Hrun as (t & s1 & [Ht ->]%task_at_inv & Hrun).
  destruct (decide _); [run_inv; by left|]. destruct (negb _); [run_inv; by left|].
  apply bind_inv in Hrun as ([] & s1 & ->%set_task_inv & Hrun). run_inv. right. eauto.
Qed.
Lemma held_take_unread i : preserves held (take_unread_last_syscall_ret i).
Proof. intros s r s' [->|(t & Ht & ->)]%take_unread_inv; [done|]. by eapply held_task. Qed.
#[local] Hint Resolve held_take_unread : frames.

Lemma held_issue i sc : preserves held (issue i sc).
Proof. unfold issue. keeps. Qed.
Lemma held_consume i : preserves held (consume_last_reply i).
Proof. unfold consume_last_reply. keeps. Qed.
#[local] Hint Resolve held_issue held_consume : frames.
Lemma held_task1_step i : preserves held (task1_step ft i).
Proof.
  unfold task1_step. apply preserves_bind; [exact _|keeps|intros []]. keeps_step; [keeps|].
  apply preserves_get_bind. intros s a s' Hrun. destruct (negb _).
  - apply bind_inv in Hrun as ([] & s1 & Hp & Hrun). ok_inv Hp.
    etransitivity; [|by_operation Hrun; keeps]. by apply held_fields.
  - by_operation Hrun. keeps.
Qed.
#[local] Hint Resolve held_task1_step : frames.
Lemma held_user_step i : preserves held (user_step_issue_syscall ft i).
Proof. unfold user_step_issue_syscall, server_step. keeps. Qed.
Lemma held_runtime i : preserves held (update_runtime_for i).
Proof. unfold update_runtime_for. keeps. Qed.
Lemma same_choice_runtime i : preserves same_choice (update_runtime_for i).
Proof. unfold update_runtime_for. keeps. Qed.

(** *** The time slice *)

Lemma time_slice_cases w a w' t :
  let s := w_ks w in let i := current_task s in
  shape s -> tasks s !! i = Some t -> t_state t = Running ->
  update_time_slice_for_and_maybe_schedule i w = Ok (a, w') ->
  chosen (w_ks w') \/
  (t_time_slice_used t + 1 < quantum s)%Z /\ w_ks w' = {| s with tasks :=
    <[i := {| t with t_time_slice_used := (t_time_slice_used t + 1)%Z |}]> (tasks s) |}.
Proof.
  intros s i Hs Ht Hr Hrun. unfold update_time_slice_for_and_maybe_schedule in Hrun.
  apply bind_inv in Hrun as (? & ? & Hg & Hrun). injection Hg as <- <-. fold s in Hrun.
  rewrite (num_tasks_leb s), (proj2 (Nat.leb_gt _ _)) in Hrun by (done || by eapply lookup_bound).
  apply bind_inv in Hrun as (t1 & w1 & Hg & Hrun). apply ks_inv in Hg as (s1 & [Ht1 ->]%task_at_inv & ->).
  fold s in Ht1. assert (t1 = t) as -> by congruence.
  rewrite decide_False, Nat.eqb_refl in Hrun by congruence. simpl in Hrun. rewrite decide_False in Hrun by (by intros []).
  apply bind_inv in Hrun as (u & w1 & Hg & Hrun). apply ks_inv in Hg as (s1 & [Hu ->]%lift_inv & ->).
  apply u64_add_inv in Hu as [-> _].
  apply bind_inv in Hrun as ([] & w1 & Hg & Hrun). apply ks_inv in Hg as (s1 & (t1 & Ht1' & ->)%upd_task_inv & ->).
  simpl in Ht1'. fold s in Ht1'. assert (t1 = t) as -> by congruence.
  destruct (Z.leb_spec (quantum s) (t_time_slice_used t + 1)) as [Hq|Hq].
  2: { injection Hrun as _ <-. right. done. }
  left. match type of Hrun with _ ?w1 = _ => assert (Hs1 : shape (w_ks w1)) end.
  { destruct Hs. split; simpl; rewrite ?length_insert; done. }
  peel Hrun Hs1. apply bind_inv in Hrun as (? & ? & Hg & Hrun). injection Hg as <- <-.
  destruct (Nat.eqb_spec (rq_len (w_ks w0)) 0) as [Hz|]; [|by eapply schedule_chosen].
  apply chosen_empty. rewrite <- Hz. change (on_ks same_len w0 w'). by_operation Hrun. keeps.
Qed.

End turns.
End schedule.

#[export] Hint Resolve held_upd_task held_bump held_wake_one held_issue
  held_user_step held_runtime same_choice_runtime preserves_maybe_halt
  same_choice_upd_task : frames.
#[export] Hint Extern 1 (forall t, tstep t _) => (intros ?; split; simpl; [done|by intros]) : frames.
