(* ===== verification/Boot.v ===== *)
(** * The boot establishes the invariant

    [KernelState::new] gives a state that satisfies [Inv], [bootstrap] keeps
    it, and so the normal start runs its ticks without a panic. *)

From stdpp Require Import base list option gmap sets.
From Stdlib Require Import ZArith Lia.
From S2P Require Import Prelude Addr AddressSpace FrameAlloc Queues KTypes Endpoint EventLog KState.
From S2P Require Import ArchIface Sched Ipc Checks Kill Demo Syscall Tick IpcSpec Invariant IpcInv.
From S2P Require Import IpcRefine DumpRuns MemInv CloseInv KillInv TickInv.

(** What the bootloader hands over: a memory map of 52-bit regions whose usable
    ones do not overlap. *)
Record map_ok (map : list MemoryRegion) : Prop := {
  mo_regions : Forall region_ok map;
  mo_disjoint i j r1 r2 : map !! i = Some r1 -> map !! j = Some r2 -> i <> j ->
    region_type r1 = Usable -> region_type r2 = Usable -> regions_disjoint r1 r2 }.

Lemma usable_roots_NoDup map : map_ok map -> NoDup (phys_frame <$> usable_frames map).
Proof.
  intros [Hr Hd]. apply NoDup_fmap_2_strong; [|by apply usable_frames_NoDup].
  intros x y Hx Hy Heq.
  apply usable_frames_In in Hx as (r1 & _ & _ & _ & _ & Hx); [|done].
  apply usable_frames_In in Hy as (r2 & _ & _ & _ & _ & Hy); [|done].
  unfold phys_frame, PhysFrame_from_index, PAGE_SIZE in Heq. injection Heq as Heq.
  pose proof (Z.div_mod x 4096 ltac:(lia)). pose proof (Z.div_mod y 4096 ltac:(lia)). lia.
Qed.

Section boot.
Context {A : Type} `{ArchLaws A}.

(** ** The user roots *)

(** One iteration of the loop over the user address spaces. *)
Lemma init_root_step kr us i rest ass asp pm a phys frames Q :
  arch_ready kr us a -> Cr3_read a = kr -> frames_free phys_ok (arch_tables kr us a) pm ->
  pmm_remaining pm = phys :: frames -> ass !! i = Some asp ->
  (forall pm' a', frames_free phys_ok (arch_tables kr (us ++ [phys_frame phys]) a') pm' ->
     pmm_remaining pm' = frames -> arch_ready kr (us ++ [phys_frame phys]) a' ->
     Cr3_read a' = kr -> user_map a' (phys_frame phys) = ∅ ->
     (forall u, u ∈ us -> user_map a' u = user_map a u) -> kern_map kr a' = kern_map kr a ->
     returns (init_user_roots rest (<[i := {| asp with as_root_page_frame := Some (phys_frame phys) |}]> ass))
       (pm', a') Q) ->
  returns (init_user_roots (i :: rest) ass) (pm, a) Q.
Proof.
  intros Hrd Hcr Hfree Hrem Hasp HQ. pose proof Hfree as [Hwf Hnd Hreach Huse].
  cbn [init_user_roots]. mstep_basic.
  destruct (pmm_allocate_spec pm Hwf) as (pm' & Hall & Hwf' & Hrem'). rewrite Hrem in Hall, Hrem'.
  assert (Hhead : free_frames pm = phys_frame phys :: free_frames pm')
    by (unfold free_frames; by rewrite Hrem, Hrem').
  assert (Hl4 : allocate_new_l4_table pm = Ok (Some (phys_frame phys), pm'))
    by (unfold allocate_new_l4_table; by rewrite Hall).
  rewrite Hl4. repeat mstep_basic.
  eapply returns_step; [apply at_index_Ok; exact Hasp|]. cbv beta.
  rewrite write_at_Ok by (by eapply lookup_lt_Some). repeat mstep_basic.
  apply returns_bind, returns_zoom. simpl.
  eapply returns_mono; [apply (law_init_user kr us); try done|].
  - apply Hreach. rewrite Hhead. by left.
  - apply Huse. rewrite Hhead. by left.
  - intros [] a' (E1 & E2 & E3 & E4 & E5 & E6). apply HQ; try done; [|congruence].
    eapply (frames_free_taken 1); [exact Hfree| |].
    + split; [unfold PAGE_TABLE_FRAMES; lia|]. split; [done|]. by rewrite Hrem', Hrem.
    + intros g [?| ->]%E6; [by left|right]. rewrite Hhead. by left.
Qed.

(** ** The initial state *)

Definition user_space (r : PhysFrame) : AddressSpace :=
  {| AddressSpace_new_user with as_root_page_frame := Some r |}.
Definition kernel_space (kr : PhysFrame) : AddressSpace :=
  {| AddressSpace_new_kernel with as_root_page_frame := Some kr |}.

Lemma initial_core pm ass :
  let s := initial_state pm ass in CoreInv strict (tasks s) (current_task s) (rq s) (endpoints s).
Proof.
  assert (Hre : forall i, reason_of (tasks (initial_state pm ass)) i = None).
  { intros [|[|[|i]]]; done. }
  split; try done.
  - unfold MAX_TASKS. simpl. unfold TASK0_INDEX. lia.
  - intros [|[|[|i]]] t Ht; simplify_eq/=; (split; simpl; try done; by (split; [|intros []])).
  - by intros [|[|[|i]]].
  - apply (bool_decide_unpack _). vm_compute. done.
  - intros i. change (rq _) with [1; 2]. rewrite !elem_of_cons, elem_of_nil. unfold TASK0_INDEX.
    destruct i as [|[|[|i]]]; unfold state_of; simpl; naive_solver.
  - intros [|[|e]] ep Hep; simplify_eq/=;
      (split; [apply Endpoint_new_wf|done|apply NoDup_nil_2|apply NoDup_nil_2|..]); intros i; rewrite ?Hre;
      unfold senders, reply_waiters; simpl; set_solver.
  - intros e ep i r _ _ _ Hr. by rewrite Hre in Hr.
  - intros i p e Hr. by rewrite Hre in Hr.
Qed.

Lemma initial_inv kr r1 r2 pm a F v f1 st f2 :
  arch_ready kr [r1; r2] a -> Cr3_read a = kr -> r1 <> r2 -> user_map a r1 = ∅ -> user_map a r2 = ∅ ->
  kern_map kr a !! kernel_page = None -> kern_page_ok (VirtPage_from_index kernel_page) ->
  frames_free phys_ok (arch_tables kr [r1; r2] a) pm -> F <= length (pmm_remaining pm) ->
  Inv kr [r1; r2] 0 F
    (mkWorld (initial_state pm [kernel_space kr; user_space r1; user_space r2]) a v f1 st f2).
Proof.
  intros Hrd Hcr Hne H1 H2 Hkm Hkp Hfree HF.
  destruct (new_wf (kernel_space kr) eq_refl) as [Hkw Hkmap].
  destruct (new_wf (user_space r1) eq_refl) as [H1w H1map].
  destruct (new_wf (user_space r2) eq_refl) as [H2w H2map].
  assert (Hall : forall i asp, [kernel_space kr; user_space r1; user_space r2] !! i = Some asp ->
    AddressSpace_wf asp /\ as_map asp = ∅) by (intros [|[|[|i]]] asp Hasp; by simplify_eq/=).
  split; try done.
  - split; try done.
    + split; simpl; unfold MAX_TASKS; (done || lia).
    + apply initial_core.
    + split; try done; [by exists (kernel_space kr)|].
      intros [|[|[|i]]] Hi; [lia|by exists (user_space r1), r1|by exists (user_space r2), r2|].
      unfold MAX_TASKS in Hi. lia.
    + repeat constructor; simpl; lia.
  - split; try done.
    + apply NoDup_cons. split; [|apply NoDup_singleton]. by intros ->%list_elem_of_singleton.
    + intros i asp Hasp. by apply (Hall i).
    + intros [|[|[|i]]] asp r Hi Hasp Hr; simplify_eq/=; congruence.
    + intros i asp p f fl _ Hasp Hp. destruct (Hall i asp Hasp) as [_ Hmap].
      by rewrite Hmap, lookup_empty in Hp.
    + intros i asp Hasp _ _. by apply (Hall i).
    + exists (kernel_space kr), false. done.
    + intros [|[|[|i]]] f Hf; by simplify_eq/=.
    + assert (Hno : forall i f, ~ owns [kernel_space kr; user_space r1; user_space r2] (replicate MAX_TASKS None) i f).
      { intros i f [(asp & p & fl & Hasp & Hp)|Hd].
        - destruct (Hall i asp Hasp) as [_ Hmap]. by rewrite Hmap, lookup_empty in Hp.
        - by apply lookup_replicate in Hd as []. }
      split; [done|..]; intros; by edestruct Hno.
  - by intros _.
Qed.

(** The owner of an endpoint is irrelevant to the invariant. *)
Lemma Inv_owner kr us B F w e ep o :
  Inv kr us B F w -> endpoints (w_ks w) !! e = Some ep -> let s := w_ks w in
  Inv kr us B F {| w with w_ks := {| s with endpoints := <[e := {| ep with ep_owner := o |}]> (endpoints s) |} |}.
Proof.
  intros Hinv He s. eapply Inv_ipc_ok; [done| |by apply Hinv].
  pose proof (in_k _ _ _ _ _ Hinv) as Hk. pose proof Hk as [Hs Hci _ _ _ _ _].
  split; try done.
  - eapply KInv_step; try done; [by destruct Hs|apply Hk|]. simpl. destruct Hci. split; try done.
    + by rewrite length_insert.
    + intros k ek [(<- & <- & _)|[_ Hek]]%list_lookup_insert_Some; [|by auto].
      destruct (ci_eps _ _ He) as [[]]. by split.
    + intros k ek i r [(<- & <- & _)|[_ Hek]]%list_lookup_insert_Some; by eauto.
  - simpl. rewrite list_fmap_insert. apply list_insert_id. by rewrite list_lookup_fmap, He.
Qed.

(** ** Construction *)

(** The world the kernel starts in: the root in CR3 is the kernel's, nothing is
    mapped at the kernel's demo page, and the usable frames can be reached and
    hold none of the kernel's page tables. *)
Record start_ok (map : list MemoryRegion) (a : A) : Prop := {
  so_map : map_ok map;
  so_ready : arch_ready (Cr3_read a) [] a;
  so_reach f : f ∈ phys_frame <$> usable_frames map -> phys_ok f;
  so_unused f : f ∈ phys_frame <$> usable_frames map -> ~ arch_tables (Cr3_read a) [] a f;
  so_page : kern_map (Cr3_read a) a !! kernel_page = None;
  so_kpage : kern_page_ok (VirtPage_from_index kernel_page) }.

Lemma new_spec ft map a F :
  start_ok map a -> F + 2 <= length (usable_frames map) ->
  exists w, KernelState_new ft map a = Ok w /\
    Inv (Cr3_read a) (phys_frame <$> take 2 (usable_frames map)) 0 F w.
Proof.
  intros [Hmap Hrd Hreach Huse Hpage Hkp] HF. set (kr := Cr3_read a) in *.
  pose proof (usable_roots_NoDup _ Hmap) as Hnd.
  destruct (BootInfoFrameAllocator_new_spec map (mo_regions _ Hmap)) as (al & Hnew & Hwf & Hrem & _).
  destruct (usable_frames map) as [|p1 [|p2 frames]] eqn:Huf; [simpl in HF; lia..|].
  assert (Hfree : frames_free phys_ok (arch_tables kr [] a) (mkPhysMem al)).
  { split; unfold free_frames, pmm_remaining; simpl; by rewrite ?Hrem. }
  rewrite !fmap_cons in Hnd. apply NoDup_cons in Hnd as [Hn1 Hnd].
  apply not_elem_of_cons in Hn1 as [H12 _].
  assert (Hroots : returns (init_user_roots (seq FIRST_USER_ASID_INDEX (MAX_TASKS - FIRST_USER_ASID_INDEX))
    [kernel_space kr; AddressSpace_new_user; AddressSpace_new_user]) (mkPhysMem al, a) (fun ass pa =>
      ass = [kernel_space kr; user_space (phys_frame p1); user_space (phys_frame p2)] /\
      forall v f1 st f2, Inv kr [phys_frame p1; phys_frame p2] 0 F (mkWorld (initial_state pa.1 ass) pa.2 v f1 st f2))).
  { apply (init_root_step kr [] 1 [2] _ AddressSpace_new_user (mkPhysMem al) a p1 (p2 :: frames)); try done.
    intros pm1 a1 Hwf1 Hrem1 Hrd1 Hcr1 Hum1 _ Hkm1.
    apply (init_root_step kr [phys_frame p1] 2 [] _ AddressSpace_new_user pm1 a1 p2 frames); try done.
    intros pm2 a2 Hwf2 Hrem2 Hrd2 Hcr2 Hum2 Hu2 Hkm2. apply returns_ret. split; [done|].
    intros v f1 st f2. apply initial_inv; try done.
    - simpl. rewrite Hu2; [done|by left].
    - simpl. by rewrite Hkm2, Hkm1.
    - simpl. rewrite Hrem2. simpl in HF. lia. }
  destruct Hroots as (ass & [pm' a'] & Hrun & -> & Hinv).
  assert (Hinit : forall w, Inv kr [phys_frame p1; phys_frame p2] 0 F w ->
    returns (on_kernel_state_init ft) w (fun _ w' => Inv kr [phys_frame p1; phys_frame p2] 0 F w')).
  { intros w Hw. unfold on_kernel_state_init. destruct (endpoint_close_test ft); [|by wstep].
    destruct (core_endpoint _ _ _ _ _ (ki_core _ _ _ _ _ (in_k _ _ _ _ _ Hw)) IPC_DEMO_EP0) as (e & He & _);
      [unfold IPC_DEMO_EP0, MAX_ENDPOINTS; lia|].
    repeat wstep. eapply returns_Ok; [apply set_endpoint_Ok; by eapply lookup_lt_Some|]. cbv beta.
    by apply Inv_owner. }
  destruct (Hinit _ (Hinv true false 0%Z false)) as ([] & w & Hrun2 & Hw).
  exists w. split; [|done].
  unfold KernelState_new, PhysicalMemoryManager_new. rewrite Hnew.
  rewrite Ok_bind. unfold mret, res_mret. rewrite Ok_bind. cbv zeta. fold kr (kernel_space kr).
  rewrite Hrun, Ok_bind. cbn [fst snd] in Hrun2. by rewrite Hrun2.
Qed.

Lemma bootstrap_spec kr us B F w :
  Inv kr us B F w -> 5 <= F ->
  returns (ks bootstrap) w (fun _ w' => Inv kr us B (F - 5) w').
Proof.
  intros Hinv HF. unfold bootstrap. apply returns_ks. remember 5 as n eqn:Hn. clear Hn.
  revert w F Hinv HF. induction n as [|n IH]; intros w F Hinv HF; cbn [bootstrap_loop].
  { kstep. rewrite Nat.sub_0_r. by destruct w. }
  pose proof Hinv as [Hk Hm Hc3 Hr Hfr]. kstep.
  destruct (pmm_allocate_spec (phys_mem (w_ks w)) (mi_pmm _ _ _ _ _ Hm)) as (pm & -> & Hwf & Hrem).
  unfold frames_left in *.
  destruct (pmm_remaining (phys_mem (w_ks w))) as [|phys rest] eqn:Hrm; [simpl in *; lia|].
  cbn [head]. repeat kstep.
  match goal with |- returns _ ?s1 _ => assert (Hinv1 : Inv kr us B (F - 1) {| w with w_ks := s1 |}) end.
  { split; wsimpl; try done.
    - eapply KInv_mem; [done|done|]. apply Hk.
    - apply (MemInv_frames _ _ _ _ _ pm (mem_demo_frame (w_ks w))); [done| |by apply Hm..].
      eapply Sep_take; [apply Hm|done|by rewrite Hrm].
    - unfold frames_left. simpl. rewrite Hrem. simpl in *. lia. }
  specialize (IH _ (F - 1) Hinv1 ltac:(lia)). eapply returns_mono; [exact IH|].
  intros [] s' Hs'. by replace (F - S n) with (F - 1 - n) by lia.
Qed.

(** ** Running *)

Lemma tick_loop_spec ft kr us B F w n :
  ring3_mailbox ft = false -> Inv kr us B F w ->
  (B + TICK_COST * Z.of_nat n <= u64_max)%Z -> n * TICK_FRAMES <= F ->
  returns (tick_loop ft n) w (fun reports w' => reports = [] /\ Inv kr us (B + TICK_COST * Z.of_nat n) (F - n * TICK_FRAMES) w').
Proof.
  intros Hft. revert B F w. induction n as [|n IH]; intros B F w Hinv HB HF; cbn [tick_loop].
  { kstep. split; [done|]. eapply Inv_mono; [exact Hinv|lia..]. }
  assert (0 <= TICK_COST)%Z by (unfold TICK_COST; lia).
  wstep. destruct (should_halt (w_ks w)).
  { wstep. split; [done|]. eapply Inv_mono; [exact Hinv|lia..]. }
  eapply returns_seq; [apply (tick_spec kr us ft Hft B F w); [done|lia|lia]|].
  intros r w1 [-> Hinv1]. eapply returns_seq; [apply (IH _ _ w1 Hinv1); lia|].
  intros rs w' [-> Hw']. wstep. split; [done|]. eapply Inv_mono; [exact Hw'|lia..].
Qed.

Lemma kernel_run_spec ft map a :
  ring3_mailbox ft = false -> start_ok map a -> 120 * TICK_FRAMES + 7 <= length (usable_frames map) ->
  exists w events, kernel_high_entry ft map a = Ok (w, [], events) /\
    Inv (Cr3_read a) (phys_frame <$> take 2 (usable_frames map)) (120 * TICK_COST) 0 w /\ events = dumped_events (w_ks w).
Proof.
  intros Hft Hstart HF.
  destruct (new_spec ft map a (120 * TICK_FRAMES + 5) Hstart) as (w0 & Hnew & Hinv0); [lia|].
  destruct (bootstrap_spec _ _ _ _ _ Hinv0) as ([] & w1 & Hboot & Hinv1); [lia|].
  destruct (tick_loop_spec ft _ _ _ _ w1 120 Hft Hinv1) as (rs & w & Hrun & -> & Hinv).
  { vm_compute. done. }
  { lia. }
  exists w, (dumped_events (w_ks w)). split; [|split; [|done]].
  - unfold kernel_high_entry. rewrite Hnew, Ok_bind, Hboot, Ok_bind, Hrun, Ok_bind.
    unfold ks. rewrite (zoom_Ok _ _ _ _ _ _ (dump_now_Ok _ _ _ _ _ (in_k _ _ _ _ _ Hinv))). by destruct w.
  - eapply Inv_mono; [exact Hinv|vm_compute; done|lia].
Qed.

End boot.
