(* ===== verification/IpcLog.v ===== *)
(** * IPC with its log lines (kernel/ipc.rs, kernel/syscall.rs, kernel/trace.rs)

    The IPC calls and the system-call boundary once more, now with every line
    that ipc.rs, trace.rs and the IPC part of syscall.rs print: the rejections,
    the reports of inconsistent queues, and the lines of the features
    ipc_trace_paths and ipc_trace_syscall.  An operation returns the lines next
    to its result.  [erases] connects it with the operation of Ipc, which has no
    output. *)

From stdpp Require Import base list option sets strings.
From Stdlib Require Import ZArith Lia.
From S2P Require Import Prelude Addr AddressSpace FrameAlloc Queues KTypes Endpoint EventLog Console Trace.
From S2P Require Import KState Dump ArchIface Sched Ipc Kill Demo Syscall.

(** ** Operations that print *)

(** The lines printed, also when the operation panics. *)
Definition Logged (S X : Type) : Type := S -> list Line * res (X * S).

#[export] Instance Logged_mret S : MRet (Logged S) := fun X x s => ([], Ok (x, s)).
#[export] Instance Logged_mbind S : MBind (Logged S) := fun X Y f m s =>
  match m s with
  | (ls, Ok (x, s')) => let '(ls', r) := f x s' in (ls ++ ls', r)
  | (ls, Panicked p) => (ls, Panicked p)
  end.

Section logged.
Context {S : Type}.
Definition quiet {X} (m : ST S X) : Logged S X := fun s => ([], m s).
Definition say (ls : list Line) : Logged S unit := fun s => (ls, Ok (tt, s)).
End logged.

(** A part that works on the kernel state alone. *)
Definition lks {A X} (m : Logged KernelState X) : Logged (World A) X := fun w =>
  match m (w_ks w) with
  | (ls, Ok (x, s')) => (ls, Ok (x, {| w with w_ks := s' |}))
  | (ls, Panicked p) => (ls, Panicked p)
  end.

Abbreviation LK := (Logged KernelState).
Abbreviation LW A := (Logged (World A)).

(** ** The lines of ipc.rs *)

(** trace.rs [trace_ipc_path]: the line of a path. *)
Definition path_line (ev : IpcPathEvent) : Line :=
  Info match ev with
       | SendFast => "ipc_trace_paths send=fast"
       | SendSlow => "ipc_trace_paths send=slow"
       | RecvFast => "ipc_trace_paths recv=fast"
       | RecvSlow => "ipc_trace_paths recv=slow"
       | ReplyDelivered => "ipc_trace_paths reply=delivered"
       | ReplyNoWaiter => "ipc_trace_paths reply=no_waiter"
       end.

Definition task_id_line (t : Task) : Line := InfoU64 "task_id" (t_id t).
Definition ep_id_line (ep : EndpointId) : Line := InfoU64 "ep_id" (Z.of_nat ep).

(** The two features, and those of the kernel. *)
Record TraceFeatures := mkTrace { ipc_trace_paths : bool; ipc_trace_syscall : bool }.

Section log.
Context {A : Type} `{ArchOps A} (ft : Features) (tf : TraceFeatures).

Definition say_path {S} (ev : IpcPathEvent) : Logged S unit :=
  say (if ipc_trace_paths tf then [path_line ev] else []).

Definition logged_reject_kernel (api : string) (ep : EndpointId) : LK bool :=
  s ← quiet get;
  let idx := current_task s in
  if num_tasks s <=? idx then mret true
  else
    t ← quiet (task_at idx);
    if decide (t_state t = Dead) then mret true
    else
      b ← quiet (is_kernel_task_index idx);
      if b : bool then
        say [ErrorLine "ipc: kernel task is forbidden to call IPC (rejected at entry)"; Info api;
             task_id_line t; ep_id_line ep] ;;
        quiet (upd_task idx (fun t => {| t with t_last_reply := Some IPC_ERR_DEAD_PARTNER |})) ;;
        mret true
      else mret false.

Definition logged_reject_closed (api : string) (ep : EndpointId) : LK bool :=
  if MAX_ENDPOINTS <=? ep then mret true
  else
    e ← quiet (endpoint_at ep);
    if is_closed e then
      s ← quiet get;
      let idx := current_task s in
      (if idx <? num_tasks s then
         t ← quiet (task_at idx);
         if decide (t_state t <> Dead) then
           say [ErrorLine "ipc: endpoint is CLOSED (rejected at entry)"; Info api; task_id_line t; ep_id_line ep] ;;
           quiet (upd_task idx (fun t => {| t with t_last_reply := Some IPC_ERR_ENDPOINT_CLOSED |}))
         else mret tt
       else mret tt) ;;
      mret true
    else mret false.

Definition logged_close_endpoint (ep : EndpointId) : LK unit :=
  if MAX_ENDPOINTS <=? ep then mret tt
  else
    e ← quiet (endpoint_at ep);
    if is_closed e then mret tt
    else
      say [ErrorLine "ipc: endpoint CLOSED; rescuing waiters"; ep_id_line ep] ;;
      quiet (set_endpoint ep {| e with is_closed := true; recv_waiter := None |}) ;;
      match recv_waiter e with
      | Some recv_idx => quiet (rescue_closed recv_idx closed_waiter)
      | None => mret tt
      end ;;
      e ← quiet (endpoint_at ep);
      quiet (close_send_loop ep (sq_len e)) ;;
      e ← quiet (endpoint_at ep);
      quiet (close_reply_loop ep (ep_rq_len e)).

(** [name] is "ipc_recv", "ipc_send" or "ipc_reply". *)
Definition logged_entry (name : string) (ep : EndpointId) : LK (option nat) :=
  let api := ("api=" ++ name)%string in
  if MAX_ENDPOINTS <=? ep then say [ErrorLine (name ++ ": ep out of range")] ;; mret None
  else
    b ← logged_reject_kernel api ep;
    if b : bool then mret None
    else
      b ← logged_reject_closed api ep;
      if b : bool then mret None
      else
        s ← quiet get;
        let idx := current_task s in
        if num_tasks s <=? idx then say [ErrorLine (name ++ ": current_task out of range")] ;; mret None
        else
          t ← quiet (task_at idx);
          if decide (t_state t = Dead) then mret None else mret (Some idx).

Fixpoint logged_take_loop (ep : EndpointId) (partner : TaskId) (n : nat)
    (to_rescue : option nat) : LK (option nat + option nat) :=
  match n with
  | O => mret (inr to_rescue)
  | S pos =>
      e ← quiet (endpoint_at ep);
      idx ← quiet (lift_res (read_at (reply_queue e) pos));
      s ← quiet get;
      if num_tasks s <=? idx then
        say [ErrorLine "ipc: reply_queue contains out-of-range task idx; drop"] ;;
        quiet (with_endpoint ep (fun e => remove_reply_waiter_at e pos)) ;;
        logged_take_loop ep partner pos to_rescue
      else
        t ← quiet (task_at idx);
        if decide (t_state t = Dead) then
          say [ErrorLine "ipc: reply_queue contains DEAD task; drop"; task_id_line t] ;;
          quiet (with_endpoint ep (fun e => remove_reply_waiter_at e pos)) ;;
          logged_take_loop ep partner pos to_rescue
        else if decide (t_blocked_reason t = Some (IpcReply partner ep)) then
          r ← quiet (with_endpoint ep (fun e => remove_reply_waiter_at e pos));
          mret (inl r)
        else
          say [ErrorLine "ipc: reply_queue blocked_reason mismatch; drop (will rescue)"; task_id_line t] ;;
          removed ← quiet (with_endpoint ep (fun e => remove_reply_waiter_at e pos));
          logged_take_loop ep partner pos
            (match removed, to_rescue with
             | Some _, None => removed
             | _, _ => to_rescue
             end)
  end.

Definition logged_take_reply_waiter (ep : EndpointId) (partner : TaskId) : LK (option nat) :=
  if MAX_ENDPOINTS <=? ep then
    say [ErrorLine "ipc: take_reply_waiter_for_partner: ep out of range"] ;; mret None
  else
    e ← quiet (endpoint_at ep);
    r ← logged_take_loop ep partner (ep_rq_len e) None;
    match r with
    | inl found => mret found
    | inr (Some widx) => quiet (rescue_task_with_error widx IPC_ERR_DEAD_PARTNER) ;; mret None
    | inr None => mret None
    end.

(** *** Receive *)

Fixpoint logged_dequeue_sender (fuel : nat) (ep : EndpointId) : LK (option nat) :=
  match fuel with
  | O => quiet (panic_with (PanicMsg "unreachable: no more iterations"))
  | S fuel =>
      r ← quiet (with_endpoint ep dequeue_sender);
      match r with
      | None => mret None
      | Some idx =>
          s ← quiet get;
          if num_tasks s <=? idx then
            say [ErrorLine "ipc_recv_fastpath: dequeued sender idx out of range; drop"] ;;
            logged_dequeue_sender fuel ep
          else
            t ← quiet (task_at idx);
            if decide (t_state t = Dead) then
              say [ErrorLine "ipc_recv_fastpath: dequeued sender is DEAD; drop"] ;;
              logged_dequeue_sender fuel ep
            else if decide (t_blocked_reason t = Some (IpcSend ep)) then
              if decide (t_state t <> Blocked) then
                say [ErrorLine "ipc_recv_fastpath: sender state is not BLOCKED; drop"; task_id_line t] ;;
                logged_dequeue_sender fuel ep
              else mret (Some idx)
            else
              say [ErrorLine "ipc_recv_fastpath: sender blocked_reason mismatch; drop"; task_id_line t] ;;
              logged_dequeue_sender fuel ep
      end
  end.

Definition logged_recv_fastpath (ep : EndpointId) (recv_idx : nat) : LK bool :=
  e ← quiet (endpoint_at ep);
  r ← logged_dequeue_sender (S (sq_len e)) ep;
  match r with
  | None => mret false
  | Some send_idx =>
      t ← quiet (task_at send_idx);
      quiet (upd_task send_idx (fun t => {| t with t_pending_send_msg := None |})) ;;
      match t_pending_send_msg t with
      | None =>
          say [ErrorLine "ipc_recv_fastpath: sender had no pending_send_msg; rescue+continue";
               InfoU64 "sender_task_id" (t_id t)] ;;
          quiet (rescue_task_with_error send_idx IPC_ERR_DEAD_PARTNER) ;; mret false
      | Some msg =>
          let send_id := t_id t in
          rt ← quiet (task_at recv_idx);
          let recv_id := t_id rt in
          ok ← quiet (with_endpoint ep (fun e => try_enqueue_reply_waiter e send_idx));
          if negb ok then
            say [ErrorLine "ipc_recv_fastpath: reply_queue full; rescue sender"; InfoU64 "sender_task_id" send_id] ;;
            quiet (rescue_task_with_error send_idx IPC_ERR_CAPACITY) ;; mret false
          else
            quiet (block_task send_idx (IpcReply recv_id ep)) ;;
            quiet (upd_task recv_idx (fun t => {| t with t_last_msg := Some msg |})) ;;
            quiet (count_demo_delivery ep recv_idx) ;;
            quiet (bump ipc_recv_fast (fun c v => {| c with ipc_recv_fast := v |})) ;;
            say_path RecvFast ;;
            quiet (push_event (IpcDelivered send_id recv_id ep msg)) ;;
            mret true
      end
  end.

Definition logged_recv_slowpath (ep : EndpointId) (recv_idx : nat) : LW A unit :=
  t ← quiet (ks (task_at recv_idx));
  let recv_id := t_id t in
  e ← quiet (ks (endpoint_at ep));
  if decide (is_Some (recv_waiter e)) then
    say [ErrorLine "ipc_recv_slowpath: recv_waiter already exists; recv rejected (prototype)"] ;;
    quiet (ks (upd_task recv_idx (fun t => {| t with t_last_reply := Some IPC_ERR_RECV_ALREADY_WAITING |})))
  else
    quiet (ks (bump ipc_recv_slow (fun c v => {| c with ipc_recv_slow := v |}))) ;;
    say_path RecvSlow ;;
    quiet (ks (block_task recv_idx (IpcRecv ep))) ;;
    e ← quiet (ks (endpoint_at ep));
    quiet (ks (set_endpoint ep {| e with recv_waiter := Some recv_idx |})) ;;
    quiet (ks (push_event (IpcRecvBlocked recv_id ep))) ;;
    if ring3_mailbox ft then mret tt else quiet schedule_next_task.

Definition logged_ipc_recv (ep : EndpointId) : LW A unit :=
  r ← lks (logged_entry "ipc_recv" ep);
  match r with
  | None => mret tt
  | Some recv_idx =>
      t ← quiet (ks (task_at recv_idx));
      quiet (ks (push_event (IpcRecvCalled (t_id t) ep))) ;;
      b ← lks (logged_recv_fastpath ep recv_idx);
      if b : bool then mret tt else logged_recv_slowpath ep recv_idx
  end.

(** *** Send *)

(** The three [cfg] blocks at the end of both paths: with [ring3_mailbox] alone
    the path is traced once more in place of the switch. *)
Definition logged_after_send (ev : IpcPathEvent) : LW A unit :=
  if ring3_mailbox_loop ft then quiet schedule_next_task
  else if ring3_mailbox ft then say_path ev
  else quiet schedule_next_task.

(** The lines of a send on behalf of a task that is not running. *)
Definition not_current_lines (path : string) (send_idx current : nat) : list Line :=
  [ErrorLine (path ++ ": send_idx != current_task; reject"); InfoU64 "send_idx" (Z.of_nat send_idx);
   InfoU64 "current_task" (Z.of_nat current)].

Definition logged_send_fastpath (ep : EndpointId) (send_idx : nat) (msg : Z) : LW A bool :=
  s ← quiet kget;
  if negb (send_idx =? current_task s) then
    say (not_current_lines "ipc_send_fastpath" send_idx (current_task s)) ;; mret false
  else
    e ← quiet (ks (endpoint_at ep));
    match recv_waiter e with
    | None => mret false
    | Some recv_idx =>
        if num_tasks s <=? recv_idx then
          say [ErrorLine "ipc_send_fastpath: recv_waiter idx out of range"] ;; mret false
        else
          rt ← quiet (ks (task_at recv_idx));
          if decide (t_state rt = Dead) then
            say [ErrorLine "ipc_send_fastpath: recv_waiter is DEAD; abort deliver"] ;; mret false
          else if decide (t_blocked_reason rt <> Some (IpcRecv ep)) then
            say [ErrorLine "ipc_send_fastpath: recv_waiter blocked_reason mismatch; abort deliver"] ;; mret false
          else
            quiet (ks (set_endpoint ep {| e with recv_waiter := None |})) ;;
            t ← quiet (ks (task_at send_idx));
            let send_id := t_id t in
            let recv_id := t_id rt in
            quiet (ks (wake_task_to_ready recv_idx)) ;;
            quiet (ks (upd_task recv_idx (fun t => {| t with t_last_msg := Some msg |}))) ;;
            ok ← quiet (ks (with_endpoint ep (fun e => try_enqueue_reply_waiter e send_idx)));
            if negb ok then
              say [ErrorLine "ipc_send_fastpath: reply_queue full; rescue sender"; InfoU64 "task_id" send_id] ;;
              quiet (ks (upd_task send_idx (fun t => {| t with t_last_reply := Some IPC_ERR_CAPACITY |}))) ;;
              mret true
            else
              quiet (ks (block_task send_idx (IpcReply recv_id ep))) ;;
              quiet (ks (count_demo_delivery ep recv_idx)) ;;
              quiet (ks (bump ipc_send_fast (fun c v => {| c with ipc_send_fast := v |}))) ;;
              say_path SendFast ;;
              quiet (ks (push_event (IpcDelivered send_id recv_id ep msg))) ;;
              logged_after_send SendFast ;;
              mret true
    end.

Definition logged_send_slowpath (ep : EndpointId) (send_idx : nat) (msg : Z) : LW A unit :=
  s ← quiet kget;
  if negb (send_idx =? current_task s) then
    say (not_current_lines "ipc_send_slowpath" send_idx (current_task s))
  else
    t ← quiet (ks (task_at send_idx));
    let send_id := t_id t in
    quiet (ks (bump ipc_send_slow (fun c v => {| c with ipc_send_slow := v |}))) ;;
    say_path SendSlow ;;
    ok ← quiet (ks (with_endpoint ep (fun e => try_enqueue_sender e send_idx)));
    if negb ok then
      say [ErrorLine "ipc_send_slowpath: send_queue full; reject"; InfoU64 "task_id" send_id] ;;
      quiet (ks (upd_task send_idx (fun t => {| t with t_last_reply := Some IPC_ERR_CAPACITY |})))
    else
      quiet (ks (upd_task send_idx (fun t => {| t with t_pending_send_msg := Some msg |}))) ;;
      quiet (ks (block_task send_idx (IpcSend ep))) ;;
      quiet (ks (push_event (IpcSendBlocked send_id ep))) ;;
      logged_after_send SendSlow.

Definition logged_ipc_send (ep : EndpointId) (msg : Z) : LW A unit :=
  r ← lks (logged_entry "ipc_send" ep);
  match r with
  | None => mret tt
  | Some send_idx =>
      t ← quiet (ks (task_at send_idx));
      quiet (ks (push_event (IpcSendCalled (t_id t) ep msg))) ;;
      b ← logged_send_fastpath ep send_idx msg;
      if b : bool then mret tt else logged_send_slowpath ep send_idx msg
  end.

(** *** Reply *)

Definition logged_ipc_reply (ep : EndpointId) (msg : Z) : LK unit :=
  r ← logged_entry "ipc_reply" ep;
  match r with
  | None => mret tt
  | Some recv_idx =>
      rt ← quiet (task_at recv_idx);
      let recv_id := t_id rt in
      w ← logged_take_reply_waiter ep recv_id;
      match w with
      | None => say_path ReplyNoWaiter
      | Some send_idx =>
          s ← quiet get;
          if num_tasks s <=? send_idx then say [ErrorLine "ipc_reply: reply_waiter idx out of range"]
          else
            t ← quiet (task_at send_idx);
            if decide (t_state t = Dead) then say [ErrorLine "ipc_reply: reply_waiter is DEAD; abort"]
            else if decide (t_blocked_reason t <> Some (IpcReply recv_id ep)) then
              say [ErrorLine "ipc_reply: reply_waiter blocked_reason mismatch; abort+rescue"] ;;
              quiet (rescue_task_with_error send_idx IPC_ERR_DEAD_PARTNER)
            else
              let send_id := t_id t in
              quiet (push_event (IpcReplyCalled recv_id ep send_id)) ;;
              quiet (upd_task send_idx (fun t => {| t with t_last_reply := Some msg |})) ;;
              quiet (wake_task_to_ready send_idx) ;;
              quiet (count_demo_reply ep recv_idx) ;;
              quiet (bump ipc_reply_delivered (fun c v => {| c with ipc_reply_delivered := v |})) ;;
              say_path ReplyDelivered ;;
              quiet (push_event (IpcReplyDelivered recv_id send_id ep))
      end
  end.

(** ** The system-call boundary (syscall.rs) *)

(** [trace_ipc] *)
Definition trace_lines (kind : IpcSyscallKind) (tid : TaskId) (ep : EndpointId) (msg : option Z) : list Line :=
  [Info match kind with
        | TraceRecv => "ipc_trace kind=ipc_recv"
        | TraceSend => "ipc_trace kind=ipc_send"
        | TraceReply => "ipc_trace kind=ipc_reply"
        end; InfoU64 "task_id" tid; ep_id_line ep] ++
  match msg with Some m => [InfoU64 "msg" m] | None => [] end.

Definition say_trace {S} (kind : IpcSyscallKind) (tid : TaskId) (ep : EndpointId) (msg : option Z) : Logged S unit :=
  say (if ipc_trace_syscall tf then trace_lines kind tid ep msg else []).

Definition logged_page_map (task_index : nat) (tid : TaskId) (page : VirtPage) (flags : PageFlags) : LW A Z :=
  s ← quiet kget;
  if (num_tasks s <=? task_index)%nat then mret SYSCALL_ERR_BAD_ASPACE
  else
    t ← quiet (ks (task_at task_index));
    let as_idx := t_address_space_id t in
    if (num_tasks s <=? as_idx)%nat then mret SYSCALL_ERR_BAD_ASPACE
    else
      mf ← quiet (ks (get_or_alloc_demo_frame task_index));
      match mf with
      | None =>
          say [ErrorLine "syscall: PageMap failed (no frame)"; InfoU64 "task_id" tid] ;;
          mret SYSCALL_ERR_ARCH_FAILED
      | Some frame => quiet (apply_both as_idx (Map page frame flags))
      end.

(** The endpoint of an IPC call. *)
Definition syscall_ep (sc : Syscall) : option EndpointId :=
  match sc with
  | SysIpcRecv ep | SysIpcSend ep _ | SysIpcReply ep _ => Some ep
  | SysPageMap _ _ | SysPageUnmap _ => None
  end.

Definition logged_handle_syscall (sc : Syscall) : LW A unit :=
  s ← quiet kget;
  let task_index := current_task s in
  if (num_tasks s <=? task_index)%nat then mret tt
  else
    t ← quiet (ks (task_at task_index));
    let tid := t_id t in
    let as_idx := t_address_space_id t in
    is_kernel ← (if (num_tasks s <=? as_idx)%nat then mret false
                 else a ← quiet (ks (address_space_at as_idx)); mret (bool_decide (as_kind a = Kernel)));
    match is_kernel, syscall_ep sc with
    | true, Some ep =>
        say [ErrorLine "syscall: kernel task IPC is forbidden (ignored at syscall boundary)";
             InfoU64 "task_id" tid; ep_id_line ep]
    | _, _ =>
      quiet (ks (push_event (SyscallHandled tid))) ;;
      match sc with
      | SysIpcRecv ep =>
          say_trace TraceRecv tid ep None ;;
          logged_ipc_recv ep ;;
          quiet (on_after_ipc_recv ft task_index tid)
      | SysIpcSend ep msg => say_trace TraceSend tid ep (Some msg) ;; logged_ipc_send ep msg
      | SysIpcReply ep msg => say_trace TraceReply tid ep (Some msg) ;; lks (logged_ipc_reply ep msg)
      | SysPageMap page flags =>
          ret ← logged_page_map task_index tid page flags;
          quiet (ks (set_last_syscall_ret_for_current ret))
      | SysPageUnmap page =>
          ret ← quiet (syscall_page_unmap task_index page);
          quiet (ks (set_last_syscall_ret_for_current ret))
      end
    end.

End log.

(** ** Erasing the lines *)

Definition erases {S X} (m : Logged S X) (m0 : ST S X) : Prop := forall s, (m s).2 = m0 s.

Section erases.
Context {S : Type}.
Lemma erases_ret {X} (x : X) : erases (S := S) (mret x) (mret x).
Proof. done. Qed.
Lemma erases_quiet {X} (m : ST S X) : erases (quiet m) m.
Proof. done. Qed.
Lemma erases_say ls : erases (S := S) (say ls) (mret tt).
Proof. done. Qed.
Lemma erases_say_bind {X} ls (f : unit -> Logged S X) m0 : erases (f tt) m0 -> erases (say ls ≫= f) m0.
Proof.
  intros Hf s. unfold mbind, Logged_mbind. simpl. specialize (Hf s). by destruct (f tt s).
Qed.
Lemma erases_bind {X Y} (m : Logged S X) (f : X -> Logged S Y) m0 f0 :
  erases m m0 -> (forall x, erases (f x) (f0 x)) -> erases (m ≫= f) (m0 ≫= f0).
Proof.
  intros Hm Hf s. unfold mbind, Logged_mbind, ST_mbind. rewrite <- (Hm s).
  destruct (m s) as [ls [[x s']|p]]; [|done]. simpl. rewrite <- (Hf x s'). by destruct (f x s').
Qed.
End erases.

Lemma erases_lks {A X} (m : LK X) m0 : erases m m0 -> erases (@lks A X m) (ks m0).
Proof.
  intros Hm w. unfold lks, ks, zoom. rewrite <- (Hm (w_ks w)). by destruct (m (w_ks w)) as [ls [[x s']|p]].
Qed.

Create HintDb erase.
#[export] Hint Resolve erases_ret erases_quiet erases_say erases_lks : erase.

Ltac erase_step :=
  first
  [ solve [eauto with erase]
  | match goal with
    | |- erases (say_path _ _ ≫= _) _ => apply erases_say_bind
    | |- erases (say_trace _ _ _ _ _ ≫= _) _ => apply erases_say_bind
    | |- erases (say _ ≫= _) _ => apply erases_say_bind
    | |- erases (_ ≫= _) (_ ≫= _) => apply erases_bind; [|intros ?]
    | |- erases (if ?b then _ else _) _ => destruct b
    | |- erases (match ?x with _ => _ end) _ => destruct x
    end ].
Ltac erase := repeat (cbv beta zeta; erase_step).

Section erasure.
Context {A : Type} `{ArchOps A} (ft : Features) (tf : TraceFeatures).

Lemma erases_entry name ep : erases (logged_entry name ep) (ipc_entry ep).
Proof.
  unfold logged_entry, ipc_entry, logged_reject_kernel, reject_ipc_if_kernel_current,
    logged_reject_closed, reject_ipc_if_endpoint_closed. erase.
Qed.
Lemma erases_close ep : erases (logged_close_endpoint ep) (close_endpoint_and_rescue_waiters ep).
Proof. unfold logged_close_endpoint, close_endpoint_and_rescue_waiters. erase. Qed.
Lemma erases_take_loop ep p n r : erases (logged_take_loop ep p n r) (take_reply_waiter_loop ep p n r).
Proof. revert r. induction n as [|n IH]; intros r; cbn [logged_take_loop take_reply_waiter_loop]; erase. Qed.
Lemma erases_dequeue fuel ep : erases (logged_dequeue_sender fuel ep) (dequeue_valid_sender fuel ep).
Proof. induction fuel as [|fuel IH]; cbn [logged_dequeue_sender dequeue_valid_sender]; erase. Qed.
#[local] Hint Resolve erases_entry erases_take_loop erases_dequeue : erase.
Lemma erases_take ep p : erases (logged_take_reply_waiter ep p) (take_reply_waiter_for_partner ep p).
Proof. unfold logged_take_reply_waiter, take_reply_waiter_for_partner. erase. Qed.
Lemma erases_recv_fast ep i : erases (logged_recv_fastpath tf ep i) (ipc_recv_fastpath ep i).
Proof. unfold logged_recv_fastpath, ipc_recv_fastpath. erase. Qed.
Lemma erases_after_send ev : erases (logged_after_send (A := A) ft tf ev) (schedule_after_send ft).
Proof. unfold logged_after_send, schedule_after_send, say_path. erase. Qed.
#[local] Hint Resolve erases_take erases_recv_fast erases_after_send : erase.
Lemma erases_recv ep : erases (logged_ipc_recv (A := A) ft tf ep) (ipc_recv ft ep).
Proof. unfold logged_ipc_recv, ipc_recv, logged_recv_slowpath, ipc_recv_slowpath. erase. Qed.
Lemma erases_send_fast ep i m : erases (logged_send_fastpath (A := A) ft tf ep i m) (ipc_send_fastpath ft ep i m).
Proof. unfold logged_send_fastpath, ipc_send_fastpath. erase. Qed.
#[local] Hint Resolve erases_send_fast : erase.
Lemma erases_send ep m : erases (logged_ipc_send (A := A) ft tf ep m) (ipc_send ft ep m).
Proof.
  unfold logged_ipc_send, ipc_send, logged_send_slowpath, ipc_send_slowpath. erase.
Qed.
Lemma erases_reply ep m : erases (logged_ipc_reply tf ep m) (ipc_reply ep m).
Proof. unfold logged_ipc_reply, ipc_reply, say_path. erase. Qed.
#[local] Hint Resolve erases_recv erases_send erases_reply : erase.
Lemma erases_page_map i tid p fl : erases (logged_page_map (A := A) i tid p fl) (syscall_page_map i p fl).
Proof. unfold logged_page_map, syscall_page_map. erase. Qed.
#[local] Hint Resolve erases_page_map : erase.
Lemma erases_syscall sc : erases (logged_handle_syscall (A := A) ft tf sc) (handle_syscall ft sc).
Proof.
  unfold logged_handle_syscall, handle_syscall. apply erases_bind; [done|intros s]. cbv zeta.
  destruct (num_tasks s <=? current_task s); [done|]. apply erases_bind; [done|intros t].
  apply erases_bind; [erase|intros b]. destruct b, sc; cbn [andb is_ipc_syscall syscall_ep]; erase.
Qed.
End erasure.
