(* ===== verification/IpcPaths.v ===== *)
(** * The trace of the IPC paths

    What the lines of IpcLog tell: in every state the trace names the paths that
    the counters count, and in a state of the invariant a call prints nothing but
    the line of its path or its rejection: the reports of inconsistent queues are
    never printed. *)

From stdpp Require Import base list option gmap sets strings.
From Stdlib Require Import ZArith Lia.
From S2P Require Import Prelude Addr AddressSpace FrameAlloc Queues KTypes Endpoint EventLog Console Trace.
From S2P Require Import KState Dump ArchIface Sched Ipc Kill Demo Syscall Tick IpcLog Frames.
From S2P Require Import IpcSpec Invariant IpcInv IpcRefine Turn.

(** The lines are what trace.rs and syscall.rs put on the console. *)
Lemma path_line_traces ev : print_line (path_line ev) = trace_ipc_path true ev.
Proof. by destruct ev. Qed.

(** ** The counters of the paths *)

Definition path_count (ev : IpcPathEvent) (c : KernelCounters) : Z :=
  match ev with
  | SendFast => ipc_send_fast c
  | SendSlow => ipc_send_slow c
  | RecvFast => ipc_recv_fast c
  | RecvSlow => ipc_recv_slow c
  | ReplyDelivered => ipc_reply_delivered c
  | ReplyNoWaiter => 0%Z
  end.

#[export] Instance IpcPathEvent_eq_dec : EqDecision IpcPathEvent.
Proof. solve_decision. Defined.

Section count.
Context (ev : IpcPathEvent).

Definition same_count (s s' : KernelState) : Prop :=
  path_count ev (counters s') = path_count ev (counters s).

#[export] Instance same_count_preorder : PreOrder same_count.
Proof. split; [done|]. intros s1 s2 s3. unfold same_count. congruence. Qed.
#[export] Instance same_count_insensitive : Insensitive same_count.
Proof. split; [exact _|done..]. Qed.

Lemma count_set_task i t : preserves same_count (set_task i t).
Proof. intros s a s' Hrun. unfold set_task in Hrun. by run_inv. Qed.
Lemma count_upd_task i f : preserves same_count (upd_task i f).
Proof. unfold upd_task. pose proof count_set_task. keeps. Qed.
Lemma count_remove_ready i : preserves same_count (remove_from_ready_queue i).
Proof. intros s a s' Hrun. unfold remove_from_ready_queue in Hrun. by run_inv. Qed.
Lemma count_compact : preserves same_count compact_ready_queue_to_ready_only.
Proof. intros s a s' Hrun. unfold compact_ready_queue_to_ready_only in Hrun. by run_inv. Qed.
Lemma count_switches :
  preserves same_count (bump sched_switches (fun c v => {| c with sched_switches := v |})).
Proof. intros s a s' Hrun. unfold bump in Hrun. run_inv. by destruct ev. Qed.
#[local] Hint Resolve count_upd_task count_remove_ready count_compact count_switches : frames.

(** A method that writes back the state it read. *)
Ltac count_run Hrun :=
  run_inv; subst;
  repeat match goal with H : _ ?x = Ok (_, ?y) |- _ =>
    assert (same_count x y) by (by_operation H; solve [keeps]); clear H end;
  unfold same_count in *; simpl in *; congruence.

Lemma count_push_ready (b : bool) i e :
  preserves same_count (s ← get;
    (if negb b && (rq_len s <? MAX_TASKS) then
       q ← lift_res (write_at (ready_queue s) (rq_len s) i);
       put {| s with ready_queue := q; rq_len := S (rq_len s) |}
     else mret tt) ;; push_event e).
Proof. intros s a s' Hrun. count_run Hrun. Qed.
#[local] Hint Resolve count_push_ready : frames.
Lemma count_wake i : preserves same_count (wake_task_to_ready i).
Proof. unfold wake_task_to_ready. keeps. Qed.
Lemma count_enqueue_ready i : preserves same_count (enqueue_ready i).
Proof. intros s a s' Hrun. unfold enqueue_ready, is_in_ready_queue in Hrun. count_run Hrun. Qed.
Lemma count_enqueue_wait i : preserves same_count (enqueue_wait i).
Proof. intros s a s' Hrun. unfold enqueue_wait, is_in_wait_queue in Hrun. count_run Hrun. Qed.
#[local] Hint Resolve count_wake count_enqueue_ready count_enqueue_wait : frames.

Lemma count_block i r : preserves same_count (block_task i r).
Proof. unfold block_task. keeps. Qed.
Lemma count_rescue i err : preserves same_count (rescue_task_with_error i err).
Proof. unfold rescue_task_with_error. keeps. Qed.
Lemma count_requeue i id : preserves same_count (requeue_prev i id).
Proof. unfold requeue_prev. keeps. Qed.
Lemma count_wake_sleep l : preserves same_count (wake_sleep_loop l).
Proof. induction l as [|p l IH]; cbn [wake_sleep_loop]; keeps. Qed.
Lemma count_best l p i v : preserves same_count (best_loop l p i v).
Proof. revert p i v. induction l as [|x l IH]; intros p i v; cbn [best_loop]; keeps. Qed.
#[local] Hint Resolve count_block count_rescue count_requeue count_wake_sleep count_best : frames.

Lemma count_dequeue : preserves same_count dequeue_ready_highest_priority.
Proof. intros s a s' Hrun. unfold dequeue_ready_highest_priority in Hrun. count_run Hrun. Qed.
Lemma count_dump : preserves same_count dump_ready_queue.
Proof. unfold dump_ready_queue. keeps. Qed.
#[local] Hint Resolve count_dequeue count_dump : frames.

Section schedule.
Context {A : Type} `{ArchOps A}.
Lemma count_current i : preserves (@on_ks A same_count) (kmodify (fun s => {| s with current_task := i |})).
Proof. by apply preserves_kmodify. Qed.
#[local] Hint Resolve count_current : frames.
Lemma count_idle : preserves (on_ks same_count) (run_idle (A := A)).
Proof. unfold run_idle. keeps. Qed.
Lemma count_highest i : preserves (on_ks same_count) (run_highest (A := A) i).
Proof. unfold run_highest. keeps. Qed.
#[local] Hint Resolve count_idle count_highest : frames.
Lemma count_schedule : preserves (on_ks same_count) (schedule_next_task (A := A)).
Proof. unfold schedule_next_task, maybe_wake_one_sleep_task. keeps. Qed.
End schedule.
End count.

#[local] Hint Resolve count_upd_task count_remove_ready count_wake count_block count_rescue count_schedule : frames.

(** ** Lines and counters *)

(** The lines of a path in an output. *)
Definition path_lines (ev : IpcPathEvent) (ls : list Line) : nat := length (filter (.= path_line ev) ls).

Lemma path_lines_app ev ls ls' : path_lines ev (ls ++ ls') = path_lines ev ls + path_lines ev ls'.
Proof. unfold path_lines. by rewrite filter_app, length_app. Qed.
Lemma path_lines_other ev ls : Forall (fun l => l <> path_line ev) ls -> path_lines ev ls = 0.
Proof.
  unfold path_lines. induction 1 as [|l ls Hl _ IH]; [done|]. by rewrite filter_cons_False.
Qed.
Lemma path_line_inj ev ev' : path_line ev = path_line ev' -> ev = ev'.
Proof. by destruct ev, ev'. Qed.
Lemma path_lines_one ev ev' : path_lines ev [path_line ev'] = if decide (ev = ev') then 1 else 0.
Proof.
  unfold path_lines. destruct (decide (ev = ev')) as [->|Hne]; [by rewrite filter_cons_True|].
  rewrite filter_cons_False; [done|]. intros ?%path_line_inj. congruence.
Qed.

(** The counter of the path goes up by one with every line of the path. *)
Definition tallies {S X} (ev : IpcPathEvent) (kst : S -> KernelState) (m : Logged S X) : Prop :=
  forall s ls x s', m s = (ls, Ok (x, s')) ->
  path_count ev (counters (kst s')) = (path_count ev (counters (kst s)) + Z.of_nat (path_lines ev ls))%Z.

Section tallies.
Context {S : Type} (ev : IpcPathEvent) (kst : S -> KernelState).

Lemma tallies_ret {X} (x : X) : tallies ev kst (mret x).
Proof. intros s ls y s' [= <- _ <-]. change (path_lines ev []) with 0. lia. Qed.
Lemma tallies_say ls : Forall (fun l => l <> path_line ev) ls -> tallies ev kst (say ls).
Proof. intros Hls s ls' y s' [= <- _ <-]. rewrite path_lines_other by done. lia. Qed.
Lemma tallies_quiet {X} (m : ST S X) :
  preserves (fun s s' => same_count ev (kst s) (kst s')) m -> tallies ev kst (quiet m).
Proof.
  intros Hm s ls x s' Hrun. unfold quiet in Hrun. injection Hrun as <- Hrun.
  specialize (Hm _ _ _ Hrun). unfold same_count in Hm. rewrite Hm. change (path_lines ev []) with 0. lia.
Qed.
Lemma tallies_bind {X Y} (m : Logged S X) (f : X -> Logged S Y) :
  tallies ev kst m -> (forall x, tallies ev kst (f x)) -> tallies ev kst (m ≫= f).
Proof.
  intros Hm Hf s ls y s' Hrun. unfold mbind, Logged_mbind in Hrun.
  destruct (m s) as [ls1 [[x s1]|p]] eqn:E; [|done]. destruct (f x s1) as [ls2 r] eqn:E2. injection Hrun as <- ->.
  rewrite (Hf _ _ _ _ _ E2), (Hm _ _ _ _ E), path_lines_app. lia.
Qed.
End tallies.

Lemma tallies_lks {A X} ev (m : LK X) : tallies ev id m -> tallies ev w_ks (@lks A X m).
Proof.
  intros Hm w ls x w' Hrun. unfold lks in Hrun. destruct (m (w_ks w)) as [ls1 [[y s1]|p]] eqn:E; [|done].
  injection Hrun as <- <- <-. by apply (Hm _ _ _ _ E).
Qed.

(** Counting and printing a path. *)
Definition counts (ev' : IpcPathEvent) (g : KernelCounters -> Z) (u : KernelCounters -> Z -> KernelCounters) : Prop :=
  forall ev c v, path_count ev (u c v) = if decide (ev = ev') then v else path_count ev c.

Lemma bump_counts ev ev' g u s a s' :
  (forall c, path_count ev' c = g c) -> counts ev' g u -> bump g u s = Ok (a, s') ->
  path_count ev (counters s') =
    (path_count ev (counters s) + Z.of_nat (path_lines ev [path_line ev']))%Z.
Proof.
  intros Hg Hu Hrun. unfold bump in Hrun. run_inv. rewrite path_lines_one. simpl. rewrite Hu.
  destruct (decide (ev = ev')) as [->|]; [|lia]. rewrite Hg. unfold u64_add in *. case_match; simplify_eq. lia.
Qed.

Section walk.
Context {A : Type} `{ArchOps A} (ft : Features) (tf : TraceFeatures) (ev : IpcPathEvent).
Context (Htf : ipc_trace_paths tf = true) (Hft : ring3_mailbox ft = false) (Hev : ev <> ReplyNoWaiter).

Lemma tallies_quiet_k {X} (m : K X) : preserves (same_count ev) m -> tallies ev id (quiet m).
Proof. apply tallies_quiet. Qed.
Lemma tallies_quiet_w {X} (m : W A X) : preserves (on_ks (same_count ev)) m -> tallies ev w_ks (quiet m).
Proof. apply tallies_quiet. Qed.

Lemma tallies_path {S X} (kst : S -> KernelState) ev' (m : ST S unit) (rest : Logged S X) :
  (forall s s', m s = Ok (tt, s') -> path_count ev (counters (kst s')) =
    (path_count ev (counters (kst s)) + Z.of_nat (path_lines ev [path_line ev']))%Z) ->
  tallies ev kst rest -> tallies ev kst (quiet m ;; say_path tf ev' ;; rest).
Proof.
  intros Hm Hrest s ls x s' Hrun. unfold mbind, Logged_mbind, quiet, say_path, say in Hrun. rewrite Htf in Hrun.
  destruct (m s) as [[[] s1]|p] eqn:E; [|done]. destruct (rest s1) as [ls2 r] eqn:E2. injection Hrun as <- ->.
  rewrite (Hrest _ _ _ _ E2), (Hm _ _ E). cbn [app].
  change (path_line ev' :: ls2) with ([path_line ev'] ++ ls2). rewrite path_lines_app. lia.
Qed.
Lemma tallies_path_k {X} ev' g u (rest : LK X) :
  (forall c, path_count ev' c = g c) -> counts ev' g u ->
  tallies ev id rest -> tallies ev id (quiet (bump g u) ;; say_path tf ev' ;; rest).
Proof. intros Hg Hu. apply tallies_path. intros s s'. by apply bump_counts. Qed.
Lemma tallies_path_w {X} ev' g u (rest : LW A X) :
  (forall c, path_count ev' c = g c) -> counts ev' g u ->
  tallies ev w_ks rest -> tallies ev w_ks (quiet (ks (bump g u)) ;; say_path tf ev' ;; rest).
Proof.
  intros Hg Hu. apply tallies_path. intros w w' (s' & Hrun & ->)%ks_inv. by eapply bump_counts.
Qed.

Create HintDb tally.
#[local] Hint Resolve tallies_ret tallies_lks : tally.
Ltac other_lines := repeat constructor; generalize ev; intros []; discriminate.
Ltac tally_step :=
  first
  [ solve [eauto with tally]
  | match goal with
    | |- tallies _ _ (quiet (bump _ _) ≫= _) => apply tallies_path_k; [done|by intros []| ]
    | |- tallies _ _ (quiet (ks (bump _ _)) ≫= _) => apply tallies_path_w; [done|by intros []| ]
    | |- tallies _ _ (_ ≫= _) => apply tallies_bind; [|intros ?]
    | |- tallies _ id (quiet _) => apply tallies_quiet_k; solve [keeps]
    | |- tallies _ w_ks (quiet _) => apply tallies_quiet_w; solve [keeps]
    | |- tallies _ _ (say _) => apply tallies_say; solve [other_lines]
    | |- tallies _ _ (if ?b then _ else _) => destruct b
    | |- tallies _ _ (match ?x with _ => _ end) => destruct x
    end ].
Ltac tally := repeat (cbv beta zeta; tally_step).

Lemma tallies_entry name ep : tallies ev id (logged_entry name ep).
Proof. unfold logged_entry, logged_reject_kernel, logged_reject_closed, is_kernel_task_index. tally. Qed.
Lemma tallies_take_loop ep p n r : tallies ev id (logged_take_loop ep p n r).
Proof. revert r. induction n as [|n IH]; intros r; cbn [logged_take_loop]; tally. Qed.
Lemma tallies_dequeue fuel ep : tallies ev id (logged_dequeue_sender fuel ep).
Proof. induction fuel as [|fuel IH]; cbn [logged_dequeue_sender]; tally. Qed.
#[local] Hint Resolve tallies_entry tallies_take_loop tallies_dequeue : tally.
Lemma tallies_take ep p : tallies ev id (logged_take_reply_waiter ep p).
Proof. unfold logged_take_reply_waiter. tally. Qed.
Lemma tallies_recv_fast ep i : tallies ev id (logged_recv_fastpath tf ep i).
Proof. unfold logged_recv_fastpath. tally. Qed.
#[local] Hint Resolve tallies_take tallies_recv_fast : tally.
Lemma tallies_after_send ev' : tallies ev w_ks (logged_after_send (A := A) ft tf ev').
Proof. unfold logged_after_send. rewrite Hft. tally. Qed.
#[local] Hint Resolve tallies_after_send : tally.
Lemma tallies_recv ep : tallies ev w_ks (logged_ipc_recv (A := A) ft tf ep).
Proof. unfold logged_ipc_recv, logged_recv_slowpath. tally. Qed.
Lemma tallies_send ep m : tallies ev w_ks (logged_ipc_send (A := A) ft tf ep m).
Proof. unfold logged_ipc_send, logged_send_fastpath, logged_send_slowpath, not_current_lines. tally. Qed.
Lemma tallies_no_waiter {S} (kst : S -> KernelState) : tallies ev kst (say_path tf ReplyNoWaiter).
Proof.
  apply tallies_say. rewrite Htf. repeat constructor. intros ?%path_line_inj. congruence.
Qed.
#[local] Hint Resolve tallies_no_waiter : tally.
Lemma tallies_reply ep m : tallies ev id (logged_ipc_reply tf ep m).
Proof. unfold logged_ipc_reply. tally. Qed.

Lemma count_set_ret v : preserves (same_count ev) (set_last_syscall_ret_for_current v).
Proof. unfold set_last_syscall_ret_for_current. keeps. Qed.
Lemma count_page_unmap i p : preserves (on_ks (same_count ev)) (syscall_page_unmap (A := A) i p).
Proof. unfold syscall_page_unmap. keeps. Qed.
#[local] Hint Resolve count_set_ret count_page_unmap : frames.
Lemma tallies_page_map i tid p fl : tallies ev w_ks (logged_page_map (A := A) i tid p fl).
Proof. unfold logged_page_map. tally. Qed.
#[local] Hint Resolve tallies_page_map tallies_recv tallies_send tallies_reply : tally.
Lemma tallies_trace {S} (kst : S -> KernelState) kind tid ep msg : tallies ev kst (say_trace tf kind tid ep msg).
Proof.
  apply tallies_say. destruct (ipc_trace_syscall tf); [|done]. unfold trace_lines.
  apply Forall_app. split; [destruct kind|destruct msg]; other_lines.
Qed.
#[local] Hint Resolve tallies_trace : tally.

(** The fault injection that kills the receiver is left out. *)
Lemma tallies_syscall sc :
  dead_partner_test ft = false -> tallies ev w_ks (logged_handle_syscall (A := A) ft tf sc).
Proof.
  intros Hdp. unfold logged_handle_syscall, on_after_ipc_recv. rewrite Hdp. tally.
Qed.
End walk.

(** ** The lines of a call in a state of the invariant *)

(** If the operation returns, it has printed [ls]. *)
Definition outputs {S X} (m : Logged S X) (s : S) (ls : list Line) : Prop :=
  forall ls' x s', m s = (ls', Ok (x, s')) -> ls' = ls.

Section outputs.
Context {S : Type}.
Lemma out_ret {X} (x : X) s : outputs (S := S) (mret x) s [].
Proof. intros ls y s' Hrun. by injection Hrun as <-. Qed.
Lemma out_say ls s : outputs (S := S) (say ls) s ls.
Proof. intros ls' y s' Hrun. by injection Hrun as <-. Qed.
Lemma out_quiet {X} (m : ST S X) s : outputs (quiet m) s [].
Proof. intros ls y s' Hrun. unfold quiet in Hrun. congruence. Qed.
Lemma out_seq {X Y} (m : Logged S X) (f : X -> Logged S Y) s l1 l2 :
  outputs m s l1 -> (forall x s1, (m s).2 = Ok (x, s1) -> outputs (f x) s1 l2) -> outputs (m ≫= f) s (l1 ++ l2).
Proof.
  intros Hm Hf ls y s' Hrun. unfold mbind, Logged_mbind in Hrun.
  destruct (m s) as [ls1 [[x s1]|p]] eqn:E; [|done]. destruct (f x s1) as [ls2 r] eqn:E2. injection Hrun as <- ->.
  rewrite (Hm _ _ _ E). f_equal. by eapply Hf.
Qed.
Lemma out_quiet_bind {X Y} (m : ST S X) (f : X -> Logged S Y) s ls :
  (forall x s', m s = Ok (x, s') -> outputs (f x) s' ls) -> outputs (quiet m ≫= f) s ls.
Proof. intros Hf. apply (out_seq (quiet m) f s [] ls); [apply out_quiet|]. intros x s1 Hrun. by apply Hf. Qed.
Lemma out_step {X Y} (m : ST S X) (f : X -> Logged S Y) s ls x s1 :
  m s = Ok (x, s1) -> outputs (f x) s1 ls -> outputs (quiet m ≫= f) s ls.
Proof. intros Hm Hf. apply out_quiet_bind. intros y s2 Hrun.
  rewrite Hm in Hrun. by injection Hrun as <- <-. Qed.
Lemma out_run {X Y} (m : Logged S X) (f : X -> Logged S Y) s l1 l2 x s1 :
  m s = (l1, Ok (x, s1)) -> outputs (f x) s1 l2 -> outputs (m ≫= f) s (l1 ++ l2).
Proof.
  intros Hm Hf. apply out_seq.
  - intros ls y s' Hrun. congruence.
  - intros y s2 Hrun. rewrite Hm in Hrun. by injection Hrun as <- <-.
Qed.
Lemma out_say_bind {Y} l (f : unit -> Logged S Y) s ls : outputs (f tt) s ls -> outputs (say l ≫= f) s (l ++ ls).
Proof. intros Hf. apply out_seq; [apply out_say|]. by intros [] s1 [= <-]. Qed.
Lemma out_say_last {Y} l (f : unit -> Logged S Y) s : outputs (f tt) s [] -> outputs (say l ≫= f) s l.
Proof. intros Hf%(out_say_bind l). by rewrite (right_id_L [] (++)) in Hf. Qed.
End outputs.

Lemma out_lks {A X} (m : LK X) (w : World A) ls : outputs m (w_ks w) ls -> outputs (lks m) w ls.
Proof.
  intros Hm ls' x w' Hrun. unfold lks in Hrun. destruct (m (w_ks w)) as [ls1 [[y s1]|p]] eqn:E; [|done].
  injection Hrun as <- _ _. by eapply Hm.
Qed.
(** A part on the kernel state that only reads it. *)
Lemma out_ks_read {A X Y} (m : K X) (f : X -> LW A Y) w ls x :
  m (w_ks w) = Ok (x, w_ks w) -> outputs (f x) w ls -> outputs (quiet (ks m) ≫= f) w ls.
Proof. intros Hm. apply out_step. unfold ks, zoom. rewrite Hm. by destruct w. Qed.
Lemma out_ks_step {A X Y} (m : K X) (f : X -> LW A Y) w ls x s1 :
  m (w_ks w) = Ok (x, s1) -> outputs (f x) {| w with w_ks := s1 |} ls -> outputs (quiet (ks m) ≫= f) w ls.
Proof. intros Hm. apply out_step. unfold ks, zoom. by rewrite Hm. Qed.

(** The rest of a handler that prints nothing more. *)
Ltac silence_step :=
  first
  [ simple apply out_ret | simple apply out_quiet | apply out_say
  | simple apply out_quiet_bind; intros ? ? _
  | match goal with
    | |- outputs (if ?b then _ else _) _ _ => destruct b
    | |- outputs (match ?x with _ => _ end) _ _ => destruct x
    end ].
Ltac silence := repeat (cbv beta zeta; silence_step).

Section lines.
Context {A : Type} `{ArchLaws A} (kr : PhysFrame) (us : list PhysFrame).
Context (ft : Features) (Hft : ring3_mailbox ft = false) (tf : TraceFeatures).

(** The line of a path, where the feature is set. *)
Definition traced (ev : IpcPathEvent) : list Line := if ipc_trace_paths tf then [path_line ev] else [].

(** The lines of the entry checks for a call of task [t]. *)
Definition entry_lines (name : string) (ep : EndpointId) (s : KernelState) (t : Task) : list Line :=
  if MAX_ENDPOINTS <=? ep then [ErrorLine (name ++ ": ep out of range")]
  else if current_task s =? TASK0_INDEX then
    [ErrorLine "ipc: kernel task is forbidden to call IPC (rejected at entry)";
     Info ("api=" ++ name); task_id_line t; ep_id_line ep]
  else match endpoints s !! ep with
       | Some e => if is_closed e then
           [ErrorLine "ipc: endpoint is CLOSED (rejected at entry)"; Info ("api=" ++ name);
            task_id_line t; ep_id_line ep] else []
       | None => []
       end.

(** Runs through a quiet part. *)
Lemma quiet_run {S X Y} (m : ST S X) (f : X -> Logged S Y) s x s1 :
  m s = Ok (x, s1) -> (quiet m ≫= f) s = f x s1.
Proof. intros Hm. unfold mbind, Logged_mbind, quiet. rewrite Hm. by destruct (f x s1). Qed.

Section entry.
Context (B : Z) (s : KernelState) (t : Task) (Hk : KInv strict kr us B s).
Context (Ht : tasks s !! current_task s = Some t) (Hd : t_state t <> Dead).

Lemma current_bound : (num_tasks s <=? current_task s) = false.
Proof.
  pose proof Hk as [Hs Hci _ _ _ _ _]. rewrite num_tasks_leb by done.
  apply Nat.leb_gt, (ci_cur _ _ _ _ _ Hci).
Qed.

Lemma reject_kernel_run api ep :
  logged_reject_kernel api ep s =
    if current_task s =? TASK0_INDEX then
      ([ErrorLine "ipc: kernel task is forbidden to call IPC (rejected at entry)"; Info api; task_id_line t; ep_id_line ep],
       Ok (true, set_last_reply (current_task s) IPC_ERR_DEAD_PARTNER s))
    else ([], Ok (false, s)).
Proof.
  unfold logged_reject_kernel. rewrite (quiet_run _ _ _ s s) by done. cbv zeta. rewrite current_bound.
  rewrite (quiet_run _ _ _ _ _ (task_at_Ok _ _ _ Ht)), decide_False by done.
  rewrite (quiet_run _ _ _ _ _ (is_kernel_task_Ok kr us _ _ _ _ Hk (ci_cur _ _ _ _ _ (ki_core _ _ _ _ _ Hk)))).
  destruct (current_task s =? TASK0_INDEX); [|done].
  unfold mbind, Logged_mbind, say, quiet, set_last_reply. rewrite (upd_task_Ok _ _ _ _ Ht), Ht. done.
Qed.

Lemma reject_closed_run api ep e :
  ep < MAX_ENDPOINTS -> endpoints s !! ep = Some e ->
  logged_reject_closed api ep s =
    if is_closed e then
      ([ErrorLine "ipc: endpoint is CLOSED (rejected at entry)"; Info api; task_id_line t; ep_id_line ep],
       Ok (true, set_last_reply (current_task s) IPC_ERR_ENDPOINT_CLOSED s))
    else ([], Ok (false, s)).
Proof.
  intros Hep He. unfold logged_reject_closed. rewrite (proj2 (Nat.leb_gt _ _)) by done.
  rewrite (quiet_run _ _ _ _ _ (endpoint_at_Ok _ _ _ He)). destruct (is_closed e); [|done].
  rewrite (quiet_run _ _ _ s s) by done. cbv zeta.
  rewrite (proj2 (Nat.ltb_lt _ _)) by (apply Nat.leb_gt, current_bound).
  unfold mbind at 1, Logged_mbind at 1. rewrite (quiet_run _ _ _ _ _ (task_at_Ok _ _ _ Ht)), decide_True by done.
  unfold mbind, Logged_mbind, say, quiet, set_last_reply. rewrite (upd_task_Ok _ _ _ _ Ht), Ht. done.
Qed.

Lemma entry_outputs name ep : outputs (logged_entry name ep) s (entry_lines name ep s t).
Proof.
  pose proof (ki_core _ _ _ _ _ Hk) as Hci. unfold logged_entry, entry_lines.
  destruct (Nat.leb_spec MAX_ENDPOINTS ep) as [|Hep]; [apply out_say_last, out_ret|].
  destruct (core_endpoint _ _ _ _ _ Hci ep Hep) as (e & He & _). rewrite He.
  pose proof (reject_kernel_run ("api=" ++ name) ep) as Hrk.
  destruct (current_task s =? TASK0_INDEX).
  { match goal with |- outputs _ _ ?l => rewrite <- (app_nil_r l) end. eapply out_run; [exact Hrk|apply out_ret]. }
  apply (out_run _ _ _ [] _ _ _ Hrk). pose proof (reject_closed_run ("api=" ++ name) ep e Hep He) as Hrc.
  rewrite <- (app_nil_r (if is_closed e then _ else _)).
  destruct (is_closed e); (eapply out_run; [exact Hrc|]); [apply out_ret|].
  apply (out_step _ _ _ _ s s); [done|]. cbv zeta. rewrite current_bound. silence.
Qed.

(** The entry checks either reject the call or leave no trace. *)
Lemma entry_run name ep :
  match entry_outcome ep s with
  | Some _ => exists s', logged_entry name ep s = (entry_lines name ep s t, Ok (None, s'))
  | None => logged_entry name ep s = ([], Ok (Some (current_task s), s))
  end.
Proof.
  pose proof (entry_outputs name ep) as Hout. pose proof (erases_entry name ep s) as Her.
  destruct (ipc_entry_spec kr us _ _ _ ep _ Hk Ht Hd) as (r & s' & Hrun & Hr). rewrite Hrun in Her.
  destruct (logged_entry name ep s) as [ls r'] eqn:E. simpl in Her. subst r'.
  specialize (Hout _ _ _ E) as ->. destruct (entry_outcome ep s) as [err|] eqn:Ho.
  - destruct Hr as [-> ->]. by eexists.
  - destruct Hr as [-> ->]. f_equal. unfold entry_outcome in Ho. unfold entry_lines. by repeat case_match.
Qed.
End entry.

(** *** Receive *)

Section paths.
Context (B : Z).

Lemma recv_fast_silent s ep e i :
  KInv strict kr us B s -> endpoints s !! ep = Some e -> senders e = [] ->
  outputs (logged_recv_fastpath tf ep i) s [].
Proof.
  intros Hk He Hse. pose proof (ci_eps _ _ _ _ _ (ki_core _ _ _ _ _ Hk) _ _ He) as Hep.
  assert (Hz : sq_len e = 0) by (rewrite <- senders_length, Hse by apply Hep; done).
  destruct (dequeue_sender_spec e (eo_wf _ _ _ Hep)) as [Hdq _].
  unfold logged_recv_fastpath. eapply out_step; [by apply endpoint_at_Ok|]. cbn [logged_dequeue_sender].
  eapply (out_run _ _ _ [] [] None); [|apply out_ret].
  by rewrite (quiet_run _ _ _ _ _ (with_endpoint_Ok _ _ _ _ _ _ He (Hdq Hz))).
Qed.

Lemma recv_fast_traced s ep e i ti :
  KInv strict kr us B s -> tasks s !! i = Some ti -> t_state ti = Running ->
  endpoints s !! ep = Some e -> senders e <> [] ->
  outputs (logged_recv_fastpath tf ep i) s (traced RecvFast).
Proof.
  intros Hk Hti Hrun He Hne. pose proof Hk as [Hs Hci _ _ _ _ _].
  destruct (first_sender kr us B s ep e i ti Hk Hti Hrun He Hne)
    as (j & tj & m & e1 & Hdeq & Hwf1 & Hse & He1 & Htj & Hre & Hst & Hjq & Hm & Hji & Hroom & Hjr).
  unfold logged_recv_fastpath. eapply out_step; [by apply endpoint_at_Ok|]. cbn [logged_dequeue_sender].
  set (s1 := {| s with endpoints := <[ep := e1]> (endpoints s) |}).
  apply (out_run _ _ _ [] _ (Some j) s1).
  { rewrite (quiet_run _ _ _ _ _ (with_endpoint_Ok _ _ _ _ _ _ He Hdeq)).
    rewrite (quiet_run _ _ _ s1 s1) by done. rewrite (num_tasks_leb s1) by (by destruct Hs).
    rewrite (proj2 (Nat.leb_gt _ _)) by (by eapply lookup_bound).
    rewrite (quiet_run _ _ _ tj s1) by (by apply task_at_Ok). rewrite decide_False by congruence.
    by rewrite decide_True, decide_False by congruence. }
  eapply out_step; [apply task_at_Ok; exact Htj|]. eapply out_step; [apply upd_task_Ok; exact Htj|].
  rewrite Hm. cbv zeta. apply out_quiet_bind. intros rt s2 [_ ->]%task_at_inv.
  destruct (try_enqueue_reply_spec e1 j Hwf1 Hroom Hjr) as (e2 & Henq & _).
  assert (Hlook : <[ep := e1]> (endpoints s) !! ep = Some e1).
  { apply list_lookup_insert_eq. by eapply lookup_lt_Some. }
  eapply out_step; [eapply with_endpoint_Ok; [exact Hlook|exact Henq]|]. cbv beta iota. simpl negb. cbv iota.
  do 4 (apply out_quiet_bind; intros ? ? _). apply out_say_last. silence.
Qed.

(** The lines of a call: those of the rejection, or those of its path. *)
Definition call_lines (name : string) (ep : EndpointId) (path : Endpoint -> list Line) (s : KernelState)
    (t : Task) : list Line :=
  match entry_outcome ep s, endpoints s !! ep with
  | None, Some e => path e
  | _, _ => entry_lines name ep s t
  end.

Lemma accepted_endpoint ep s :
  entry_outcome ep s = None ->
  current_task s <> TASK0_INDEX /\ exists e, endpoints s !! ep = Some e /\ is_closed e = false.
Proof.
  unfold entry_outcome. destruct (MAX_ENDPOINTS <=? ep); [done|].
  destruct (Nat.eqb_spec (current_task s) TASK0_INDEX); [done|].
  destruct (endpoints s !! ep) as [e|]; [|done]. destruct (is_closed e) eqn:Hcl; [done|]. eauto.
Qed.

Lemma call_outputs_k {X} name ep s t (f : option nat -> LK X) path :
  KInv strict kr us B s -> tasks s !! current_task s = Some t -> t_state t = Running ->
  (forall s', outputs (f None) s' []) ->
  (forall e, current_task s <> TASK0_INDEX -> endpoints s !! ep = Some e -> is_closed e = false ->
     outputs (f (Some (current_task s))) s (path e)) ->
  outputs (logged_entry name ep ≫= f) s (call_lines name ep path s t).
Proof.
  intros Hk Ht Hrun Hnone Hsome. pose proof (entry_run B s t Hk Ht ltac:(congruence) name ep) as He.
  unfold call_lines. destruct (entry_outcome ep s) eqn:Ho.
  - destruct He as [s' He]. rewrite <- (app_nil_r (entry_lines _ _ _ _)). by eapply out_run.
  - destruct (accepted_endpoint _ _ Ho) as (? & e & Hl & ?). rewrite Hl.
    apply (out_run _ _ _ [] _ _ _ He). by apply Hsome.
Qed.
Lemma call_outputs_w {X} name ep w t (f : option nat -> LW A X) path :
  calling kr us B w t -> (forall w', outputs (f None) w' []) ->
  (forall e, current_task (w_ks w) <> TASK0_INDEX -> endpoints (w_ks w) !! ep = Some e -> is_closed e = false ->
     outputs (f (Some (current_task (w_ks w)))) w (path e)) ->
  outputs (lks (logged_entry name ep) ≫= f) w (call_lines name ep path (w_ks w) t).
Proof.
  intros [Hk _ _ Ht Hrun] Hnone Hsome. pose proof (entry_run B _ t Hk Ht ltac:(congruence) name ep) as He.
  unfold call_lines. destruct (entry_outcome ep (w_ks w)) eqn:Ho.
  - destruct He as [s' He]. rewrite <- (app_nil_r (entry_lines _ _ _ _)).
    eapply out_run; [|by apply Hnone]. unfold lks. by rewrite He.
  - destruct (accepted_endpoint _ _ Ho) as (? & e & Hl & ?). rewrite Hl.
    apply (out_run _ _ _ [] _ (Some (current_task (w_ks w))) w); [|by apply Hsome].
    unfold lks. rewrite He. by destruct w.
Qed.

(** The event of the call does not change what the call sees. *)
Lemma out_push {X} ev w t ls (f : unit -> LW A X) :
  calling kr us B w t ->
  (forall s, calling kr us B {| w with w_ks := s |} t -> current_task s = current_task (w_ks w) ->
     endpoints s = endpoints (w_ks w) -> outputs (f tt) {| w with w_ks := s |} ls) ->
  outputs (quiet (ks (push_event ev)) ≫= f) w ls.
Proof.
  intros Hca Hf. destruct (push_event_ret ev (w_ks w)) as (l & h & n & Hp).
  eapply out_ks_step; [unfold push_event, modify; by rewrite Hp|]. apply Hf; [|done..]. by apply calling_push.
Qed.

(** What a receive prints once it is accepted. *)
Definition recv_lines (e : Endpoint) : list Line :=
  if decide (senders e = []) then
    match recv_waiter e with
    | Some _ => [ErrorLine "ipc_recv_slowpath: recv_waiter already exists; recv rejected (prototype)"]
    | None => traced RecvSlow
    end
  else traced RecvFast.

Lemma recv_outputs w t ep :
  calling kr us B w t ->
  outputs (logged_ipc_recv ft tf ep) w (call_lines "ipc_recv" ep recv_lines (w_ks w) t).
Proof.
  intros Hca. apply call_outputs_w; [done|intros; apply out_ret|]. intros e Hn0 He Hcl.
  eapply out_ks_read; [apply task_at_Ok, Hca|]. eapply out_push; [exact Hca|]. intros s Hca1 Hcur Heps.
  rewrite <- Hcur in *. rewrite <- Heps in He. pose proof Hca1 as [Hk _ HB Ht Hrun]. simpl in *.
  unfold recv_lines. destruct (decide (senders e = [])) as [Hse|Hse].
  - apply (out_run _ _ _ [] _ false {| w with w_ks := s |}).
    { unfold lks. simpl. pose proof (erases_recv_fast tf ep (current_task s) s) as Her.
      pose proof (recv_fast_silent s ep e (current_task s) Hk He Hse) as Hout.
      rewrite (recv_fast_none kr us B s ep e) in Her by done.
      destruct (logged_recv_fastpath tf ep (current_task s) s) as [ls r] eqn:E. simpl in Her. subst r.
      by rewrite (Hout _ _ _ E). }
    unfold logged_recv_slowpath. eapply out_ks_read; [by apply task_at_Ok|].
    eapply out_ks_read; [by apply endpoint_at_Ok|]. destruct (recv_waiter e) as [j|].
    + rewrite decide_True by (by eexists). apply out_say_last. silence.
    + rewrite decide_False by (by intros [? ?]). apply out_quiet_bind. intros ? ? _. apply out_say_last. silence.
  - rewrite <- (app_nil_r (traced RecvFast)). apply out_seq.
    + apply out_lks. by eapply recv_fast_traced.
    + intros b w' Hr. rewrite (erases_lks _ _ (erases_recv_fast tf ep (current_task s))) in Hr.
      apply ks_inv in Hr as (s' & Hr & ->).
      destruct (returns_result _ _ _ _ _ (recv_fast_some kr us B s ep e _ t Hk ltac:(lia) Hn0 Ht Hrun He Hcl Hse) Hr)
        as [-> _]. apply out_ret.
Qed.

(** *** Send *)

Definition send_lines (e : Endpoint) : list Line :=
  match recv_waiter e with Some _ => traced SendFast | None => traced SendSlow end.

Lemma after_send_silent ev w : outputs (logged_after_send (A := A) ft tf ev) w [].
Proof. unfold logged_after_send. rewrite Hft. silence. Qed.

Lemma send_fast_traced w t ep e j m :
  calling kr us B w t -> current_task (w_ks w) <> TASK0_INDEX ->
  endpoints (w_ks w) !! ep = Some e -> is_closed e = false -> recv_waiter e = Some j ->
  outputs (logged_send_fastpath ft tf ep (current_task (w_ks w)) m) w (traced SendFast).
Proof.
  intros Hca Hn0 He Hcl Hw. pose proof Hca as [Hk _ _ Ht Hrun].
  pose proof Hk as [Hs Hci _ _ Hcnt _ _]. pose proof (ci_eps _ _ _ _ _ Hci _ _ He) as Hep.
  assert (Hrj : reason_of (tasks (w_ks w)) j = Some (IpcRecv ep)) by by apply (eo_recv _ _ _ Hep).
  destruct (waiter_lookup _ _ _ _ _ _ _ Hci Hrj) as (tj & Htj & Hre & Hst & Hj0 & Hjq).
  pose proof (lookup_bound _ _ _ Hs Htj) as Hjb. destruct (current_reason kr us _ _ _ Hca) as [Hnr _].
  assert (Hnrw : current_task (w_ks w) ∉ reply_waiters e).
  { intros [p Hp]%(eo_reply _ _ _ Hep). congruence. }
  unfold logged_send_fastpath. eapply out_step; [done|]. rewrite Nat.eqb_refl. cbn [negb].
  eapply out_ks_read; [by apply endpoint_at_Ok|]. rewrite Hw, num_tasks_leb by done.
  rewrite (proj2 (Nat.leb_gt _ _)) by done. eapply out_ks_read; [by apply task_at_Ok|].
  rewrite decide_False by congruence. rewrite decide_False by (by intros []).
  eapply out_ks_step; [apply set_endpoint_Ok; by eapply lookup_lt_Some|].
  eapply out_ks_step; [by apply task_at_Ok|]. cbv beta zeta. apply out_quiet_bind.
  intros [] w1 (s1 & Hwk & ->)%ks_inv. simpl in Hwk.
  eapply returns_result in Hwk; [|eapply wake_blocked_spec; [|exact Htj|done|exact Hjq|]].
  2: { by destruct Hs. }
  2: { exact (rq_room kr us _ _ _ j Hk Hjb Hjq). }
  destruct Hwk as (Hf & _). destruct (q_frame_fields _ _ Hf) as (_ & _ & Heps & _). simpl in Heps.
  apply out_quiet_bind. intros [] w2 (s2 & (t' & Ht' & ->)%upd_task_inv & ->)%ks_inv.
  destruct (try_enqueue_reply_spec {| e with recv_waiter := None |} (current_task (w_ks w)))
    as (e2 & Henq & _); [by destruct (eo_wf _ _ _ Hep)| |exact Hnrw|].
  { exact (reply_room _ _ _ _ _ _ _ _ Hci Hep (ci_cur _ _ _ _ _ Hci) Hnrw). }
  eapply out_ks_step.
  { eapply with_endpoint_Ok; [|exact Henq]. simpl. rewrite Heps. apply list_lookup_insert_eq. by eapply lookup_lt_Some. }
  cbn [negb]. do 3 (apply out_quiet_bind; intros ? ? _). apply out_say_last.
  apply out_quiet_bind. intros ? ? _. rewrite <- (app_nil_r []). apply out_seq; [apply after_send_silent|].
  intros [] w' _. apply out_ret.
Qed.

Lemma send_slow_traced w t ep e m :
  calling kr us B w t -> endpoints (w_ks w) !! ep = Some e ->
  outputs (logged_send_slowpath ft tf ep (current_task (w_ks w)) m) w (traced SendSlow).
Proof.
  intros Hca He. pose proof Hca as [Hk _ HB Ht Hrun].
  pose proof Hk as [Hs Hci _ _ Hcnt _ _]. pose proof (ci_eps _ _ _ _ _ Hci _ _ He) as Hep.
  destruct (current_reason kr us _ _ _ Hca) as [Hnr _].
  assert (Hns : current_task (w_ks w) ∉ senders e) by (intros Hp%(eo_send _ _ _ Hep); congruence).
  destruct (try_enqueue_sender_spec e (current_task (w_ks w)) (eo_wf _ _ _ Hep)) as (e2 & Henq & _); [|done|].
  { exact (send_room _ _ _ _ _ _ _ _ Hci Hep (ci_cur _ _ _ _ _ Hci) Hns). }
  unfold logged_send_slowpath. eapply out_step; [done|]. rewrite Nat.eqb_refl. cbn [negb].
  eapply out_ks_read; [by apply task_at_Ok|]. cbv zeta. apply out_quiet_bind.
  intros [] w1 (s1 & Hb & ->)%ks_inv. unfold bump in Hb. run_inv. apply out_say_last.
  eapply out_ks_step; [eapply with_endpoint_Ok; [exact He|exact Henq]|]. cbn [negb].
  do 3 (apply out_quiet_bind; intros ? ? _). apply after_send_silent.
Qed.

Lemma send_outputs w t ep m :
  calling kr us B w t ->
  outputs (logged_ipc_send ft tf ep m) w (call_lines "ipc_send" ep send_lines (w_ks w) t).
Proof.
  intros Hca. apply call_outputs_w; [done|intros; apply out_ret|]. intros e Hn0 He Hcl.
  eapply out_ks_read; [apply task_at_Ok, Hca|]. eapply out_push; [exact Hca|]. intros s Hca1 Hcur Heps.
  rewrite <- Hcur in *. rewrite <- Heps in He. unfold send_lines. destruct (recv_waiter e) as [j|] eqn:Hw.
  - rewrite <- (app_nil_r (traced SendFast)). apply out_seq.
    + by apply (send_fast_traced {| w with w_ks := s |} t ep e j m).
    + intros b w' Hr. rewrite (erases_send_fast ft tf ep (current_task s) m) in Hr.
      destruct (returns_result _ _ _ _ _ (send_fast_some kr us ft Hft B {| w with w_ks := s |} t ep e j m Hca1
        Hn0 He Hcl Hw) Hr) as [-> _]. apply out_ret.
  - apply (out_run _ _ _ [] _ false {| w with w_ks := s |}); [|by apply (send_slow_traced {| w with w_ks := s |} t ep e)].
    unfold logged_send_fastpath. rewrite (quiet_run _ _ _ s {| w with w_ks := s |}) by done.
    rewrite Nat.eqb_refl. cbn [negb]. rewrite (quiet_run _ _ _ e {| w with w_ks := s |}).
    + by rewrite Hw.
    + unfold ks, zoom. simpl. by rewrite (endpoint_at_Ok _ _ _ He).
Qed.

(** *** Reply *)

Definition reply_lines (e : Endpoint) : list Line :=
  if decide (reply_waiters e = []) then traced ReplyNoWaiter else traced ReplyDelivered.

Lemma take_run s t ep e :
  KInv strict kr us B s -> current_task s <> TASK0_INDEX -> tasks s !! current_task s = Some t ->
  t_state t = Running -> endpoints s !! ep = Some e ->
  if decide (reply_waiters e = []) then logged_take_reply_waiter ep (t_id t) s = ([], Ok (None, s))
  else exists j tj s1, logged_take_reply_waiter ep (t_id t) s = ([], Ok (Some j, s1)) /\
    num_tasks s1 = num_tasks s /\ j < num_tasks s /\ tasks s1 !! j = Some tj /\
    t_state tj = Blocked /\ t_blocked_reason tj = Some (IpcReply (t_id t) ep).
Proof.
  intros Hk Hn0 Ht Hrun He. pose proof Hk as [Hs Hci _ _ _ _ _].
  pose proof (ci_eps _ _ _ _ _ Hci _ _ He) as Hep.
  assert (Hepb : (MAX_ENDPOINTS <=? ep) = false).
  { apply Nat.leb_gt. rewrite <- (ci_eps_len _ _ _ _ _ Hci). by eapply lookup_lt_Some. }
  unfold logged_take_reply_waiter. rewrite Hepb, (quiet_run _ _ _ _ _ (endpoint_at_Ok _ _ _ He)).
  destruct (decide (reply_waiters e = [])) as [Hrw|Hrw].
  { assert (Hz : ep_rq_len e = 0) by (rewrite <- reply_waiters_length, Hrw by apply Hep; done). by rewrite Hz. }
  destruct (last_reply_waiter kr us _ _ _ _ _ Hk Hn0 Ht Hrun He Hrw)
    as (pos & j & tj & e1 & Hpos & Hj & Hrem & _ & _ & _ & Htj & Hre & Hst & _).
  pose proof (lookup_bound _ _ _ Hs Htj) as Hjb. 
  exists j, tj, {| s with endpoints := <[ep := e1]> (endpoints s) |}. split; [|by rewrite (sh_num _ Hs)].
  rewrite Hpos. cbn [logged_take_loop]. apply live_lookup in Hj as [Hj _].
  assert (Hl : logged_take_loop ep (t_id t) (S pos) None s =
    ([], Ok (inl (Some j), {| s with endpoints := <[ep := e1]> (endpoints s) |}))).
  { cbn [logged_take_loop]. rewrite (quiet_run _ _ _ _ _ (endpoint_at_Ok _ _ _ He)), (read_at_Ok _ _ _ Hj).
    rewrite (quiet_run _ _ _ j s), (quiet_run _ _ _ s s) by done. rewrite num_tasks_leb by done.
    rewrite (proj2 (Nat.leb_gt _ _)) by done. rewrite (quiet_run _ _ _ _ _ (task_at_Ok _ _ _ Htj)).
    rewrite decide_False by congruence. rewrite decide_True by done.
    by rewrite (quiet_run _ _ _ _ _ (with_endpoint_Ok _ _ _ _ _ _ He Hrem)). }
  unfold mbind at 1, Logged_mbind at 1. cbn [logged_take_loop] in Hl. rewrite Hl. done.
Qed.

Lemma reply_outputs s t ep m :
  KInv strict kr us B s -> tasks s !! current_task s = Some t -> t_state t = Running ->
  outputs (logged_ipc_reply tf ep m) s (call_lines "ipc_reply" ep reply_lines s t).
Proof.
  intros Hk Ht Hrun. apply call_outputs_k; [done..|intros; apply out_ret|]. intros e Hn0 He _.
  eapply out_step; [by apply task_at_Ok|]. cbv zeta.
  pose proof (take_run s t ep e Hk Hn0 Ht Hrun He) as Htake. unfold reply_lines.
  destruct (decide (reply_waiters e = [])).
  { apply (out_run _ _ _ [] _ _ _ Htake). apply out_say. }
  destruct Htake as (j & tj & s1 & Htake & Hn & Hj & Htj & Hst & Hre).
  apply (out_run _ _ _ [] _ _ _ Htake). eapply out_step; [done|]. rewrite Hn, (proj2 (Nat.leb_gt _ _)) by done.
  eapply out_step; [by apply task_at_Ok|]. rewrite decide_False by congruence.
  rewrite decide_False by (by intros []). do 5 (apply out_quiet_bind; intros ? ? _). apply out_say_last. silence.
Qed.

End paths.

(** *** The three calls *)

Definition logged_call (c : ipc_call) : LW A unit :=
  match c with
  | CallRecv ep => logged_ipc_recv ft tf ep
  | CallSend ep m => logged_ipc_send ft tf ep m
  | CallReply ep m => lks (logged_ipc_reply tf ep m)
  end.

Definition expected_lines (c : ipc_call) (s : KernelState) (t : Task) : list Line :=
  match c with
  | CallRecv ep => call_lines "ipc_recv" ep recv_lines s t
  | CallSend ep _ => call_lines "ipc_send" ep send_lines s t
  | CallReply ep _ => call_lines "ipc_reply" ep reply_lines s t
  end.

Lemma erases_call c : erases (logged_call c) (do_call ft c).
Proof. destruct c; [apply erases_recv|apply erases_send|apply erases_lks, erases_reply]. Qed.

Lemma call_prints B w t c :
  calling kr us B w t ->
  exists w', do_call ft c w = Ok (tt, w') /\
    logged_call c w = (expected_lines c (w_ks w) t, Ok (tt, w')).
Proof.
  intros Hca. destruct (ipc_call_spec kr us ft Hft B w t c Hca) as ([] & w' & Hrun & _). exists w'. split; [done|].
  assert (Hout : outputs (logged_call c) w (expected_lines c (w_ks w) t)).
  { destruct c; [by eapply recv_outputs|by eapply send_outputs|]. apply out_lks. eapply reply_outputs; apply Hca. }
  pose proof (erases_call c w) as Her. rewrite Hrun in Her.
  destruct (logged_call c w) as [ls r] eqn:E. simpl in Her. subst r. by rewrite (Hout _ _ _ E).
Qed.

End lines.
