(* ===== verification/Reach.v ===== *)
(** * Reachable states

    The kernel under programs of any kind, not only the demo ones: a run is a
    sequence of events, each a call of the kernel that its guard allows.  The
    running user task may make or issue any system call on pages of the user
    slot, the timer may tick or preempt at any moment, and any live user task may
    be killed.  Every state a run reaches satisfies the invariant, the kernel's
    checker is silent there, and every event that is enabled returns. *)

From stdpp Require Import base list option gmap sets strings.
From Stdlib Require Import ZArith Lia.
From S2P Require Import Prelude Addr AddressSpace FrameAlloc Queues KTypes Endpoint EventLog KState.
From S2P Require Import ArchIface Sched Ipc Checks Kill Demo Syscall Tick IpcSpec Invariant IpcInv.
From S2P Require Import IpcRefine MemInv CloseInv KillInv CheckInv TickInv Boot.

Inductive KEvent :=
  | EvTick                                   (** the timer *)
  | EvPreempt                                (** the end of a time slice *)
  | EvIssue (sc : Syscall)                   (** the running task leaves a call for the next tick *)
  | EvSyscall (sc : Syscall)                 (** the running task's call is handled now *)
  | EvKill (i : nat) (reason : TaskKillReason).

Section reach.
Context {A : Type} `{ArchLaws A} (ft : Features).

(** The call of the kernel, with the reports of the checker for a tick. *)
Definition event_call (ev : KEvent) : W A (list string) :=
  match ev with
  | EvTick => tick ft
  | EvPreempt => schedule_next_task ;; mret []
  | EvIssue sc => s ← kget; ks (issue (current_task s) sc) ;; mret []
  | EvSyscall sc => handle_syscall ft sc ;; mret []
  | EvKill i reason => kill_task i reason ;; mret []
  end.

(** System calls come from user tasks, for pages of the user slot; only a live user
    task is killed. *)
Definition enabled (w : World A) (ev : KEvent) : Prop :=
  match ev with
  | EvTick | EvPreempt => True
  | EvIssue sc | EvSyscall sc => current_task (w_ks w) <> TASK0_INDEX /\ syscall_ok sc
  | EvKill i _ => i <> TASK0_INDEX /\ exists t, tasks (w_ks w) !! i = Some t /\ t_state t <> Dead
  end.

Inductive kstep : World A -> KEvent -> list string -> World A -> Prop :=
  | kstep_call w ev reports w' :
      enabled w ev -> event_call ev w = Ok (reports, w') -> kstep w ev reports w'.

(** A run and the reports of all its checks. *)
Inductive kruns : World A -> list KEvent -> list string -> World A -> Prop :=
  | kruns_nil w : kruns w [] [] w
  | kruns_snoc w evs rs w1 ev r w2 :
      kruns w evs rs w1 -> kstep w1 ev r w2 -> kruns w (evs ++ [ev]) (rs ++ r) w2.

Context (kr : PhysFrame) (us : list PhysFrame) (Hft : ring3_mailbox ft = false).

(** What [n] events may use up of the counters and of the frames. *)
Definition cost (n : nat) : Z := (Z.of_nat n * TICK_COST)%Z.

Lemma cost_S n : cost (S n) = (cost n + TICK_COST)%Z.
Proof. unfold cost. lia. Qed.

Lemma event_spec B F w ev :
  Inv kr us B F w -> (B + TICK_COST <= u64_max)%Z -> TICK_FRAMES <= F -> enabled w ev ->
  returns (event_call ev) w (fun r w' => r = [] /\ Inv kr us (B + TICK_COST) (F - TICK_FRAMES) w').
Proof.
  unfold TICK_COST, TICK_FRAMES. intros Hinv HB HF Hen. destruct ev as [| |sc|sc|i reason]; simpl in Hen |- *.
  - by apply tick_spec.
  - eapply returns_seq.
    { apply (schedule_inv kr us strict w B); [apply Hinv|apply Hinv|lia]. }
    intros [] w' (Hk' & Hr' & Hst & _). apply returns_ret. split; [done|].
    eapply Inv_mono; [by eapply Inv_core_step|lia..].
  - destruct Hen as [Hi0 Hsc]. destruct (Inv_current _ _ _ _ _ Hinv) as (t & Ht & Hr & _ & _ & Hb & _).
    wstep. apply (returns_seq _ _ _ (fun _ w' => Inv kr us B F w')).
    { apply returns_ks. eapply returns_mono; [eapply (issue_any_spec kr us B F w); [done| |done|done]|].
      - split; [done|]. rewrite (state_of_lookup _ _ _ Ht). congruence.
      - intros [] s' Hs'. apply Hs'. }
    intros [] w' Hw'. apply returns_ret. split; [done|]. eapply Inv_mono; [exact Hw'|lia..].
  - destruct Hen as [Hi0 Hsc]. eapply returns_seq.
    { apply (handle_syscall_spec kr us ft Hft B F w sc); try done; flia. }
    intros [] w' Hw'. apply returns_ret. split; [done|]. eapply Inv_mono; [apply Hw'|flia..].
  - destruct Hen as (Hi0 & t & Ht & Hd). pose proof Hinv as [Hk Hm Hc3 Hr HF']. eapply returns_seq.
    { apply (kill_task_spec kr us B F w i t reason); try done; lia. }
    intros [] w' [Hinv' _ _ _ _]. apply returns_ret. split; [done|]. eapply Inv_mono; [exact Hinv'|lia..].
Qed.

Lemma kruns_inv B F w evs rs w' :
  Inv kr us B F w -> kruns w evs rs w' ->
  (B + cost (length evs) <= u64_max)%Z -> length evs * TICK_FRAMES <= F ->
  rs = [] /\ Inv kr us (B + cost (length evs)) (F - length evs * TICK_FRAMES) w'.
Proof.
  intros Hinv Hrun. induction Hrun as [w|w evs rs w1 ev r w2 _ IH Hstep].
  { intros _ _. split; [done|]. unfold cost. simpl. by rewrite Z.add_0_r, Nat.sub_0_r. }
  rewrite length_app, Nat.add_1_r, cost_S. intros HB HF.
  destruct (IH Hinv) as [-> Hinv1]; [unfold TICK_COST in *; lia|unfold TICK_FRAMES in *; lia|].
  inversion Hstep as [? ? ? ? Hen Hcall]; subst.
  destruct (event_spec _ _ _ ev Hinv1) as (r' & w3 & Hrun & -> & Hinv3); [lia|rewrite Nat.mul_succ_l in HF; lia|done|].
  rewrite Hcall in Hrun. injection Hrun as -> ->. split; [done|].
  eapply Inv_mono; [exact Hinv3|lia|rewrite Nat.mul_succ_l; lia].
Qed.

End reach.
