(* ===== verification/TurnInv.v ===== *)
(** * Bounded priority inversion

    A tick either leaves a task of highest priority running or lets the running
    task use up one more tick of its slice; so within one quantum no ready task
    has a higher priority than the running one. *)

From stdpp Require Import base list option gmap sets strings.
From Stdlib Require Import ZArith Lia.
From S2P Require Import Prelude Addr AddressSpace FrameAlloc Queues KTypes Endpoint EventLog KState.
From S2P Require Import ArchIface Sched Ipc Checks Kill Demo Syscall Tick Frames IpcSpec Invariant IpcInv.
From S2P Require Import IpcRefine MemInv CloseInv KillInv CheckInv TickInv Turn Boot Reach.

(** No ready user task has a higher priority than the running task. *)
Definition settled (s : KernelState) : Prop :=
  forall j, j <> TASK0_INDEX -> state_of (tasks s) j = Some Ready ->
    (prio_of (tasks s) j <= prio_of (tasks s) (current_task s))%Z.

(** Task [i] runs and has used [u] ticks of its slice. *)
Definition runs_on (i : nat) (u : Z) (s : KernelState) : Prop :=
  current_task s = i /\ exists t, tasks s !! i = Some t /\ t_time_slice_used t = u.

Section turn_inv.
Context {A : Type} `{ArchLaws A} (kr : PhysFrame) (us : list PhysFrame) (ft : Features).
Context (Hft : ring3_mailbox ft = false) (Hdp : dead_partner_test ft = false).

#[local] Abbreviation Inv := (Inv kr us).

Lemma chosen_settled B F w : Inv B F w -> chosen (w_ks w) -> settled (w_ks w).
Proof.
  intros Hinv Hc j Hj0 Hj. apply Hc. by apply (ci_ready _ _ _ _ _ (ki_core _ _ _ _ _ (in_k _ _ _ _ _ Hinv))).
Qed.

Lemma Inv_shape B F w : Inv B F w -> shape (w_ks w).
Proof. intros Hinv. apply (in_k _ _ _ _ _ Hinv). Qed.

Lemma runs_on_current B F w : Inv B F w ->
  exists t, tasks (w_ks w) !! current_task (w_ks w) = Some t /\ t_state t = Running /\
    runs_on (current_task (w_ks w)) (t_time_slice_used t) (w_ks w).
Proof.
  intros Hinv. destruct (Inv_current _ _ _ _ _ Hinv) as (t & Ht & Hr & _). exists t. split_and!; try done.
  split; [done|]. by exists t.
Qed.

(** Without a switch the running task stays in its slice. *)
Lemma runs_on_held i u s s' : held s s' -> running_ok s' -> runs_on i u s -> runs_on i u s'.
Proof.
  intros [_ Hc _ Hts] Hr [<- (t & Ht & <-)]. split; [done|].
  destruct (Forall2_lookup_l _ _ _ _ _ Hts Ht) as (t' & Ht' & [_ Hrun]). exists t'. split; [done|].
  apply Hrun. unfold running_ok in Hr. rewrite Hc, (state_of_lookup _ _ _ Ht') in Hr. congruence.
Qed.

(** The tasks are as before. *)
Definition same_tasks (s s' : KernelState) : Prop := tasks s' = tasks s.
#[local] Instance same_tasks_preorder : PreOrder same_tasks.
Proof. split; [done|]. intros s1 s2 s3. unfold same_tasks. congruence. Qed.
#[local] Instance same_tasks_insensitive : Insensitive same_tasks.
Proof. split; [exact _|done..]. Qed.

(** ** The memory demo *)

Lemma kill_current_turn B F w pf a w' :
  Inv B F w -> (B + 2 <= u64_max)%Z -> current_task (w_ks w) <> TASK0_INDEX ->
  kill_current_task_due_to_user_pf ft pf w = Ok (a, w') ->
  on_ks held w w' \/ chosen (w_ks w') /\ state_of (tasks (w_ks w')) (current_task (w_ks w)) = Some Dead.
Proof.
  intros Hinv HB Hi0 Hrun.
  destruct (returns_result _ _ _ _ _ (kill_current_spec kr us ft B F w pf Hinv HB Hi0) Hrun) as [_ [->|Hd]];
    [left; by unfold on_ks|].
  destruct (turns_kill_current ft pf w a w' (Inv_shape _ _ _ Hinv) Hrun) as [?|[? _]]; auto.
Qed.

Lemma mem_demo_user_turn B F w t r a w' :
  Inv B F w -> (B + 2 <= u64_max)%Z -> current_task (w_ks w) <> TASK0_INDEX ->
  tasks (w_ks w) !! current_task (w_ks w) = Some t -> r ∈ us ->
  let i := current_task (w_ks w) in
  mem_demo_user ft i (t_id t) (demo_page_for_task i) USER_DEMO_FLAGS r w = Ok (a, w') ->
  on_ks held w w' \/ chosen (w_ks w') /\ state_of (tasks (w_ks w')) i = Some Dead.
Proof.
  intros Hinv HB Hi0 Ht Hr i Hrun.
  destruct (user_addr _ (demo_page_ok i)) as (va & v & Hva & Hv & Huser & Hv8).
  assert (Hw : {| w with w_ks := w_ks w |} = w) by by destruct w.
  assert (Haccess : forall x (Qok : result Z PageFaultInfo -> ST (World A) unit),
    (forall n, preserves (on_ks held) (Qok n)) ->
    (kernel_root ← ks kernel_root_frame;
      rw ← arch (guarded_user_rw_u64_in_root r kernel_root v x);
      match rw with
      | Okay _ => Qok rw
      | Err pf => kill_current_task_due_to_user_pf ft pf ;; ks (set_mem_demo_stage i 0)
      end) w = Ok (a, w') ->
    on_ks held w w' \/ chosen (w_ks w') /\ state_of (tasks (w_ks w')) i = Some Dead).
  { intros x Qok HQ H1. apply bind_inv in H1 as (k & w0 & (s' & Hk & ->)%ks_inv & H1).
    assert (Hkr : kernel_root_frame (w_ks w) = Ok (kr, w_ks w)).
    { eapply kernel_root_frame_Ok, KInv_aspaces. apply Hinv. }
    rewrite Hkr in Hk. injection Hk as <- <-.
    rewrite Hw in H1. apply bind_inv in H1 as (rw & w1 & Hrw & H1).
    destruct (arch_inv _ _ _ _ Hrw) as [a' ->].
    assert (Hinv1 : Inv B F {| w with w_arch := a' |}).
    { eapply (returns_result _ _ (fun _ w1 => Inv B F w1)); [|exact Hrw]. by apply (guarded_rw_spec kr us B F w). }
    destruct rw as [n|pf].
    { left. change (on_ks held {| w with w_arch := a' |} w'). by eapply HQ. }
    apply bind_inv in H1 as ([] & w2 & Hkill & H1).
    destruct (kill_current_turn B F {| w with w_arch := a' |} pf _ _ Hinv1 HB Hi0 Hkill) as [Hh|[Hc Hd]].
    - left. transitivity w2; [exact Hh|]. by_operation H1. keeps.
    - right. split; [eapply chosen_same; [|exact Hc]; by_world H1; keeps|].
      simpl in Hd. assert (E : same_tasks (w_ks w2) (w_ks w')) by (by_world H1; keeps). by rewrite E. }
  unfold mem_demo_user in Hrun. rewrite Hva in Hrun. apply bind_inv in Hrun as (va' & w0 & Hg & Hrun).
  injection Hg as <- <-. rewrite Hv in Hrun. apply bind_inv in Hrun as (v' & w0 & Hg & Hrun). injection Hg as <- <-.
  rewrite !Hw in Hrun. apply bind_inv in Hrun as (s0 & w0 & Hg & Hrun). injection Hg as <- <-.
  apply bind_inv in Hrun as (st & w0 & Hg & Hrun).
  apply ks_inv in Hg as (s1 & <-%(preserves_at_index eq) & ->). rewrite Hw in Hrun.
  destruct (st =? 0)%Z; [left; by_operation Hrun; keeps|].
  destruct (st =? 1)%Z.
  { apply (Haccess (demo_test_value 0xC0DE000000000000 (t_id t) (tick_count (w_ks w))) (fun _ =>
      arch (debug_translate_in_root r v) ;; ks (set_mem_demo_stage i 2))); [intros _; keeps|exact Hrun]. }
  destruct (st =? 2)%Z; [left; by_operation Hrun; keeps|].
  destruct (st =? 3)%Z; [|left; by_operation Hrun; keeps].
  destruct (pf_demo ft); [|left; by_operation Hrun; keeps].
  apply (Haccess (demo_test_value 0xDEAD000000000000 (t_id t) (tick_count (w_ks w))) (fun _ =>
    ks (set_mem_demo_stage i 0))); [intros _; keeps|exact Hrun].
Qed.

Lemma aspace_at_inv i s a s' : address_space_at i s = Ok (a, s') -> address_spaces s !! i = Some a /\ s' = s.
Proof.
  unfold address_space_at. rewrite bind_get. unfold at_index. destruct (address_spaces s !! i); by intros [= -> ->].
Qed.

Lemma on_mem_demo_held : preserves (@on_ks A held) (on_mem_demo ft).
Proof.
  assert (Hmod : forall f : World A -> World A, (forall w, w_ks (f w) = w_ks w) -> preserves (on_ks held) (modify f)).
  { intros f Hf. apply preserves_modify. intros w. unfold on_ks. by rewrite Hf. }
  unfold on_mem_demo, evil_double_map_step, evil_unmap_not_mapped_step. keeps.
  all: by apply Hmod.
Qed.

Lemma mem_demo_kernel_held i k id p fl : preserves (@on_ks A held) (mem_demo_kernel i k id p fl).
Proof. unfold mem_demo_kernel. keeps. Qed.

Lemma mem_demo_turn B F w a w' :
  Inv B F w -> (B + 2 <= u64_max)%Z -> do_mem_demo_normal ft w = Ok (a, w') ->
  on_ks held w w' \/ chosen (w_ks w') /\ state_of (tasks (w_ks w')) (current_task (w_ks w)) = Some Dead.
Proof.
  intros Hinv HB Hrun. destruct (Inv_current _ _ _ _ _ Hinv) as (t & Ht & Hr & _ & Hok & Hb & _).
  assert (Hw : {| w with w_ks := w_ks w |} = w) by by destruct w.
  unfold do_mem_demo_normal in Hrun. apply bind_inv in Hrun as (? & ? & Hg & Hrun). injection Hg as <- <-.
  cbv zeta in Hrun.
  apply bind_inv in Hrun as (t1 & ? & (? & [Ht1 ->]%task_at_inv & ->)%ks_inv & Hrun). rewrite Hw in Hrun.
  assert (t1 = t) as -> by congruence. rewrite decide_False in Hrun by congruence.
  destruct (Nat.eqb_spec (current_task (w_ks w)) TASK0_INDEX) as [Hc0|Hc0]; simpl in Hrun.
  { left. pose proof mem_demo_kernel_held. by_operation Hrun. keeps. }
  pose proof (in_k _ _ _ _ _ Hinv) as Hk.
  destruct (user_aspace _ _ _ _ _ _ Hk ltac:(split; [|exact Hb]; unfold TASK0_INDEX in *; lia))
    as (asp & r & Hasp & _ & Hroot & _ & Hrin).
  apply bind_inv in Hrun as (kind & w1 & Hkind & Hrun).
  assert (w1 = w) as ->.
  { destruct (_ <? _); [|by injection Hkind].
    apply bind_inv in Hkind as (a1 & ? & (? & [_ ->]%aspace_at_inv & ->)%ks_inv & Hkind).
    by injection Hkind as _ <-. }
  destruct (decide _); [left; by_operation Hrun; keeps|].
  apply bind_inv in Hrun as (a1 & ? & (? & [Ha1 ->]%aspace_at_inv & ->)%ks_inv & Hrun). rewrite Hw in Hrun.
  rewrite (tk_as _ _ Hok) in Ha1. assert (a1 = asp) as -> by congruence. rewrite Hroot in Hrun.
  by apply (mem_demo_user_turn B F w t r a w').
Qed.

(** ** The tick *)

Lemma tick_action_turn B F w act a w' :
  Inv B F w -> (B + 2 <= u64_max)%Z -> tick_action ft act w = Ok (a, w') ->
  on_ks held w w' \/ chosen (w_ks w') /\ state_of (tasks (w_ks w')) (current_task (w_ks w)) = Some Dead.
Proof.
  intros Hinv HB Hrun. unfold tick_action in Hrun. destruct act.
  - left. by_operation Hrun. keeps.
  - left. by_operation Hrun. keeps.
  - left. by_operation Hrun. keeps.
  - destruct (ring3_mailbox_loop ft); [left; by_operation Hrun; keeps|].
    unfold do_mem_demo in Hrun. apply bind_inv in Hrun as (b & w1 & H1 & Hrun).
    pose proof (on_mem_demo_held _ _ _ H1) as Hh1.
    assert (Hinv1 : Inv B F w1) by exact (returns_result _ _ _ _ _ (on_mem_demo_spec kr us ft B F w Hinv) H1).
    destruct b; [left; etransitivity; [exact Hh1|]; by_operation Hrun; keeps|].
    destruct (mem_demo_turn B F w1 a w' Hinv1 HB Hrun) as [Hh|Hd]; [left; by etransitivity|].
    right. by rewrite <- (hd_cur _ _ Hh1).
Qed.

Lemma after_death_chosen w na a w' :
  shape (w_ks w) -> chosen (w_ks w) -> tick_after_death na w = Ok (a, w') -> chosen (w_ks w').
Proof.
  intros Hs Hc Hrun. unfold tick_after_death in Hrun.
  apply bind_inv in Hrun as ([] & w1 & H1 & Hrun).
  assert (Hc1 : chosen (w_ks w1)) by (apply (chosen_same (w_ks w)); [by_world H1; keeps|done]).
  assert (Hs1 : shape (w_ks w1)) by (apply (hd_shape (w_ks w)); [by_world H1; keeps|done]).
  apply bind_inv in Hrun as (? & ? & Hg & Hrun). injection Hg as <- <-.
  destruct (_ <? _); [|by injection Hrun as _ <-].
  apply bind_inv in Hrun as (t & ? & (? & [_ ->]%task_at_inv & ->)%ks_inv & Hrun).
  destruct (decide _); [|by injection Hrun as _ <-].
  by eapply schedule_chosen; [|exact Hrun].
Qed.

(** The end of a tick, after the switch has been made. *)
Lemma tick_end_chosen na w a w' :
  chosen (w_ks w) -> (kmodify (fun s => {| s with activity := na |}) ;; maybe_halt_if_no_user_tasks) w = Ok (a, w') ->
  chosen (w_ks w').
Proof. intros Hc Hrun. apply (chosen_same (w_ks w)); [by_world Hrun; keeps|done]. Qed.

(** The accounting at the end of a tick of task [i]. *)
Definition account (i : nat) (na : KernelActivity) : W A unit :=
  s ← kget;
  still_running ←
    (if (i =? current_task s)%nat
     then t ← ks (task_at i); mret (bool_decide (t_state t = Running)) else mret false);
  blocked_by_sleep ← (if still_running : bool then ks (maybe_block_task i) else mret false);
  (if still_running && negb blocked_by_sleep
   then update_time_slice_for_and_maybe_schedule i else mret tt) ;;
  kmodify (fun s => {| s with activity := na |}) ;;
  maybe_halt_if_no_user_tasks.

Lemma account_turn B F w i u na a w' :
  Inv B F w -> account i na w = Ok (a, w') ->
  (chosen (w_ks w) -> chosen (w_ks w')) /\
  (runs_on i u (w_ks w) -> running_ok (w_ks w') -> chosen (w_ks w') \/
     runs_on i (u + 1) (w_ks w') /\ (u + 1 < quantum (w_ks w))%Z /\ quantum (w_ks w') = quantum (w_ks w)).
Proof.
  intros Hinv Hrun. destruct (runs_on_current _ _ _ Hinv) as (t & Ht & Hr & _).
  pose proof (Inv_shape _ _ _ Hinv) as Hs. assert (Hw : {| w with w_ks := w_ks w |} = w) by by destruct w.
  unfold account in Hrun. apply bind_inv in Hrun as (? & ? & Hg & Hrun). injection Hg as <- <-.
  destruct (Nat.eqb_spec i (current_task (w_ks w))) as [Hi|Hi].
  - apply bind_inv in Hrun as (b & w1 & Hb & Hrun). rewrite Hi in Hb.
    apply bind_inv in Hb as (t1 & ? & (? & [Ht1 ->]%task_at_inv & ->)%ks_inv & Hb). rewrite Hw in Hb.
    assert (t1 = t) as -> by congruence. rewrite bool_decide_true in Hb by done. injection Hb as <- <-.
    apply bind_inv in Hrun as (b & ? & (? & Hb & ->)%ks_inv & Hrun). rewrite Hi in Hb, Hrun.
    rewrite (maybe_block_Ok _ _ t) in Hb by done. injection Hb as <- <-. rewrite Hw in Hrun. simpl in Hrun.
    apply bind_inv in Hrun as ([] & w2 & H2 & Hrun).
    destruct (time_slice_cases w tt w2 t Hs Ht Hr H2) as [Hc|[Hq Heq]].
    { split; intros; [|left]; exact (tick_end_chosen _ _ _ _ Hc Hrun). }
    split.
    + intros Hc. eapply tick_end_chosen; [|exact Hrun]. eapply chosen_same; [|exact Hc]. rewrite Heq.
      split; [done..|]. intros k. by eapply prio_of_insert.
    + intros [_ (t1 & Ht1' & <-)] Hr'. rewrite Hi in Ht1'. assert (t1 = t) as -> by congruence. right.
      assert (Hh : held (w_ks w2) (w_ks w')) by (by_world Hrun; keeps).
      split; [|split; [done|by rewrite (hd_quantum _ _ Hh), Heq]].
      eapply runs_on_held; [done..|]. rewrite Heq, Hi. split; [done|]. eexists.
      split; [apply list_lookup_insert_eq; by eapply lookup_lt_Some|done].
  - apply bind_inv in Hrun as (b & w1 & Hb & Hrun). injection Hb as <- <-.
    apply bind_inv in Hrun as (b & w1 & Hb & Hrun). injection Hb as <- <-. simpl in Hrun.
    apply bind_inv in Hrun as ([] & w1 & Hb & Hrun). injection Hb as <-.
    split; [by intros Hc; eapply tick_end_chosen|]. intros [Hc _]. congruence.
Qed.

Lemma tick_finish_turn B F w i u na a w' :
  Inv B F w -> (B + 7 <= u64_max)%Z -> CALL_FRAMES <= F -> i < MAX_TASKS ->
  tick_finish ft i na w = Ok (a, w') -> running_ok (w_ks w') ->
  runs_on i u (w_ks w) -> chosen (w_ks w') \/
    runs_on i (u + 1) (w_ks w') /\ (u + 1 < quantum (w_ks w))%Z /\ quantum (w_ks w') = quantum (w_ks w).
Proof.
  intros Hinv HB HF Hi Hrun Hr' Hon. unfold tick_finish in Hrun.
  apply bind_inv in Hrun as ([] & w1 & H1 & Hrun).
  assert (Hh1 : held (w_ks w) (w_ks w1)) by (by_world H1; keeps).
  assert (Hinv1 : Inv B F w1).
  { eapply (returns_result _ _ (fun _ w1 => Inv B F w1)); [|exact H1]. case_match; [by wstep|].
    apply returns_ks. eapply returns_mono; [by apply user_step_spec|]. intros [] s1 Hu. apply Hu. }
  apply bind_inv in Hrun as (? & ? & Hg & Hrun). injection Hg as <- <-.
  apply bind_inv in Hrun as ([] & w2 & H2 & Hrun).
  assert (Hinv2 : Inv (B + 4) (F - CALL_FRAMES) w2).
  { eapply (returns_result _ _ (fun _ w2 => Inv (B + 4) (F - CALL_FRAMES) w2)); [|exact H2].
    case_match; [apply handle_pending_spec; [done..|lia|done]|]. wstep. eapply Inv_mono; [exact Hinv1|lia|lia]. }
  apply bind_inv in Hrun as ([] & w3 & H3 & Hrun).
  assert (Hh3 : held (w_ks w2) (w_ks w3)) by (by_world H3; keeps).
  assert (Hs3 : same_choice (w_ks w2) (w_ks w3)) by (by_world H3; keeps).
  assert (Hinv3 : Inv (B + 5) (F - CALL_FRAMES) w3).
  { apply ks_inv in H3 as (s3 & H3 & ->). replace (B + 5)%Z with (B + 4 + 1)%Z by lia.
    eapply (returns_result _ _ (fun _ s3 => Inv (B + 4 + 1) (F - CALL_FRAMES) {| w2 with w_ks := s3 |})); [|exact H3].
    apply update_runtime_spec; [done|lia|done]. }
  change (account i na w3 = Ok (a, w')) in Hrun.
  destruct (account_turn _ _ _ i u na a w' Hinv3 Hrun) as [Hc Hrest].
  destruct (runs_on_held _ _ _ _ Hh1 (in_run _ _ _ _ _ Hinv1) Hon) as [Hcur _]. rewrite Hcur, Nat.eqb_refl in H2.
  destruct (turns_pending ft Hdp w1 tt w2 (Inv_shape _ _ _ Hinv1) H2) as [Hh2|[Hch _]].
  2: { left. apply Hc. by eapply chosen_same. }
  assert (Hh : held (w_ks w) (w_ks w3)) by (etransitivity; [exact Hh1|]; by etransitivity).
  rewrite <- (hd_quantum _ _ Hh). apply Hrest; [|done].
  eapply runs_on_held; [exact Hh|apply Hinv3|exact Hon].
Qed.

(** The part of a tick after the action of the automaton. *)
Lemma tick_end_turn B F (w w2 w3 : World A) i u na t2 a :
  Inv B F w2 -> (B + 7 <= u64_max)%Z -> CALL_FRAMES <= F -> i < MAX_TASKS -> tasks (w_ks w2) !! i = Some t2 ->
  (if bool_decide (t_state t2 = Dead) then tick_after_death na else tick_finish ft i na) w2 = Ok (a, w3) ->
  running_ok (w_ks w3) -> runs_on i u (w_ks w) ->
  held (w_ks w) (w_ks w2) \/ chosen (w_ks w2) /\ t_state t2 = Dead ->
  chosen (w_ks w3) \/
  runs_on i (u + 1) (w_ks w3) /\ (u + 1 < quantum (w_ks w))%Z /\ quantum (w_ks w3) = quantum (w_ks w).
Proof.
  intros Hinv HB HF Hi Ht2 Hrun Hrun3 Hon [Hh|[Hc Hd]].
  - assert (Hon2 : runs_on i u (w_ks w2)) by (eapply runs_on_held; [exact Hh|apply Hinv|exact Hon]).
    rewrite bool_decide_false in Hrun.
    2: { intros Hd. pose proof (in_run _ _ _ _ _ Hinv) as Hr. unfold running_ok in Hr.
         rewrite (proj1 Hon2), (state_of_lookup _ _ _ Ht2) in Hr. congruence. }
    rewrite <- (hd_quantum _ _ Hh). by eapply tick_finish_turn.
  - left. rewrite bool_decide_true in Hrun by done. by eapply after_death_chosen; [eapply Inv_shape|..].
Qed.

Lemma tick_turn B F w u rs w' :
  Inv B F w -> (B + TICK_COST <= u64_max)%Z -> TICK_FRAMES <= F -> should_halt (w_ks w) = false ->
  let i := current_task (w_ks w) in runs_on i u (w_ks w) -> tick ft w = Ok (rs, w') ->
  chosen (w_ks w') \/
  runs_on i (u + 1) (w_ks w') /\ (u + 1 < quantum (w_ks w))%Z /\ quantum (w_ks w') = quantum (w_ks w).
Proof.
  intros Hinv HB HF Hhalt i Hon Hrun. pose proof (tick_spec kr us ft Hft B F w Hinv HB HF) as Hspec.
  destruct (returns_result _ _ _ _ _ Hspec Hrun) as [_ Hinv']. clear Hspec.
  assert (Hi : i < MAX_TASKS) by apply (ki_core _ _ _ _ _ (in_k _ _ _ _ _ Hinv)).
  unfold tick in Hrun. apply bind_inv in Hrun as (? & ? & Hg & Hrun). injection Hg as <- <-. rewrite Hhalt in Hrun.
  pose proof (ki_tick _ _ _ _ _ (in_k _ _ _ _ _ Hinv)) as Htick.
  pose proof (ki_time _ _ _ _ _ (in_k _ _ _ _ _ Hinv)) as Htime. unfold TICK_COST, TICK_FRAMES in *.
  apply bind_inv in Hrun as (n & ? & (? & [Hn ->]%lift_inv & ->)%ks_inv & Hrun). apply u64_add_inv in Hn as [-> _].
  apply bind_inv in Hrun as ([] & ? & (? & Hm & ->)%ks_inv & Hrun). injection Hm as <-.
  apply bind_inv in Hrun as ([] & ? & (? & Hm & ->)%ks_inv & Hrun). unfold push_event in Hm. injection Hm as <-.
  match type of Hrun with context [push_event_fn ?ev ?s] => destruct (push_event_ret ev s) as (l & h & k & Hev) end.
  cbn [w_ks] in Hrun, Hev. rewrite Hev in Hrun. clear Hev.
  match type of Hrun with _ ?w0 = _ => pose (w1 := w0); change w0 with w1 in Hrun end.
  assert (Hinv1 : Inv (B + 1) F w1).
  { apply (Inv_clock kr us B (B + 1) F w (tick_count (w_ks w) + 1) (time_ticks (w_ks w)) l h k Hinv); lia. }
  assert (Hh1 : held (w_ks w) (w_ks w1)) by by apply held_fields.
  clearbody w1. assert (Hw : forall w, {| w with w_ks := w_ks w |} = w :> World A) by by intros [].
  apply bind_inv in Hrun as (t & ? & (? & [_ ->]%task_at_inv & ->)%ks_inv & Hrun). rewrite Hw in Hrun.
  cbv zeta in Hrun. destruct (next_activity_and_action _) as [na act].
  apply bind_inv in Hrun as ([] & w2 & H2 & Hrun).
  assert (Hinv2 : Inv (B + 1 + 2) (F - CALL_FRAMES) w2).
  { eapply (returns_result _ _ (fun _ w2 => Inv (B + 1 + 2) (F - CALL_FRAMES) w2)); [|exact H2].
    apply tick_action_spec; [done|lia|lia]. }
  pose proof (tick_action_turn (B + 1) F w1 act tt w2 Hinv1 ltac:(lia) H2) as Hturn.
  apply bind_inv in Hrun as (? & ? & Hg & Hrun). injection Hg as <- <-.
  destruct (core_lookup _ _ _ _ _ (ki_core _ _ _ _ _ (in_k _ _ _ _ _ Hinv2)) i Hi) as [t2 Ht2].
  apply bind_inv in Hrun as (died & ? & Hdied & Hrun).
  rewrite (num_tasks_ltb (w_ks w2)), (proj2 (Nat.ltb_lt _ MAX_TASKS)) in Hdied by (done || by eapply Inv_shape).
  apply bind_inv in Hdied as (t3 & ? & (? & [Ht3 ->]%task_at_inv & ->)%ks_inv & Hdied). rewrite Hw in Hdied.
  injection Hdied as <- <-. assert (t3 = t2) as -> by (fold i in Ht3; congruence).
  apply bind_inv in Hrun as ([] & w3 & H3 & Hrun).
  assert (w' = w3) as ->.
  { assert (exists B' F', Inv B' F' w3) as (B' & F' & Hinv3).
    { destruct (bool_decide _).
      - do 2 eexists. exact (returns_result _ _ _ _ _ (tick_after_death_spec kr us _ _ w2 na Hinv2) H3).
      - do 2 eexists. refine (returns_result _ _ _ _ _ (tick_finish_spec kr us ft Hft _ _ w2 i na Hinv2 _ _ Hi) H3); lia. }
    apply ks_inv in Hrun as (s3 & Hrun & ->). rewrite (debug_check_silent _ _ _ _ _ Hinv3) in Hrun.
    injection Hrun as _ <-. apply Hw. }
  eapply (tick_end_turn (B + 1 + 2)); [exact Hinv2|lia|lia|done|exact Ht2|exact H3|apply Hinv'|exact Hon|].
  destruct Hturn as [Hh2|[Hc2 Hd2]]; [left; by transitivity (w_ks w1)|right; split; [done|]].
  rewrite (hd_cur _ _ Hh1) in Hd2. fold i in Hd2. rewrite (state_of_lookup _ _ _ Ht2) in Hd2. by injection Hd2.
Qed.

(** ** A quantum of ticks *)

Lemma kruns_cons w ev r w1 evs rs w2 :
  kstep ft w ev r w1 -> kruns ft w1 evs rs w2 -> kruns ft w (ev :: evs) (r ++ rs) w2.
Proof.
  intros H1 Hrun. induction Hrun as [w1|w1 evs rs w2 ev2 r2 w3 _ IH H2].
  - rewrite app_nil_r. apply (kruns_snoc ft w [] [] w); [constructor|done].
  - rewrite app_assoc. apply (kruns_snoc ft w (ev :: evs) (r ++ rs) w2); auto.
Qed.

Lemma slice_runs_out n B F w u :
  Inv B F w -> runs_on (current_task (w_ks w)) u (w_ks w) -> (quantum (w_ks w) - u <= Z.of_nat (S n))%Z ->
  (B + cost (S n) <= u64_max)%Z -> S n * TICK_FRAMES <= F ->
  exists k w', k <= S n /\ kruns ft w (replicate k EvTick) [] w' /\
    (should_halt (w_ks w') = true \/ 1 <= k /\ chosen (w_ks w')).
Proof.
  revert B F w u. induction n as [|n IH]; intros B F w u Hinv Hon Hq HB HF.
  all: destruct (should_halt (w_ks w)) eqn:Hhalt; [exists 0, w; split; [lia|]; split; [constructor|by left]|].
  all: rewrite cost_S in HB; rewrite Nat.mul_succ_l in HF; unfold cost in HB.
  all: destruct (tick_spec kr us ft Hft B F w Hinv ltac:(unfold TICK_COST in *; lia) ltac:(lia))
         as (rs & w1 & Hrun & -> & Hinv1).
  all: assert (Hstep : kstep ft w EvTick [] w1) by by constructor.
  all: destruct (tick_turn B F w u [] w1 Hinv ltac:(unfold TICK_COST in *; lia) ltac:(lia) Hhalt Hon Hrun)
         as [Hc|(Hon1 & Hlt & Hq1)].
  1, 3: exists 1, w1; split; [lia|]; split; [|by right; split; [lia|]];
          apply (kruns_cons w EvTick [] w1 [] []); [done|constructor].
  { lia. }
  rewrite <- (proj1 Hon1) in Hon1.
  destruct (IH (B + TICK_COST)%Z (F - TICK_FRAMES) w1 (u + 1)%Z Hinv1 Hon1) as (k & w' & Hk & Hrun' & Hend).
  - rewrite Hq1. lia.
  - unfold cost. lia.
  - lia.
  - exists (S k), w'. split; [lia|]. split; [by apply (kruns_cons w EvTick [] w1 (replicate k EvTick) [])|].
    destruct Hend as [|[_ ?]]; [by left|right; split; [lia|done]].
Qed.

End turn_inv.
