(* ===== verification/Rpc.v ===== *)
(** * A request and its reply

    The three calls of a remote procedure call (a client sends, a server receives
    and replies) composed: whether the client or the server comes first, and so
    whether the slow or the fast path delivers, the net effect is the same. *)

From stdpp Require Import base list option gmap sets strings.
From Stdlib Require Import ZArith Lia.
From S2P Require Import Prelude Addr AddressSpace FrameAlloc Queues KTypes Endpoint EventLog KState.
From S2P Require Import ArchIface Sched Ipc Checks Kill Demo Syscall Tick IpcSpec Invariant IpcInv.
From S2P Require Import IpcRefine MemInv CloseInv KillInv CheckInv TickInv.

(** ** The specification is deterministic where nobody competes *)

(** The endpoint a task waits on. *)
Definition waits_on (st : Status) : option EndpointId :=
  match st with
  | Receiving ep | Sending ep _ | AwaitingReply _ ep => Some ep
  | Runnable | Gone => None
  end.

(** Only [j] may wait on [ep]. *)
Definition only_waiter (ep : EndpointId) (j : nat) (ts : list ATask) : Prop :=
  forall k t, ts !! k = Some t -> waits_on (a_status t) = Some ep -> k = j.
Definition quiet (ep : EndpointId) (ts : list ATask) : Prop :=
  forall k t, ts !! k = Some t -> waits_on (a_status t) <> Some ep.

Section spec.
Context (i : nat) (ti : ATask) (ep : EndpointId) (ts : list ATask) (cl : list bool).
Context (Hi0 : i <> TASK0_INDEX) (Hep : ep < MAX_ENDPOINTS) (Hopen : cl !! ep = Some false).

(** What contradicts a case of the specification. *)
Ltac refute :=
  cbn [call_ep] in *; try lia; try congruence;
  try match goal with
  | Hn : nobody _ ?ts, Hj : ?ts !! ?j = Some ?tj, Hs : a_status ?tj = _ |- _ => by destruct (Hn j tj Hj); rewrite Hs; eauto
  | Hq : quiet _ ?ts, Hj : ?ts !! ?j = Some ?tj, Hs : a_status ?tj = _ |- _ => by destruct (Hq j tj Hj); rewrite Hs
  end.

Lemma send_quiet m σ' : quiet ep ts -> ipc_spec i ti (CallSend ep m) (mkAIpc ts cl) σ' ->
  σ' = mkAIpc (<[i := {| ti with a_status := Sending ep m |}]> ts) cl.
Proof. intros Hq Hs. inversion Hs; subst; refute; done. Qed.

Lemma recv_quiet σ' : quiet ep ts -> ipc_spec i ti (CallRecv ep) (mkAIpc ts cl) σ' ->
  σ' = mkAIpc (<[i := {| ti with a_status := Receiving ep |}]> ts) cl.
Proof. intros Hq Hs. inversion Hs; subst; refute; done. Qed.

Section other.
Context (j : nat) (tj : ATask) (Hj : ts !! j = Some tj) (Hone : only_waiter ep j ts).

(** The task a call meets is [j]. *)
Lemma meets k tk : ts !! k = Some tk -> waits_on (a_status tk) = Some ep -> k = j /\ tk = tj.
Proof. intros Hk Hw. pose proof (Hone k tk Hk Hw) as ->. split; [done|congruence]. Qed.

Lemma recv_from m σ' : a_status tj = Sending ep m -> ipc_spec i ti (CallRecv ep) (mkAIpc ts cl) σ' ->
  σ' = mkAIpc (<[i := {| ti with a_msg := Some m |}]>
         (<[j := {| tj with a_status := AwaitingReply (id_of i) ep |}]> ts)) cl.
Proof.
  intros Hst Hs. inversion Hs; subst; refute.
  match goal with Hk : ts !! ?k = Some ?tk, E : a_status ?tk = Sending ep ?m' |- _ =>
    destruct (meets k tk Hk) as [-> ->]; [by rewrite E|]; rewrite Hst in E; injection E as ->; done end.
Qed.

Lemma send_to m σ' : a_status tj = Receiving ep -> ipc_spec i ti (CallSend ep m) (mkAIpc ts cl) σ' ->
  σ' = mkAIpc (<[i := {| ti with a_status := AwaitingReply (id_of j) ep |}]>
         (<[j := {| tj with a_status := Runnable; a_msg := Some m |}]> ts)) cl.
Proof.
  intros Hst Hs. inversion Hs; subst; refute.
  match goal with Hk : ts !! ?k = Some ?tk, E : a_status ?tk = Receiving ep |- _ =>
    destruct (meets k tk Hk) as [-> ->]; [by rewrite E|done] end.
Qed.

Lemma reply_to m σ' : a_status tj = AwaitingReply (id_of i) ep -> ipc_spec i ti (CallReply ep m) (mkAIpc ts cl) σ' ->
  σ' = mkAIpc (<[j := {| tj with a_status := Runnable; a_reply := Some m |}]> ts) cl.
Proof.
  intros Hst Hs. inversion Hs; subst; refute.
  match goal with Hk : ts !! ?k = Some ?tk, E : a_status ?tk = AwaitingReply _ ep |- _ =>
    destruct (meets k tk Hk) as [-> ->]; [by rewrite E|done] end.
Qed.
End other.
End spec.

(** ** The three calls on the abstract state *)

(** A run of calls of the specification, each by its caller. *)
Fixpoint spec_calls (l : list (nat * ipc_call)) (σ σ' : AIpc) : Prop :=
  match l with
  | [] => σ' = σ
  | (i, c) :: l => exists ti σ1, a_tasks σ !! i = Some ti /\ ipc_spec i ti c σ σ1 /\ spec_calls l σ1 σ'
  end.

(** The request [m] on [ep] and its reply [r]: who comes first is left open. *)
Definition rpc_calls (client_first : bool) (client server : nat) (ep : EndpointId) (m r : Z) : list (nat * ipc_call) :=
  if client_first
  then [(client, CallSend ep m); (server, CallRecv ep); (server, CallReply ep r)]
  else [(server, CallRecv ep); (client, CallSend ep m); (server, CallReply ep r)].

Section effect.
Context (i j : nat) (ep : EndpointId) (m r : Z) (ts : list ATask) (cl : list bool) (ti tj : ATask).
Context (Hi0 : i <> TASK0_INDEX) (Hj0 : j <> TASK0_INDEX) (Hij : i <> j) (Hep : ep < MAX_ENDPOINTS).
Context (Hopen : cl !! ep = Some false) (Hq : quiet ep ts).
Context (Hi : ts !! i = Some ti) (Hj : ts !! j = Some tj).
Context (Hri : a_status ti = Runnable) (Hrj : a_status tj = Runnable).

Lemma only_after_insert k t : only_waiter ep k (<[k := t]> ts).
Proof.
  intros k' t' Hk Hw. destruct (decide (k' = k)) as [|Hne]; [done|].
  rewrite list_lookup_insert_ne in Hk by done. by destruct (Hq k' t' Hk).
Qed.

(** A task that does not wait does not count. *)
Lemma only_insert k k' t l : only_waiter ep k l -> waits_on (a_status t) = None \/ k' = k -> only_waiter ep k (<[k' := t]> l).
Proof.
  intros Ho Ht n tn [(<- & <- & _)|[_ Hn]]%list_lookup_insert_Some Hw; [|by eapply Ho].
  destruct Ht as [Ht|Ht]; [congruence|done].
Qed.

Lemma lookup_ins k l (t : ATask) : k < length l -> <[k := t]> l !! k = Some t.
Proof. apply list_lookup_insert_eq. Qed.

(** Exactly the two mailboxes change. *)
Definition rpc_effect : list ATask := <[j := {| tj with a_msg := Some m |}]> (<[i := {| ti with a_reply := Some r |}]> ts).

Lemma effect_eq l :
  length l = length ts -> l !! i = Some {| ti with a_reply := Some r |} -> l !! j = Some {| tj with a_msg := Some m |} ->
  (forall k, k <> i -> k <> j -> l !! k = ts !! k) -> l = rpc_effect.
Proof.
  intros Hlen Hli Hlj Hlk. pose proof (lookup_lt_Some _ _ _ Hi). pose proof (lookup_lt_Some _ _ _ Hj).
  apply list_eq. intros k. unfold rpc_effect. destruct (decide (k = j)) as [->|Hkj].
  { rewrite lookup_ins; [done|]. by rewrite length_insert. }
  rewrite list_lookup_insert_ne by done. destruct (decide (k = i)) as [->|Hki]; [by rewrite lookup_ins|].
  rewrite list_lookup_insert_ne by done. by apply Hlk.
Qed.

(** Looking up in a list of updates. *)
Ltac look_len := rewrite ?length_insert; eapply lookup_lt_Some; eassumption.
Ltac look := repeat first [rewrite lookup_ins by look_len
                          | rewrite list_lookup_insert_ne by done]; try done.

Lemma rpc_spec client_first σ' :
  spec_calls (rpc_calls client_first i j ep m r) (mkAIpc ts cl) σ' -> σ' = mkAIpc rpc_effect cl.
Proof.
  destruct client_first; intros (t1 & σ1 & L1 & S1 & t2 & σ2 & L2 & S2 & t3 & σ3 & L3 & S3 & ->); simpl in L1;
    simplify_eq.
  - apply send_quiet in S1 as ->; try done. simpl in L2. rewrite list_lookup_insert_ne in L2 by done. simplify_eq.
    apply (recv_from j tj ep _ cl Hj0 Hep Hopen i {| ti with a_status := Sending ep m |}) with (m := m) in S2 as ->;
      [|look|apply only_after_insert|done].
    simpl in L3. rewrite lookup_ins in L3 by look_len. simplify_eq.
    apply (reply_to j _ ep _ cl Hj0 Hep Hopen i {| ti with a_status := AwaitingReply (id_of j) ep |}) in S3 as ->; [|look| |done].
    + f_equal. apply effect_eq; [by rewrite !length_insert|look; by rewrite Hri|look|intros k Hki Hkj; look].
    + apply only_insert; [apply only_insert; [apply only_after_insert|by right]|left; simpl; by rewrite Hrj].
  - apply recv_quiet in S1 as ->; try done. simpl in L2. rewrite list_lookup_insert_ne in L2 by done. simplify_eq.
    apply (send_to i ti ep _ cl Hi0 Hep Hopen j {| tj with a_status := Receiving ep |}) in S2 as ->;
      [|look|apply only_after_insert|done].
    simpl in L3. rewrite list_lookup_insert_ne, lookup_ins in L3 by (done || look_len). simplify_eq.
    apply (reply_to j _ ep _ cl Hj0 Hep Hopen i {| ti with a_status := AwaitingReply (id_of j) ep |}) in S3 as ->; [|look| |done].
    + f_equal. apply effect_eq; [by rewrite !length_insert|look; by rewrite Hri|look; by rewrite Hrj|intros k Hki Hkj; look].
    + intros k t [(<- & _ & _)|[_ Hk]]%list_lookup_insert_Some Hw; [done|].
      apply list_lookup_insert_Some in Hk as [(<- & <- & _)|[Hne Hk]]; [done|].
      rewrite list_lookup_insert_ne in Hk by done. by destruct (Hq k t Hk).
Qed.
End effect.

(** ** The three calls in the kernel *)

Section kernel.
Context {A : Type} `{ArchLaws A} (ft : Features).

(** Calls of the running task, with task switches in between; the number counts
    what they may add to the counters. *)
Inductive calls : World A -> list (nat * ipc_call) -> Z -> World A -> Prop :=
  | calls_nil w : calls w [] 0 w
  | calls_switch w w1 l n w' :
      schedule_next_task w = Ok (tt, w1) -> calls w1 l n w' -> calls w l (1 + n) w'
  | calls_call w c w1 l n w' :
      do_call ft c w = Ok (tt, w1) -> calls w1 l n w' ->
      calls w ((current_task (w_ks w), c) :: l) (2 + n) w'.

Context (kr : PhysFrame) (us : list PhysFrame) (Hft : ring3_mailbox ft = false).

Lemma calls_nonneg w l n w' : calls w l n w' -> (0 <= n)%Z.
Proof. induction 1; lia. Qed.

Lemma calls_refine B F w l n w' :
  Inv kr us B F w -> calls w l n w' -> (B + n <= u64_max)%Z ->
  spec_calls l (abs (w_ks w)) (abs (w_ks w')) /\ Inv kr us (B + n) F w'.
Proof.
  intros Hinv Hc. revert B Hinv. induction Hc as [w|w w1 l n w' Hrun Hc IH|w c w1 l n w' Hrun Hc IH]; intros B Hinv HB.
  - split; [done|]. by rewrite Z.add_0_r.
  - pose proof (calls_nonneg _ _ _ _ Hc).
    destruct (schedule_inv kr us strict w B (in_k _ _ _ _ _ Hinv) (mi_ready _ _ _ _ _ (in_m _ _ _ _ _ Hinv)) ltac:(lia))
      as ([] & w1' & Hrun' & Hk & Hr & Hst & Habs).
    rewrite Hrun in Hrun'. injection Hrun' as <-. rewrite <- Habs. replace (B + (1 + n))%Z with (B + 1 + n)%Z by lia.
    apply IH; [by eapply Inv_core_step|lia].
  - pose proof (calls_nonneg _ _ _ _ Hc). destruct (Inv_current _ _ _ _ _ Hinv) as (t & Ht & Hrn & _).
    destruct (ipc_call_spec kr us ft Hft B w t c) as ([] & w1' & Hrun' & (Hk & Hr & Hst) & Hspec);
      [eapply Inv_calling; [done|lia|done|done]|].
    rewrite Hrun in Hrun'. injection Hrun' as <-. replace (B + (2 + n))%Z with (B + 2 + n)%Z by lia.
    destruct (IH (B + 2)%Z) as [Hs Hinv']; [by eapply Inv_core_step|lia|]. split; [|done].
    exists (view t), (abs (w_ks w1)). split; [|done]. simpl. by rewrite list_lookup_fmap, Ht.
Qed.

(** A way to run them: [None] is a task switch. *)
Fixpoint run_calls (l : list (option (nat * ipc_call))) (w : World A) : option (World A) :=
  match l with
  | [] => Some w
  | None :: l => match schedule_next_task w with Ok (_, w1) => run_calls l w1 | Panicked _ => None end
  | Some (i, c) :: l =>
      if (i =? current_task (w_ks w))%nat
      then match do_call ft c w with Ok (_, w1) => run_calls l w1 | Panicked _ => None end
      else None
  end.

Definition run_cost (l : list (option (nat * ipc_call))) : Z :=
  foldr (fun o n => match o with Some _ => 2 + n | None => 1 + n end)%Z 0%Z l.

Lemma run_calls_sound l w w' : run_calls l w = Some w' -> calls w (omap id l) (run_cost l) w'.
Proof.
  revert w. induction l as [|[[i c]|] l IH]; intros w; simpl.
  - intros [= <-]. constructor.
  - destruct (Nat.eqb_spec i (current_task (w_ks w))) as [->|]; [|done].
    destruct (do_call ft c w) as [[[] w1]|] eqn:Hrun; [|done]. intros Hl. eapply calls_call; [done|]. by apply IH.
  - destruct (schedule_next_task w) as [[[] w1]|] eqn:Hrun; [|done]. intros Hl. eapply calls_switch; [done|]. by apply IH.
Qed.
End kernel.
