(* ===== verification/Entry.v ===== *)
(** * Entering ring 3 (kernel/entry.rs)

    The three demos that build a user image and leave the kernel with [iretq]:
    the frames they take, the pages they map, the program they write through the
    physical-memory window, and the dispatch of [kernel_high_entry] on the build
    features.  [iretq] itself (arch/ring3.rs) is the value they end in. *)

From stdpp Require Import base list option gmap strings.
From Stdlib Require Import ZArith.
From S2P Require Import Prelude Addr AddressSpace FrameAlloc KTypes KState ArchIface X86 Paging Gdt.
From S2P Require Import Sched Ipc Kill Demo Syscall Tick.
#[local] Open Scope Z_scope.

(** ** The user programs *)

(** A byte buffer being filled: [bytes_vec] and its fill level [n]. *)
Definition BYTES_CAP : nat := 4096.

Definition ensure_cap (cur add : nat) : res unit :=
  if (BYTES_CAP <? cur + add)%nat then Panicked (PanicMsg "ring3_mailbox_loop: bytes_vec overflow") else Ok tt.

Definition push_bytes (bs : list Z) : ST (list Z) unit :=
  buf ← get;
  lift_res (ensure_cap (length buf) (length bs)) ;;
  put (buf ++ bs).

(** [off as u8] of an [i8]. *)
Definition i8_as_u8 (off : Z) : Z := off mod 256.

(** [mov qword [rsp + off], imm32] *)
Definition mov_rsp_off_imm32 (off imm : Z) : ST (list Z) unit :=
  push_bytes [0x48; 0xC7; 0x44; 0x24; i8_as_u8 off;
              Z.land imm 0xFF; Z.land (Z.shiftr imm 8) 0xFF;
              Z.land (Z.shiftr imm 16) 0xFF; Z.land (Z.shiftr imm 24) 0xFF].

(** One request in the mailbox below the stack pointer, and the call. *)
Definition emit_call (sysno a0 a1 a2 : Z) : ST (list Z) unit :=
  mov_rsp_off_imm32 (-16) sysno ;;
  mov_rsp_off_imm32 (-24) a0 ;;
  mov_rsp_off_imm32 (-32) a1 ;;
  mov_rsp_off_imm32 (-40) a2 ;;
  push_bytes [0xCD; 0x80].

Definition emit_round (round : Z) : ST (list Z) unit :=
  emit_call 11 0 (0x1234 + round) 0 ;;
  for_each (seq 0 8) (fun _ => emit_call 30 0 0 0) ;;
  emit_call 31 0 0 0 ;;
  push_bytes [0x48; 0x8B; 0x44; 0x24; 0xD0; 0x48; 0x89; 0x44; 0x24; 0xF8].

Definition mailbox_loop_program : ST (list Z) unit :=
  for_each (seq 0 4) (fun round => emit_round (Z.of_nat round)) ;;
  push_bytes [0xEB; 0xFE].

(** The fixed programs of the other demos. *)
Definition ring3_demo_program : list Z :=
  [0x48; 0xC7; 0x44; 0x24; 0xF0; 0x01; 0x00; 0x00; 0x00;
   0x48; 0xC7; 0x44; 0x24; 0xE8; 0x11; 0x11; 0x00; 0x00;
   0x48; 0xC7; 0x44; 0x24; 0xE0; 0x22; 0x22; 0x00; 0x00;
   0x48; 0xC7; 0x44; 0x24; 0xD8; 0x33; 0x33; 0x00; 0x00;
   0xCD; 0x80;
   0x48; 0x8B; 0x44; 0x24; 0xD0;
   0x48; 0x89; 0x44; 0x24; 0xF8;
   0xCD; 0x80; 0xCD; 0x80; 0xEB; 0xFE].

Definition ring3_mailbox_program : list Z :=
  [0x48; 0xC7; 0x44; 0x24; 0xF0; 0x0B; 0x00; 0x00; 0x00;
   0x48; 0xC7; 0x44; 0x24; 0xE8; 0x00; 0x00; 0x00; 0x00;
   0x48; 0xC7; 0x44; 0x24; 0xE0; 0x34; 0x12; 0x00; 0x00;
   0x48; 0xC7; 0x44; 0x24; 0xD8; 0x00; 0x00; 0x00; 0x00;
   0xCD; 0x80;
   0x48; 0x8B; 0x44; 0x24; 0xD0;
   0x48; 0x89; 0x44; 0x24; 0xF8;
   0xCD; 0x80; 0xCD; 0x80; 0xEB; 0xFE].

(** ** The user image *)

Definition user_code_page : VirtPage := VirtPage_from_index 0x120.
Definition user_stack_page : VirtPage := VirtPage_from_index 0x121.
Definition user_rw_flags : PageFlags := PageFlags_union (PageFlags_union PRESENT WRITABLE) USER.
Definition user_rx_flags : PageFlags := PageFlags_union PRESENT USER.

(** The registers of [enter_user_mode_iretq]: ring3.rs pushes SS, RSP, RFLAGS,
    CS and RIP. *)
Record UserEntry := mkUserEntry {
  ue_rip : Z; ue_rsp : Z; ue_rflags : Z; ue_cs : Z; ue_ss : Z }.

Definition rflags_user_mvp : Z := Z.shiftl 1 1.

(** gdt.rs: the selectors [init_high_alias] stored. *)
Definition user_code_selector (sel : Selectors) : Z := sel_user_code sel.
Definition user_data_selector (sel : Selectors) : Z := sel_user_data sel.

Definition user_entry (sel : Selectors) : res UserEntry :=
  code ← VirtPage_start_address user_code_page;
  rip ← u64_add USER_SPACE_BASE (virt_u64 code);
  stack ← VirtPage_start_address user_stack_page;
  sp ← u64_add USER_SPACE_BASE (virt_u64 stack);
  top ← u64_add sp PAGE_SIZE;
  Ok (mkUserEntry rip (Z.land top (u64_not 0xF)) rflags_user_mvp
        (Z.lor (user_code_selector sel) 3) (Z.lor (user_data_selector sel) 3)).

Section entry.
Context {M : Type} `{X86 M} (im : Image) (sel : Selectors).
Abbreviation P := (ST (Paging M)).
(** The frames and the paging state. *)
Abbreviation PP := (ST (PhysicalMemoryManager * Paging M)).

(** A store of one byte through the current root. *)
Definition store_byte (va b : Z) : P unit :=
  s ← get;
  match hw_walk (pg_mem s) (pg_cr3 s) va with
  | Some (f, fl) =>
      if x86_contains fl X86_WRITABLE then
        put {| s with pg_mem := hw_store_byte (frame_number f * PAGE_SIZE + va mod PAGE_SIZE) b (pg_mem s) |}
      else panic_with (PanicMsg "#PF unguarded")
  | None => panic_with (PanicMsg "#PF unguarded")
  end.

Definition write_bytes_to_phys (phys : Z) (bytes : list Z) : P unit :=
  ok ← debug_physmap_can_access_phys phys;
  if negb ok then panic_with (PanicMsg "write_bytes_to_phys: physmap translate failed")
  else
    s ← get;
    base ← lift_res (u64_add (PHYSICAL_MEMORY_OFFSET s) phys);
    for_each (zip (seq 0 (length bytes)) bytes) (fun '(i, b) => store_byte (base + Z.of_nat i) b) ;;
    (* the read-back *)
    kernel_access base.

(** [phys_mem.allocate_frame().expect(..)] *)
Definition allocate_expect (msg : string) : PP Z :=
  '(pm, a) ← get;
  '(raw, pm) ← lift_res (PhysicalMemoryManager_allocate_frame pm);
  put (pm, a) ;;
  match raw with
  | Some phys => mret phys
  | None => panic_with (PanicMsg msg)
  end.

(** [apply_mem_action_in_root(..).expect(..)] *)
Definition apply_expect (action : MemAction) (root : PhysFrame) (msg : string) : PP unit :=
  r ← paging_apply_mem_action action (Some root);
  match r with
  | Okay _ => mret tt
  | Err _ => panic_with (PanicMsg msg)
  end.

(** The code and the stack page of the demo, both writable. *)
Definition map_user_image (root : PhysFrame) (code_frame stack_frame : PhysFrame) (m1 m2 : string) : PP unit :=
  apply_expect (Map user_code_page code_frame user_rw_flags) root m1 ;;
  apply_expect (Map user_stack_page stack_frame user_rw_flags) root m2.

(** The code page again, without the write permission. *)
Definition remap_code_rx (root code_frame : PhysFrame) (m1 m2 : string) : PP unit :=
  apply_expect (Unmap user_code_page) root m1 ;;
  apply_expect (Map user_code_page code_frame user_rx_flags) root m2.

(** The last steps: the root of the user, quietly, and the registers.  The VGA
    output is off from here on (a flag of the world). *)
Definition enter_ring3 (user_root : PhysFrame) : PP UserEntry :=
  e ← lift_res (user_entry sel);
  on_paging (paging_switch_address_space_quiet user_root) ;;
  mret e.

(** The common part of [run_ring3_demo] and [run_ring3_mailbox_demo]: a frame
    manager of their own, a root, the image. *)
Definition fresh_user_root (name : string) : PP PhysFrame :=
  '(pm, a) ← get;
  '(mf, pm) ← lift_res (allocate_new_l4_table pm);
  put (pm, a) ;;
  match mf with
  | None => panic_with (PanicMsg (name ++ ": no more frames for user pml4"))
  | Some user_root =>
      on_paging (paging_init_user_pml4_from_current user_root) ;;
      mret user_root
  end.

Definition run_ring3_demo (map : list MemoryRegion) (s : Paging M) : res (UserEntry * (PhysicalMemoryManager * Paging M)) :=
  let kernel_root := pg_cr3 s in
  pm ← PhysicalMemoryManager_new map;
  (user_root ← fresh_user_root "ring3_demo";
   code_phys ← allocate_expect "ring3_demo: no frame for code";
   stack_phys ← allocate_expect "ring3_demo: no frame for stack";
   let code_frame := PhysFrame_from_index (code_phys / PAGE_SIZE) in
   let stack_frame := PhysFrame_from_index (stack_phys / PAGE_SIZE) in
   map_user_image user_root code_frame stack_frame
     "ring3_demo: map user code(init RW) failed" "ring3_demo: map user stack failed" ;;
   on_paging (set_ring3_demo_roots user_root kernel_root) ;;
   on_paging (write_bytes_to_phys code_phys ring3_demo_program) ;;
   remap_code_rx user_root code_frame
     "ring3_demo: unmap user code to drop WRITABLE failed" "ring3_demo: remap user code(final RX) failed" ;;
   enter_ring3 user_root) (pm, s).

Definition run_ring3_mailbox_demo (map : list MemoryRegion) (s : Paging M) :
    res (UserEntry * (PhysicalMemoryManager * Paging M)) :=
  let kernel_root := pg_cr3 s in
  pm ← PhysicalMemoryManager_new map;
  (user_root ← fresh_user_root "ring3_mailbox";
   code_phys ← allocate_expect "ring3_mailbox: no frame for code";
   stack_phys ← allocate_expect "ring3_mailbox: no frame for stack";
   let code_frame := PhysFrame_from_index (code_phys / PAGE_SIZE) in
   let stack_frame := PhysFrame_from_index (stack_phys / PAGE_SIZE) in
   map_user_image user_root code_frame stack_frame
     "ring3_mailbox: map user code(init RW) failed" "ring3_mailbox: map user stack failed" ;;
   on_paging (set_ring3_demo_roots user_root kernel_root) ;;
   on_paging (write_bytes_to_phys code_phys ring3_mailbox_program) ;;
   enter_ring3 user_root) (pm, s).

(** [skip_rx] is the feature ring3_mailbox_loop_skip_rx. *)
Definition run_ring3_mailbox_loop_demo (skip_rx : bool) : W (Paging M) UserEntry :=
  ks prepare_ring3_loop_current_task ;;
  kernel_root ← arch (gets pg_cr3);
  asp ← ks (address_space_at 1%nat);
  match as_root_page_frame asp with
  | None => panic_with (PanicMsg "ring3_mailbox_loop: user root must exist")
  | Some user_root =>
      e ← arch_with_phys_mem
        (code_phys ← allocate_expect "ring3_mailbox_loop: no frame for code";
         stack_phys ← allocate_expect "ring3_mailbox_loop: no frame for stack";
         let code_frame := PhysFrame_from_index (code_phys / PAGE_SIZE) in
         let stack_frame := PhysFrame_from_index (stack_phys / PAGE_SIZE) in
         map_user_image user_root code_frame stack_frame
           "ring3_mailbox_loop: map user code(init RW) failed" "ring3_mailbox_loop: map user stack failed" ;;
         on_paging (set_ring3_demo_roots user_root kernel_root) ;;
         '(_, bytes) ← lift_res (mailbox_loop_program []);
         on_paging (write_bytes_to_phys code_phys bytes) ;;
         (if skip_rx then mret tt
          else remap_code_rx user_root code_frame
                 "ring3_mailbox_loop: unmap user code to drop WRITABLE failed"
                 "ring3_mailbox_loop: remap user code(final RX) failed") ;;
         enter_ring3 user_root);
      set_vga_enabled false ;;
      mret e
  end.

(** ** [kernel_high_entry] with the build features *)

(** Where the entry ends: in ring 3 (with the world of the registered kernel, if
    there is one, and the paging state), or halted with the reports of the checks
    and the dumped events. *)
Inductive Exit :=
  | Ring3 (e : UserEntry) (kernel : option (World (Paging M))) (s : Paging M)
  | Halted (w : World (Paging M)) (reports : list string) (events : list LogEvent).

#[local] Instance entry_ops : ArchOps (Paging M) := paging_ops im.

Definition kernel_high_entry_features (ring3_demo skip_rx : bool) (ft : Features) (map : list MemoryRegion)
    (s : Paging M) : res Exit :=
  if ring3_demo then
    '(e, (_, s)) ← run_ring3_demo map s;
    Ok (Ring3 e None s)
  else if ring3_mailbox ft then
    w ← KernelState_new ft map s;
    '(_, w) ← ks bootstrap w;
    '(_, w) ← tick_loop ft 3 w;
    '(e, (_, s)) ← run_ring3_mailbox_demo map (w_arch w);
    Ok (Ring3 e (Some {| w with w_arch := s; w_vga := false |}) s)
  else if ring3_mailbox_loop ft then
    w ← KernelState_new ft map s;
    '(_, w) ← ks bootstrap w;
    '(e, w) ← run_ring3_mailbox_loop_demo skip_rx w;
    Ok (Ring3 e (Some w) (w_arch w))
  else
    '(w, reports, events) ← kernel_high_entry ft map s;
    Ok (Halted w reports events).

End entry.
