(* ===== verification/Interrupts.v ===== *)
(** * Interrupts (arch/interrupts.rs, kernel/state_ref.rs)

    The reference to the kernel state that the handlers use, and the [int 0x80]
    handlers of the ring 3 demos.  The descriptor tables are in Gdt.v, the page
    fault handler is in Paging.v, next to the guarded accesses it resumes. *)

From stdpp Require Import base list option gmap strings.
From Stdlib Require Import ZArith.
From S2P Require Import Prelude Addr FrameAlloc KTypes KState Console ArchIface X86 Paging Gdt.
From S2P Require Import Sched Ipc Kill Demo Syscall Tick.
#[local] Open Scope Z_scope.

(** ** The statics of the handlers *)

(** [emergency_out]: the bytes written to the debug port and the serial line (the
    port operations behind them are [emergency_byte] of Serial.v). *)
Record Irq := mkIrq {
  INT80_COUNT : Z;
  DEMO_USER_ROOT_PHYS : Z; DEMO_KERNEL_ROOT_PHYS : Z;
  DBG_SYS31_COUNT : Z;
  KERNEL_STATE_ADDR : Z;
  emergency_out : list Z }.

Definition Irq_reset : Irq := mkIrq 0 0 0 0 0 [].
Definition DBG_SYS31_LIMIT : Z := 64.

Definition emergency_write (bs : list Z) : ST Irq unit :=
  modify (fun i => {| i with emergency_out := emergency_out i ++ bs |}).
Definition emergency_write_str (s : string) : ST Irq unit := emergency_write (bytes_of_string s).
Definition emergency_write_hex_u64 (v : Z) : ST Irq unit := emergency_write (hex_u64 v).
Definition newline : ST Irq unit := emergency_write [10].

(** [AtomicU64::fetch_add] wraps. *)
Definition fetch_add_int80 : ST Irq Z :=
  old ← gets INT80_COUNT;
  modify (fun i => {| i with INT80_COUNT := u64_wrapping_add old 1 |}) ;;
  mret old.
Definition fetch_add_sys31 : ST Irq Z :=
  old ← gets DBG_SYS31_COUNT;
  modify (fun i => {| i with DBG_SYS31_COUNT := u64_wrapping_add old 1 |}) ;;
  mret old.

(** state_ref.rs: the kernel state is borrowed through its address. *)
Definition register_kernel_state (addr : Z) : ST Irq unit := modify (fun i => {| i with KERNEL_STATE_ADDR := addr |}).
Definition unregister_kernel_state : ST Irq unit := modify (fun i => {| i with KERNEL_STATE_ADDR := 0 |}).

Definition with_kernel_state {B R} (f : ST B R) : ST (Irq * B) (option R) :=
  '(i, _) ← get;
  if KERNEL_STATE_ADDR i =? 0 then mret None
  else r ← zoom snd (fun p b => (p.1, b)) f; mret (Some r).

(** What a handler does at its end. *)
Inductive Resume := Iretq | Halt.

(** The other exceptions report and halt. *)
Definition exception_report (name : string) (error_code rip rsp : Z) : ST Irq Resume :=
  emergency_write_str name ;;
  emergency_write_hex_u64 error_code ;;
  emergency_write_str " rip=" ;; emergency_write_hex_u64 rip ;;
  emergency_write_str " rsp=" ;; emergency_write_hex_u64 rsp ;;
  newline ;;
  mret Halt.
Definition general_protection_fault_handler := exception_report "[EXC] #GP err=".
Definition double_fault_handler := exception_report "[EXC] #DF err=".

(** ** The [int 0x80] handlers *)

Definition OFF_ECHO : Z := 8.
Definition OFF_SYSNO : Z := 16.
Definition OFF_A0 : Z := 24.
Definition OFF_A1 : Z := 32.
Definition OFF_A2 : Z := 40.
Definition OFF_RET : Z := 48.

Definition mailbox_slot (user_rsp off : Z) : Z := u64_wrapping_sub user_rsp off.

Section handlers.
Context {M : Type} `{X86 M} (im : Image).

Definition irq {B X} (m : ST Irq X) : ST (Irq * B) X := zoom fst (fun p i => (i, p.2)) m.
Definition below_irq {B X} (m : ST B X) : ST (Irq * B) X := zoom snd (fun p b => (p.1, b)) m.

(** [guarded_user_read_u64_in_root(..).unwrap_or(0)] *)
Definition read_or_0 (user_root kernel_root : PhysFrame) (ptr : Z) : ST (Paging M) Z :=
  r ← guarded_user_read_u64_in_root im user_root kernel_root ptr;
  mret (match r with Okay v => v | Err _ => 0 end).

(** The four words of a request. *)
Definition read_request (user_root kernel_root : PhysFrame) (user_rsp : Z) : ST (Paging M) (Z * Z * Z * Z) :=
  sysno ← read_or_0 user_root kernel_root (mailbox_slot user_rsp OFF_SYSNO);
  a0 ← read_or_0 user_root kernel_root (mailbox_slot user_rsp OFF_A0);
  a1 ← read_or_0 user_root kernel_root (mailbox_slot user_rsp OFF_A1);
  a2 ← read_or_0 user_root kernel_root (mailbox_slot user_rsp OFF_A2);
  mret (sysno, a0, a1, a2).

(** The answer, whose failure is ignored, and the way back to the user's root. *)
Definition answer (user_root kernel_root : PhysFrame) (user_rsp ret : Z) : ST (Paging M) unit :=
  paging_guarded_user_rw_u64_in_root im user_root kernel_root (mailbox_slot user_rsp OFF_RET) ret ;;
  paging_switch_address_space_quiet user_root.

Definition cache_demo_roots_if_needed : ST (Irq * Paging M) (option (PhysFrame * PhysFrame)) :=
  '(i, s) ← get;
  let u := DEMO_USER_ROOT_PHYS i in
  let k := DEMO_KERNEL_ROOT_PHYS i in
  if negb (u =? 0) && negb (k =? 0) then
    mret (Some (PhysFrame_from_index (u / PAGE_SIZE), PhysFrame_from_index (k / PAGE_SIZE)))
  else
    match peek_ring3_demo_roots s with
    | None => mret None
    | Some (user_root, kernel_root) =>
        ua ← lift_res (PhysFrame_start_address user_root);
        irq (modify (fun i => {| i with DEMO_USER_ROOT_PHYS := phys_u64 ua |})) ;;
        ka ← lift_res (PhysFrame_start_address kernel_root);
        irq (modify (fun i => {| i with DEMO_KERNEL_ROOT_PHYS := phys_u64 ka |})) ;;
        mret (Some (user_root, kernel_root))
    end.

Definition report_echo (user_root kernel_root : PhysFrame) (user_rsp : Z) : ST (Irq * Paging M) unit :=
  echo ← below_irq (read_or_0 user_root kernel_root (mailbox_slot user_rsp OFF_ECHO));
  irq (emergency_write_str " echo=" ;; emergency_write_hex_u64 echo ;; newline).

Definition report_frame (user_rip user_rsp : Z) : ST Irq unit :=
  emergency_write_str " rip=" ;; emergency_write_hex_u64 user_rip ;;
  emergency_write_str " rsp=" ;; emergency_write_hex_u64 user_rsp ;;
  newline.

Definition int80_handler_ring3_demo (user_rip user_rsp : Z) : ST (Irq * Paging M) Resume :=
  old ← irq fetch_add_int80;
  n ← lift_res (u64_add old 1);
  '(_, s) ← get;
  match peek_ring3_demo_roots s with
  | None =>
      irq (emergency_write_str "[INT80] demo_roots: NONE" ;; newline) ;;
      mret Halt
  | Some (user_root, kernel_root) =>
      if n =? 1 then
        '(sysno, a0, a1, a2) ← below_irq (read_request user_root kernel_root user_rsp);
        irq (emergency_write_str "[INT80] syscall enter" ;; newline ;; report_frame user_rip user_rsp ;;
             emergency_write_str " sysno=" ;; emergency_write_hex_u64 sysno ;;
             emergency_write_str " a0=" ;; emergency_write_hex_u64 a0 ;;
             emergency_write_str " a1=" ;; emergency_write_hex_u64 a1 ;;
             emergency_write_str " a2=" ;; emergency_write_hex_u64 a2 ;; newline) ;;
        let ret := if sysno =? 1 then u64_wrapping_add (u64_wrapping_add a0 a1) a2 else 0 in
        below_irq (answer user_root kernel_root user_rsp ret) ;;
        mret Iretq
      else if n =? 2 then
        irq (emergency_write_str "[INT80] verify user_echo" ;; newline ;; report_frame user_rip user_rsp) ;;
        report_echo user_root kernel_root user_rsp ;;
        below_irq (paging_switch_address_space_quiet user_root) ;;
        mret Iretq
      else
        irq (emergency_write_str "[INT80] final" ;; newline) ;;
        report_echo user_root kernel_root user_rsp ;;
        irq (emergency_write_str "[INT80] done -> halt" ;; newline) ;;
        mret Halt
  end.

#[local] Instance handler_ops : ArchOps (Paging M) := paging_ops im.

(** The paging part of the world, with the statics of the handlers. *)
Definition on_arch {X} (m : ST (Irq * Paging M) X) : ST (Irq * World (Paging M)) X :=
  zoom (fun p => (p.1, w_arch p.2)) (fun '(_, w) q => (q.1, {| w with w_arch := q.2 |})) m.

Definition report_sys31 (sysno ret : Z) : ST Irq unit :=
  if sysno =? 31 then
    c ← fetch_add_sys31;
    if c <? DBG_SYS31_LIMIT then
      emergency_write_str "[INT80] sys31 ret=" ;; emergency_write_hex_u64 ret ;; newline
    else mret tt
  else mret tt.

Definition int80_handler_mailbox (ft : Features) (user_rsp : Z) : ST (Irq * World (Paging M)) Resume :=
  roots ← on_arch cache_demo_roots_if_needed;
  match roots with
  | None =>
      irq (emergency_write_str "[INT80] roots: NONE" ;; newline) ;;
      mret Halt
  | Some (user_root, kernel_root) =>
      '(sysno, a0, a1, a2) ← on_arch (below_irq (read_request user_root kernel_root user_rsp));
      r ← with_kernel_state (mailbox_dispatch ft sysno a0 a1 a2);
      let ret := default 0 r in
      irq (report_sys31 sysno ret) ;;
      on_arch (below_irq (answer user_root kernel_root user_rsp ret)) ;;
      mret Iretq
  end.

(** The handler of the gate; [ring3_demo] is a build feature. *)
Definition int80_handler (ring3_demo : bool) (ft : Features) (user_rip user_rsp : Z) :
    ST (Irq * World (Paging M)) Resume :=
  if ring3_demo then on_arch (int80_handler_ring3_demo user_rip user_rsp)
  else int80_handler_mailbox ft user_rsp.

End handlers.
