(* ===== verification/System.v ===== *)
(** * The kernel on the machine

    The composition of the layers: paging over any machine that satisfies
    [X86Laws], from the tables of the bootloader through [kernel_main] to the
    tick loop; and the concrete machine of the witnesses. *)

From stdpp Require Import base list option gmap sets strings.
From Stdlib Require Import ZArith Lia.
From S2P Require Import Prelude Addr AddressSpace FrameAlloc Queues KTypes Endpoint EventLog KState ArchIface.
From S2P Require Import X86 RefMem Paging PagingInv PagingLaws PagingMap PagingArch PagingStart.
From S2P Require Import Sched Ipc Checks Kill Demo Syscall Tick IpcSpec.
From S2P Require Import Invariant IpcInv MemInv KillInv TickInv Boot.

Section system.
Context {M : Type} `{X86Laws M} (im : Image) (poff : Z) (boot : gset Z).

#[local] Instance paging_ops_here : ArchOps (Paging M) := paging_arch im.
#[local] Instance paging_laws_here : ArchLaws (Paging M) := paging_laws im poff boot.

(** What the memory map and the tables of the bootloader must satisfy: the usable
    frames lie in the window and hold no tables, and the kernel's demo page is
    free. *)
Record machine_ok (entry stack : Z) (map : list MemoryRegion) (s : Paging M) : Prop := {
  mo_loaded : loaded im poff boot entry stack s;
  mo_map : map_ok map;
  mo_reach f : f ∈ phys_frame <$> usable_frames map -> window_ok poff f;
  mo_unused f : f ∈ phys_frame <$> usable_frames map -> ~ root_tables (pg_cr3 s) [] (pg_mem s) f;
  mo_page : slot (pg_mem s) (pg_cr3 s) 0 !! kernel_page = None;
  mo_kpage : kernel_page ∉ boot }.

(** main.rs: paging starts, then the kernel runs behind the alias. *)
Definition boot_and_run (ft : Features) (entry stack : Z) (map : list MemoryRegion) (s : Paging M) :
    res (World (Paging M) * list string * list LogEvent) :=
  '(_, s') ← kernel_main im poff entry stack s;
  kernel_high_entry ft map s'.

Lemma machine_starts entry stack map s :
  machine_ok entry stack map s ->
  returns (kernel_main im poff entry stack) s (fun _ s' => start_ok map s' /\ pg_cr3 s' = pg_cr3 s).
Proof.
  intros [Hld Hmap Hreach Huse Hpage Hkp].
  eapply returns_mono; [by apply kernel_main_spec|].
  intros regs s' (Hr & Hc & _ & _ & _ & _ & _ & Hslot & Ht). split; [|done].
  split; [done|..]; change (Cr3_read s') with (pg_cr3 s'); rewrite ?Hc; try done.
  - intros f Hf Hg. by apply (Huse f Hf), Ht.
  - change (paging_kern_map boot (pg_cr3 s) s' !! kernel_page = None). unfold paging_kern_map.
    rewrite Hslot, lookup_fmap, fmap_None, map_lookup_filter_None. by left.
Qed.

End system.

(** ** The machine of the witnesses

    8 MiB of usable memory; the kernel's code, stack and data are three pages of
    the low half; the physical-memory window is at level-4 index 3. *)

#[local] Open Scope Z_scope.

Definition demo_memory : list MemoryRegion := [mkRegion 0x100000 0x900000 Usable].
Definition demo_kr : PhysFrame := mkPhysFrame 0x10.
Definition demo_off : Z := 0x18000000000.
Definition demo_boot : gset Z := {[0x200; 0x201; 0x202]}.
Definition demo_entry : Z := 0x200000.
Definition demo_stack : Z := 0x201ff0.

Definition demo_image : Image := mkImage
  (fun k => match k with
            | PF_GUARD_ACTIVE => 0x202000 | PF_GUARD_RECOVER_RIP => 0x202008 | PF_GUARD_HIT => 0x202010
            | LAST_PF_VALID => 0x202018 | LAST_PF_ADDR => 0x202020 | LAST_PF_ERR => 0x202028
            | LAST_PF_RIP => 0x202030 | LAST_PF_RSP => 0x202038 | LAST_PF_IS_USER => 0x202040
            end)
  0xfffffe0000200100 0x200200.

Definition demo_low : gmap Z Leaf :=
  {[0x200 := mkLeaf (mkPhysFrame 0x1000) 0x3 true; 0x201 := mkLeaf (mkPhysFrame 0x1001) 0x3 true;
    0x202 := mkLeaf (mkPhysFrame 0x1002) 0x3 true]}.

Definition demo_window : gmap Z Leaf :=
  list_to_map ((fun k => (Z.of_nat k, mkLeaf (mkPhysFrame (Z.of_nat k)) 0x3 true)) <$> seq 0 0x900).

Definition demo_mem : RefMem := mkRefMem
  {[(0x10, 0%nat) := mkPte 0x11000 0x3; (0x10, 3%nat) := mkPte 0x12000 0x3]}
  {[0x11000 := demo_low; 0x12000 := demo_window]} ∅.

(** Low addresses until the move, then the alias. *)
Definition demo_context (n : nat) : Z * Z * Z :=
  if (n <? 2)%nat then (0x200010, 0x201fe0, 0x201ff0)
  else (0xfffffe0000200010, 0xfffffe0000201f00, 0xfffffe0000201f80).

Definition demo_loaded_paging : Paging RefMem :=
  mkPaging demo_mem demo_kr demo_context 0 false 0 0 0 0 0 0 0%nat 0 0 (fun _ => 0).

#[export] Instance demo_ops : ArchOps (Paging RefMem) := paging_arch demo_image.
#[export] Instance demo_laws : ArchLaws (Paging RefMem) := paging_laws demo_image demo_off demo_boot.

(** The state the kernel runs in. *)
Definition demo_arch : Paging RefMem :=
  match kernel_main demo_image demo_off demo_entry demo_stack demo_loaded_paging with
  | Ok (_, s) => s
  | Panicked _ => demo_loaded_paging
  end.
Definition demo_roots : list PhysFrame := [mkPhysFrame 0x100; mkPhysFrame 0x101].

Lemma demo_usable : usable_frames demo_memory = (fun k => 0x1000 * (0x100 + Z.of_nat k))%Z <$> seq 0 2048.
Proof. vm_compute. reflexivity. Qed.

Lemma demo_read j :
  read_entry demo_mem demo_kr j
  = if decide (j = 0%nat) then mkPte 0x11000 0x3 else if decide (j = 3%nat) then mkPte 0x12000 0x3 else pte_unused.
Proof.
  simpl. unfold rm_entry. simpl. destruct (decide (j = 0%nat)) as [->|Hne]; [done|].
  rewrite lookup_insert_ne by congruence. destruct (decide (j = 3%nat)) as [->|Hne2]; [done|].
  by rewrite lookup_singleton_ne by congruence.
Qed.

Lemma demo_low_ok va : (0x200000 <= va < 0x203000)%Z ->
  low_ok demo_boot demo_mem demo_kr va (0x1000000 + (va - 0x200000)).
Proof.
  intros Hva.
  assert (Hc : canonical va) by (left; lia).
  assert (Hi : pml4_index va = 0%nat).
  { rewrite pml4_index_eq by lia. rewrite Z.div_small by lia. done. }
  assert (Hp : slot_page va = (va / PAGE_SIZE)%Z).
  { unfold slot_page. apply Z.mod_small. unfold PAGE_SIZE.
    split; [apply Z.div_pos; lia|apply Z.div_lt_upper_bound; lia]. }
  assert (Hr : (0x200 <= va / PAGE_SIZE < 0x203)%Z).
  { unfold PAGE_SIZE. split; [apply Z.div_le_lower_bound; lia|apply Z.div_lt_upper_bound; lia]. }
  pose proof (Z.div_mod va PAGE_SIZE ltac:(done)) as Hd. unfold PAGE_SIZE in Hd.
  split; [done|]. rewrite Hi, Hp. split; [lia|].
  assert (Hcases : (va / PAGE_SIZE = 0x200 \/ va / PAGE_SIZE = 0x201 \/ va / PAGE_SIZE = 0x202)%Z) by lia.
  split.
  - exists (mkLeaf (mkPhysFrame (0xe00 + va / PAGE_SIZE)) 0x3 true). simpl.
    split; [|unfold PAGE_SIZE in *; lia].
    destruct Hcases as [E|[E|E]]; rewrite E; vm_compute; reflexivity.
  - intros _. destruct Hcases as [E|[E|E]]; rewrite E; apply (bool_decide_unpack _); vm_compute; done.
Qed.

Lemma demo_tables_loaded : tables_loaded demo_off demo_boot demo_kr demo_mem.
Proof.
  split; try done.
  - intros j _. rewrite demo_read. by repeat case_decide.
  - intros j _ [Hp Ht]. rewrite demo_read in Hp, Ht. revert Hp Ht. by repeat case_decide.
  - intros j _. destruct (decide (j = 0%nat)) as [->|Hj0]; [by left|].
    destruct (decide (j = 3%nat)) as [->|Hj3]; [right|].
    + intros g [_ Hg] [_ Hg']. change (g = phys_frame 0x12000) in Hg. change (g = phys_frame 0x11000) in Hg'.
      by rewrite Hg in Hg'.
    + rewrite (demo_read j), !decide_False by done. done.
  - intros p l Hp Hl. exfalso. apply Hp. change (demo_low !! p = Some l) in Hl. unfold demo_low in Hl.
    apply lookup_insert_Some in Hl as [[<- _]|[_ Hl]]; [set_solver|].
    apply lookup_insert_Some in Hl as [[<- _]|[_ Hl]]; [set_solver|].
    apply lookup_singleton_Some in Hl as [<- _]. set_solver.
Qed.

Lemma demo_loaded : loaded demo_image demo_off demo_boot demo_entry demo_stack demo_loaded_paging.
Proof.
  assert (Hlow : forall va, (0x200000 <= va < 0x203000)%Z -> exists pa, pa <> 0%Z /\
    low_ok demo_boot demo_mem demo_kr va pa).
  { intros va Hva. eexists. split; [|by apply demo_low_ok]. lia. }
  split; simpl; try done.
  - split; [done|vm_compute; lia|]. unfold demo_off, USER_PML4_INDEX. vm_compute. lia.
  - apply demo_tables_loaded.
  - by apply Hlow.
  - by apply Hlow.
  - intros k. eexists. apply demo_low_ok. destruct k; simpl; lia.
  - split; [|done]. right. done.
  - eexists. by apply demo_low_ok.
  - vm_compute. intuition (try done); lia.
  - intros n. change (demo_context _) with (0xfffffe0000200010, 0xfffffe0000201f00, 0xfffffe0000201f80)%Z.
    split; [|split; [|right; done]].
    + eexists. split; [|exists 0x200010%Z; split; [by apply demo_low_ok|reflexivity]]. done.
    + eexists. split; [|exists 0x201f00%Z; split; [by apply demo_low_ok|reflexivity]]. done.
Qed.

Lemma demo_machine : machine_ok demo_image demo_off demo_boot demo_entry demo_stack demo_memory demo_loaded_paging.
Proof.
  assert (Hf : forall f, f ∈ phys_frame <$> usable_frames demo_memory -> (0x100 <= frame_number f < 0x900)%Z).
  { intros f. rewrite demo_usable. intros (x & -> & (k & -> & Hk)%list_elem_of_fmap)%list_elem_of_fmap.
    apply elem_of_seq in Hk. unfold phys_frame, PAGE_SIZE. simpl. rewrite Z.mul_comm, Z.div_mul by lia. lia. }
  split.
  - apply demo_loaded.
  - split; [repeat constructor; vm_compute; congruence|].
    clear Hf. intros [|i] [|j] r1 r2 H1 H2 Hne; simplify_eq/=.
  - intros f Hin%Hf. unfold window_ok, demo_off, PAGE_SIZE. lia.
  - intros f Hin%Hf [->%list_elem_of_singleton|[(j & _ & Hp & Ht)|(u & Hu & _)]]; [simpl in Hin; lia| |by apply elem_of_nil in Hu].
    change (read_entry (pg_mem demo_loaded_paging) (pg_cr3 demo_loaded_paging) j) with (read_entry demo_mem demo_kr j) in *.
    rewrite demo_read in Hp, Ht. destruct (decide (j = 0%nat)); [|destruct (decide (j = 3%nat)); [|done]].
    + change (f = phys_frame 0x11000) in Ht. subst f. by destruct Hin.
    + change (f = phys_frame 0x12000) in Ht. subst f. by destruct Hin.
  - done.
  - apply (bool_decide_unpack _). vm_compute. done.
Qed.

Lemma demo_start : start_ok demo_memory demo_arch /\ Cr3_read demo_arch = demo_kr.
Proof.
  destruct (machine_starts _ _ _ _ _ _ _ demo_machine) as (regs & s & Hrun & Hs & Hc).
  unfold demo_arch. rewrite Hrun. exact (conj Hs Hc).
Qed.

(** ** Runs of the kernel *)

(** The world after [n] ticks. *)
Definition demo_run (ft : Features) (n : nat) : res (World (Paging RefMem)) :=
  w ← KernelState_new ft demo_memory demo_arch;
  '(_, w) ← ks bootstrap w;
  '(_, w) ← tick_loop ft n w;
  Ok w.
Definition demo_world (ft : Features) (n : nat) : World (Paging RefMem) :=
  match demo_run ft n with
  | Ok w => w
  | Panicked _ => mkWorld (initial_state (mkPhysMem (mkAlloc [] 0%nat 0 0 false)) []) demo_arch true false 0 false
  end.

Lemma demo_world_inv ft n :
  ring3_mailbox ft = false -> (n <= 200)%nat ->
  Inv demo_kr demo_roots (TICK_COST * Z.of_nat n) (2041 - n * TICK_FRAMES)%nat (demo_world ft n).
Proof.
  intros Hft Hn.
  pose proof demo_start as [Hstart Hcr].
  destruct (new_spec ft demo_memory demo_arch 2046%nat Hstart) as (w0 & Hnew & Hinv0).
  { rewrite demo_usable, length_fmap, length_seq. lia. }
  assert (Hroots : phys_frame <$> take 2 (usable_frames demo_memory) = demo_roots)
    by (rewrite demo_usable; vm_compute; reflexivity).
  rewrite Hroots, Hcr in Hinv0. clear Hroots.
  destruct (bootstrap_spec _ _ _ _ _ Hinv0) as ([] & w1 & Hboot & Hinv1); [lia|].
  destruct (tick_loop_spec ft _ _ _ _ w1 n Hft Hinv1) as (rs & w & Hrun & _ & Hinv).
  { unfold TICK_COST, u64_max. lia. }
  { unfold TICK_FRAMES, CALL_FRAMES, PAGE_TABLE_FRAMES. lia. }
  assert (Hw : demo_world ft n = w).
  { unfold demo_world, demo_run. by rewrite Hnew, Ok_bind, Hboot, Ok_bind, Hrun. }
  rewrite Hw. eapply Inv_mono; [exact Hinv|lia|lia].
Qed.

Definition demo_task (ft : Features) (n i : nat) : Task :=
  default (new_task 0 Dead 0 0%nat) (tasks (w_ks (demo_world ft n)) !! i).

(** The fault-injection features of the witnesses. *)
Definition closing_features : Features :=
  {| default_features with dead_partner_test := true; endpoint_close_test := true |}.

