(* ===== verification/Theorems.v ===== *)
(** * The properties of the kernel

    The theorems about the whole kernel, stated over every architecture that
    satisfies [ArchLaws], each with a witness on the reference machine. *)

From stdpp Require Import base list option gmap sets strings.
From Stdlib Require Import ZArith Lia.
From S2P Require Import Prelude Addr AddressSpace FrameAlloc Queues KTypes Endpoint EventLog KState.
From S2P Require Import ArchIface Sched Ipc Checks Kill Demo Syscall Tick IpcSpec.
From S2P Require Import Invariant IpcInv IpcRefine MemInv CloseInv KillInv CheckInv TickInv Boot Reach TurnInv Rpc.
From S2P Require Import Dump DumpInv.
From S2P Require Import X86 RefMem Paging PagingInv PagingArch PagingStart System.

(** ** Statements *)

Section theorems.
Context {A : Type} `{ArchLaws A} (kr : PhysFrame) (us : list PhysFrame) (ft : Features).

(** C2: the kernel is safe under any programs.  In a build without ring3_mailbox,
    whatever its other features, on a machine the kernel can start on
    ([start_ok]) with counters and frames for n + 1 events: after
    [KernelState::new], let the running user task make any system calls on user
    pages, the timer tick or preempt at any moment, and live user tasks be
    killed, in any order, up to n events.  Every state reached satisfies the
    invariant, no check on the way reported anything and the checker reports
    nothing now, and the kernel cannot get stuck: every event that is enabled
    there returns without a panic.  That includes the builds with
    evil_double_map and evil_unmap_not_mapped, of which README.md says that they
    panic: the code returns an error to the task (as FEATURES.md says). *)
Theorem safe_under_any_programs (map : list MemoryRegion) (a : A) (n : nat)
    (Hft : ring3_mailbox ft = false) (Hstart : start_ok map a)
    (Hroom : (cost (S n) <= u64_max)%Z) (Hframes : S n * TICK_FRAMES + 2 <= length (usable_frames map)) :
  exists w0, KernelState_new ft map a = Ok w0 /\
    forall evs reports w, length evs <= n -> kruns ft w0 evs reports w ->
      Inv (Cr3_read a) (phys_frame <$> take 2 (usable_frames map)) (cost n) TICK_FRAMES w /\
      reports = [] /\ silent debug_check_invariants (w_ks w) /\
      forall ev, enabled w ev -> exists w', kstep ft w ev [] w'.
Proof.
  destruct (new_spec ft map a (S n * TICK_FRAMES) Hstart Hframes) as (w0 & Hnew & Hinv0).
  exists w0. split; [done|]. intros evs reports w Hlen Hrun. rewrite cost_S in Hroom.
  assert (Hc : (cost (length evs) <= cost n)%Z) by (unfold cost, TICK_COST; lia).
  assert (Hf : length evs * TICK_FRAMES <= n * TICK_FRAMES) by (apply Nat.mul_le_mono_r; lia).
  destruct (kruns_inv ft _ _ Hft 0 _ _ _ _ _ Hinv0 Hrun) as [-> Hinv]; [unfold TICK_COST in *; lia|rewrite Nat.mul_succ_l; lia|].
  assert (Hinv' : Inv (Cr3_read a) (phys_frame <$> take 2 (usable_frames map)) (cost n) TICK_FRAMES w)
    by (eapply Inv_mono; [exact Hinv|lia|rewrite Nat.mul_succ_l; lia]).
  split_and!; try done.
  - by eapply debug_check_silent.
  - intros ev Hen. destruct (event_spec ft _ _ Hft _ _ _ ev Hinv') as (r & w' & Hcall & -> & _); try done.
    exists w'. by constructor.
Qed.

(** C10: priority inversion is bounded.  A reply or a kill can make a task ready
    that has a higher priority than the running one, which keeps the processor.
    In a build without ring3_mailbox and dead_partner_test, from any state of the
    invariant with a positive quantum and with counters and free frames for a
    quantum of ticks: some number of ticks, at most the quantum, runs without a
    panic or a report, after which the kernel halts or (at least one tick later)
    no ready user task has a higher priority than the running task, whatever
    calls are pending: a task cannot extend its slice by calls, by faults or by
    replying. *)
Theorem priority_inversion_bounded (B : Z) (F : nat) (w : World A)
    (Hft : ring3_mailbox ft = false) (Hdp : dead_partner_test ft = false) (Hinv : Inv kr us B F w)
    (Hq : (0 < quantum (w_ks w))%Z) (Hroom : (B + cost (Z.to_nat (quantum (w_ks w))) <= u64_max)%Z)
    (Hframes : Z.to_nat (quantum (w_ks w)) * TICK_FRAMES <= F) :
  exists k w', k <= Z.to_nat (quantum (w_ks w)) /\ kruns ft w (replicate k EvTick) [] w' /\
    (should_halt (w_ks w') = true \/ 1 <= k /\ settled (w_ks w')).
Proof.
  destruct (runs_on_current kr us _ _ _ Hinv) as (t & Ht & _ & Hon).
  pose proof (ki_tasks _ _ _ _ _ (in_k _ _ _ _ _ Hinv)) as Hb. rewrite Forall_lookup in Hb.
  destruct (Hb _ _ Ht) as [_ Hsl].
  destruct (Z.to_nat (quantum (w_ks w))) as [|n] eqn:Hn; [lia|].
  destruct (slice_runs_out kr us ft Hft Hdp n B F w _ Hinv Hon) as (k & w' & Hk & Hrun & Hend); [lia|done|done|].
  exists k, w'. split_and!; try done. destruct Hend as [|[Hk1 Hc]]; [by left|right; split; [done|]].
  assert (Hlen : length (replicate k EvTick) <= S n) by by rewrite length_replicate.
  destruct (kruns_inv ft kr us Hft B F w _ _ w' Hinv Hrun) as [_ Hinv'].
  - rewrite length_replicate. unfold cost, TICK_COST in *. lia.
  - rewrite length_replicate. etransitivity; [|exact Hframes]. by apply Nat.mul_le_mono_r.
  - by eapply chosen_settled.
Qed.

(** The normal start of the kernel runs to its end.  Given a memory map of
    non-overlapping usable regions with enough frames, and an architecture
    that keeps its laws, [kernel_high_entry] constructs the kernel, runs 120
    ticks and dumps the log without any panic (no out-of-bounds access, no
    overflow, no failed [expect], no fail-stop), the run-time checker never
    reports a violation, and the final state satisfies the invariant.  This
    holds for every combination of the fault-injection features. *)
Theorem kernel_runs_to_the_end (map : list MemoryRegion) (a : A)
    (Hft : ring3_mailbox ft = false) (Hloop : ring3_mailbox_loop ft = false) (Hstart : start_ok map a)
    (Hframes : 120 * TICK_FRAMES + 7 <= length (usable_frames map)) :
  exists w events, kernel_high_entry ft map a = Ok (w, [], events) /\
    Inv (Cr3_read a) (phys_frame <$> take 2 (usable_frames map)) (120 * TICK_COST) 0 w /\
    events = dumped_events (w_ks w).
Proof. by apply kernel_run_spec. Qed.

(** C3: a tick keeps the invariant.  In a build without ring3_mailbox, whatever its
    other features, from any state of the invariant with room in the counters
    for a tick's events and with the frames a tick may take still free
    (TICK_FRAMES): the tick returns (it never panics), the checker that ends it
    reports nothing, and the invariant holds again: the task states, the ready
    queue, the endpoint queues, the address spaces and the page tables still
    agree, and the current task is running.  The double map and the unmap of the
    evil_double_map and evil_unmap_not_mapped builds, which README.md says must
    panic, end as error codes; without free frames the table and the page tables
    would part (syscall.rs:164). *)
Theorem tick_keeps_invariant (B : Z) (F : nat) (w : World A)
    (Hft : ring3_mailbox ft = false) (Hinv : Inv kr us B F w)
    (Hroom : (B + TICK_COST <= u64_max)%Z) (Hframes : TICK_FRAMES <= F) :
  exists w', tick ft w = Ok ([], w') /\ Inv kr us (B + TICK_COST) (F - TICK_FRAMES) w'.
Proof. destruct (tick_spec kr us ft Hft B F w Hinv Hroom Hframes) as (r & w' & Hrun & -> & Hw'). eauto. Qed.

(** C6: IPC implements its specification.  In a build without ring3_mailbox, in a
    state of the invariant with room in the counters, a receive, send or reply
    of the running task, with its fast path, slow path, queues, wake-ups and the
    task switch, returns, is a step of the abstract specification of docs/IPC.md,
    and keeps the invariant; in particular a message reaches exactly the task
    that waits for it, a sender awaits the reply of the task that received its
    message, a reply wakes exactly a task that awaits it, a second receiver is
    refused, and a call on a closed endpoint fails with its error. *)
Theorem ipc_refines_spec (B : Z) (F : nat) (w : World A) (c : ipc_call)
    (Hft : ring3_mailbox ft = false) (Hinv : Inv kr us B F w) (Hroom : (B + 2 <= u64_max)%Z) :
  exists t w', tasks (w_ks w) !! current_task (w_ks w) = Some t /\
    do_call ft c w = Ok (tt, w') /\
    ipc_spec (current_task (w_ks w)) (view t) c (abs (w_ks w)) (abs (w_ks w')) /\
    Inv kr us (B + 2) F w'.
Proof.
  destruct (Inv_current _ _ _ _ _ Hinv) as (t & Ht & Hr & _).
  destruct (ipc_call_spec kr us ft Hft B w t c) as ([] & w' & Hrun & (Hk & Hrn & Hst) & Hspec);
    [by eapply Inv_calling|].
  exists t, w'. split_and!; try done. by eapply Inv_core_step.
Qed.

(** C7: a request gets its reply.  In a build without ring3_mailbox, in a state of
    the invariant with room in the counters, two user tasks that do not wait use
    an open endpoint nobody waits on: the client sends [m], the server receives
    and replies [r], with task switches in between.  Whichever of the two comes
    first (the message is queued and fetched, or handed over at once), the net
    effect is the same: the server has got [m], the client has got [r], both can
    run, and nothing else changed for any task or endpoint. *)
Theorem request_reply (B n : Z) (F : nat) (w w' : World A) (client_first : bool) (i j : nat) (ti tj : Task)
    (ep : EndpointId) (m r : Z)
    (Hft : ring3_mailbox ft = false) (Hinv : Inv kr us B F w) (Hroom : (B + n <= u64_max)%Z)
    (Hi0 : i <> TASK0_INDEX) (Hj0 : j <> TASK0_INDEX) (Hij : i <> j)
    (Hi : tasks (w_ks w) !! i = Some ti) (Hj : tasks (w_ks w) !! j = Some tj)
    (Hri : status ti = Runnable) (Hrj : status tj = Runnable)
    (Hopen : is_closed <$> endpoints (w_ks w) !! ep = Some false) (Hquiet : quiet ep (a_tasks (abs (w_ks w))))
    (Hcalls : calls ft w (rpc_calls client_first i j ep m r) n w') :
  Inv kr us (B + n) F w' /\
  abs (w_ks w') = mkAIpc (<[j := mkATask Runnable (Some m) (t_last_reply tj)]>
    (<[i := mkATask Runnable (t_last_msg ti) (Some r)]> (a_tasks (abs (w_ks w))))) (a_closed (abs (w_ks w))).
Proof.
  destruct (calls_refine ft kr us Hft B F w _ n w' Hinv Hcalls Hroom) as [Hspec Hinv']. split; [done|].
  apply (rpc_spec i j ep m r (view <$> tasks (w_ks w)) (is_closed <$> endpoints (w_ks w)) (view ti) (view tj)) in Hspec;
    try done; rewrite ?list_lookup_fmap, ?Hi, ?Hj; try done.
  - rewrite Hspec. unfold rpc_effect, view. simpl. by rewrite Hri, Hrj.
  - destruct (endpoints (w_ks w) !! ep) as [e|] eqn:He; [|done]. apply lookup_lt_Some in He.
    by rewrite (ci_eps_len _ _ _ _ _ (ki_core _ _ _ _ _ (in_k _ _ _ _ _ Hinv))) in He.
Qed.

(** C8: killing a task is contained.  Killing a live user task returns and
    keeps the invariant; the task is dead, its address space and its page
    tables are empty while every other address space is as it was; on the
    level of the specification exactly this happens: the endpoints it owns are
    closed and whoever waits on one is released with the closed-endpoint
    error, whoever else awaits its reply is released with the dead-partner
    error, and no other task notices; and the kernel asks to halt when no user
    task is left. *)
Theorem kill_refines_spec (B : Z) (F : nat) (w : World A) (i : nat) (t : Task) (reason : TaskKillReason)
    (Hinv : Inv kr us B F w) (Hroom : (B + 2 <= u64_max)%Z)
    (Ht : tasks (w_ks w) !! i = Some t) (Hlive : t_state t <> Dead) (Huser : i <> TASK0_INDEX) :
  exists w', kill_task i reason w = Ok (tt, w') /\ Inv kr us (B + 2) F w' /\
    abs (w_ks w') = kill_spec i (owned_endpoints (id_of i) (endpoints (w_ks w))) (abs (w_ks w)) /\
    (exists asp r, address_spaces (w_ks w') = <[i := asp]> (address_spaces (w_ks w)) /\
       as_map asp = ∅ /\ us !! (i - 1) = Some r /\ user_map (w_arch w') r = ∅) /\
    (halt_dumped_no_user_tasks (w_ks w) = false ->
     (forall j, j < MAX_TASKS -> ~ alive_user (w_ks w') j) -> should_halt (w_ks w') = true).
Proof.
  pose proof Hinv as [Hk Hm Hc3 Hr HF].
  destruct (kill_task_spec kr us B F w i t reason) as ([] & w' & Hrun & [Hinv' Habs Hd (asp & Has & He) Hh]); try done.
  exists w'. split_and!; try done.
  pose proof (lookup_bound _ _ _ (ki_shape _ _ _ _ _ Hk) Ht) as Hib.
  destruct (user_aspace _ _ _ _ _ i (in_k _ _ _ _ _ Hinv')) as (asp' & r & Hasp' & _ & _ & Hus & _);
    [unfold TASK0_INDEX in *; lia|].
  assert (asp' = asp) as ->.
  { rewrite Has in Hasp'. apply list_lookup_insert_Some in Hasp' as [(_ & ? & _)|[? _]]; done. }
  exists asp, r. split_and!; try done.
  rewrite (mi_agree _ _ _ _ _ (in_m _ _ _ _ _ Hinv') i asp r); try done. unfold TASK0_INDEX in *. lia.
Qed.

(** C9: the scheduler runs the right task.  A switch returns, keeps the
    invariant, puts a preempted user task at the end of the queue and then runs
    the first of the ready tasks of highest priority, which leaves the queue;
    if there is none the idle task runs.  IPC does not notice the switch. *)
Theorem schedule_runs_best (B : Z) (F : nat) (w : World A)
    (Hinv : Inv kr us B F w) (Hroom : (B + 1 <= u64_max)%Z) :
  exists w', schedule_next_task w = Ok (tt, w') /\ Inv kr us (B + 1) F w' /\
    abs (w_ks w') = abs (w_ks w) /\
    (if decide (candidates (w_ks w) = [])
     then current_task (w_ks w') = TASK0_INDEX
     else best (tasks (w_ks w)) (candidates (w_ks w)) (current_task (w_ks w')) /\
       candidates (w_ks w) ≡ₚ current_task (w_ks w') :: rq (w_ks w')).
Proof.
  pose proof Hinv as [Hk Hm Hc3 Hr HF]. pose proof Hk as [Hs Hci _ _ Hcnt _ _].
  destruct (Inv_current _ _ _ _ _ Hinv) as (t & Ht & Hrn & _).
  destruct (schedule_inv kr us strict w B Hk (mi_ready _ _ _ _ _ Hm) ltac:(lia))
    as ([] & w' & Hrun & Hk' & Hr' & Hst & Habs).
  exists w'. split_and!; try done; [by eapply Inv_core_step|].
  destruct (schedule_next_task_spec kr us w t) as ([] & w2 & Hrun2 & _ & Hch); try done.
  - by eapply KInv_aspaces.
  - apply Hm.
  - destruct Hcnt. lia.
  - intros _. eapply core_not_queued; [done..|congruence].
  - apply Hci.
  - intros Hd. destruct (core_lookup _ _ _ _ _ Hci TASK0_INDEX TASK0_lt) as [t0 Ht0].
    rewrite (state_of_lookup _ _ _ Ht0) in Hd. injection Hd as Hd.
    by destruct (tk_dead _ _ (ci_task _ _ _ _ _ Hci _ _ Ht0) Hd).
  - assert (w2 = w') as -> by congruence. destruct (decide _); [apply Hch|].
    destruct Hch as [Hb Hp]. split; [|done]. by apply preempted_best.
Qed.

(** A memory step of task [i] leaves the page tables of the others alone. *)
Lemma others_untouched B F w w' i asp' j r :
  Inv kr us B F w -> MemInv kr us None (w_ks w') (w_arch w') ->
  address_spaces (w_ks w') = <[i := asp']> (address_spaces (w_ks w)) ->
  0 < j < MAX_TASKS -> j <> i -> us !! (j - 1) = Some r ->
  user_map (w_arch w') r = user_map (w_arch w) r.
Proof.
  intros Hinv Hm' Has Hj Hne Hr. pose proof Hinv as [Hk Hm _ _ _].
  destruct (user_aspace _ _ _ _ _ j Hk Hj) as (asp & r' & Hasp & _ & _ & Hr' & _).
  rewrite (mi_agree _ _ _ _ _ Hm j asp r) by (done || lia).
  rewrite (mi_agree _ _ _ _ _ Hm' j asp r); [done|lia| |done].
  rewrite Has. by rewrite list_lookup_insert_ne.
Qed.

(** The effect of a memory call of task [i] that applies [act]: the return
    code and the new table are those of the map specification, the page tables
    of the task follow the table, and those of every other task stay. *)
Definition memory_effect (i : nat) (act : MemAction) (c : Z) (w w' : World A) : Prop :=
  exists asp asp' r, address_spaces (w_ks w) !! i = Some asp /\ us !! (i - 1) = Some r /\
    address_spaces (w_ks w') = <[i := asp']> (address_spaces (w_ks w)) /\
    (let '(res, m') := apply_spec act (as_map asp) in
     c = logical_ret res /\ as_map asp' = m' /\ user_map (w_arch w') r = m') /\
    forall j r', 0 < j < MAX_TASKS -> j <> i -> us !! (j - 1) = Some r' ->
      user_map (w_arch w') r' = user_map (w_arch w) r'.

Lemma memory_effect_intro B F n w w' i act c asp asp' :
  Inv kr us B F w -> 0 < i < MAX_TASKS -> address_spaces (w_ks w) !! i = Some asp ->
  mem_step kr us None strict B n w w' ->
  address_spaces (w_ks w') = <[i := asp']> (address_spaces (w_ks w)) ->
  (let '(res, m') := apply_spec act (as_map asp) in c = logical_ret res /\ as_map asp' = m') ->
  memory_effect i act c w w'.
Proof.
  intros Hinv Hi Hasp Hst Has Hspec. pose proof Hinv as [Hk Hm _ _ _].
  destruct (user_aspace _ _ _ _ _ i Hk Hi) as (asp0 & r & Hasp0 & _ & _ & Hus & _).
  exists asp, asp', r. split_and!; try done.
  - destruct (apply_spec act (as_map asp)) as [res m']. destruct Hspec as [-> <-]. split_and!; try done.
    apply (mi_agree _ _ _ _ _ (ms_mem _ _ _ _ _ _ _ _ Hst) i asp' r); [lia| |done].
    rewrite Has. apply list_lookup_insert_eq. by eapply lookup_lt_Some.
  - intros j r' Hj Hne Hr'. eapply others_untouched; [done|apply Hst|done..].
Qed.

(** C11: the page-map system call.  In a state of the invariant, for a live user
    task, a page of the user slot, user flags and the frames of a call still
    free (CALL_FRAMES, without which the call can leave the table and the page
    tables different), the call returns; its code is OK exactly when the page was
    free and the table had room, and otherwise the error of the table with
    nothing changed; on success the page is mapped to a valid frame in the table
    and in the page tables of this task alone; the invariant is kept.  A double
    map and a full table are errors the task sees, not the fail-stop panic that
    README.md describes. *)
Theorem page_map_refines_spec (B : Z) (F : nat) (w : World A) (i : nat) (t : Task) (p : VirtPage)
    (fl : PageFlags) (Hinv : Inv kr us B F w) (Huser : 0 < i < MAX_TASKS)
    (Ht : tasks (w_ks w) !! i = Some t) (Hlive : t_state t <> Dead) (Hp : page_ok p)
    (Hfl : user_flags fl) (Hframes : CALL_FRAMES <= F) :
  exists c w' f, syscall_page_map i p fl w = Ok (c, w') /\ frame_ok f /\
    memory_effect i (Map p f fl) c w w' /\ Inv kr us B (F - CALL_FRAMES) w'.
Proof.
  pose proof Hinv as [Hk Hm _ _ HF].
  destruct (user_aspace _ _ _ _ _ i Hk Huser) as (asp & r & Hasp & _).
  destruct (page_map_spec kr us None strict B w i t p fl asp) as (c & w' & Hrun & Hst & f & asp' & Hf & Has & Hspec);
    try done; [flia|].
  exists c, w', f. split_and!; try done; [by eapply memory_effect_intro|].
  by apply (Inv_mem_step _ _ B F _ w).
Qed.

(** C12: the page-unmap system call.  In a state of the invariant, for a live user
    task, a page of the user slot and the frames of a call still free, the call
    returns; its code is OK exactly when the page was mapped, and then the page
    is gone from the table and from the page tables of this task alone;
    otherwise it is the not-mapped error (no panic, against README.md) and
    nothing changes; the invariant is kept. *)
Theorem page_unmap_refines_spec (B : Z) (F : nat) (w : World A) (i : nat) (t : Task) (p : VirtPage)
    (Hinv : Inv kr us B F w) (Huser : 0 < i < MAX_TASKS)
    (Ht : tasks (w_ks w) !! i = Some t) (Hlive : t_state t <> Dead) (Hp : page_ok p)
    (Hframes : CALL_FRAMES <= F) :
  exists c w', syscall_page_unmap i p w = Ok (c, w') /\
    memory_effect i (Unmap p) c w w' /\ Inv kr us B (F - CALL_FRAMES) w'.
Proof.
  pose proof Hinv as [Hk Hm _ _ HF].
  destruct (user_aspace _ _ _ _ _ i Hk Huser) as (asp & r & Hasp & _).
  destruct (page_unmap_spec kr us None strict B w i t p asp) as (c & w' & Hrun & Hst & asp' & Has & Hspec);
    try done; [flia|].
  exists c, w'. split_and!; try done; [by eapply memory_effect_intro|].
  eapply Inv_mono; [exact (Inv_mem_step _ _ B F _ w w' Hinv Hst)|lia|flia].
Qed.

(** C20: closing an endpoint.  It returns and keeps the invariant; the endpoint
    is closed and the others are as they were; every task that waited on it, as
    a receiver, a sender or for a reply, is ready with the closed-endpoint
    error as its reply, and every other task is unchanged; afterwards nobody
    waits on the endpoint. *)
Theorem close_endpoint_rescues (B : Z) (F : nat) (w : World A) (ep : EndpointId)
    (Hinv : Inv kr us B F w) (Hep : ep < MAX_ENDPOINTS) :
  exists s', close_endpoint_and_rescue_waiters ep (w_ks w) = Ok (tt, s') /\
    KInv strict kr us B s' /\
    is_closed <$> endpoints s' = <[ep := true]> (is_closed <$> endpoints (w_ks w)) /\
    Forall2 (fun t t' =>
      if decide (t_blocked_reason t ≫= reason_ep = Some ep)
      then t_state t' = Ready /\ t_blocked_reason t' = None /\
           t_last_reply t' = Some IPC_ERR_ENDPOINT_CLOSED /\ t_last_msg t' = t_last_msg t
      else t' = t) (tasks (w_ks w)) (tasks s').
Proof.
  pose proof (in_k _ _ _ _ _ Hinv) as Hk.
  destruct (core_endpoint _ _ _ _ _ (ki_core _ _ _ _ _ Hk) ep Hep) as (e & He & _).
  destruct (close_endpoint_spec kr us strict B (w_ks w) ep e Hk eq_refl He)
    as ([] & s' & Hrun & [Hk' Hf Hcalm Hcur Hcl Hts Hown]).
  exists s'. split_and!; try done.
  apply Forall2_same_length_lookup_2; [by eapply Forall2_length|]. intros i t t' Ht Ht'.
  pose proof (Forall2_lookup_lr _ _ _ _ _ _ Hts Ht Ht') as Hr. case_decide as Hd.
  - destruct Hr as [->|(r & Hr & Hat & Hmsg & Hst & Hre & Hrep)]; [|done]. exfalso.
    destruct (t_blocked_reason t) as [r|] eqn:Hr; [|done]. simpl in Hd.
    destruct (core_endpoint _ _ _ _ _ (ki_core _ _ _ _ _ Hk') ep Hep) as (e' & He' & _).
    apply (ci_closed _ _ _ _ _ (ki_core _ _ _ _ _ Hk') ep e' i r); try done.
    + assert (Hc : (is_closed <$> endpoints s') !! ep = Some true).
      { rewrite Hcl. apply list_lookup_insert_eq. rewrite length_fmap. by eapply lookup_lt_Some. }
      rewrite list_lookup_fmap, He' in Hc. by injection Hc.
    + by rewrite (reason_of_lookup _ _ _ Ht').
  - destruct Hr as [->|(r & Hr & Hat & _)]; [done|]. destruct Hd. by rewrite Hr.
Qed.

(** C4: the boot establishes the invariant.  On a machine the kernel can start on
    ([start_ok]: paging ready, a valid memory map whose usable frames the window
    reaches and that hold no tables, the kernel's demo page free) with at least
    F + 2 usable frames, [KernelState::new] returns a state that satisfies the
    invariant, with the counters at zero and F frames left; the user roots are
    the first two usable frames. *)
Theorem boot_establishes_invariant (map : list MemoryRegion) (a : A) (F : nat)
    (Hstart : start_ok map a) (Hframes : F + 2 <= length (usable_frames map)) :
  exists w, KernelState_new ft map a = Ok w /\
    Inv (Cr3_read a) (phys_frame <$> take 2 (usable_frames map)) 0 F w.
Proof. by apply new_spec. Qed.

(** C23: the run-time checker is sound for the invariant: in every state that
    satisfies it [debug_check_invariants] returns, changes nothing and reports
    nothing. *)
Theorem checker_is_silent (B : Z) (F : nat) (w : World A) (Hinv : Inv kr us B F w) :
  debug_check_invariants (w_ks w) = Ok ([], w_ks w).
Proof. by eapply debug_check_silent. Qed.

(** What the invariant says of a mapped frame. *)
Lemma isolated_in_inv B F w i asp r p f fl :
  Inv kr us B F w -> 0 < i < MAX_TASKS -> address_spaces (w_ks w) !! i = Some asp -> as_root_page_frame asp = Some r ->
  user_map (w_arch w) r !! p = Some (f, fl) ->
  (0 <= p < 2 ^ 27)%Z /\ PageFlags_contains fl USER = true /\
  ~ arch_tables kr us (w_arch w) f /\ (f ∉ free_frames (phys_mem (w_ks w))) /\
  forall j, j <> i -> (mem_demo_frame (w_ks w) !! j <> Some (Some f)) /\
    forall asp' r' p' f' fl', 0 < j < MAX_TASKS ->
      address_spaces (w_ks w) !! j = Some asp' -> as_root_page_frame asp' = Some r' ->
      user_map (w_arch w) r' !! p' = Some (f', fl') -> f' <> f.
Proof.
  intros Hinv Hi Hasp Hr Hp.
  assert (Hroot : forall j asp' r', 0 < j < MAX_TASKS -> address_spaces (w_ks w) !! j = Some asp' ->
    as_root_page_frame asp' = Some r' -> us !! (j - 1) = Some r').
  { intros j asp' r' Hj Ha' Hr'. destruct (user_aspace _ _ _ _ _ j (in_k _ _ _ _ _ Hinv) Hj) as (a2 & r2 & Ha2 & _ & Hr2 & Hu2 & _).
    congruence. }
  destruct (mapped_owned kr us B F w i r p f fl Hinv Hi (Hroot _ _ _ Hi Hasp Hr) Hp) as (Hpb & [_ Hu] & Ho).
  pose proof (mi_sep _ _ _ _ _ (in_m _ _ _ _ _ Hinv)) as Hsep.
  destruct (sep_data _ _ _ _ _ _ Hsep i f Ho) as [Ht Hfr].
  split_and!; try done; try apply Hpb. intros j Hne. split.
  - intros Hd. apply Hne. eapply (sep_iso _ _ _ _ _ _ Hsep); [|exact Ho]. by right.
  - intros asp' r' p' f' fl' Hj Ha' Hr' Hp'. eapply (isolated_frames kr us B F w i j r r'); eauto.
Qed.

End theorems.

(** C5: the tasks are isolated, always.  In a build without ring3_mailbox, on a
    machine the kernel can start on ([start_ok]), after [KernelState::new] and
    any sequence of events (ticks, preemptions, system calls of the running user
    task on user pages, kills) that the counters and the frames last for: in the
    state reached, a page that the page tables of a user task map lies in the
    user slot with the USER bit, and its frame is mapped by no other user task,
    is not the frame the kernel keeps for another task, holds no page table and
    is not one that will be handed out. *)
Theorem tasks_are_isolated {A : Type} `{ArchLaws A} (ft : Features) (map : list MemoryRegion) (a : A) (w0 w : World A)
    (evs : list KEvent) (reports : list string) (i : nat) (asp : AddressSpace) (r : PhysFrame) (p : Z) (f : PhysFrame)
    (fl : PageFlags) (Hft : ring3_mailbox ft = false) (Hstart : start_ok map a)
    (Hroom : (cost (length evs) <= u64_max)%Z)
    (Hframes : length evs * TICK_FRAMES + 2 <= length (usable_frames map))
    (Hnew : KernelState_new ft map a = Ok w0) (Hrun : kruns ft w0 evs reports w)
    (Hi : 0 < i < MAX_TASKS) (Hasp : address_spaces (w_ks w) !! i = Some asp) (Hr : as_root_page_frame asp = Some r)
    (Hp : user_map (w_arch w) r !! p = Some (f, fl)) :
  (0 <= p < 2 ^ 27)%Z /\ PageFlags_contains fl USER = true /\
  ~ arch_tables (Cr3_read a) (phys_frame <$> take 2 (usable_frames map)) (w_arch w) f /\
  (f ∉ free_frames (phys_mem (w_ks w))) /\
  forall j, j <> i -> (mem_demo_frame (w_ks w) !! j <> Some (Some f)) /\
    forall asp' r' p' f' fl', 0 < j < MAX_TASKS ->
      address_spaces (w_ks w) !! j = Some asp' -> as_root_page_frame asp' = Some r' ->
      user_map (w_arch w) r' !! p' = Some (f', fl') -> f' <> f.
Proof.
  destruct (new_spec ft map a (length evs * TICK_FRAMES) Hstart Hframes) as (w1 & Hnew1 & Hinv).
  assert (w1 = w0) as -> by congruence.
  destruct (kruns_inv ft _ _ Hft _ _ _ _ _ _ Hinv Hrun) as [_ Hinv']; [lia|lia|].
  by eapply isolated_in_inv.
Qed.


(** ** Witnesses

    The kernel runs on the reference machine with 8 MiB of memory. *)

(** The timer preempts, then the running task waits for a message. *)
Lemma safe_under_any_programs_witness :
  exists w0 w, KernelState_new closing_features demo_memory demo_arch = Ok w0 /\
    kruns closing_features w0 [EvPreempt; EvSyscall (SysIpcRecv 0)] [] w /\
    silent debug_check_invariants (w_ks w).
Proof.
  destruct (safe_under_any_programs closing_features demo_memory demo_arch 2 eq_refl (proj1 demo_start)) as (w0 & Hnew & Hsafe).
  { vm_compute. congruence. }
  { rewrite demo_usable, length_fmap, length_seq. unfold TICK_FRAMES, CALL_FRAMES, PAGE_TABLE_FRAMES. lia. }
  destruct (Hsafe [] [] w0) as (_ & _ & _ & Hgo); [simpl; lia|constructor|].
  destruct (Hgo EvPreempt I) as (w1 & Hstep1).
  pose proof (kruns_snoc _ _ _ _ _ _ _ _ (kruns_nil _ w0) Hstep1) as Hrun1.
  destruct (fun Hl => Hsafe _ _ _ Hl Hrun1) as (_ & _ & _ & Hgo1); [simpl; lia|].
  assert (Hcur : match KernelState_new closing_features demo_memory demo_arch with
                 | Ok w0 => match event_call closing_features EvPreempt w0 with
                            | Ok (_, w1) => bool_decide (current_task (w_ks w1) <> TASK0_INDEX) = true
                            | Panicked _ => True
                            end
                 | Panicked _ => True
                 end) by (vm_compute; reflexivity).
  rewrite Hnew in Hcur. inversion Hstep1 as [? ? ? ? _ Hcall]. subst. rewrite Hcall in Hcur.
  destruct (Hgo1 (EvSyscall (SysIpcRecv 0))) as (w2 & Hstep2).
  { split; [exact (bool_decide_eq_true_1 _ Hcur)|exact I]. }
  pose proof (kruns_snoc _ _ _ _ _ _ _ _ Hrun1 Hstep2) as Hrun2.
  destruct (fun Hl => Hsafe _ _ _ Hl Hrun2) as (_ & _ & Hq & _); [simpl; lia|].
  exists w0, w2. exact (conj Hnew (conj Hrun2 Hq)).
Defined.

(** Nobody waits on an endpoint, as a boolean. *)
Definition quiet_b (ep : EndpointId) (ts : list ATask) : bool :=
  forallb (fun t => negb (bool_decide (waits_on (a_status t) = Some ep))) ts.

Lemma demo_quiet ep ts : quiet_b ep ts = true -> quiet ep ts.
Proof.
  unfold quiet_b. rewrite forallb_forall. intros Hb k t Hk Hw. apply list_elem_of_lookup_2 in Hk.
  specialize (Hb t (proj1 (list_elem_of_In _ _) Hk)). by rewrite bool_decide_true in Hb.
Qed.

(** The idle task runs while both user tasks are ready. *)
Lemma priority_inversion_bounded_witness :
  ~ settled (w_ks (demo_world default_features 0)) /\
  exists k w', k <= 5 /\ kruns default_features (demo_world default_features 0) (replicate k EvTick) [] w' /\
    (should_halt (w_ks w') = true \/ 1 <= k /\ settled (w_ks w')).
Proof.
  split.
  { intros Hs. assert (Hp := Hs 1 ltac:(discriminate) ltac:(vm_compute; reflexivity)). vm_compute in Hp. congruence. }
  refine (priority_inversion_bounded demo_kr demo_roots default_features 0 (2041 - 0 * TICK_FRAMES)
    (demo_world default_features 0) eq_refl eq_refl (demo_world_inv default_features 0 eq_refl ltac:(lia)) _ _ _).
  - vm_compute. reflexivity.
  - vm_compute. congruence.
  - vm_compute. lia.
Defined.

(** Task 1 calls task 2 on the second endpoint, which nobody uses. *)
Definition rpc_run : list (option (nat * ipc_call)) :=
  [None; Some (1, CallSend 1 77%Z); Some (2, CallRecv 1); Some (2, CallReply 1 99%Z)].

Lemma request_reply_witness :
  exists w', calls default_features (demo_world default_features 0) (rpc_calls true 1 2 1 77 99) 7 w' /\
    view <$> tasks (w_ks w') !! 1 = Some (mkATask Runnable None (Some 99%Z)) /\
    view <$> tasks (w_ks w') !! 2 = Some (mkATask Runnable (Some 77%Z) None).
Proof.
  assert (Hv : match run_calls default_features rpc_run (demo_world default_features 0) with
               | Some _ => true | None => false end = true) by (vm_compute; reflexivity).
  destruct (run_calls default_features rpc_run (demo_world default_features 0)) as [w'|] eqn:Hrun; [|discriminate Hv].
  pose proof (run_calls_sound default_features _ _ _ Hrun) as Hcalls.
  destruct (request_reply demo_kr demo_roots default_features 0 7 (2041 - 0 * TICK_FRAMES) (demo_world default_features 0) w'
    true 1 2 (demo_task default_features 0 1) (demo_task default_features 0 2) 1 77 99
    eq_refl (demo_world_inv default_features 0 eq_refl ltac:(lia))) as [_ Habs].
  - vm_compute. congruence.
  - discriminate.
  - discriminate.
  - discriminate.
  - vm_compute. reflexivity.
  - vm_compute. reflexivity.
  - vm_compute. reflexivity.
  - vm_compute. reflexivity.
  - vm_compute. reflexivity.
  - apply demo_quiet. vm_compute. reflexivity.
  - exact Hcalls.
  - exists w'. split; [exact Hcalls|]. apply (f_equal a_tasks) in Habs. cbv beta iota delta [abs a_tasks] in Habs.
    rewrite <- !list_lookup_fmap, Habs. split; vm_compute; reflexivity.
Defined.

Lemma kernel_runs_to_the_end_witness :
  exists w events, kernel_high_entry closing_features demo_memory demo_arch = Ok (w, [], events) /\
    length events = 391.
Proof.
  destruct (kernel_runs_to_the_end closing_features demo_memory demo_arch eq_refl eq_refl (proj1 demo_start))
    as (w & events & Hrun & _ & Hev).
  { rewrite demo_usable, length_fmap, length_seq. unfold TICK_FRAMES, CALL_FRAMES, PAGE_TABLE_FRAMES. lia. }
  exists w, events. split; [exact Hrun|]. rewrite Hev.
  assert (Hw : match kernel_high_entry closing_features demo_memory demo_arch with
               | Ok (w, _, _) => length (dumped_events (w_ks w)) = 391
               | Panicked _ => True
               end) by (vm_compute; reflexivity).
  rewrite Hrun in Hw. exact Hw.
Defined.

(** Task 2 receives the message task 1 is sending, and is killed by the injected
    fault: task 1 is released. *)
Lemma tick_keeps_invariant_witness :
  exists w', tick closing_features (demo_world closing_features 6) = Ok ([], w') /\
    t_last_reply <$> tasks (w_ks w') !! 1 = Some (Some IPC_ERR_ENDPOINT_CLOSED).
Proof.
  destruct (tick_keeps_invariant demo_kr demo_roots closing_features 60 (2041 - 6 * TICK_FRAMES)
    (demo_world closing_features 6) eq_refl (demo_world_inv closing_features 6 eq_refl ltac:(lia)))
    as (w' & Hrun & _); [vm_compute; congruence|vm_compute; lia|].
  exists w'. split; [exact Hrun|].
  assert (Hw : match tick closing_features (demo_world closing_features 6) with
               | Ok (_, w) => t_last_reply <$> tasks (w_ks w) !! 1 = Some (Some IPC_ERR_ENDPOINT_CLOSED)
               | Panicked _ => True
               end) by (vm_compute; reflexivity).
  rewrite Hrun in Hw. exact Hw.
Defined.

(** Task 1 sends to the waiting task 2. *)
Lemma ipc_refines_spec_witness :
  exists t w', do_call default_features (CallSend 0 7) (demo_world default_features 12) = Ok (tt, w') /\
    ipc_spec 1 (view t) (CallSend 0 7) (abs (w_ks (demo_world default_features 12))) (abs (w_ks w')).
Proof.
  destruct (ipc_refines_spec demo_kr demo_roots default_features 120 (2041 - 12 * TICK_FRAMES)
    (demo_world default_features 12) (CallSend 0 7) eq_refl
    (demo_world_inv default_features 12 eq_refl ltac:(lia))) as (t & w' & _ & Hrun & Hspec & _);
    [vm_compute; congruence|].
  exists t, w'. split; [exact Hrun|].
  replace 1 with (current_task (w_ks (demo_world default_features 12))) by (vm_compute; reflexivity).
  exact Hspec.
Defined.

(** Task 1 awaits the reply of task 2, which is killed. *)
Lemma kill_refines_spec_witness :
  exists w', kill_task 2 (DemoInjected 1) (demo_world default_features 7) = Ok (tt, w') /\
    a_tasks (abs (w_ks w')) =
      [mkATask Runnable None None; mkATask Runnable None (Some IPC_ERR_DEAD_PARTNER); mkATask Gone None None].
Proof.
  destruct (kill_refines_spec demo_kr demo_roots 70 (2041 - 7 * TICK_FRAMES)
    (demo_world default_features 7) 2 (demo_task default_features 7 2) (DemoInjected 1)
    (demo_world_inv default_features 7 eq_refl ltac:(lia))) as (w' & Hrun & _ & Habs & _);
    [vm_compute; congruence|vm_compute; reflexivity|vm_compute; congruence|vm_compute; congruence|].
  exists w'. split; [exact Hrun|]. rewrite Habs. vm_compute. reflexivity.
Defined.

Lemma schedule_runs_best_witness :
  exists w', schedule_next_task (demo_world default_features 4) = Ok (tt, w') /\
    best (tasks (w_ks (demo_world default_features 4))) [1; 2] (current_task (w_ks w')).
Proof.
  destruct (schedule_runs_best demo_kr demo_roots 40 (2041 - 4 * TICK_FRAMES)
    (demo_world default_features 4) (demo_world_inv default_features 4 eq_refl ltac:(lia)))
    as (w' & Hrun & _ & _ & Hch); [vm_compute; congruence|].
  exists w'. split; [exact Hrun|].
  assert (Hc : candidates (w_ks (demo_world default_features 4)) = [1; 2]) by (vm_compute; reflexivity).
  rewrite Hc in Hch. exact (proj1 Hch).
Defined.

Lemma page_map_refines_spec_witness :
  exists c w' f, syscall_page_map 1 (mkVirtPage 5) USER_DEMO_FLAGS (demo_world default_features 5) = Ok (c, w') /\
    memory_effect demo_roots 1 (Map (mkVirtPage 5) f USER_DEMO_FLAGS) c (demo_world default_features 5) w'.
Proof.
  destruct (page_map_refines_spec demo_kr demo_roots 50 (2041 - 5 * TICK_FRAMES)
    (demo_world default_features 5) 1 (demo_task default_features 5 1) (mkVirtPage 5) USER_DEMO_FLAGS
    (demo_world_inv default_features 5 eq_refl ltac:(lia))) as (c & w' & f & Hrun & _ & Heff & _);
    [vm_compute; lia|vm_compute; reflexivity|vm_compute; congruence|split; vm_compute; congruence
    |split; [split|]; reflexivity|vm_compute; lia|].
  exists c, w', f. split; [exact Hrun|exact Heff].
Defined.

Lemma page_unmap_refines_spec_witness :
  exists w', syscall_page_unmap 1 (mkVirtPage 5) (demo_world default_features 5)
               = Ok (SYSCALL_ERR_NOT_MAPPED, w') /\
    memory_effect demo_roots 1 (Unmap (mkVirtPage 5)) SYSCALL_ERR_NOT_MAPPED (demo_world default_features 5) w'.
Proof.
  destruct (page_unmap_refines_spec demo_kr demo_roots 50 (2041 - 5 * TICK_FRAMES)
    (demo_world default_features 5) 1 (demo_task default_features 5 1) (mkVirtPage 5)
    (demo_world_inv default_features 5 eq_refl ltac:(lia))) as (c & w' & Hrun & Heff & _);
    [vm_compute; lia|vm_compute; reflexivity|vm_compute; congruence|split; vm_compute; congruence
    |vm_compute; lia|].
  assert (Hc : match syscall_page_unmap 1 (mkVirtPage 5) (demo_world default_features 5) with
               | Ok (c, _) => c = SYSCALL_ERR_NOT_MAPPED
               | Panicked _ => True
               end) by (vm_compute; reflexivity).
  rewrite Hrun in Hc. subst c. exists w'. split; [exact Hrun|exact Heff].
Defined.

(** Task 1 is sending on the endpoint that is closed. *)
Lemma close_endpoint_rescues_witness :
  exists s', close_endpoint_and_rescue_waiters 0 (w_ks (demo_world default_features 6)) = Ok (tt, s') /\
    is_closed <$> endpoints s' = [true; false] /\
    t_last_reply <$> tasks s' !! 1 = Some (Some IPC_ERR_ENDPOINT_CLOSED).
Proof.
  destruct (close_endpoint_rescues demo_kr demo_roots 60 (2041 - 6 * TICK_FRAMES)
    (demo_world default_features 6) 0 (demo_world_inv default_features 6 eq_refl ltac:(lia)))
    as (s' & Hrun & _ & Hcl & _); [vm_compute; lia|].
  exists s'. split; [exact Hrun|]. split; [rewrite Hcl; vm_compute; reflexivity|].
  assert (Hw : match close_endpoint_and_rescue_waiters 0 (w_ks (demo_world default_features 6)) with
               | Ok (_, s) => t_last_reply <$> tasks s !! 1 = Some (Some IPC_ERR_ENDPOINT_CLOSED)
               | Panicked _ => True
               end) by (vm_compute; reflexivity).
  rewrite Hrun in Hw. exact Hw.
Defined.

Lemma boot_establishes_invariant_witness :
  exists w, KernelState_new default_features demo_memory demo_arch = Ok w /\ frames_left (w_ks w) = 2046.
Proof.
  destruct (boot_establishes_invariant default_features demo_memory demo_arch 2046 (proj1 demo_start))
    as (w & Hnew & _).
  { rewrite demo_usable, length_fmap, length_seq. lia. }
  exists w. split; [exact Hnew|].
  assert (Hw : match KernelState_new default_features demo_memory demo_arch with
               | Ok w => frames_left (w_ks w) = 2046
               | Panicked _ => True
               end) by (vm_compute; reflexivity).
  rewrite Hnew in Hw. exact Hw.
Defined.

Lemma checker_is_silent_witness :
  debug_check_invariants (w_ks (demo_world default_features 7)) = Ok ([], w_ks (demo_world default_features 7)).
Proof.
  exact (checker_is_silent demo_kr demo_roots 70 (2041 - 7 * TICK_FRAMES)
    (demo_world default_features 7) (demo_world_inv default_features 7 eq_refl ltac:(lia))).
Defined.

(** One event more than the log holds: the oldest is dropped. *)
Lemma event_log_keeps_latest_witness :
  let s := initial_state (mkPhysMem (mkAlloc [] 0 0 0 false)) [] in
  let evs := TimerUpdated <$> (Z.of_nat <$> seq 0 1025) in
  dumped_events (push_events evs s) = TimerUpdated <$> (Z.of_nat <$> seq 1 1024).
Proof.
  intros s evs.
  destruct (event_log_keeps_latest evs s) as [Hd _].
  { apply ring_empty_wf. vm_compute. lia. }
  rewrite Hd. vm_compute. reflexivity.
Defined.

(** Ticks from a given state. *)
Fixpoint run_ticks {A} `{ArchOps A} (ft : Features) (n : nat) (w : World A) : res (list string * World A) :=
  match n with
  | O => Ok ([], w)
  | S n => '(r, w1) ← tick ft w; '(rs, w2) ← run_ticks ft n w1; Ok (r ++ rs, w2)
  end.

Lemma run_ticks_kruns {A} `{ArchLaws A} ft n (w w' : World A) rs :
  run_ticks ft n w = Ok (rs, w') -> kruns ft w (replicate n EvTick) rs w'.
Proof.
  revert w rs. induction n as [|n IH]; intros w rs; simpl; [intros [= <- <-]; constructor|].
  destruct (tick ft w) as [[r w1]|] eqn:E; [rewrite Ok_bind|done].
  destruct (run_ticks ft n w1) as [[rs' w2]|] eqn:E2; [rewrite Ok_bind|done]. intros [= <- <-].
  apply (kruns_cons ft w EvTick r w1 (replicate n EvTick) rs'); [by constructor|by apply IH].
Qed.

(** Eight ticks after the boot task 2 has a page. *)
Lemma tasks_are_isolated_witness :
  exists w0 w rs, KernelState_new default_features demo_memory demo_arch = Ok w0 /\
    kruns default_features w0 (replicate 8 EvTick) rs w /\
    user_map (w_arch w) (mkPhysFrame 0x101) !! 0x110%Z = Some (mkPhysFrame 0x105, USER_DEMO_FLAGS) /\
    mkPhysFrame 0x105 ∉ free_frames (phys_mem (w_ks w)).
Proof.
  assert (Hv : match (w0 ← KernelState_new default_features demo_memory demo_arch; run_ticks default_features 8 w0) with
    | Ok (_, w) => (address_spaces (w_ks w) !! 2 ≫= as_root_page_frame) = Some (mkPhysFrame 0x101) /\
        user_map (w_arch w) (mkPhysFrame 0x101) !! 0x110%Z = Some (mkPhysFrame 0x105, USER_DEMO_FLAGS)
    | Panicked _ => False end) by (vm_compute; split; reflexivity).
  destruct (KernelState_new default_features demo_memory demo_arch) as [w0|] eqn:Hnew; [|exact (False_ind _ Hv)].
  rewrite Ok_bind in Hv. destruct (run_ticks default_features 8 w0) as [[rs w]|] eqn:Hrun; [|exact (False_ind _ Hv)].
  destruct Hv as [Hroot Hp]. destruct (address_spaces (w_ks w) !! 2) as [asp|] eqn:Hasp; [|discriminate Hroot].
  pose proof (run_ticks_kruns _ _ _ _ _ Hrun) as Hk.
  exists w0, w, rs. split; [reflexivity|]. split; [exact Hk|]. split; [exact Hp|].
  apply (tasks_are_isolated default_features demo_memory demo_arch w0 w (replicate 8 EvTick) rs 2 asp (mkPhysFrame 0x101)
    0x110 (mkPhysFrame 0x105) USER_DEMO_FLAGS eq_refl (proj1 demo_start)).
  - vm_compute. congruence.
  - rewrite demo_usable, length_fmap, length_seq. unfold TICK_FRAMES, CALL_FRAMES, PAGE_TABLE_FRAMES. simpl. lia.
  - exact Hnew.
  - exact Hk.
  - vm_compute. lia.
  - exact Hasp.
  - exact Hroot.
  - exact Hp.
Defined.


Lemma dump_reads_back_witness :
  exists out, dump_events (w_ks (demo_world default_features 12)) [] = Ok (tt, out) /\
    read_dump out = Some (dumped_events (w_ks (demo_world default_features 12))) /\
    (50 < length (dumped_events (w_ks (demo_world default_features 12))))%nat.
Proof.
  destruct (dump_reads_back demo_kr demo_roots _ _ _ (demo_world_inv default_features 12 eq_refl ltac:(lia)))
    as (out & Hrun & Hread).
  exists out. split; [exact Hrun|]. split; [exact Hread|]. apply Nat.ltb_lt. vm_compute. reflexivity.
Defined.
