(* ===== verification/PathTheorems.v ===== *)
(** * What the log says about IPC

    The two properties of the lines of ipc.rs and trace.rs: the trace agrees with
    the counters in every state, and in the states the kernel reaches a call
    prints the line of its path and nothing else. *)

From stdpp Require Import base list option gmap sets strings.
From Stdlib Require Import ZArith Lia.
From S2P Require Import Prelude Addr AddressSpace FrameAlloc Queues KTypes Endpoint EventLog Console Trace KState Dump.
From S2P Require Import ArchIface Sched Ipc Kill Demo Syscall Tick IpcSpec Invariant IpcInv IpcRefine MemInv CloseInv KillInv CheckInv TickInv.
From S2P Require Import Boot IpcLog IpcPaths System.

Section theorems.
Context {A : Type} `{ArchLaws A} (kr : PhysFrame) (us : list PhysFrame) (ft : Features) (tf : TraceFeatures).

(** C22: the trace and the counters agree.  In a build without ring3_mailbox and
    dead_partner_test, with ipc_trace_paths on, in any state of the kernel: a
    system call that returns does the same with and without its log lines, and
    each counter of the fast and slow paths grows by exactly the number of lines
    of its path, so no path is counted without its line or printed without being
    counted (a reply nobody waits for has a line and no counter).  With ring3_mailbox a send prints its line twice
    ([mailbox_send_traced_twice]). *)
Theorem trace_counts_paths (sc : Syscall) (w w' : World A)
    (Hpaths : ipc_trace_paths tf = true) (Hft : ring3_mailbox ft = false) (Hdp : dead_partner_test ft = false)
    (Hrun : handle_syscall ft sc w = Ok (tt, w')) :
  exists ls, logged_handle_syscall ft tf sc w = (ls, Ok (tt, w')) /\
    forall ev, ev <> ReplyNoWaiter ->
      path_count ev (counters (w_ks w')) = (path_count ev (counters (w_ks w)) + Z.of_nat (path_lines ev ls))%Z.
Proof.
  pose proof (erases_syscall ft tf sc w) as Her. rewrite Hrun in Her.
  destruct (logged_handle_syscall ft tf sc w) as [ls r] eqn:E. simpl in Her. subst r.
  exists ls. split; [done|]. intros ev Hev. by apply (tallies_syscall ft tf ev Hpaths Hft Hev sc Hdp w ls tt w').
Qed.

(** C21: a call prints its path.  In a build without ring3_mailbox (with it a send
    prints its line twice, [mailbox_send_traced_twice]), in every state of the
    invariant with room in the counters, a receive, send or reply of the running
    task returns, and its lines are: the rejection of the entry checks (endpoint
    out of range, kernel task, closed endpoint), the refusal of a second
    receiver, or the one line of the path it takes, told by the queues of the
    endpoint before the call.  None of the error lines of ipc.rs about
    out-of-range, dead or mismatched queue entries, lost messages or full queues
    is ever printed. *)
Theorem call_prints_its_path (B : Z) (F : nat) (w : World A) (c : ipc_call)
    (Hft : ring3_mailbox ft = false) (Hinv : Inv kr us B F w) (Hroom : (B + 2 <= u64_max)%Z) :
  exists t w', tasks (w_ks w) !! current_task (w_ks w) = Some t /\ do_call ft c w = Ok (tt, w') /\
    logged_call ft tf c w = (expected_lines tf c (w_ks w) t, Ok (tt, w')).
Proof.
  destruct (Inv_current _ _ _ _ _ Hinv) as (t & Ht & Hr & _).
  destruct (call_prints kr us ft Hft tf B w t c) as (w' & Hrun & Hlog); [by eapply Inv_calling|]. eauto.
Qed.
End theorems.

(** ** Witnesses *)

Definition all_traces : TraceFeatures := mkTrace true true.

(** Task 1 sends to the waiting task 2: one line, one more fast send. *)
Lemma trace_counts_paths_witness :
  exists w' ls, logged_handle_syscall default_features all_traces (SysIpcSend 0 7) (demo_world default_features 12)
      = (ls, Ok (tt, w')) /\ path_lines SendFast ls = 1 /\
    path_count SendFast (counters (w_ks w')) =
      (path_count SendFast (counters (w_ks (demo_world default_features 12))) + 1)%Z.
Proof.
  destruct (handle_syscall default_features (SysIpcSend 0 7) (demo_world default_features 12)) as [[[] w']|p] eqn:E.
  2: { exfalso. assert (Hb : match handle_syscall default_features (SysIpcSend 0 7) (demo_world default_features 12) with
         Ok _ => True | Panicked _ => False end) by (vm_compute; exact I). by rewrite E in Hb. }
  destruct (trace_counts_paths default_features all_traces (SysIpcSend 0 7) (demo_world default_features 12) w'
    eq_refl eq_refl eq_refl E) as (ls & Hlog & Hcount).
  exists w', ls. split; [exact Hlog|].
  assert (Hl : path_lines SendFast (logged_handle_syscall default_features all_traces (SysIpcSend 0 7)
    (demo_world default_features 12)).1 = 1) by (vm_compute; reflexivity).
  rewrite Hlog in Hl. split; [exact Hl|]. cbn [fst] in Hl.
  specialize (Hcount SendFast ltac:(discriminate)). rewrite Hl in Hcount. exact Hcount.
Defined.

(** The same call at the level of ipc.rs. *)
Lemma call_prints_its_path_witness :
  exists w', logged_call default_features all_traces (CallSend 0 7) (demo_world default_features 12)
    = ([Info "ipc_trace_paths send=fast"], Ok (tt, w')).
Proof.
  destruct (call_prints_its_path demo_kr demo_roots default_features all_traces 120 (2041 - 12 * TICK_FRAMES)
    (demo_world default_features 12) (CallSend 0 7) eq_refl
    (demo_world_inv default_features 12 eq_refl ltac:(lia))) as (t & w' & _ & _ & Hlog); [vm_compute; congruence|].
  exists w'. rewrite Hlog. f_equal.
Defined.

(** With the feature ring3_mailbox alone the line of a send is printed twice, and
    counted once: the second call stands where the other builds switch tasks. *)
Lemma mailbox_send_traced_twice :
  (logged_call {| default_features with ring3_mailbox := true |} all_traces (CallSend 0 7) (demo_world default_features 12)).1
    = [path_line SendFast; path_line SendFast].
Proof. vm_compute. reflexivity. Qed.
