(* ===== verification/PagingTheorems.v ===== *)
(** * The properties of paging

    What arch/paging.rs guarantees, over every machine that satisfies
    [X86Laws], each with a witness on the reference machine. *)

From stdpp Require Import base list option gmap sets strings.
From Stdlib Require Import ZArith Lia.
From S2P Require Import Prelude Addr AddressSpace FrameAlloc Queues KTypes Endpoint EventLog KState ArchIface.
From S2P Require Import X86 RefMem Paging PagingInv PagingLaws PagingMap PagingArch PagingStart.
From S2P Require Import Tick Invariant MemInv TickInv Boot System.
#[local] Open Scope Z_scope.

(** ** Checks that only look at the state *)

Section reads.
Context {M : Type} `{X86 M}.

#[local] Ltac reads := repeat (intros; first
  [ apply reads_only_bind | apply reads_only_if | apply reads_only_ret | apply reads_only_get
  | apply reads_only_gets | apply reads_only_lift | apply reads_only_panic ]).

Lemma reads_for_root r : reads_only (init_offset_page_table_for_root (M := M) r).
Proof. unfold init_offset_page_table_for_root, phys_to_virt, check_offset. reads. Qed.

Lemma reads_translate r v : reads_only (translate_u64 (M := M) r v).
Proof. unfold translate_u64. reads. Qed.

Lemma reads_preflight_guards r : reads_only (preflight_guards (M := M) r).
Proof. unfold preflight_guards, preflight_guard, translate_u64. reads. Qed.

End reads.

(** What the physmap part of the checks established. *)
Lemma preflight_physmap_inv {M} `{X86 M} r (s s' : Paging M) :
  preflight_physmap r s = Ok (tt, s') ->
  let i := pml4_index (PHYSICAL_MEMORY_OFFSET s) in
  s' = s /\ read_entry (pg_mem s) r i = read_entry (pg_mem s) (pg_cr3 s) i /\
  present (read_entry (pg_mem s) r i) = true /\
  x86_contains (pte_flags (read_entry (pg_mem s) r i)) X86_USER_ACCESSIBLE = false.
Proof.
  intros Hrun i. unfold preflight_physmap, active_level_4_table, phys_to_virt, entry_at in Hrun.
  rewrite bind_get in Hrun. cbv zeta in Hrun. fold i in Hrun. rewrite bind_assoc, bind_get in Hrun.
  repeat (rewrite ?bind_assoc in Hrun; first
    [ rewrite bind_get in Hrun | rewrite bind_gets in Hrun | rewrite bind_ret in Hrun
    | apply bind_inv in Hrun as (? & ? & [_ ->]%lift_inv & Hrun) ]).
  set (e := read_entry (pg_mem s) r i) in *. set (c := read_entry (pg_mem s) (pg_cr3 s) i) in *.
  destruct (is_unused c || negb (present c)); [done|].
  destruct (is_unused e || negb (present e)) eqn:E1; [done|].
  destruct (x86_contains (pte_flags e) X86_USER_ACCESSIBLE); [done|].
  destruct (negb (pte_addr e =? pte_addr c) || negb (pte_flags e =? pte_flags c)) eqn:E2; [done|].
  injection Hrun as <-. apply orb_false_iff in E1 as [_ E1%negb_false_iff].
  apply orb_false_iff in E2 as [E2%negb_false_iff%Z.eqb_eq E3%negb_false_iff%Z.eqb_eq].
  split; [done|]. split; [|done]. destruct e, c. simpl in *. by subst.
Qed.

Lemma translate_nonzero {M} `{X86 M} r v (s s' : Paging M) pa :
  translate_u64 r v s = Ok (pa, s') -> pa <> 0 -> is_Some (translate_addr (pg_mem s) r v).
Proof.
  unfold translate_u64. intros (a & ? & [Ha ->]%lift_inv & Hg)%bind_inv Hpa. apply x86_virt_inv in Ha as [-> _].
  injection Hg as Hg _. destruct (translate_addr (pg_mem s) r v); [done|]. by subst.
Qed.

Section theorems.
Context {M : Type} `{X86Laws M} (im : Image) (poff : Z) (boot : gset Z).

(** The start of paging.  From the tables of the bootloader, [kernel_main]
    (the physical-memory offset, the guard addresses, the alias of the low
    kernel half, the move to it) returns without a panic and leaves paging
    ready: the alias window leads where the low half leads, the fault statics,
    the code and the stack stay reachable in every root, switches are enabled,
    and the entry, the stack and the frame pointer are the aliases of the low
    ones, the stack aligned to 16 bytes. *)
Theorem start_makes_paging_ready (s : Paging M) (entry stack : Z) (Hload : loaded im poff boot entry stack s) :
  exists he rsp rbp h s', kernel_main im poff entry stack s = Ok ((he, rsp, rbp), s') /\
    paging_ready im poff boot (pg_cr3 s) [] s' /\ pg_cr3 s' = pg_cr3 s /\ ALLOW_REAL_CR3_SWITCH s' = true /\
    kernel_high_alias_of_low entry = Ok he /\
    kernel_high_alias_of_low (pg_context s 1%nat).1.2 = Ok h /\ rsp = Z.land h (u64_not 0xF) /\
    kernel_high_alias_of_low (pg_context s 1%nat).2 = Ok rbp.
Proof.
  destruct (kernel_main_spec im poff boot s entry stack Hload)
    as ([[he rsp] rbp] & s' & Hrun & Hr & Hc & Ha & He & (h & Hh & Hrsp) & Hrbp & _).
  by exists he, rsp, rbp, h, s'.
Qed.

(** C13: a switch is checked.  Whenever, in any state with real switches enabled, a
    checked switch to another root goes through, the target root maps the code and the stack the kernel is
    executing on, and its physical-memory entry is present, not accessible to
    users and the same as the current one; the new CR3 is the target and the
    memory is unchanged. *)
Theorem checked_switch_sound (s s' : Paging M) (r : PhysFrame)
    (Hallow : ALLOW_REAL_CR3_SWITCH s = true) (Hr : frame_ok r) (Hcr : frame_ok (pg_cr3 s)) (Hne : pg_cr3 s <> r)
    (Hrun : paging_switch_address_space (Some r) s = Ok (tt, s')) :
  let '(rip, rsp, _) := pg_context s 0%nat in
  let i := pml4_index (PHYSICAL_MEMORY_OFFSET s) in
  is_Some (translate_addr (pg_mem s) r rip) /\ is_Some (translate_addr (pg_mem s) r rsp) /\
  read_entry (pg_mem s) r i = read_entry (pg_mem s) (pg_cr3 s) i /\
  present (read_entry (pg_mem s) r i) = true /\
  x86_contains (pte_flags (read_entry (pg_mem s) r i)) X86_USER_ACCESSIBLE = false /\
  pg_cr3 s' = r /\ pg_mem s' = pg_mem s.
Proof.
  unfold paging_switch_address_space in Hrun. rewrite bind_get, Hallow in Hrun. simpl in Hrun.
  apply bind_inv in Hrun as ([] & s1 & Hpre & Hq). unfold preflight_check_before_cr3_write in Hpre.
  change (negb ENABLE_REAL_PAGING || negb ENABLE_CR3_PREFLIGHT) with false in Hpre. cbv iota in Hpre.
  rewrite bind_get in Hpre. apply bind_inv in Hpre as ([] & ? & [_ ->]%lift_inv & Hpre).
  rewrite !frame_start, !bind_lift_Ok in Hpre by done. cbn [phys_u64] in Hpre.
  destruct (Z.eqb_spec (frame_number (pg_cr3 s) * PAGE_SIZE) (frame_number r * PAGE_SIZE)) as [E|_].
  { destruct Hne. destruct (pg_cr3 s), r. simpl in E. f_equal. unfold PAGE_SIZE in E. lia. }
  unfold read_rip_rsp_rbp in Hpre. rewrite bind_assoc, bind_get, bind_assoc in Hpre.
  set (s0 := next_context s) in *. rewrite (bind_Ok (put _) _ s tt s0), bind_ret in Hpre by done.
  destruct (pg_context s 0%nat) as [[rip rsp] rbp].
  apply bind_inv in Hpre as (tgt & ? & Hroot & Hpre). pose proof (reads_for_root _ _ _ _ Hroot) as ->.
  assert (tgt = r) as ->.
  { unfold init_offset_page_table_for_root in Hroot.
    repeat (apply bind_inv in Hroot as (? & ? & _ & Hroot)). by injection Hroot. }
  apply bind_inv in Hpre as (prip & ? & Hrip & Hpre). pose proof (reads_translate _ _ _ _ _ Hrip) as ->.
  apply bind_inv in Hpre as (prsp & ? & Hrsp & Hpre). pose proof (reads_translate _ _ _ _ _ Hrsp) as ->.
  apply bind_inv in Hpre as (prbp & ? & Hrbp & Hpre). pose proof (reads_translate _ _ _ _ _ Hrbp) as ->.
  destruct ((prip =? 0) || (prsp =? 0)) eqn:E0; [done|].
  apply orb_false_iff in E0 as [E1%Z.eqb_neq E2%Z.eqb_neq].
  apply bind_inv in Hpre as ([] & ? & Hphys & Hg). apply preflight_physmap_inv in Hphys as (-> & P1 & P2 & P3).
  apply reads_preflight_guards in Hg as ->. rewrite quiet_Ok in Hq by done. injection Hq as <-.
  split; [exact (translate_nonzero _ _ _ _ _ Hrip E1)|]. split; [exact (translate_nonzero _ _ _ _ _ Hrsp E2)|]. done.
Qed.

(** A switch between the roots of a ready system goes through: none of the
    checks fails, CR3 is the target, everything stays ready, no map changes, and
    the code and the stack the kernel runs on lead to the same physical
    addresses as before. *)
Theorem ready_switch_passes (kr : PhysFrame) (us : list PhysFrame) (s : Paging M) (r : PhysFrame)
    (Hs : paging_ready im poff boot kr us s) (Hr : r ∈ us) (Hallow : ALLOW_REAL_CR3_SWITCH s = true) :
  exists s', paging_switch_address_space (Some r) s = Ok (tt, s') /\ pg_cr3 s' = r /\
    paging_ready im poff boot kr us s' /\
    (forall u, u ∈ us -> paging_user_map s' u = paging_user_map s u) /\
    paging_kern_map boot kr s' = paging_kern_map boot kr s /\
    let '(rip, rsp, _) := pg_context s 0%nat in
    translate_addr (pg_mem s) r rip = translate_addr (pg_mem s) (pg_cr3 s) rip /\
    translate_addr (pg_mem s) r rsp = translate_addr (pg_mem s) (pg_cr3 s) rsp.
Proof.
  destruct (paging_switch im poff boot kr us s r Hs Hr) as ([] & s' & Hrun & Hr' & Hu & Hk & _ & Hc).
  exists s'. split; [done|]. split; [by apply Hc|]. split; [done|]. split; [done|]. split; [done|].
  pose proof (pr_context _ _ _ _ _ _ Hs 0%nat) as Hctx. destruct (pg_context s 0%nat) as [[rip rsp] rbp].
  destruct Hctx as ((p1 & _ & R1) & (p2 & _ & R2) & _).
  pose proof (fun r' Hr' va pa => reaches_in_root poff boot kr us (pg_mem s) r' va pa (pr_mem _ _ _ _ _ _ Hs) Hr') as Hin.
  assert (Hr2 : r ∈ kr :: us) by by right. pose proof (pr_cr3 _ _ _ _ _ _ Hs) as Hc3.
  rewrite (proj2 (Hin _ Hr2 _ _ R1)), (proj2 (Hin _ Hr2 _ _ R2)).
  by rewrite (proj2 (Hin _ Hc3 _ _ R1)), (proj2 (Hin _ Hc3 _ _ R2)).
Qed.

Lemma of_x86_writable fl : PageFlags_contains (of_x86_flags fl) WRITABLE = x86_contains fl X86_WRITABLE.
Proof.
  unfold PageFlags_contains, x86_contains, of_x86_flags. cbn [bits]. rewrite <- Z.land_assoc. done.
Qed.

(** C15: a guarded write.  In a ready system (a state [paging_ready] as the start
    leaves it, on any machine whose physical-memory window lies in the lower
    half, outside slot 0 and away from the user slot), for a user root whose
    mapped frames hold no page tables: a write of a u64 value to an 8-aligned
    address of the user slot returns the value that is then in memory if the
    page is mapped writable, and otherwise the fault it raised with its address
    and error code (3 on a read-only page, 2 on an unmapped one); it never stops
    the machine, it ends in the kernel's root, and no map changes. *)
Theorem guarded_write_outcome (kr : PhysFrame) (us : list PhysFrame) (s : Paging M) (r : PhysFrame) (addr v : Z)
    (Hs : paging_ready im poff boot kr us s) (Hr : r ∈ us) (Haddr : is_user_space_addr_u64 addr = true)
    (Halign : addr mod 8 = 0) (Hv : u64 v)
    (Hdata : forall p f fl, paging_user_map s r !! p = Some (f, fl) -> ~ paging_tables kr us s f) :
  exists res s', paging_guarded_user_rw_u64_in_root im r kr addr v s = Ok (res, s') /\
    paging_ready im poff boot kr us s' /\ pg_cr3 s' = kr /\
    (forall u, u ∈ us -> paging_user_map s' u = paging_user_map s u) /\
    paging_kern_map boot kr s' = paging_kern_map boot kr s /\
    res = match paging_user_map s r !! slot_page addr with
          | Some (f, fl) =>
              if PageFlags_contains fl WRITABLE then Okay v
              else Err (fault_info addr 0x3 (pg_context s 0%nat))
          | None => Err (fault_info addr 0x2 (pg_context s 0%nat))
          end.
Proof.
  destruct (user_rw_spec im poff boot kr us s r addr v Hs Hr Haddr Halign) as (res & s' & Hrun & -> & Hs' & _ & Hsame & Hc).
  { intros p l Hl. eapply (Hdata p). unfold paging_user_map. by rewrite lookup_fmap, Hl. }
  destruct (views_same boot kr us s s' Hsame) as (V1 & V2 & _).
  exists (rw_result s r addr v), s'. split; [done|]. split; [done|]. split; [done|]. split; [done|]. split; [done|].
  unfold rw_result, paging_user_map. rewrite lookup_fmap, (proj2 (user_addr_slot addr Haddr)).
  destruct (slot (pg_mem s) r USER_PML4_INDEX !! slot_page addr) as [l|]; [|done]. simpl. rewrite of_x86_writable.
  destruct (x86_contains (leaf_flags l) X86_WRITABLE); [|done].
  rewrite x86_load_store; [done|by apply frame_word_aligned|done].
Qed.

(** C33: a guarded write that succeeded, followed by a guarded read of the same
    address through the same root, gives the value the write returned, changes
    no memory and ends in the kernel's root.  In a ready system, for an 8-aligned
    address of the user slot and a user root whose mapped frames hold no page
    tables. *)
Theorem guarded_write_read (kr : PhysFrame) (us : list PhysFrame) (s s1 : Paging M) (r : PhysFrame) (addr v x : Z)
    (Hs : paging_ready im poff boot kr us s) (Hr : r ∈ us) (Haddr : is_user_space_addr_u64 addr = true)
    (Halign : addr mod 8 = 0)
    (Hdata : forall p f fl, paging_user_map s r !! p = Some (f, fl) -> ~ paging_tables kr us s f)
    (Hwrite : paging_guarded_user_rw_u64_in_root im r kr addr v s = Ok (Okay x, s1)) :
  exists s2, guarded_user_read_u64_in_root im r kr addr s1 = Ok (Okay x, s2) /\
    paging_ready im poff boot kr us s2 /\ pg_mem s2 = pg_mem s1 /\ pg_cr3 s2 = kr.
Proof.
  destruct (user_rw_spec im poff boot kr us s r addr v Hs Hr Haddr Halign) as (res & s' & Hrun & Hres & Hs' & Hm & Hsame & Hc).
  { intros p l Hl. eapply (Hdata p). unfold paging_user_map. by rewrite lookup_fmap, Hl. }
  rewrite Hwrite in Hrun. injection Hrun as <- <-.
  destruct (paging_read_spec im poff boot kr us s1 r addr Hs' Hr (proj1 (user_addr_slot addr Haddr))) as (res2 & s2 & Hrun2 & -> & Hs2 & Hm2 & Hc2).
  exists s2. split; [|done]. rewrite Hrun2. do 2 f_equal.
  unfold read_result. rewrite (proj2 (user_addr_slot addr Haddr)), (slot_same_slot _ _ _ _ (rs_user _ _ _ _ Hsame r Hr)), Hm.
  revert Hres. unfold rw_result, rw_memory. rewrite (proj2 (user_addr_slot addr Haddr)).
  destruct (slot (pg_mem s) r USER_PML4_INDEX !! slot_page addr) as [l|]; [|done].
  by destruct (x86_contains (leaf_flags l) X86_WRITABLE).
Qed.

(** C17: the root of a new user.  In a ready system in the kernel's root, the set-up
    of a fresh root (a frame the window reaches, that holds no table) returns;
    the new root translates every canonical address of the upper half and of the
    copied slots of the physical-memory window as the kernel's root does and
    nothing else (no low kernel half, an empty user slot), and the kernel's root
    translates as before.  The window lies in the lower half, so the low half of
    a user root is not empty, against README.md. *)
Theorem new_root_translations (kr : PhysFrame) (us : list PhysFrame) (s : Paging M) (r : PhysFrame)
    (Hs : paging_ready im poff boot kr us s) (Hkr : pg_cr3 s = kr) (Hw : window_ok poff r)
    (Hfresh : ~ paging_tables kr us s r) :
  exists s', paging_init_user_pml4_from_current r s = Ok (tt, s') /\ paging_ready im poff boot kr (us ++ [r]) s' /\
    forall va, canonical va ->
      translate_addr (pg_mem s') kr va = translate_addr (pg_mem s) kr va /\
      translate_addr (pg_mem s') r va =
        if decide (pml4_index va = USER_PML4_INDEX) then None
        else if shared poff (pml4_index va) then translate_addr (pg_mem s) kr va else None.
Proof.
  pose proof (pr_mem _ _ _ _ _ _ Hs) as Hm.
  assert (Hne : kr <> r) by (intros ->; apply Hfresh; left; by left).
  destruct (init_user_spec im poff boot kr us s r Hs Hkr Hw Hne) as ([] & s' & Hrun & m' & -> & [We Ws] & He).
  destruct (paging_init_user im poff boot kr us s r Hs Hkr Hw Hfresh) as ([] & s2 & Hrun2 & Hs2 & _).
  rewrite Hrun in Hrun2. injection Hrun2 as <-. exists (with_mem s m'). split; [done|]. split; [done|].
  assert (Hkslot : forall j, (j < 512)%nat -> slot_same (pg_mem s) m' kr j).
  { intros j Hj. split; [by apply We|]. intros Hp. apply Ws. intros Ht. apply Hfresh. right. left. by exists j. }
  intros va Hc. pose proof (pml4_index_lt va) as Hi. rewrite !x86_translate by done. cbn [pg_mem with_mem].
  pose proof (slot_same_slot _ _ _ _ (Hkslot _ Hi)) as Ek. unfold slot in Ek.
  split; [by rewrite Ek|]. unfold slot_of at 1. rewrite (He _ Hi). unfold user_root_entry.
  destruct (decide (pml4_index va = USER_PML4_INDEX)); [done|].
  destruct (shared poff (pml4_index va)); [|done]. cbv zeta. f_equal. f_equal. rewrite <- Ek. unfold slot_of.
  by rewrite (proj1 (Hkslot _ Hi)).
Qed.

(** C34: the alias.  On a machine as the bootloader leaves it ([loaded]: the kernel's
    code, stack and statics mapped in the first four level-4 slots, the window in
    a slot of the lower half other than 0 and away from the user slot), the start
    returns, and afterwards every canonical address of those four slots whose
    level-4 entry is present and its alias lead to the same physical address, the
    one the address led to before. *)
Theorem alias_equals_low_half (s : Paging M) (entry stack low : Z) (Hload : loaded im poff boot entry stack s)
    (Hc : canonical low) (Hi : (pml4_index low < KERNEL_ALIAS_MAX_COPY_COUNT)%nat)
    (Hp : present (read_entry (pg_mem s) (pg_cr3 s) (pml4_index low)) = true) :
  exists regs s' h, kernel_main im poff entry stack s = Ok (regs, s') /\ kernel_high_alias_of_low low = Ok h /\
    translate_addr (pg_mem s') (pg_cr3 s) h = translate_addr (pg_mem s) (pg_cr3 s) low /\
    translate_addr (pg_mem s') (pg_cr3 s) low = translate_addr (pg_mem s) (pg_cr3 s) low.
Proof.
  change (pml4_index low < 4)%nat in Hi.
  destruct (kernel_main_spec im poff boot s entry stack Hload)
    as (regs & s' & Hrun & _ & _ & _ & _ & _ & _ & Ha & _).
  destruct (alias_address low (canonical_u64 _ Hc) Hi) as (h & Hh & Hch & Hih & Hsp & Hm).
  exists regs, s', h. split; [done|]. split; [done|].
  pose proof (ld_tables _ _ _ _ _ _ Hload) as Ht.
  rewrite !x86_translate, Hih, Hsp, Hm by done.
  pose proof (alias_slot poff boot Ht Ha (508 + pml4_index low)%nat ltac:(lia)) as E1.
  pose proof (alias_slot poff boot Ht Ha (pml4_index low) ltac:(lia)) as E2. unfold slot in E1, E2.
  rewrite E1, E2, alias_source_high, alias_source_low by (done || lia). done.
Qed.

(** C18: mapping and unmapping.  In a ready system, with free frames of the
    allocator for the page tables, mapping a free page of a user (a page of the
    slot, a physical frame, user flags) succeeds; then the walk of the CPU
    through this root finds exactly the frame and the flags at the page's address
    in the user slot, and the mappings of the other users do not change;
    unmapping the page succeeds, the walk finds nothing, and the user's mappings
    are what they were. *)
Theorem map_then_unmap (kr : PhysFrame) (us : list PhysFrame) (s : Paging M) (r : PhysFrame) (p : VirtPage)
    (f : PhysFrame) (fl : PageFlags) (pm : PhysicalMemoryManager)
    (Hs : paging_ready im poff boot kr us s) (Hr : r ∈ us) (Hp : page_ok p) (Hf : frame_ok f) (Hfl : user_flags fl)
    (Hfree : paging_user_map s r !! page_number p = None)
    (Hpm : frames_free (window_ok poff) (paging_tables kr us s) pm)
    (Hlen : (PAGE_TABLE_FRAMES <= length (pmm_remaining pm))%nat) :
  let va := USER_SPACE_BASE + page_number p * PAGE_SIZE in
  exists pm1 s1 s2,
    paging_apply_mem_action (Map p f fl) (Some r) (pm, s) = Ok (Okay tt, (pm1, s1)) /\
    hw_walk (pg_mem s1) r va = Some (f, to_x86_flags fl) /\
    (forall u, u ∈ us -> u <> r -> paging_user_map s1 u = paging_user_map s u) /\
    paging_apply_mem_action (Unmap p) (Some r) (pm1, s1) = Ok (Okay tt, (pm1, s2)) /\
    hw_walk (pg_mem s2) r va = None /\
    (forall u, u ∈ us -> paging_user_map s2 u = paging_user_map s u) /\
    paging_ready im poff boot kr us s2.
Proof.
  intros va.
  destruct (slot_address USER_PML4_INDEX p va ltac:(unfold USER_PML4_INDEX; lia) Hp) as (Hc & Hi & Hsp & _); [done|].
  destruct (paging_map_user im poff boot kr us s r p f fl pm Hs Hr Hp Hf Hfl Hfree Hpm Hlen)
    as (res & [pm1 s1] & Hrun1 & Hslot & -> & Hs1 & _ & Hum & Hoth & _). simpl in *.
  destruct (paging_unmap_user im poff boot kr us s1 r p pm1 Hs1 Hr Hp) as (res & [pm2 s2] & Hrun2 & -> & Hs2 & _ & Hun & Hoth2 & _ & Hpm2 & _).
  { rewrite Hum, lookup_insert_eq. eauto. }
  simpl in *. subst pm2.
  assert (Hwalk : forall s', hw_walk (pg_mem s') r va
     = (fun l => (leaf_frame l, leaf_flags l)) <$> slot (pg_mem s') r USER_PML4_INDEX !! page_number p).
  { intros s'. rewrite x86_walk, Hi, Hsp by done. done. }
  assert (Hrest : paging_user_map s2 r = paging_user_map s r) by (by rewrite Hun, Hum, delete_insert_id).
  exists pm1, s1, s2. split; [done|]. split; [|split; [done|split; [done|split; [|split; [|done]]]]].
  - by rewrite Hwalk, Hslot, lookup_insert_eq.
  - rewrite Hwalk. revert Hfree. rewrite <- Hrest. unfold paging_user_map. rewrite lookup_fmap, fmap_None. by intros ->.
  - intros u Hu. destruct (decide (u = r)) as [->|Hne]; [done|]. by rewrite Hoth2, Hoth.
Qed.

End theorems.

(** C16: a user cannot write another user's memory.  In a state of the kernel's
    invariant, a guarded write of any value to any 8-aligned address of the user
    slot through the root of one user task returns and leaves every aligned word
    of every page of another user task as it was, and the mapping of that page
    too. *)
Theorem user_write_isolated {M : Type} `{X86Laws M} (im : Image) (poff : Z) (boot : gset Z) (kr : PhysFrame)
    (us : list PhysFrame) (B : Z) (F : nat) (w : World (Paging M)) (i j : nat) (ri rj : PhysFrame)
    (addr v addr' : Z) (f : PhysFrame) (fl : PageFlags)
    (Hinv : @KillInv.Inv _ _ (paging_laws im poff boot) kr us B F w)
    (Hi : (0 < i < MAX_TASKS)%nat) (Hj : (0 < j < MAX_TASKS)%nat) (Hij : i <> j)
    (Hri : us !! (i - 1)%nat = Some ri) (Hrj : us !! (j - 1)%nat = Some rj)
    (Haddr : is_user_space_addr_u64 addr = true) (Halign : addr mod 8 = 0) (Halign' : addr' mod 8 = 0)
    (Hmap : paging_user_map (w_arch w) rj !! slot_page addr' = Some (f, fl)) :
  exists res s', paging_guarded_user_rw_u64_in_root im ri kr addr v (w_arch w) = Ok (res, s') /\
    paging_user_map s' rj !! slot_page addr' = Some (f, fl) /\
    let pa := frame_number f * PAGE_SIZE + addr' mod PAGE_SIZE in
    hw_load (pg_mem s') pa = hw_load (pg_mem (w_arch w)) pa.
Proof.
  set (s := w_arch w) in *.
  assert (Hin : forall k r, us !! k = Some r -> r ∈ us) by (intros k r; apply list_elem_of_lookup_2).
  pose proof (mi_ready _ _ _ _ _ (KillInv.in_m _ _ _ _ _ Hinv)) as Hs.
  destruct (user_rw_spec im poff boot kr us s ri addr v Hs (Hin _ _ Hri) Haddr Halign)
    as (res & s' & Hrun & _ & _ & Hm & Hsame & _).
  { intros p l Hl. eapply (user_frames_data (H0 := paging_laws im poff boot) kr us B F w ri p _ (of_x86_flags (leaf_flags l))); [done|by eapply Hin|].
    change (paging_user_map s ri !! p = Some (leaf_view l)). unfold paging_user_map. by rewrite lookup_fmap, Hl. }
  exists res, s'. split; [done|].
  destruct (views_same boot kr us s s' Hsame) as (V1 & _ & _). split; [by rewrite (V1 rj (Hin _ _ Hrj))|].
  intros pa. rewrite Hm. unfold rw_memory. rewrite (proj2 (user_addr_slot addr Haddr)).
  destruct (slot (pg_mem s) ri USER_PML4_INDEX !! slot_page addr) as [l|] eqn:El; [|done].
  destruct (x86_contains (leaf_flags l) X86_WRITABLE); [|done].
  assert (Hne : f <> leaf_frame l).
  { eapply (isolated_frames (H0 := paging_laws im poff boot) kr us B F w i j ri rj (slot_page addr) _ _ _
      (of_x86_flags (leaf_flags l)) _ Hinv); try done.
    change (paging_user_map s ri !! slot_page addr = Some (leaf_view l)). unfold paging_user_map. by rewrite lookup_fmap, El. }
  pose proof (Z.mod_pos_bound addr PAGE_SIZE ltac:(done)). pose proof (Z.mod_pos_bound addr' PAGE_SIZE ltac:(done)).
  apply x86_load_other; [by apply frame_word_aligned|by apply frame_word_aligned|]. unfold pa.
  intros E. apply Hne. destruct f as [n], (leaf_frame l) as [n']. simpl in E. f_equal. unfold PAGE_SIZE in *. lia.
Qed.

(** The address a Map action computes. *)
Lemma map_address_inv page fl va :
  u64 (page_number page) -> page_number page * PAGE_SIZE <= u64_max -> map_address (page_number page * PAGE_SIZE) (to_x86_flags fl) = Ok va ->
  va = page_number page * PAGE_SIZE + (if PageFlags_contains fl USER then USER_SPACE_BASE else 0) /\ u64 va.
Proof.
  pose proof (x86_contains_flags fl USER eq_refl) as Hu. change (bits USER) with X86_USER_ACCESSIBLE in Hu.
  unfold map_address, u64. rewrite Hu, user_space_base_value. unfold PAGE_SIZE. intros Hp Hle.
  destruct (PageFlags_contains fl USER); [intros [-> ?]%u64_add_inv; lia|].
  intros [= <-]. lia.
Qed.

Lemma mapper_of_inv {M} `{X86 M} root (s s' : Paging M) r :
  mapper_of root s = Ok (r, s') -> s' = s /\ r = default (pg_cr3 s) root.
Proof.
  destruct root as [r0|]; cbn [mapper_of default].
  - intros Hrun. split; [exact (reads_for_root _ _ _ _ Hrun)|]. unfold init_offset_page_table_for_root in Hrun.
    repeat (apply bind_inv in Hrun as (? & ? & _ & Hrun)). by injection Hrun as <- _.
  - unfold init_offset_page_table, active_level_4_table, phys_to_virt, check_offset. rewrite bind_assoc, bind_get.
    intros Hrun. repeat first
      [ rewrite bind_assoc in Hrun | rewrite bind_get in Hrun | rewrite bind_gets in Hrun | rewrite bind_ret in Hrun
      | apply bind_inv in Hrun as (? & ? & [_ ->]%lift_inv & Hrun) | by injection Hrun as <- <- ].
Qed.

(** C19: the mapping policy.  For any page number (a u64), frame (of a 52-bit
    physical address), flags, root and state: if a Map action returns, then what
    it did is one call of the mapper's [map_to] for the given frame and flags in
    the given root (CR3 without one) at the address of the page, moved to the user slot
    when the flags have the USER bit; nothing but the frames of the allocator
    and the memory changes.  That address is canonical, and it lies in the user
    slot exactly when the flags have the USER bit: a kernel mapping never lands
    in the user slot and a user mapping never outside. *)
Theorem mapping_policy {M : Type} `{X86 M} (page : VirtPage) (frame : PhysFrame) (flags : PageFlags)
    (root : option PhysFrame) (st st' : PhysicalMemoryManager * Paging M) (res : result unit PagingApplyError)
    (Hpage : u64 (page_number page)) (Hframe : frame_ok frame)
    (Hrun : paging_apply_mem_action (Map page frame flags) root st = Ok (res, st')) :
  let va := page_number page * PAGE_SIZE + (if PageFlags_contains flags USER then USER_SPACE_BASE else 0) in
  (exists r m', map_to KernelFrameAllocator_allocate_frame (default (pg_cr3 st.2) root) va frame (to_x86_flags flags)
       (st.1, pg_mem st.2) = Ok (r, (st'.1, m')) /\
     st'.2 = (let s := st.2 in {| s with pg_mem := m' |}) /\
     res = match r with Okay _ => Okay tt | Err _ => Err MapFailed end) /\
  canonical va /\ is_user_space_addr_u64 va = PageFlags_contains flags USER /\
  (pml4_index va = USER_PML4_INDEX <-> PageFlags_contains flags USER = true).
Proof.
  intros va0. cbn [paging_apply_mem_action] in Hrun. unfold map_with_mapper in Hrun.
  apply bind_inv in Hrun as (pa & ? & [Hpa ->]%lift_inv & Hrun).
  rewrite frame_start, bind_lift_Ok in Hrun by done.
  apply bind_inv in Hrun as (va & ? & [Hva ->]%lift_inv & Hrun).
  apply bind_inv in Hrun as (va' & ? & [[-> Hcan]%x86_virt_inv ->]%lift_inv & Hrun).
  apply bind_inv in Hrun as ([] & ? & [Hpol ->]%lift_inv & Hrun).
  cbn [phys_u64] in Hrun. rewrite PhysAddr_new_Ok, bind_lift_Ok in Hrun by done.
  change ENABLE_REAL_PAGING with true in Hrun. cbv iota zeta in Hrun.
  apply bind_inv in Hrun as (mapper & ? & Hm & Hrun). apply zoom_inv in Hm as (s1 & [-> ->]%mapper_of_inv & ->).
  apply bind_inv in Hrun as (r & ? & ([pm' m'] & Hmap & ->)%zoom_inv & Hrun). injection Hrun as <- <-.
  unfold VirtPage_start_address in Hpa.
  destruct (u64_mul (page_number page) PAGE_SIZE) as [y|] eqn:Ex; [|done].
  apply u64_mul_inv in Ex as [-> Hy]. injection Hpa as <-.
  destruct (map_address_inv page flags va Hpage Hy Hva) as [Eva Huv]. fold va0 in Eva. subst va.
  split.
  { exists r, m'. split; [|done]. rewrite Z.div_mul in Hmap by done.
    replace (PAGE_SIZE * (va0 / PAGE_SIZE)) with va0 in Hmap; [by destruct frame|].
    apply Z.div_exact; [done|]. unfold va0. by destruct (PageFlags_contains flags USER); rewrite Z.add_comm, Z.mod_add. }
  assert (Hc : canonical va0) by (rewrite <- Hcan; by apply canonicalize_result).
  assert (Hin : is_user_space_addr_u64 va0 = PageFlags_contains flags USER).
  { pose proof (x86_contains_flags flags USER eq_refl) as Hu. change (bits USER) with X86_USER_ACCESSIBLE in Hu.
    revert Hpol. unfold enforce_user_mapping_policy. rewrite Hu.
    by destruct (PageFlags_contains flags USER), (is_user_space_addr_u64 va0). }
  split; [done|]. split; [done|]. rewrite <- Hin. symmetry. by apply user_slot_index.
Qed.

(** C39: a physical-memory window in the upper half.  For any offset whose level-4
    index is 256 or more, [init] accepts the offset, but no user root can be set
    up with it: [init_user_pml4_from_current] never returns, whatever the root
    and the memory, because the entries of the window are copied only below
    index 256 and the check after the copy finds none. *)
Theorem upper_half_window_fails {M : Type} `{X86Laws M} (off : Z) (s : Paging M) (r : PhysFrame)
    (Hoff : PHYSICAL_MEMORY_OFFSET s = off) (Hhigh : (256 <= pml4_index off)%nat) :
  paging_init off s = Ok (tt, s) /\
  forall s', paging_init_user_pml4_from_current r s <> Ok (tt, s').
Proof.
  assert (Hend : physmap_copy_end (pml4_index off) = 256%nat) by (unfold physmap_copy_end; lia).
  pose proof (pml4_index_lt off) as H512. split.
  { unfold paging_init. rewrite bind_modify.
    assert (Ha : assert_no_physmap_user_slot_collision off = Ok tt).
    { unfold assert_no_physmap_user_slot_collision, USER_PML4_INDEX.
      by rewrite (proj2 (Nat.eqb_neq (pml4_index off) 32)), (proj2 (Nat.ltb_ge (pml4_index off) 256)) by lia. }
    rewrite Ha. destruct s. simpl in Hoff. by subst. }
  intros s' Hrun. unfold paging_init_user_pml4_from_current in Hrun. rewrite bind_get in Hrun. cbv zeta in Hrun.
  do 5 (apply bind_inv in Hrun as (? & ? & [_ ->]%lift_inv & Hrun)).
  apply bind_inv in Hrun as ([] & s1 & Hclear & Hrun).
  destruct (clear_loop s r (seq 0 512)) as ([] & s1' & Hclear' & m1 & -> & _ & He); [intros i; by apply seq_lt|].
  rewrite Hclear in Hclear'. injection Hclear' as ->.
  rewrite Hoff, Hend, (proj2 (Nat.sub_0_le 256 (pml4_index off)) Hhigh) in Hrun.
  rewrite (bind_Ok (for_each (seq (pml4_index off) 0) _) _ _ tt (with_mem s m1)) in Hrun by done.
  unfold entry_at in Hrun. rewrite bind_gets in Hrun. cbn [pg_mem with_mem] in Hrun.
  rewrite He, decide_True in Hrun by (apply elem_of_seq; lia). done.
Qed.

(** ** Witnesses *)

Definition demo_user : PhysFrame := mkPhysFrame 0x101.
Definition demo_paging (n : nat) : Paging RefMem := w_arch (demo_world default_features n).
(** The page task 2 maps at its eighth tick. *)
Definition demo_address : Z := 0x100000110000.

Lemma demo_inv n : (n <= 200)%nat ->
  KillInv.Inv demo_kr demo_roots (TICK_COST * Z.of_nat n) (2041 - n * TICK_FRAMES)%nat (demo_world default_features n).
Proof. by apply demo_world_inv. Qed.

Lemma demo_ready n : (n <= 200)%nat ->
  paging_ready demo_image demo_off demo_boot demo_kr demo_roots (demo_paging n).
Proof. intros Hn. exact (mi_ready _ _ _ _ _ (KillInv.in_m _ _ _ _ _ (demo_inv n Hn))). Qed.

Lemma demo_user_in : demo_user ∈ demo_roots.
Proof. right. left. Qed.

Lemma demo_data n p f fl : (n <= 200)%nat ->
  paging_user_map (demo_paging n) demo_user !! p = Some (f, fl) ->
  ~ paging_tables demo_kr demo_roots (demo_paging n) f.
Proof. intros Hn. exact (user_frames_data _ _ _ _ _ demo_user p f fl (demo_inv n Hn) demo_user_in). Qed.

Lemma start_makes_paging_ready_witness :
  exists s', kernel_main demo_image demo_off demo_entry demo_stack demo_loaded_paging
    = Ok ((0xfffffe0000200000, 0xfffffe0000201fe0, 0xfffffe0000201ff0), s') /\
    paging_ready demo_image demo_off demo_boot demo_kr [] s'.
Proof.
  destruct (start_makes_paging_ready demo_image demo_off demo_boot demo_loaded_paging demo_entry demo_stack demo_loaded)
    as (he & rsp & rbp & h & s' & Hrun & Hr & _ & _ & He & Hh & -> & Hb).
  exists s'. split; [|exact Hr]. rewrite Hrun.
  vm_compute in He. vm_compute in Hh. vm_compute in Hb. injection He as <-. injection Hh as <-. injection Hb as <-.
  reflexivity.
Defined.

Lemma checked_switch_sound_witness :
  exists s', paging_switch_address_space (Some demo_user) (demo_paging 5) = Ok (tt, s') /\ pg_cr3 s' = demo_user.
Proof.
  destruct (paging_switch _ _ _ _ _ _ _ (demo_ready 5 ltac:(lia)) demo_user_in) as ([] & s' & Hrun & _).
  exists s'. split; [exact Hrun|].
  assert (Hc : pg_cr3 (demo_paging 5) = mkPhysFrame 0x100) by (vm_compute; reflexivity).
  assert (Hx : pg_context (demo_paging 5) 0%nat = (0xfffffe0000200010, 0xfffffe0000201f00, 0xfffffe0000201f80))
    by (vm_compute; reflexivity).
  pose proof (checked_switch_sound (demo_paging 5) s' demo_user) as Hsw. rewrite Hc, Hx in Hsw.
  apply Hsw; [vm_compute; reflexivity|split; vm_compute; congruence|split; vm_compute; congruence
    |vm_compute; congruence|exact Hrun].
Defined.

Lemma ready_switch_passes_witness :
  exists s', paging_switch_address_space (Some demo_user) (demo_paging 5) = Ok (tt, s') /\ pg_cr3 s' = demo_user.
Proof.
  destruct (ready_switch_passes demo_image demo_off demo_boot demo_kr demo_roots (demo_paging 5) demo_user
    (demo_ready 5 ltac:(lia)) demo_user_in eq_refl) as (s' & Hrun & Hc & _).
  exists s'. exact (conj Hrun Hc).
Defined.

Lemma guarded_write_outcome_witness :
  exists s', paging_guarded_user_rw_u64_in_root demo_image demo_user demo_kr demo_address 42 (demo_paging 8)
    = Ok (Okay 42, s') /\ pg_cr3 s' = demo_kr.
Proof.
  destruct (guarded_write_outcome demo_image demo_off demo_boot demo_kr demo_roots (demo_paging 8) demo_user demo_address 42
    (demo_ready 8 ltac:(lia)) demo_user_in eq_refl eq_refl) as (res & s' & Hrun & _ & Hc & _ & _ & Hres);
    [split; vm_compute; congruence|intros p f fl; apply demo_data; lia|].
  exists s'. split; [|exact Hc]. rewrite Hrun, Hres. vm_compute. reflexivity.
Defined.

Lemma guarded_write_read_witness :
  exists s1 s2, paging_guarded_user_rw_u64_in_root demo_image demo_user demo_kr demo_address 42 (demo_paging 8)
    = Ok (Okay 42, s1) /\ guarded_user_read_u64_in_root demo_image demo_user demo_kr demo_address s1 = Ok (Okay 42, s2).
Proof.
  destruct (user_rw_spec _ _ _ _ _ _ _ demo_address 42 (demo_ready 8 ltac:(lia)) demo_user_in eq_refl eq_refl)
    as (res & s1 & Hrun & Hres & _).
  { intros p l Hl. eapply (demo_data 8 p); [lia|]. unfold paging_user_map. by rewrite lookup_fmap, Hl. }
  vm_compute in Hres. subst res.
  destruct (guarded_write_read demo_image demo_off demo_boot demo_kr demo_roots (demo_paging 8) s1 demo_user demo_address 42 42
    (demo_ready 8 ltac:(lia)) demo_user_in eq_refl eq_refl (fun p f fl => demo_data 8 p f fl ltac:(lia)) Hrun) as (s2 & Hrun2 & _).
  exists s1, s2. exact (conj Hrun Hrun2).
Defined.

Lemma demo_fresh_root :
  let r := mkPhysFrame 0x100 in
  paging_ready demo_image demo_off demo_boot demo_kr [] demo_arch /\ pg_cr3 demo_arch = demo_kr /\
  window_ok demo_off r /\ ~ paging_tables demo_kr [] demo_arch r.
Proof.
  intros r. pose proof demo_start as [Hst Hcr].
  assert (Hin : r ∈ phys_frame <$> usable_frames demo_memory) by (rewrite demo_usable; left).
  pose proof (so_ready _ _ Hst) as Hr. pose proof (so_reach _ _ Hst _ Hin) as Hw.
  pose proof (so_unused _ _ Hst _ Hin) as Hu. rewrite Hcr in Hr, Hu. exact (conj Hr (conj Hcr (conj Hw Hu))).
Qed.

Lemma new_root_translations_witness :
  exists s', paging_init_user_pml4_from_current (mkPhysFrame 0x100) demo_arch = Ok (tt, s') /\
    translate_addr (pg_mem s') (mkPhysFrame 0x100) demo_entry = None.
Proof.
  destruct demo_fresh_root as (Hr & Hcr & Hw & Hu).
  destruct (new_root_translations demo_image demo_off demo_boot demo_kr [] demo_arch (mkPhysFrame 0x100) Hr Hcr Hw Hu)
    as (s' & Hrun & _ & Ht).
  exists s'. split; [exact Hrun|].
  destruct (Ht demo_entry) as [_ ->]; [left; vm_compute; split; congruence|]. vm_compute. reflexivity.
Defined.

Lemma alias_equals_low_half_witness :
  exists regs s', kernel_main demo_image demo_off demo_entry demo_stack demo_loaded_paging = Ok (regs, s') /\
    translate_addr (pg_mem s') demo_kr 0xfffffe0000201234 = Some 0x1001234.
Proof.
  destruct (alias_equals_low_half demo_image demo_off demo_boot demo_loaded_paging demo_entry demo_stack 0x201234 demo_loaded)
    as (regs & s' & h & Hrun & Hh & Ht & _);
    [left; vm_compute; split; congruence|vm_compute; lia|reflexivity|].
  exists regs, s'. split; [exact Hrun|]. vm_compute in Hh. injection Hh as <-. change demo_kr with (pg_cr3 demo_loaded_paging). rewrite Ht. vm_compute. reflexivity.
Defined.

Lemma map_then_unmap_witness :
  let pm := phys_mem (w_ks (demo_world default_features 5)) in
  exists pm1 s1, paging_apply_mem_action (Map (mkVirtPage 5) (mkPhysFrame 0x5000) Demo.USER_DEMO_FLAGS) (Some demo_user)
      (pm, demo_paging 5) = Ok (Okay tt, (pm1, s1)) /\
    hw_walk (pg_mem s1) demo_user 0x100000005000 = Some (mkPhysFrame 0x5000, 0x7).
Proof.
  intros pm.
  destruct (map_then_unmap demo_image demo_off demo_boot demo_kr demo_roots (demo_paging 5) demo_user (mkVirtPage 5)
    (mkPhysFrame 0x5000) Demo.USER_DEMO_FLAGS pm (demo_ready 5 ltac:(lia)) demo_user_in)
    as (pm1 & s1 & s2 & Hrun & Hwalk & _).
  - split; vm_compute; congruence.
  - split; vm_compute; congruence.
  - split; [split|]; reflexivity.
  - vm_compute. reflexivity.
  - exact (sep_free _ _ _ _ _ _ (mi_sep _ _ _ _ _ (KillInv.in_m _ _ _ _ _ (demo_inv 5 ltac:(lia))))).
  - vm_compute. lia.
  - exists pm1, s1. split; [exact Hrun|exact Hwalk].
Defined.

Lemma mapping_policy_witness :
  let st := (phys_mem (w_ks (demo_world default_features 5)), demo_paging 5) in
  exists r pm m', map_to KernelFrameAllocator_allocate_frame demo_user 0x100000005000 (mkPhysFrame 0x5000) 0x7
      (st.1, pg_mem st.2) = Ok (r, (pm, m')) /\ is_user_space_addr_u64 0x100000005000 = true.
Proof.
  intros st.
  destruct (paging_apply_mem_action (Map (mkVirtPage 5) (mkPhysFrame 0x5000) Demo.USER_DEMO_FLAGS) (Some demo_user) st)
    as [[res st']|pn] eqn:E.
  - destruct (mapping_policy (mkVirtPage 5) (mkPhysFrame 0x5000) Demo.USER_DEMO_FLAGS (Some demo_user) st st' res)
      as ((r & m' & Hm & _ & _) & _ & Hin & _); [split; vm_compute; congruence|split; vm_compute; congruence|exact E|].
    exists r, (st'.1), m'. exact (conj Hm Hin).
  - exfalso.
    assert (Hok : match paging_apply_mem_action (Map (mkVirtPage 5) (mkPhysFrame 0x5000) Demo.USER_DEMO_FLAGS)
                    (Some demo_user) st with
                  | Ok _ => True | Panicked _ => False end) by (vm_compute; exact I).
    rewrite E in Hok. exact Hok.
Defined.

Definition upper_half_paging : Paging RefMem :=
  mkPaging demo_mem demo_kr demo_context PHYSMAP_START false 0 0 0 0 0 0 0%nat 0 0 (fun _ => 0).

Lemma upper_half_window_fails_witness :
  paging_init PHYSMAP_START upper_half_paging = Ok (tt, upper_half_paging) /\
  forall s', paging_init_user_pml4_from_current (mkPhysFrame 0x100) upper_half_paging <> Ok (tt, s').
Proof.
  apply (upper_half_window_fails PHYSMAP_START upper_half_paging (mkPhysFrame 0x100) eq_refl).
  apply Nat.leb_le. reflexivity.
Defined.

Lemma user_write_isolated_witness :
  exists res s', paging_guarded_user_rw_u64_in_root demo_image (mkPhysFrame 0x100) demo_kr demo_address 42 (demo_paging 12)
    = Ok (res, s') /\
    let pa := 266 * PAGE_SIZE + demo_address mod PAGE_SIZE in
    hw_load (pg_mem s') pa = hw_load (pg_mem (demo_paging 12)) pa.
Proof.
  destruct (user_write_isolated demo_image demo_off demo_boot demo_kr demo_roots _ _ (demo_world default_features 12) 1 2
    (mkPhysFrame 0x100) demo_user demo_address 42 demo_address (mkPhysFrame 266) Demo.USER_DEMO_FLAGS
    (demo_inv 12 ltac:(lia))) as (res & s' & Hrun & _ & Hload); try (unfold MAX_TASKS; lia); try reflexivity.
  exists res, s'. exact (conj Hrun Hload).
Defined.
