(* ===== verification/EntryTheorems.v ===== *)
(** * The properties of the ring 3 demos

    The user program as the CPU reads it, and where the demos take their frames
    from. *)

From stdpp Require Import base list option gmap sets strings.
From Stdlib Require Import ZArith Lia.
From S2P Require Import Prelude Addr AddressSpace FrameAlloc Queues KTypes Endpoint EventLog KState ArchIface Gdt.
From S2P Require Import X86 RefMem Paging PagingInv PagingLaws PagingMap PagingArch PagingStart.
From S2P Require Import Sched Ipc Kill Demo Syscall Tick Invariant MemInv KillInv TickInv Boot Entry System.
#[local] Open Scope Z_scope.

(** ** The instructions of the programs *)

Inductive instr :=
  | MovRspImm (off imm : Z)
  | MovRaxRsp (off : Z)
  | MovRspRax (off : Z)
  | Int80
  | JmpSelf.

(** An [i8] displacement and a sign-extended 32-bit immediate. *)
Definition i8_of_u8 (b : Z) : Z := if b <? 128 then b else b - 256.
Definition imm32 (b0 b1 b2 b3 : Z) : Z := b0 + 2 ^ 8 * b1 + 2 ^ 16 * b2 + 2 ^ 24 * b3.

(** The encodings of the Intel manual for REX.W C7 /0, REX.W 8B /r and REX.W 89 /r
    with a SIB byte for RSP and an 8-bit displacement, INT imm8 and JMP rel8. *)
Definition decode1 (bs : list Z) : option (instr * list Z) :=
  match bs with
  | 0x48 :: 0xC7 :: 0x44 :: 0x24 :: off :: b0 :: b1 :: b2 :: b3 :: rest =>
      Some (MovRspImm (i8_of_u8 off) (imm32 b0 b1 b2 b3), rest)
  | 0x48 :: 0x8B :: 0x44 :: 0x24 :: off :: rest => Some (MovRaxRsp (i8_of_u8 off), rest)
  | 0x48 :: 0x89 :: 0x44 :: 0x24 :: off :: rest => Some (MovRspRax (i8_of_u8 off), rest)
  | 0xCD :: 0x80 :: rest => Some (Int80, rest)
  | 0xEB :: 0xFE :: rest => Some (JmpSelf, rest)
  | _ => None
  end.

Fixpoint decode (fuel : nat) (bs : list Z) : option (list instr) :=
  match bs, fuel with
  | [], _ => Some []
  | _, O => None
  | _, S fuel => '(i, rest) ← decode1 bs; l ← decode fuel rest; Some (i :: l)
  end.

(** The mailbox requests a straight-line program makes: the words at the slots
    when [int 0x80] executes. *)
Fixpoint requests (slots : Z -> Z) (l : list instr) : list (Z * Z * Z * Z) :=
  match l with
  | [] => []
  | MovRspImm off imm :: l => requests (fun o => if o =? off then imm else slots o) l
  | Int80 :: l => (slots (-16), slots (-24), slots (-32), slots (-40)) :: requests slots l
  | _ :: l => requests slots l
  end.

Lemma i8_roundtrip off : -128 <= off < 128 -> i8_of_u8 (i8_as_u8 off) = off.
Proof.
  intros Ho. unfold i8_of_u8, i8_as_u8. destruct (Z.lt_ge_cases off 0).
  - rewrite <- (Z.mod_unique off 256 (-1) (off + 256)) by lia. rewrite (proj2 (Z.ltb_ge _ _)); lia.
  - rewrite Z.mod_small by lia. rewrite (proj2 (Z.ltb_lt _ _)); lia.
Qed.

Lemma imm32_roundtrip imm : 0 <= imm < 2 ^ 32 ->
  imm32 (Z.land imm 0xFF) (Z.land (Z.shiftr imm 8) 0xFF) (Z.land (Z.shiftr imm 16) 0xFF)
    (Z.land (Z.shiftr imm 24) 0xFF) = imm.
Proof.
  intros Hi. unfold imm32. rewrite !Z.shiftr_div_pow2 by lia. change 0xFF with (Z.ones 8). rewrite !Z.land_ones by lia.
  rewrite (Z.mod_small (imm / 2 ^ 24)) by (split; [apply Z.div_pos; lia|apply Z.div_lt_upper_bound; lia]).
  pose proof (Z.div_mod imm (2 ^ 8) ltac:(lia)). pose proof (Z.div_mod (imm / 2 ^ 8) (2 ^ 8) ltac:(lia)) as H1.
  pose proof (Z.div_mod (imm / 2 ^ 16) (2 ^ 8) ltac:(lia)) as H2.
  rewrite Z.div_div in H1 by lia. change (2 ^ 8 * 2 ^ 8) with (2 ^ 16) in H1.
  rewrite Z.div_div in H2 by lia. change (2 ^ 16 * 2 ^ 8) with (2 ^ 24) in H2. lia.
Qed.

(** The assembler.  For every 8-bit displacement and 32-bit immediate the
    encoder appends nine bytes that the CPU reads back as that store, whatever
    follows them; if they would not fit in the 4096-byte buffer it panics and
    never writes past the end. *)
Theorem assembled_store_reads_back (off imm : Z) (buf rest : list Z)
    (Hoff : -128 <= off < 128) (Himm : 0 <= imm < 2 ^ 32) :
  if (BYTES_CAP <? length buf + 9)%nat
  then mov_rsp_off_imm32 off imm buf = Panicked (PanicMsg "ring3_mailbox_loop: bytes_vec overflow")
  else exists bs, mov_rsp_off_imm32 off imm buf = Ok (tt, buf ++ bs) /\ length bs = 9%nat /\
         decode1 (bs ++ rest) = Some (MovRspImm off imm, rest).
Proof.
  unfold mov_rsp_off_imm32, push_bytes. rewrite bind_get. unfold ensure_cap. cbn [length].
  destruct (_ <? _)%nat; [done|]. rewrite bind_lift_Ok. eexists. split; [done|]. split; [done|].
  cbn [app decode1]. by rewrite i8_roundtrip, imm32_roundtrip.
Qed.

Lemma assembled_store_reads_back_witness :
  exists bs, mov_rsp_off_imm32 (-40) 0x12345678 [] = Ok (tt, [] ++ bs) /\
    decode1 (bs ++ [0xCD; 0x80]) = Some (MovRspImm (-40) 0x12345678, [0xCD; 0x80]).
Proof.
  pose proof (assembled_store_reads_back (-40) 0x12345678 [] [0xCD; 0x80] ltac:(lia) ltac:(lia)) as Ha.
  change (BYTES_CAP <? length (@nil Z) + 9)%nat with false in Ha. cbv iota in Ha.
  destruct Ha as (bs & Hrun & _ & Hd). exists bs. exact (conj Hrun Hd).
Defined.

(** What one round of the mailbox program asks for: a send on endpoint 0, eight
    ticks, and the reply. *)
Definition round_requests (round : nat) : list (Z * Z * Z * Z) :=
  (11, 0, 0x1234 + Z.of_nat round, 0) :: replicate 8 (30, 0, 0, 0) ++ [(31, 0, 0, 0)].

(** The program of the mailbox loop.  Its assembly returns (the buffer is
    large enough), the bytes decode, and executing them makes exactly four
    rounds of requests and then loops. *)
Theorem mailbox_loop_program_requests :
  exists bytes l, mailbox_loop_program [] = Ok (tt, bytes) /\ (length bytes <= BYTES_CAP)%nat /\
    decode BYTES_CAP bytes = Some (l ++ [JmpSelf]) /\
    requests (fun _ => 0) l = concat (round_requests <$> seq 0 4).
Proof.
  destruct (mailbox_loop_program []) as [[[] bytes]|] eqn:E; [|by vm_compute in E].
  exists bytes, (removelast (default [] (decode BYTES_CAP bytes))).
  vm_compute in E. injection E as <-. split; [done|]. split; [vm_compute; lia|]. split; vm_compute; reflexivity.
Qed.

(** ** The frames of the demos *)

Section frames.
Context {M : Type} `{X86Laws M} (im : Image) (poff : Z) (boot : gset Z).

Lemma quiet_cr3 (s s' : Paging M) r : paging_switch_address_space_quiet r s = Ok (tt, s') ->
  frame_number (pg_cr3 s') * PAGE_SIZE = frame_number r * PAGE_SIZE.
Proof.
  unfold paging_switch_address_space_quiet. intros (f & ? & [_ ->]%lift_inv & Hrun)%bind_inv.
  unfold Cr3_write in Hrun. rewrite bind_modify, bind_get in Hrun.
  apply bind_inv in Hrun as (now & ? & [Hnow ->]%lift_inv & Hrun).
  apply bind_inv in Hrun as (want & ? & [Hwant ->]%lift_inv & Hrun).
  destruct (Z.eqb_spec (phys_u64 now) (phys_u64 want)) as [E|]; [|done]. simpl in Hrun. injection Hrun as <-.
  revert Hnow Hwant. unfold PhysFrame_start_address, u64_mul. simpl.
  destruct (_ <=? _); [|done]. destruct (_ <=? _); [|done]. simpl. intros [= <-] [= <-]. done.
Qed.

Lemma frame_eq_of_address (f g : PhysFrame) : frame_number f * PAGE_SIZE = frame_number g * PAGE_SIZE -> f = g.
Proof. destruct f, g. unfold PAGE_SIZE. simpl. intros. f_equal. lia. Qed.

Lemma fresh_user_root_first name map pm (s : Paging M) user_root st :
  Forall region_ok map -> PhysicalMemoryManager_new map = Ok pm ->
  fresh_user_root name (pm, s) = Ok (user_root, st) ->
  head (phys_frame <$> usable_frames map) = Some user_root.
Proof.
  intros Hmap Hpm. destruct (BootInfoFrameAllocator_new_spec map Hmap) as (al & Hnew & Hwf & Hrem & _).
  unfold PhysicalMemoryManager_new in Hpm. rewrite Hnew, Ok_bind in Hpm.
  assert (pm = mkPhysMem al) as -> by (by injection Hpm as <-).
  unfold fresh_user_root. rewrite bind_get. unfold allocate_new_l4_table.
  destruct (pmm_allocate_spec (mkPhysMem al) Hwf) as (pm' & -> & _ & _). unfold pmm_remaining. simpl. rewrite Hrem.
  destruct (usable_frames map) as [|p ps]; [done|]. simpl.
  change (lift_res (mret ?r)) with (lift_res (S := PhysicalMemoryManager * Paging M) (Ok r)).
  rewrite bind_lift_Ok. unfold put. intros ([] & ? & Hput & Hrun)%bind_inv.
  apply bind_inv in Hrun as ([] & ? & _ & Hret). by injection Hret as <- _.
Qed.

Lemma enter_ring3_cr3 (sel : Selectors) (user_root : PhysFrame) st e (pm : PhysicalMemoryManager) (s' : Paging M) :
  enter_ring3 sel user_root st = Ok (e, (pm, s')) -> pg_cr3 s' = user_root /\ user_entry sel = Ok e.
Proof.
  unfold enter_ring3. intros (e' & ? & [He ->]%lift_inv & Hrun)%bind_inv.
  apply bind_inv in Hrun as ([] & ? & Hq & Hret). injection Hret as -> ->.
  revert Hq. unfold on_paging, zoom. destruct st as [pm0 s0]. cbn [fst snd].
  destruct (paging_switch_address_space_quiet user_root s0) as [[[] s1]|] eqn:Eq; [|done]. intros [= <- <-].
  split; [|done]. by apply frame_eq_of_address, quiet_cr3 with s0.
Qed.

(** C38: the frames of the mailbox demo are in use.  On a machine the kernel can start
    on ([start_ok]: paging ready as the start leaves it, a valid memory map with
    frames for the two user roots, of frames that hold no table), if
    [run_ring3_mailbox_demo] gets as far as entering ring 3, from any state, then
    the root it set up and leaves in CR3 is the frame that [KernelState::new]
    already made the root of task 1: the demo makes a frame manager of its own
    from the same memory map. *)
Theorem mailbox_demo_reuses_root (sel : Selectors) (map : list MemoryRegion) (ft : Features) (s s1 s2 : Paging M) (e : UserEntry)
    (pm : PhysicalMemoryManager)
    (Hstart : @start_ok _ _ (paging_laws im poff boot) map s) (Hframes : (2 <= length (usable_frames map))%nat)
    (Hrun : run_ring3_mailbox_demo sel map s1 = Ok (e, (pm, s2))) :
  exists w asp, @KernelState_new _ (paging_arch im) ft map s = Ok w /\
    address_spaces (w_ks w) !! 1%nat = Some asp /\ as_root_page_frame asp = Some (pg_cr3 s2).
Proof.
  destruct (@new_spec _ _ (paging_laws im poff boot) ft map s 0 Hstart) as (w & Hnew & Hinv); [lia|].
  revert Hrun. unfold run_ring3_mailbox_demo.
  destruct (PhysicalMemoryManager_new map) as [pm0|] eqn:Hpm; [rewrite Ok_bind|done].
  intros (user_root & st & Hroot & Hrun)%bind_inv.
  do 5 (apply bind_inv in Hrun as (? & ? & _ & Hrun)).
  apply enter_ring3_cr3 in Hrun as [<- _].
  apply (fresh_user_root_first _ map) in Hroot; [|apply (so_map _ _ Hstart)|done].
  destruct (user_aspace _ _ _ _ _ 1%nat (in_k _ _ _ _ _ Hinv)) as (asp & r & Hasp & _ & Hr & Hus & _); [unfold MAX_TASKS; lia|].
  exists w, asp. split_and!; try done. rewrite Hr, <- Hroot, <- Hus.
  by destruct (usable_frames map).
Qed.

End frames.

(** The mailbox demo from the state after three ticks, as [kernel_high_entry]
    calls it. *)
Definition demo_selectors : Selectors := mkSelectors 0x08 0x10 0x28 0x1b 0x23.
Definition mailbox_features : Features := {| default_features with ring3_mailbox := true |}.
Definition mailbox_demo_run : res (UserEntry * (PhysicalMemoryManager * Paging RefMem)) :=
  run_ring3_mailbox_demo demo_selectors demo_memory (w_arch (demo_world mailbox_features 3)).

Lemma mailbox_demo_returns : exists r, mailbox_demo_run = Ok r.
Proof.
  assert (Hok : match mailbox_demo_run with Ok _ => true | Panicked _ => false end = true) by (vm_compute; reflexivity).
  destruct mailbox_demo_run as [r|]; [by exists r|done].
Qed.

Lemma mailbox_demo_reuses_root_witness :
  exists e pm s2 w asp, mailbox_demo_run = Ok (e, (pm, s2)) /\
    KernelState_new mailbox_features demo_memory demo_arch = Ok w /\
    address_spaces (w_ks w) !! 1%nat = Some asp /\ as_root_page_frame asp = Some (pg_cr3 s2).
Proof.
  destruct mailbox_demo_returns as [[e [pm s2]] Hrun].
  destruct (mailbox_demo_reuses_root demo_image demo_off demo_boot demo_selectors demo_memory mailbox_features demo_arch
    (w_arch (demo_world mailbox_features 3)) s2 e pm (proj1 demo_start)) as (w & asp & Hw).
  - rewrite demo_usable, length_fmap, length_seq. lia.
  - exact Hrun.
  - exists e, pm, s2, w, asp. exact (conj Hrun Hw).
Defined.
