(* ===== verification/IntTheorems.v ===== *)
(** * The properties of the interrupt handlers

    The [int 0x80] gate over every machine that satisfies [X86Laws], and the
    tables the CPU finds when an interrupt comes in.  At the end, a run of the
    mailbox loop between ring 3 and the kernel on the machine of System. *)

From stdpp Require Import base list option gmap sets strings.
From Stdlib Require Import ZArith Lia.
From S2P Require Import Prelude Addr AddressSpace FrameAlloc Queues KTypes Endpoint EventLog KState ArchIface Gdt.
From S2P Require Import X86 RefMem Paging PagingInv PagingLaws PagingMap PagingArch PagingStart.
From S2P Require Import Sched Ipc Kill Demo Syscall Tick Invariant MemInv KillInv TickInv Boot Entry Interrupts System.
From S2P Require Import PagingTheorems EntryTheorems.
#[local] Open Scope Z_scope.

(** ** The mailbox *)

(** A stack pointer whose mailbox lies in the user slot, aligned. *)
Definition mailbox_rsp (rsp : Z) : Prop :=
  USER_SPACE_BASE + 48 <= rsp <= USER_SPACE_BASE + USER_SPACE_SIZE /\ rsp mod 8 = 0.

Lemma mailbox_slot_user rsp off : mailbox_rsp rsp -> 8 <= off <= 48 ->
  mailbox_slot rsp off = rsp - off /\ is_user_space_addr_u64 (mailbox_slot rsp off) = true.
Proof.
  unfold mailbox_rsp, mailbox_slot, u64_wrapping_sub, is_user_space_addr_u64.
  change USER_SPACE_SIZE with (2 ^ 39). rewrite user_space_base_value. intros [Hr _] Ho.
  rewrite Z.mod_small by lia. split; [done|]. rewrite andb_true_iff, Z.leb_le, Z.ltb_lt. lia.
Qed.

Lemma slot_ret rsp : mailbox_rsp rsp -> mailbox_slot rsp OFF_RET = rsp - 48 /\ (rsp - 48) mod 8 = 0.
Proof.
  intros Hrsp. split; [by apply mailbox_slot_user|]. destruct Hrsp as [_ Hal].
  rewrite Zminus_mod, Hal. done.
Qed.

(** A stack pointer whose mailbox words have canonical addresses and whose result
    slot is aligned, in the user slot or not. *)
Definition mailbox_addressable (rsp : Z) : Prop :=
  (forall off, off ∈ [OFF_SYSNO; OFF_A0; OFF_A1; OFF_A2; OFF_RET] -> canonical (mailbox_slot rsp off)) /\
  mailbox_slot rsp OFF_RET mod 8 = 0.

Lemma mailbox_rsp_addressable rsp : mailbox_rsp rsp -> mailbox_addressable rsp.
Proof.
  intros Hrsp. split; [|by destruct (slot_ret rsp Hrsp) as [-> ?]]. intros off Hoff.
  apply user_addr_slot, mailbox_slot_user; [done|].
  repeat (apply elem_of_cons in Hoff as [->|Hoff]; [vm_compute; split; congruence|]). by apply elem_of_nil in Hoff.
Qed.

Section int80.
Context {M : Type} `{X86Laws M} (im : Image) (poff : Z) (boot : gset Z).
#[local] Abbreviation ready := (paging_ready im poff boot).

(** The word at an address of the root [r], as the kernel reads it: 0 where nothing
    is mapped. *)
Definition user_word (m : M) (r : PhysFrame) (addr : Z) : Z :=
  match slot m r (pml4_index addr) !! slot_page addr with
  | Some l => hw_load m (frame_number (leaf_frame l) * PAGE_SIZE + addr mod PAGE_SIZE)
  | None => 0
  end.

Definition request_of (m : M) (r : PhysFrame) (rsp : Z) : Z * Z * Z * Z :=
  (user_word m r (mailbox_slot rsp OFF_SYSNO), user_word m r (mailbox_slot rsp OFF_A0),
   user_word m r (mailbox_slot rsp OFF_A1), user_word m r (mailbox_slot rsp OFF_A2)).

Lemma read_or_0_spec kr us (s : Paging M) r addr :
  ready kr us s -> r ∈ us -> canonical addr ->
  returns (read_or_0 im r kr addr) s (fun v s' =>
    v = user_word (pg_mem s) r addr /\ ready kr us s' /\ pg_mem s' = pg_mem s /\ pg_cr3 s' = kr).
Proof.
  intros Hs Hr Ha. unfold read_or_0. eapply returns_seq; [by apply (paging_read_spec im poff boot)|].
  intros res s' (-> & Hs' & Hm & Hc). apply returns_ret. split; [|done].
  unfold read_result, user_word. by destruct (_ !! _).
Qed.

Lemma read_request_spec kr us (s : Paging M) r rsp :
  ready kr us s -> r ∈ us -> mailbox_addressable rsp ->
  returns (read_request im r kr rsp) s (fun req s' =>
    req = request_of (pg_mem s) r rsp /\ ready kr us s' /\ pg_mem s' = pg_mem s /\ pg_cr3 s' = kr).
Proof.
  intros Hs Hr [Hslot _]. unfold read_request, request_of.
  eapply returns_seq; [apply (read_or_0_spec kr us); [done|done|apply Hslot; set_solver]|]. intros v1 s1 (-> & Hs1 & Hm1 & _).
  eapply returns_seq; [apply (read_or_0_spec kr us); [done|done|apply Hslot; set_solver]|]. intros v2 s2 (-> & Hs2 & Hm2 & _).
  eapply returns_seq; [apply (read_or_0_spec kr us); [done|done|apply Hslot; set_solver]|]. intros v3 s3 (-> & Hs3 & Hm3 & _).
  eapply returns_seq; [apply (read_or_0_spec kr us); [done|done|apply Hslot; set_solver]|]. intros v4 s4 (-> & Hs4 & Hm4 & Hc4).
  apply returns_ret. rewrite Hm4, Hm3, Hm2, Hm1. done.
Qed.

(** The frames of the user's pages hold no page table. *)
Definition data_frames (kr : PhysFrame) (us : list PhysFrame) (s : Paging M) (r : PhysFrame) : Prop :=
  forall p f fl, paging_user_map s r !! p = Some (f, fl) -> ~ paging_tables kr us s f.

(** The page at an address, if there is one, holds no page table. *)
Definition data_page (kr : PhysFrame) (us : list PhysFrame) (s : Paging M) (r : PhysFrame) (addr : Z) : Prop :=
  forall l, slot (pg_mem s) r (pml4_index addr) !! slot_page addr = Some l -> ~ paging_tables kr us s (leaf_frame l).

Lemma data_frames_page kr us (s : Paging M) r addr :
  is_user_space_addr_u64 addr = true -> data_frames kr us s r -> data_page kr us s r addr.
Proof.
  intros Ha Hd l. rewrite (proj2 (user_addr_slot addr Ha)). intros Hl.
  eapply (Hd (slot_page addr)). unfold paging_user_map. by rewrite lookup_fmap, Hl.
Qed.

Lemma answer_spec kr us (s : Paging M) r rsp ret :
  ready kr us s -> r ∈ us -> mailbox_addressable rsp -> data_page kr us s r (mailbox_slot rsp OFF_RET) ->
  returns (answer im r kr rsp ret) s (fun _ s' =>
    ready kr us s' /\ pg_mem s' = rw_memory s r (mailbox_slot rsp OFF_RET) ret /\
    roots_same kr us (pg_mem s) (pg_mem s') /\ pg_cr3 s' = r).
Proof.
  intros Hs Hr [Hslot Hal] Hdata. unfold answer.
  eapply returns_seq.
  { apply (paging_rw_spec im poff boot kr us s r (mailbox_slot rsp OFF_RET) ret Hs Hr); [apply Hslot; set_solver|done|exact Hdata]. }
  intros res s1 (_ & Hs1 & Hm & Hsame & _).
  assert (Hrf : frame_ok r) by (eapply ready_root_frame; [exact Hs1|by right]).
  eapply returns_Ok; [by apply quiet_Ok|]. simpl. split_and!; try done. apply ready_cr3; [done|by right].
Qed.

(** The roots the handler works with: cached, or registered by the demo. *)
Definition known_roots (i : Irq) (s : Paging M) : option (PhysFrame * PhysFrame) :=
  if negb (DEMO_USER_ROOT_PHYS i =? 0) && negb (DEMO_KERNEL_ROOT_PHYS i =? 0)
  then Some (PhysFrame_from_index (DEMO_USER_ROOT_PHYS i / PAGE_SIZE),
             PhysFrame_from_index (DEMO_KERNEL_ROOT_PHYS i / PAGE_SIZE))
  else peek_ring3_demo_roots s.

(** The counters and the output are the handler's own. *)
Definition same_registration (i i' : Irq) : Prop := KERNEL_STATE_ADDR i' = KERNEL_STATE_ADDR i.

Lemma cache_spec (i : Irq) (s : Paging M) r kr :
  known_roots i s = Some (r, kr) -> frame_ok r -> frame_ok kr ->
  returns cache_demo_roots_if_needed (i, s) (fun roots p =>
    roots = Some (r, kr) /\ p.2 = s /\ same_registration i p.1).
Proof.
  unfold known_roots, cache_demo_roots_if_needed. intros Hk Hr Hkr. unfold returns. rewrite bind_get.
  destruct (negb _ && negb _); [injection Hk as <- <-; by eexists _, _|]. rewrite Hk.
  rewrite !frame_start by done. by eexists _, _.
Qed.

Lemma on_arch_returns {X} (m : ST (Irq * Paging M) X) i w Q :
  returns m (i, w_arch w) (fun x p => Q x (p.1, {| w with w_arch := p.2 |})) -> returns (on_arch m) (i, w) Q.
Proof. intros (x & [i' s'] & Hm & HQ). exists x, (i', {| w with w_arch := s' |}). unfold on_arch, zoom. simpl. by rewrite Hm. Qed.

Lemma below_irq_returns {B X} (m : ST B X) (i : Irq) b Q :
  returns m b (fun x b' => Q x (i, b')) -> returns (below_irq m) (i, b) Q.
Proof. intros (x & b' & Hm & HQ). exists x, (i, b'). unfold below_irq, zoom. simpl. by rewrite Hm. Qed.

Lemma irq_returns {B X} (m : ST Irq X) i (b : B) Q :
  returns m i (fun x i' => Q x (i', b)) -> returns (irq m) (i, b) Q.
Proof. intros (x & i' & Hm & HQ). exists x, (i', b). unfold irq, zoom. simpl. by rewrite Hm. Qed.

Lemma report_sys31_spec sysno ret i :
  returns (report_sys31 sysno ret) i (fun _ i' => same_registration i i').
Proof.
  unfold report_sys31. destruct (sysno =? 31); [|by apply returns_ret].
  unfold fetch_add_sys31, returns. rewrite bind_assoc, bind_gets, bind_assoc, bind_modify, bind_ret.
  destruct (DBG_SYS31_COUNT i <? DBG_SYS31_LIMIT); by eexists _, _.
Qed.

#[local] Instance int80_ops : ArchOps (Paging M) := paging_ops im.

(** A registered kernel dispatches the request. *)
Lemma with_kernel_returns {B R} (f : ST B R) (i : Irq) b Q :
  KERNEL_STATE_ADDR i <> 0 -> returns f b (fun r b' => Q (Some r) (i, b')) ->
  returns (with_kernel_state f) (i, b) Q.
Proof.
  intros Hi (r & b' & Hf & HQ). exists (Some r), (i, b'). split; [|done]. unfold with_kernel_state. rewrite bind_get.
  rewrite (proj2 (Z.eqb_neq _ _) Hi). unfold zoom, mbind, ST_mbind. simpl. by rewrite Hf.
Qed.

(** The handler around a dispatch that leaves paging ready. *)
Lemma int80_mailbox_spec ft kr us i (w : World (Paging M)) r rsp sysno a0 a1 a2 (Q : Z -> World (Paging M) -> Prop) :
  ready kr us (w_arch w) -> r ∈ us -> known_roots i (w_arch w) = Some (r, kr) -> KERNEL_STATE_ADDR i <> 0 ->
  mailbox_addressable rsp -> request_of (pg_mem (w_arch w)) r rsp = (sysno, a0, a1, a2) ->
  (forall s1, ready kr us s1 -> pg_mem s1 = pg_mem (w_arch w) -> pg_cr3 s1 = kr ->
    returns (mailbox_dispatch ft sysno a0 a1 a2) {| w with w_arch := s1 |} (fun ret w2 =>
      ready kr us (w_arch w2) /\ data_page kr us (w_arch w2) r (mailbox_slot rsp OFF_RET) /\ Q ret w2)) ->
  returns (int80_handler_mailbox im ft rsp) (i, w) (fun res p => res = Iretq /\
    exists ret w2, Q ret w2 /\ p.2 = {| w2 with w_arch := w_arch p.2 |} /\
    ready kr us (w_arch p.2) /\ pg_cr3 (w_arch p.2) = r /\
    roots_same kr us (pg_mem (w_arch w2)) (pg_mem (w_arch p.2)) /\
    pg_mem (w_arch p.2) = rw_memory (w_arch w2) r (mailbox_slot rsp OFF_RET) ret).
Proof.
  intros Hs Hr Hroots Haddr Hrsp Hreq Hdisp. unfold int80_handler_mailbox.
  assert (Hrf : frame_ok r) by (eapply ready_root_frame; [exact Hs|by right]).
  assert (Hkf : frame_ok kr) by (eapply ready_root_frame; [exact Hs|by left]).
  apply (returns_seq _ _ _ (fun roots p => roots = Some (r, kr) /\ p.2 = w /\ same_registration i p.1)).
  { apply on_arch_returns. eapply returns_mono; [by apply (cache_spec _ _ r kr)|].
    intros roots [i' s'] (-> & Hs' & Hi'). simpl in *. subst s'. split_and!; [done| |done]. by destruct w. }
  intros roots [i1 w1] (-> & Hw1 & Hi1). simpl in Hw1, Hi1. subst w1.
  apply (returns_seq _ _ _ (fun req p => req = (sysno, a0, a1, a2) /\ p.1 = i1 /\
    exists s1, p.2 = {| w with w_arch := s1 |} /\ ready kr us s1 /\ pg_mem s1 = pg_mem (w_arch w) /\ pg_cr3 s1 = kr)).
  { apply on_arch_returns, below_irq_returns. eapply returns_mono; [by apply (read_request_spec kr us)|].
    intros req s1 (-> & Hs1 & Hm1 & Hc1). split_and!; [done|done|by exists s1]. }
  intros req [i2 w1] (-> & E2 & s1 & Ew & Hs1 & Hm1 & Hc1). simpl in E2, Ew. subst i2 w1.
  apply (returns_seq _ _ _ (fun ro p => p.1 = i1 /\ exists ret, ro = Some ret /\
    ready kr us (w_arch p.2) /\ data_page kr us (w_arch p.2) r (mailbox_slot rsp OFF_RET) /\ Q ret p.2)).
  { apply with_kernel_returns; [by rewrite Hi1|]. eapply returns_mono; [by apply Hdisp|]. eauto. }
  intros ro [i3 w2] (E3 & ret & -> & Hs2 & Hd2 & HQ). simpl in E3, Hs2, Hd2, HQ. subst i3. cbn [default].
  apply (returns_seq _ _ _ (fun _ p => p.2 = w2)).
  { apply irq_returns. eapply returns_mono; [apply report_sys31_spec|]. done. }
  intros [] [i4 w3] Ew. simpl in Ew. subst w3.
  apply (returns_seq _ _ _ (fun _ p => exists s3, p.2 = {| w2 with w_arch := s3 |} /\ ready kr us s3 /\ pg_cr3 s3 = r /\
    roots_same kr us (pg_mem (w_arch w2)) (pg_mem s3) /\ pg_mem s3 = rw_memory (w_arch w2) r (mailbox_slot rsp OFF_RET) ret)).
  { apply on_arch_returns, below_irq_returns. eapply returns_mono; [by apply (answer_spec kr us)|].
    intros [] s3 (H1 & H2 & H3 & H4). by exists s3. }
  intros [] [i5 w3] (s3 & Ew & H1 & H2 & H3 & H4). simpl in Ew. subst w3. apply returns_ret. split; [done|].
  exists ret, w2. simpl. by split_and!.
Qed.

(** A request whose answer does not depend on paging. *)
Lemma int80_pure_request ft kr us i (w : World (Paging M)) r rsp sysno a0 a1 a2 ret :
  ready kr us (w_arch w) -> r ∈ us -> known_roots i (w_arch w) = Some (r, kr) -> KERNEL_STATE_ADDR i <> 0 ->
  mailbox_addressable rsp -> data_page kr us (w_arch w) r (mailbox_slot rsp OFF_RET) ->
  request_of (pg_mem (w_arch w)) r rsp = (sysno, a0, a1, a2) ->
  (forall s1, mailbox_dispatch ft sysno a0 a1 a2 {| w with w_arch := s1 |} = Ok (ret, {| w with w_arch := s1 |})) ->
  exists i' s', int80_handler_mailbox im ft rsp (i, w) = Ok (Iretq, (i', {| w with w_arch := s' |})) /\
    ready kr us s' /\ pg_cr3 s' = r /\ roots_same kr us (pg_mem (w_arch w)) (pg_mem s') /\
    pg_mem s' = rw_memory (w_arch w) r (mailbox_slot rsp OFF_RET) ret.
Proof.
  intros Hs Hr Hroots Haddr Hrsp Hdata Hreq Hdisp.
  destruct (int80_mailbox_spec ft kr us i w r rsp sysno a0 a1 a2
    (fun ret' w2 => ret' = ret /\ exists s1, w2 = {| w with w_arch := s1 |} /\ pg_mem s1 = pg_mem (w_arch w)) Hs Hr Hroots Haddr Hrsp Hreq)
    as (res & [i' w'] & Hrun & -> & ret' & w2 & (-> & s1 & -> & Hm1) & Hw' & Hs' & Hc' & Hsame & Hm').
  { intros s1 Hs1 Hm1 _. eapply returns_Ok; [apply Hdisp|]. simpl. split_and!; [done| |done|by exists s1].
    intros l. unfold paging_tables. rewrite Hm1. apply Hdata. }
  simpl in *. exists i', (w_arch w'). rewrite Hw' in Hrun. split; [exact Hrun|]. split_and!; [done|done| |].
  - by rewrite <- Hm1.
  - rewrite Hm'. unfold rw_memory. by rewrite Hm1.
Qed.

(** What the answer does to memory [m]: on a writable page the word is set and
    nothing else changes, otherwise nothing does. *)
Definition answered (s : Paging M) (r : PhysFrame) (addr ret : Z) (m : M) : Prop :=
  match paging_user_map s r !! slot_page addr with
  | Some (f, fl) =>
      if PageFlags_contains fl WRITABLE then
        let pa := frame_number f * PAGE_SIZE + addr mod PAGE_SIZE in
        hw_load m pa = ret /\ forall pa', pa' mod 8 = 0 -> pa' <> pa -> hw_load m pa' = hw_load (pg_mem s) pa'
      else m = pg_mem s
  | None => m = pg_mem s
  end.

Lemma answer_memory (s : Paging M) r addr ret :
  is_user_space_addr_u64 addr = true -> addr mod 8 = 0 -> u64 ret -> answered s r addr ret (rw_memory s r addr ret).
Proof.
  intros Hu Ha Hret. unfold answered, rw_memory, paging_user_map. rewrite lookup_fmap, (proj2 (user_addr_slot addr Hu)).
  destruct (slot (pg_mem s) r USER_PML4_INDEX !! slot_page addr) as [l|]; [|done]. simpl. rewrite of_x86_writable.
  destruct (x86_contains (leaf_flags l) X86_WRITABLE); [|done].
  assert (Hal : (frame_number (leaf_frame l) * PAGE_SIZE + addr mod PAGE_SIZE) mod 8 = 0) by by apply frame_word_aligned.
  split; [by apply x86_load_store|]. intros pa' Hpa' Hne. by apply x86_load_other.
Qed.

Lemma unknown_dispatch ft sysno a0 a1 a2 (w : World (Paging M)) :
  sysno ∉ [1; 2; 10; 11; 12; 30; 31] -> mailbox_dispatch ft sysno a0 a1 a2 w = Ok (0, w).
Proof.
  intros Hno. unfold mailbox_dispatch, mailbox_decode.
  assert (Hne : forall k, k ∈ [1; 2; 10; 11; 12; 30; 31] -> (sysno =? k) = false).
  { intros k Hk. apply Z.eqb_neq. by intros ->. }
  rewrite !Hne by (repeat constructor). simpl. destruct w as [[] ? ? ? ? ?]. done.
Qed.

(** C26: the addition call.  In a ready system, with the kernel registered and the
    demo's roots known, for a user root whose mapped frames hold no page tables
    and an 8-aligned stack pointer whose mailbox lies in the user slot: when the
    mailbox holds call 1 with its three arguments and the result slot is on a
    writable page, the handler returns to the user's root; the result slot then
    holds the sum of the arguments modulo 2^64, every other aligned word of
    memory and the kernel state are as before, and so are all user mappings. *)
Theorem int80_add_call (ft : Features) (kr : PhysFrame) (us : list PhysFrame) (i : Irq) (w : World (Paging M))
    (r : PhysFrame) (rsp a0 a1 a2 : Z) (f : PhysFrame) (fl : PageFlags)
    (Hs : ready kr us (w_arch w)) (Hr : r ∈ us) (Hroots : known_roots i (w_arch w) = Some (r, kr))
    (Hreg : KERNEL_STATE_ADDR i <> 0) (Hrsp : mailbox_rsp rsp) (Hdata : data_frames kr us (w_arch w) r)
    (Hreq : request_of (pg_mem (w_arch w)) r rsp = (1, a0, a1, a2))
    (Hpage : paging_user_map (w_arch w) r !! slot_page (rsp - 48) = Some (f, fl))
    (Hw : PageFlags_contains fl WRITABLE = true) :
  let pa := frame_number f * PAGE_SIZE + (rsp - 48) mod PAGE_SIZE in
  exists i' s', int80_handler_mailbox im ft rsp (i, w) = Ok (Iretq, (i', {| w with w_arch := s' |})) /\
    ready kr us s' /\ pg_cr3 s' = r /\
    (forall u, u ∈ us -> paging_user_map s' u = paging_user_map (w_arch w) u) /\
    hw_load (pg_mem s') pa = (a0 + a1 + a2) mod 2 ^ 64 /\
    forall pa', pa' mod 8 = 0 -> pa' <> pa -> hw_load (pg_mem s') pa' = hw_load (pg_mem (w_arch w)) pa'.
Proof.
  intros pa. destruct (slot_ret rsp Hrsp) as [Hslot Hal].
  pose proof (proj2 (mailbox_slot_user rsp OFF_RET Hrsp ltac:(done))) as Hu.
  assert (Hsum : u64_wrapping_add (u64_wrapping_add a0 a1) a2 = (a0 + a1 + a2) mod 2 ^ 64)
    by (unfold u64_wrapping_add; by rewrite Zplus_mod_idemp_l).
  destruct (int80_pure_request ft kr us i w r rsp 1 a0 a1 a2 ((a0 + a1 + a2) mod 2 ^ 64) Hs Hr Hroots Hreg
    (mailbox_rsp_addressable _ Hrsp) (data_frames_page _ _ _ _ _ Hu Hdata) Hreq)
    as (i' & s' & Hrun & Hs' & Hc & Hsame & Hm).
  { intros s1. rewrite <- Hsum. done. }
  destruct (views_same boot kr us (w_arch w) s' Hsame) as (V1 & _ & _).
  assert (Hans : answered (w_arch w) r (rsp - 48) ((a0 + a1 + a2) mod 2 ^ 64) (pg_mem s')).
  { rewrite Hslot in Hm, Hu. rewrite Hm. apply answer_memory; [done|done|]. unfold u64, u64_max.
    pose proof (Z.mod_pos_bound (a0 + a1 + a2) (2 ^ 64) ltac:(done)). lia. }
  unfold answered in Hans. rewrite Hpage, Hw in Hans. by exists i', s'.
Qed.

(** C27: an unknown call, or a mailbox nobody mapped.  In a ready system, with the
    kernel registered and the demo's roots known, for a user root whose mapped
    frames hold no page tables and an 8-aligned stack pointer whose mailbox lies
    in the user slot: if the number of the request is none of those the kernel
    serves (it is 0 when the mailbox is not mapped), the handler returns to the
    user's root with the kernel state unchanged; where the result slot is
    writable it is set to 0 and no other aligned word changes, and otherwise
    memory does not change at all: the faults of the guarded accesses are
    absorbed. *)
Theorem int80_unknown_call (ft : Features) (kr : PhysFrame) (us : list PhysFrame) (i : Irq) (w : World (Paging M))
    (r : PhysFrame) (rsp sysno a0 a1 a2 : Z)
    (Hs : ready kr us (w_arch w)) (Hr : r ∈ us) (Hroots : known_roots i (w_arch w) = Some (r, kr))
    (Hreg : KERNEL_STATE_ADDR i <> 0) (Hrsp : mailbox_rsp rsp) (Hdata : data_frames kr us (w_arch w) r)
    (Hreq : request_of (pg_mem (w_arch w)) r rsp = (sysno, a0, a1, a2))
    (Hno : sysno ∉ [1; 2; 10; 11; 12; 30; 31]) :
  exists i' s', int80_handler_mailbox im ft rsp (i, w) = Ok (Iretq, (i', {| w with w_arch := s' |})) /\
    ready kr us s' /\ pg_cr3 s' = r /\
    answered (w_arch w) r (rsp - 48) 0 (pg_mem s').
Proof.
  destruct (slot_ret rsp Hrsp) as [Hslot Hal].
  pose proof (proj2 (mailbox_slot_user rsp OFF_RET Hrsp ltac:(done))) as Hu.
  destruct (int80_pure_request ft kr us i w r rsp sysno a0 a1 a2 0 Hs Hr Hroots Hreg
    (mailbox_rsp_addressable _ Hrsp) (data_frames_page _ _ _ _ _ Hu Hdata) Hreq)
    as (i' & s' & Hrun & Hs' & Hc & Hsame & Hm).
  { intros s1. by apply unknown_dispatch. }
  exists i', s'. split_and!; try done. rewrite Hslot in Hm, Hu. rewrite Hm. by apply answer_memory.
Qed.

(** C40: the handler trusts the stack pointer.  In any ready system, with the kernel
    registered and the demo's roots known: ring 3 executes [int 0x80] with a stack
    pointer of its choice, so that the result slot 48 bytes below it is an
    aligned word outside the user slot, on a page of the user's root that is
    writable but closed to ring 3 (no USER bit) and holds no page table.  If the
    words read as the request name no served call, the handler, which runs in
    ring 0 and does not check that the mailbox is in the user slot, returns to
    ring 3 with that kernel word overwritten by 0. *)
Theorem int80_overwrites_kernel_memory (ft : Features) (kr : PhysFrame) (us : list PhysFrame) (i : Irq)
    (w : World (Paging M)) (r : PhysFrame) (rsp sysno a0 a1 a2 : Z) (f : PhysFrame) (fl : Z)
    (Hs : ready kr us (w_arch w)) (Hr : r ∈ us) (Hroots : known_roots i (w_arch w) = Some (r, kr))
    (Hreg : KERNEL_STATE_ADDR i <> 0) (Hrsp : mailbox_addressable rsp)
    (Hout : is_user_space_addr_u64 (mailbox_slot rsp OFF_RET) = false)
    (Hpage : hw_walk (pg_mem (w_arch w)) r (mailbox_slot rsp OFF_RET) = Some (f, fl))
    (Hclosed : x86_contains fl X86_USER_ACCESSIBLE = false) (Hwrite : x86_contains fl X86_WRITABLE = true)
    (Hdata : ~ paging_tables kr us (w_arch w) f)
    (Hreq : request_of (pg_mem (w_arch w)) r rsp = (sysno, a0, a1, a2))
    (Hno : sysno ∉ [1; 2; 10; 11; 12; 30; 31]) :
  let pa := frame_number f * PAGE_SIZE + mailbox_slot rsp OFF_RET mod PAGE_SIZE in
  exists i' s', int80_handler_mailbox im ft rsp (i, w) = Ok (Iretq, (i', {| w with w_arch := s' |})) /\
    ready kr us s' /\ pg_cr3 s' = r /\ hw_load (pg_mem s') pa = 0 /\
    forall pa', pa' mod 8 = 0 -> pa' <> pa -> hw_load (pg_mem s') pa' = hw_load (pg_mem (w_arch w)) pa'.
Proof.
  intros pa. destruct Hrsp as [Hcan Hal]. assert (Hc : canonical (mailbox_slot rsp OFF_RET)) by (apply Hcan; set_solver).
  rewrite x86_walk in Hpage by done. apply fmap_Some in Hpage as (l & Hl & [= Ef Efl]).
  destruct (int80_pure_request ft kr us i w r rsp sysno a0 a1 a2 0 Hs Hr Hroots Hreg (conj Hcan Hal))
    as (i' & s' & Hrun & Hs' & Hcr & _ & Hm); [|done|intros s1; by apply unknown_dispatch|].
  { intros l'. unfold slot. rewrite Hl. intros [= <-]. by rewrite <- Ef. }
  exists i', s'. split_and!; try done; rewrite Hm; unfold rw_memory, slot; rewrite Hl, <- Efl, Hwrite, <- Ef.
  - apply x86_load_store; [by apply frame_word_aligned|done].
  - intros pa' Hpa' Hne. apply x86_load_other; [by apply frame_word_aligned|done|done].
Qed.

End int80.

(** ** The tables of the CPU *)

(** The linker puts the kernel below the fourth level-4 slot; a stack has room for
    a word. *)
Definition low_address (a : Z) : Prop := 0 <= a < 2 ^ 41.
Definition low_top (a : Z) : Prop := 16 <= a < 2 ^ 41.
Record tables_ok (tb : Tables) : Prop := {
  to_low : low_address (tb_page_fault tb) /\ low_address (tb_gp tb) /\ low_address (tb_double_fault tb) /\
    low_address (tb_int80 tb) /\ low_address (tb_idt_low tb) /\ low_address (tb_idt_high tb) /\
    low_address (tb_gdt tb) /\ low_address (tb_tss tb);
  to_stacks : low_top (tb_rsp0 tb) /\ low_top (tb_df_ist tb) /\ low_top (tb_pf_ist tb) }.

Definition ALIAS_OFFSET : Z := 0xfffffe0000000000.

(** [arch::init] and [start] load the tables. *)
Definition load_tables `{X86Addr} {G} `{GdtOps G} (tb : Tables) : ST (Cpu G) unit := interrupts_init tb ;; reload_idt_high_alias tb.

(** The alias is a translation by a constant, into the four top level-4 slots. *)
Lemma alias_linear low : low_address low ->
  kernel_high_alias_of_low low = Ok (low + ALIAS_OFFSET) /\
  canonical (low + ALIAS_OFFSET) /\ (508 <= pml4_index (low + ALIAS_OFFSET) < 512)%nat.
Proof.
  unfold low_address. intros Hlow. pose proof (div_mod_pow2 low 39 ltac:(lia)) as Hd. change (2 ^ 41) with (4 * 2 ^ 39) in Hlow.
  assert (Hq : 0 <= low / 2 ^ 39 < 4) by (split; [apply Z.div_pos; lia|apply Z.div_lt_upper_bound; lia]).
  assert (Hi : pml4_index low = Z.to_nat (low / 2 ^ 39)) by (rewrite pml4_index_eq, Z.mod_small by lia; done).
  pose proof (Z.mod_pos_bound low (2 ^ 39) ltac:(lia)) as Hb. set (q := low / 2 ^ 39) in *.
  assert (Eh : low + ALIAS_OFFSET = pml4_index_base_addr (508 + Z.to_nat q) + low mod 2 ^ 39).
  { rewrite pml4_index_base_addr_eq, (proj2 (Nat.leb_le 256 _)) by lia. unfold ALIAS_OFFSET. lia. }
  split; [|split].
  - rewrite kernel_high_alias_eq by (unfold u64, u64_max; lia). by rewrite Hi, Eh.
  - right. unfold ALIAS_OFFSET. lia.
  - rewrite Eh, pml4_index_of_slot by lia. lia.
Qed.

Lemma align_down_16_eq a : u64 a -> align_down_16 a = a - a mod 16.
Proof.
  intros Ha. unfold align_down_16. change (u64_not 0xF) with (Z.shiftl (Z.ones (64 - 4)) 4).
  rewrite high_mask_eq by (done || lia). change (2 ^ 4) with 16. pose proof (Z.div_mod a 16 ltac:(lia)). lia.
Qed.

Lemma high_stack_Ok `{X86Addr} top : low_top top ->
  high_stack top = Ok (top - top mod 16 + ALIAS_OFFSET) /\ low_top (top - top mod 16).
Proof.
  unfold low_top. intros Ht. pose proof (Z.mod_pos_bound top 16 ltac:(lia)) as Hm.
  pose proof (Z.div_mod top 16 ltac:(lia)) as Hd.
  assert (16 <= top - top mod 16).
  { assert (1 <= top / 16) by (apply Z.div_le_lower_bound; lia). lia. }
  split; [|lia]. unfold high_stack. destruct (alias_linear top ltac:(unfold low_address; lia)) as (-> & _ & _). rewrite Ok_bind.
  assert (E : align_down_16 (top + ALIAS_OFFSET) = top - top mod 16 + ALIAS_OFFSET).
  { rewrite align_down_16_eq by (unfold ALIAS_OFFSET, u64, u64_max; lia).
    rewrite Z.add_mod by lia. change (ALIAS_OFFSET mod 16) with 0. rewrite Z.add_0_r, Z.mod_mod by lia. lia. }
  rewrite E. apply VirtAddr_new_Ok. apply alias_linear. unfold low_address. lia.
Qed.

(** The addresses the CPU uses when an interrupt comes in: the tables, the
    handlers, and the first word of the stack it switches to. *)
Definition gate_addresses (tss : Tss) (g : Gate) : list Z :=
  gate_handler g :: match gate_ist g with
                    | Some k => [default 0 (interrupt_stack_table tss !! k) - 8]
                    | None => []
                    end.
Definition task_register_base {G} `{GdtLaws G} (c : Cpu G) : option Z :=
  g ← GDT c;
  sel ← cpu_tr c;
  match gdt_view g (selector_index sel) with Some (TssSegment base) => Some base | _ => None end.
Definition interrupt_addresses {G} `{GdtLaws G} (c : Cpu G) (idt : Idt) (tss : Tss) : list Z :=
  option_list (cpu_idtr c) ++ option_list (cpu_gdtr c) ++ option_list (task_register_base c) ++ [privilege_stack_0 tss - 8] ++
  ([idt_page_fault idt; idt_gp idt; idt_double_fault idt; idt_int80 idt] ≫= gate_addresses tss).

(** What [load_tables] leaves. *)
Definition high (a : Z) : Z := a + ALIAS_OFFSET.
Definition high_top (a : Z) : Z := a - a mod 16 + ALIAS_OFFSET.
Definition loaded_idt (tb : Tables) : Idt :=
  mkIdt (set_handler_fn (high (tb_page_fault tb))) (set_handler_fn (high (tb_gp tb)))
    (mkGate (high (tb_double_fault tb)) 0 (Some 0%nat)) (mkGate (high (tb_int80 tb)) 3 (Some 1%nat)).
Definition loaded_tss (tb : Tables) : Tss :=
  mkTss (high_top (tb_rsp0 tb)) [high_top (tb_df_ist tb); high_top (tb_pf_ist tb); 0; 0; 0; 0; 0].

(** The segment registers and the task register hold the kernel's selectors. *)
Definition selectors_loaded {G} (c : Cpu G) (sel : Selectors) : Prop :=
  SELECTORS c = Some sel /\ cpu_tr c = Some (sel_tss sel) /\
  cpu_segments c = Some (mkSegments (sel_code sel) (sel_data sel) (sel_data sel) (sel_data sel)).

Lemma load_tables_Ok `{X86Addr} {G} `{GdtLaws G} tb : tables_ok tb ->
  exists (c : Cpu G) g sel,
    load_tables tb Cpu_reset = Ok (tt, c) /\ IDT_HIGH c = Some (loaded_idt tb) /\ TSS c = Some (loaded_tss tb) /\
    cpu_idtr c = Some (high (tb_idt_high tb)) /\ cpu_gdtr c = Some (high (tb_gdt tb)) /\
    GDT c = Some g /\ selectors_loaded c sel /\ selectors_ok g sel (high (tb_tss tb)).
Proof.
  intros [(L1 & L2 & L3 & L4 & L5 & L6 & L7 & L8) (S1 & S2 & S3)].
  assert (HV : x86_VirtAddr_new (high (tb_idt_high tb)) = Ok (high (tb_idt_high tb)))
    by (apply VirtAddr_new_Ok, alias_linear, L6).
  unfold load_tables, interrupts_init, reload_idt_high_alias, init_high_alias.
  rewrite (proj1 (alias_linear _ L1)), (proj1 (alias_linear _ L2)), (proj1 (alias_linear _ L3)),
    (proj1 (alias_linear _ L4)), (proj1 (alias_linear _ L6)), (proj1 (alias_linear _ L7)), (proj1 (alias_linear _ L8)).
  rewrite (proj1 (high_stack_Ok _ S1)), (proj1 (high_stack_Ok _ S2)), (proj1 (high_stack_Ok _ S3)).
  rewrite (VirtAddr_new_Ok (tb_idt_low tb)) by (left; unfold low_address in *; lia). fold (high (tb_idt_high tb)).
  destruct (build_gdt (high (tb_tss tb))) as (c & g1 & d & g2 & uc & g3 & ud & g4 & t & g & R1 & R2 & R3 & R4 & R5 & Hsel).
  eexists _, g, (mkSelectors c d t uc ud). split.
  - rewrite R1. fold (high (tb_tss tb)).
    cbv [mbind ST_mbind lift_res get modify mret ST_mret IDT_LOW GDT_INIT_DONE Cpu_reset IDT_HIGH
         cpu_idtr cpu_gdtr cpu_tr cpu_segments TSS GDT SELECTORS sel_code sel_data sel_tss].
    rewrite R2, R3, R4. fold (high (tb_tss tb)). rewrite R5, HV. reflexivity.
  - cbn. unfold selectors_loaded. cbn. by split_and!.
Qed.

Lemma user_entry_selectors {G} `{GdtLaws G} (g : G) sel tss : selectors_ok g sel tss ->
  exists e, user_entry sel = Ok e /\ ue_cs e = sel_user_code sel /\ ue_ss e = sel_user_data sel.
Proof.
  intros [_ _ _ [_ Hc] [_ Hd]]. eexists. split; [reflexivity|]. unfold user_code_selector, user_data_selector. simpl.
  by rewrite !lor_rpl_3.
Qed.

Lemma high_top_aligned a : high_top a mod 16 = 0.
Proof.
  unfold high_top, ALIAS_OFFSET. pose proof (Z.div_mod a 16 ltac:(lia)).
  replace (a - a mod 16 + 0xfffffe0000000000) with ((a / 16 + 0xfffffe000000000) * 16) by lia. by apply Z.mod_mul.
Qed.

Lemma loaded_addresses_low {G} `{GdtLaws G} tb (c : Cpu G) va : tables_ok tb ->
  cpu_idtr c = Some (high (tb_idt_high tb)) -> cpu_gdtr c = Some (high (tb_gdt tb)) ->
  task_register_base c = Some (high (tb_tss tb)) ->
  va ∈ interrupt_addresses c (loaded_idt tb) (loaded_tss tb) -> exists low, low_address low /\ va = high low.
Proof.
  intros [(L1 & L2 & L3 & L4 & L5 & L6 & L7 & L8) (S1 & S2 & S3)] E1 E2 E3.
  assert (Hstack : forall a, low_top a -> exists low, low_address low /\ high_top a - 8 = high low).
  { intros a Ha. destruct (high_stack_Ok a Ha) as [_ Hb]. exists (a - a mod 16 - 8). unfold low_top, low_address in *.
    split; [lia|]. unfold high_top, high. lia. }
  unfold interrupt_addresses. rewrite E1, E2, E3. cbn. intros Hva.
  repeat (apply elem_of_cons in Hva as [->|Hva]; [eauto|]). by apply elem_of_nil in Hva.
Qed.

Lemma alias_same_in_roots {M : Type} `{X86Laws M} (im : Image) (poff : Z) (boot : gset Z)
    (kr : PhysFrame) (us : list PhysFrame) (s : Paging M) low root :
  paging_ready im poff boot kr us s -> low_address low -> root ∈ kr :: us ->
  translate_addr (pg_mem s) root (high low) = translate_addr (pg_mem s) kr (high low).
Proof.
  intros Hs Hl Hr. destruct (alias_linear low Hl) as (_ & Hc & Hi). fold (high low) in Hc, Hi.
  destruct (slot_shared poff boot kr us (pg_mem s) root (pml4_index (high low)) (pr_mem _ _ _ _ _ _ Hs) Hr) as [_ Hsl];
    [lia|unfold USER_PML4_INDEX; lia|apply shared_high; lia|].
  rewrite !x86_translate by done. unfold slot in Hsl. by rewrite Hsl.
Qed.

(** C28: interrupts find the kernel in every root.  Wherever the linker put the
    kernel's tables, handlers and stacks ([tables_ok]: below 2^41, the end of the
    fourth level-4 slot, a stack with room for a word), loading the tables
    returns; every address the CPU then uses to deliver an interrupt is the high
    alias of a low address, and in a ready system every user root translates it
    as the kernel's root does, so a trap from ring 3 reaches the handler without
    a change of CR3.  Only the [int 0x80] gate is open to ring 3, and the stacks
    are aligned to 16 bytes.  The stored selectors name the descriptors of their
    fields, the task register the high alias of the TSS, and ring 3 is entered
    with the user code and data segments at level 3. *)
Theorem interrupts_reach_kernel {M : Type} `{X86Laws M} {G : Type} `{GdtLaws G} (im : Image) (poff : Z) (boot : gset Z) (tb : Tables)
    (kr : PhysFrame) (us : list PhysFrame) (s : Paging M)
    (Htb : tables_ok tb) (Hs : paging_ready im poff boot kr us s) :
  exists (c : Cpu G) idt tss g sel,
    load_tables tb Cpu_reset = Ok (tt, c) /\ IDT_HIGH c = Some idt /\ TSS c = Some tss /\ GDT c = Some g /\
    selectors_loaded c sel /\ selectors_ok g sel (high (tb_tss tb)) /\
    (exists e, user_entry sel = Ok e /\ ue_cs e = sel_user_code sel /\ ue_ss e = sel_user_data sel) /\
    gate_dpl <$> [idt_page_fault idt; idt_gp idt; idt_double_fault idt; idt_int80 idt] = [0; 0; 0; 3] /\
    Forall (fun sp => sp mod 16 = 0) (privilege_stack_0 tss :: take 2 (interrupt_stack_table tss)) /\
    length (interrupt_addresses c idt tss) = 10%nat /\
    forall va, va ∈ interrupt_addresses c idt tss ->
      (exists low, kernel_high_alias_of_low low = Ok va) /\
      forall root, root ∈ kr :: us -> translate_addr (pg_mem s) root va = translate_addr (pg_mem s) kr va.
Proof.
  destruct (load_tables_Ok tb Htb) as (c & g & sel & Hrun & Hidt & Htss & E1 & E2 & Hg & Hld & Hsel).
  assert (E3 : task_register_base c = Some (high (tb_tss tb))).
  { unfold task_register_base. destruct Hld as (_ & Htr & _). rewrite Hg, Htr. simpl. by rewrite (proj1 (so_tss _ _ _ Hsel)). }
  exists c, (loaded_idt tb), (loaded_tss tb), g, sel. split_and!; try done.
  - by apply user_entry_selectors with g (high (tb_tss tb)).
  - repeat constructor; apply high_top_aligned.
  - unfold interrupt_addresses. by rewrite E1, E2, E3.
  - intros va Hva. destruct (loaded_addresses_low tb c va Htb E1 E2 E3 Hva) as (low & Hl & ->). split.
    + exists low. by apply alias_linear.
    + intros root Hr. by apply (alias_same_in_roots im poff boot kr us).
Qed.

(** ** Witnesses: a request on the demo page of task 2 *)

Definition caller_rsp : Z := demo_address + 4096.
Definition caller_frame : PhysFrame := mkPhysFrame 266.
Definition caller_irq : Irq := mkIrq 0 0x101000 0x10000 0 0x201000 [].

Definition store_word (off v : Z) (s : Paging RefMem) : Paging RefMem :=
  {| s with pg_mem := hw_store (frame_number caller_frame * PAGE_SIZE + off) v (pg_mem s) |}.

Definition caller_paging (sysno : Z) : Paging RefMem :=
  store_word 4056 (2 ^ 64 - 1) (store_word 4064 7 (store_word 4072 5 (store_word 4080 sysno (demo_paging 8)))).
Definition caller_world (sysno : Z) : World (Paging RefMem) :=
  let w := demo_world default_features 8 in {| w with w_arch := caller_paging sysno |}.

Record caller_ok (s : Paging RefMem) : Prop := {
  co_ready : paging_ready demo_image demo_off demo_boot demo_kr demo_roots s;
  co_data : data_frames demo_kr demo_roots s demo_user;
  co_page : paging_user_map s demo_user !! slot_page demo_address = Some (caller_frame, USER_DEMO_FLAGS) }.

Lemma store_word_ok off v s : 0 <= off < PAGE_SIZE -> off mod 8 = 0 -> caller_ok s -> caller_ok (store_word off v s).
Proof.
  intros Ho Hal [Hs Hd Hp].
  assert (Hst : roots_same demo_kr demo_roots (pg_mem s) (pg_mem (store_word off v s))).
  { apply (store_same demo_kr demo_roots s caller_frame off v); [by eapply Hd|done|]. by rewrite Z.add_mod, Hal by done. }
  destruct (views_same demo_boot demo_kr demo_roots s (store_word off v s) Hst) as (V1 & _ & V3).
  split.
  - eapply ready_roots_same; [exact Hs|split; [done|by exists 0%nat]|apply Hs|exact Hst].
  - intros p f fl. rewrite V1 by apply demo_user_in. intros Hf Ht%V3. by eapply Hd.
  - by rewrite V1 by apply demo_user_in.
Qed.

Lemma caller_paging_ok sysno : caller_ok (caller_paging sysno).
Proof.
  unfold caller_paging. do 4 (apply store_word_ok; [done|done|]). split.
  - apply demo_ready. lia.
  - intros p f fl. apply demo_data. lia.
  - vm_compute. reflexivity.
Qed.

Lemma caller_rsp_ok : mailbox_rsp caller_rsp.
Proof. split; [vm_compute; split; congruence|reflexivity]. Qed.

Lemma int80_add_call_witness :
  exists i' s', int80_handler_mailbox demo_image default_features caller_rsp (caller_irq, caller_world 1)
    = Ok (Iretq, (i', let w := caller_world 1 in {| w with w_arch := s' |})) /\
    pg_cr3 s' = demo_user /\ hw_load (pg_mem s') (266 * PAGE_SIZE + 4048) = 11.
Proof.
  destruct (caller_paging_ok 1) as [Hs Hd Hp].
  destruct (int80_add_call demo_image demo_off demo_boot default_features demo_kr demo_roots caller_irq (caller_world 1)
    demo_user caller_rsp 5 7 (2 ^ 64 - 1) caller_frame USER_DEMO_FLAGS Hs demo_user_in eq_refl)
    as (i' & s' & Hrun & _ & Hc & _ & Hsum & _).
  - vm_compute. congruence.
  - exact caller_rsp_ok.
  - exact Hd.
  - vm_compute. reflexivity.
  - exact Hp.
  - reflexivity.
  - exists i', s'. exact (conj Hrun (conj Hc Hsum)).
Defined.

Lemma int80_unknown_call_witness :
  exists i' s', int80_handler_mailbox demo_image default_features caller_rsp (caller_irq, caller_world 99)
    = Ok (Iretq, (i', let w := caller_world 99 in {| w with w_arch := s' |})) /\ pg_cr3 s' = demo_user.
Proof.
  destruct (caller_paging_ok 99) as [Hs Hd Hp].
  destruct (int80_unknown_call demo_image demo_off demo_boot default_features demo_kr demo_roots caller_irq (caller_world 99)
    demo_user caller_rsp 99 5 7 (2 ^ 64 - 1) Hs demo_user_in eq_refl)
    as (i' & s' & Hrun & _ & Hc & _).
  - vm_compute. congruence.
  - exact caller_rsp_ok.
  - exact Hd.
  - vm_compute. reflexivity.
  - apply (bool_decide_unpack _). vm_compute. exact I.
  - exists i', s'. exact (conj Hrun Hc).
Defined.

Definition demo_tables : Tables :=
  mkTables 0x200300 0x200310 0x200320 0x200330 0x202400 0x202500 0x202600 0x202700 0x202800 0x202900 0x202a00.

Lemma interrupts_reach_kernel_witness :
  exists (c : Cpu GdtList) idt tss sel, load_tables demo_tables Cpu_reset = Ok (tt, c) /\ IDT_HIGH c = Some idt /\
    TSS c = Some tss /\ SELECTORS c = Some sel /\ sel_user_code sel = 0x1b /\
    gate_dpl (idt_int80 idt) = 3 /\ length (interrupt_addresses c idt tss) = 10%nat.
Proof.
  destruct (interrupts_reach_kernel demo_image demo_off demo_boot demo_tables demo_kr demo_roots (demo_paging 8))
    as (c & idt & tss & g & sel & Hrun & Hi & Ht & _ & (Hs & _) & _ & _ & Hd & _ & Hlen & _).
  - split; vm_compute; intuition congruence.
  - apply demo_ready. lia.
  - exists c, idt, tss, sel. injection Hd as _ _ _ Hd.
    assert (Hu : sel_user_code sel = 0x1b).
    { vm_compute in Hrun. injection Hrun as <-. injection Hs as <-. reflexivity. }
    exact (conj Hrun (conj Hi (conj Ht (conj Hs (conj Hu (conj Hd Hlen)))))).
Defined.

(** The tables of the reference machine, listed. *)
Definition ref_table_frames (kr : PhysFrame) (us : list PhysFrame) (m : RefMem) : list Z :=
  let below r j := let e := rm_entry m r j in if present e then [pte_addr e / PAGE_SIZE] else [] in
  (frame_number <$> kr :: us) ++ (seq 0 512 ≫= below kr) ++ (us ≫= fun u => below u USER_PML4_INDEX).

Lemma ref_not_table kr us (s : Paging RefMem) f :
  forallb (fun n => negb (frame_number f =? n)) (ref_table_frames kr us (pg_mem s)) = true -> ~ paging_tables kr us s f.
Proof.
  intros Hf. assert (Hno : forall n, n ∈ ref_table_frames kr us (pg_mem s) -> frame_number f <> n).
  { intros n Hn E. rewrite forallb_forall in Hf. specialize (Hf n). rewrite <- list_elem_of_In in Hf.
    specialize (Hf Hn). by rewrite E, Z.eqb_refl in Hf. }
  unfold ref_table_frames in Hno.
  intros [Hr|[(j & Hj & Hp & Ht)|(u & Hu & Hp & Ht)]]; eapply Hno; try reflexivity.
  - apply elem_of_app. left. by apply list_elem_of_fmap_2.
  - apply elem_of_app. right. apply elem_of_app. left. apply list_elem_of_bind. exists j.
    split; [|apply elem_of_seq; lia]. simpl in Hp. rewrite Hp, Ht. left.
  - apply elem_of_app. right. apply elem_of_app. right. apply list_elem_of_bind. exists u.
    split; [|done]. simpl in Hp. rewrite Hp, Ht. left.
Qed.

(** A word of the kernel's data page, through the alias. *)
Definition kernel_word : Z := 0xfffffe0000202800 - 48.
Definition kernel_word_phys : Z := 0x1002800 - 48.

Lemma int80_overwrites_kernel_memory_witness :
  exists i' s', int80_handler_mailbox demo_image default_features (kernel_word + 48) (caller_irq, caller_world 99)
    = Ok (Iretq, (i', let w := caller_world 99 in {| w with w_arch := s' |})) /\
    hw_load (pg_mem s') kernel_word_phys = 0.
Proof.
  destruct (caller_paging_ok 99) as [Hs Hd Hp].
  destruct (int80_overwrites_kernel_memory demo_image demo_off demo_boot default_features demo_kr demo_roots caller_irq
    (caller_world 99) demo_user (kernel_word + 48) 0 0 0 0 (mkPhysFrame 0x1002) 0x3 Hs demo_user_in eq_refl)
    as (i' & s' & Hrun & _ & _ & Hz & _).
  - vm_compute. congruence.
  - split; [|reflexivity]. apply Forall_forall.
    do 5 (apply Forall_cons_2; [right; vm_compute; split; congruence|]). apply Forall_nil_2.
  - reflexivity.
  - vm_compute. reflexivity.
  - reflexivity.
  - reflexivity.
  - apply ref_not_table. vm_compute. reflexivity.
  - vm_compute. reflexivity.
  - apply (bool_decide_unpack _). vm_compute. exact I.
  - exists i', s'. exact (conj Hrun Hz).
Defined.

(** ** The mailbox loop, from ring 3 to the kernel and back *)

(** The CPU in ring 3: its registers, the machine, and the words the program has
    stored at [rsp - 8] (its echo slot) so far. *)
Record Ring3Cpu := mkRing3 {
  u_rip : Z; u_rsp : Z; u_rax : Z;
  u_irq : Irq; u_world : World (Paging RefMem);
  u_echo : list Z }.

(** A page that ring 3 may access. *)
Definition user_page (s : Paging RefMem) (va : Z) : option (PhysFrame * Z) :=
  '(f, fl) ← hw_walk (pg_mem s) (pg_cr3 s) va;
  if x86_contains fl X86_USER_ACCESSIBLE then Some (f, fl) else None.

Definition user_load (s : Paging RefMem) (va : Z) : option Z :=
  '(f, _) ← user_page s va;
  Some (hw_load (pg_mem s) (frame_number f * PAGE_SIZE + va mod PAGE_SIZE)).
Definition user_store (va v : Z) (s : Paging RefMem) : option (Paging RefMem) :=
  '(f, fl) ← user_page s va;
  if x86_contains fl X86_WRITABLE
  then Some {| s with pg_mem := hw_store (frame_number f * PAGE_SIZE + va mod PAGE_SIZE) v (pg_mem s) |}
  else None.
Definition fetch_byte (s : Paging RefMem) (va : Z) : option Z :=
  word ← user_load s (8 * (va / 8));
  Some (Z.land (Z.shiftr word (8 * (va mod 8))) 0xFF).

Definition sign_extend_32 (imm : Z) : Z := if imm <? 2 ^ 31 then imm else imm + (2 ^ 64 - 2 ^ 32).

(** One instruction: at most nine bytes are fetched at [rip].  [None] is a fault,
    or a handler that halts. *)
Definition ring3_step (ft : Features) (c : Ring3Cpu) : option Ring3Cpu :=
  let s := w_arch (u_world c) in
  let set_arch s := let w := u_world c in {| w with w_arch := s |} in
  bytes ← mapM (fun k => fetch_byte s (u_rip c + Z.of_nat k)) (seq 0 9);
  '(ins, rest) ← decode1 bytes;
  let next := u_rip c + (9 - Z.of_nat (length rest)) in
  match ins with
  | MovRspImm off imm =>
      s ← user_store (u_rsp c + off) (sign_extend_32 imm) s;
      Some {| c with u_rip := next; u_world := set_arch s |}
  | MovRaxRsp off =>
      v ← user_load s (u_rsp c + off);
      Some {| c with u_rip := next; u_rax := v |}
  | MovRspRax off =>
      s ← user_store (u_rsp c + off) (u_rax c) s;
      Some {| c with u_rip := next; u_world := set_arch s; u_echo := u_echo c ++ [u_rax c] |}
  | Int80 =>
      match int80_handler_mailbox demo_image ft (u_rsp c) (u_irq c, u_world c) with
      | Ok (Iretq, (i, w)) => Some {| c with u_rip := next; u_irq := i; u_world := w |}
      | _ => None
      end
  | JmpSelf => Some c
  end.

Definition ring3_steps (ft : Features) (n : nat) (c : Ring3Cpu) : option Ring3Cpu :=
  Nat.iter n (fun oc => oc ≫= ring3_step ft) (Some c).

(** The machine as [kernel_high_entry] leaves it, with the kernel registered. *)
Definition loop_features : Features := {| default_features with ring3_mailbox_loop := true |}.
Definition loop_start : option Ring3Cpu :=
  match kernel_high_entry_features demo_image demo_selectors false false loop_features demo_memory demo_arch with
  | Ok (Ring3 e (Some w) _) =>
      match register_kernel_state 0x201000 Irq_reset with
      | Ok (_, i) => Some (mkRing3 (ue_rip e) (ue_rsp e) 0 i w [])
      | Panicked _ => None
      end
  | _ => None
  end.

(** Four rounds of ten calls, each of five instructions, and two more per round. *)
Definition LOOP_STEPS : nat := 4 * (10 * 5 + 2).

Definition loop_end : option Ring3Cpu := c ← loop_start; ring3_steps loop_features LOOP_STEPS c.

Definition server_reply (msg : Z) : Z := Z.lxor 0xABCD000000000000 (Z.land msg 0xFFFF).

(** The instruction the CPU is about to execute. *)
Definition next_instr (c : Ring3Cpu) : option instr :=
  bytes ← mapM (fun k => fetch_byte (w_arch (u_world c)) (u_rip c + Z.of_nat k)) (seq 0 9);
  fst <$> decode1 bytes.

Lemma self_jump_stays ft c n : next_instr c = Some JmpSelf -> ring3_steps ft n c = Some c.
Proof.
  intros Hn. assert (Hstep : ring3_step ft c = Some c).
  { revert Hn. unfold next_instr, ring3_step. destruct (mapM _ _) as [bytes|]; [|done]. simpl.
    destruct (decode1 bytes) as [[ins rest]|]; [|done]. simpl. by intros [= ->]. }
  unfold ring3_steps. induction n as [|n IH]; [done|]. rewrite Nat.iter_succ, IH. done.
Qed.

Lemma run_until_self_jump ft n (start : option Ring3Cpu) es :
  (c ← (c ← start; ring3_steps ft n c); ins ← next_instr c; Some (u_echo c, ins)) = Some (es, JmpSelf) ->
  exists c0 c, start = Some c0 /\ ring3_steps ft n c0 = Some c /\ u_echo c = es /\
    forall k, ring3_steps ft k c = Some c.
Proof.
  destruct start as [c0|]; [|done]. cbn [mbind option_bind].
  destruct (ring3_steps ft n c0) as [c|] eqn:Hc; [|done]. cbn [mbind option_bind].
  destruct (next_instr c) as [ins|] eqn:Hn; [|done]. intros [= <- ->].
  exists c0, c. split_and!; try done. intros k. by apply self_jump_stays.
Qed.

Lemma loop_end_view :
  (c ← loop_end; ins ← next_instr c; Some (u_echo c, ins))
  = Some ((fun round => server_reply (0x1234 + Z.of_nat round)) <$> seq 0 4, JmpSelf).
Proof. vm_compute. reflexivity. Qed.

(** A run of the whole loop.  The kernel boots with the mailbox loop on the machine
    of System.v, maps the program, enters ring 3; the CPU fetches the program
    from memory, and the calls go through the [int 0x80] handler, the send, the
    ticks in which the server task receives and replies, and the take-reply
    call.  After the 208 instructions of the four rounds the program has echoed
    the server's reply to each of its four messages, in order, and stays at its
    final jump.  A test of the definitions on one machine. *)
Example mailbox_loop_replies :
  exists c0 c, loop_start = Some c0 /\ ring3_steps loop_features LOOP_STEPS c0 = Some c /\
    u_echo c = (fun round => server_reply (0x1234 + Z.of_nat round)) <$> seq 0 4 /\
    forall n, ring3_steps loop_features n c = Some c.
Proof.
  exact (run_until_self_jump loop_features LOOP_STEPS loop_start _ loop_end_view).
Qed.

(** ** An IPC call while another task runs *)

(** [mailbox_dispatch] makes task 1 the current task without a task switch.  In a
    state of the invariant where the kernel task runs, a receive through the
    mailbox leaves two tasks in the state Running. *)
Definition mailbox_recv_states : option (list TaskState * list TaskState) :=
  let w := demo_world default_features 4 in
  match mailbox_dispatch default_features 10 0 0 0 w with
  | Ok (_, w') => Some (t_state <$> tasks (w_ks w), t_state <$> tasks (w_ks w'))
  | Panicked _ => None
  end.

Lemma mailbox_ipc_two_running :
  mailbox_recv_states = Some ([Running; Ready; Ready], [Running; Blocked; Running]).
Proof. vm_compute. reflexivity. Qed.
