(* ===== verification/Bringup.v ===== *)
(** * Bringing the machine up (main.rs, arch/mod.rs, kernel/entry.rs)

    [kernel_main] on the CPU's tables and on paging together: [arch::init] loads
    the low IDT and sets paging up, [kernel::start] installs the alias, loads the
    tables through it and moves there.  The paging part alone is in
    PagingStart.v, the tables alone in Gdt.v; here they meet. *)

From stdpp Require Import base list option gmap sets strings.
From Stdlib Require Import ZArith Lia.
From S2P Require Import Prelude Addr AddressSpace FrameAlloc KTypes KState ArchIface Gdt.
From S2P Require Import X86 RefMem Paging PagingInv PagingLaws PagingMap PagingArch PagingStart System IntTheorems.
#[local] Open Scope Z_scope.

Record Machine (G M : Type) := mkMachine { mc_cpu : Cpu G; mc_paging : Paging M }.
Arguments mkMachine {G M} _ _.
Arguments mc_cpu {G M} _.
Arguments mc_paging {G M} _.

Section bringup.
Context {M : Type} `{X86 M} {G : Type} `{GdtOps G}.
Abbreviation Mc := (ST (Machine G M)).

Definition on_cpu {X} (m : ST (Cpu G) X) : Mc X := zoom mc_cpu (fun mc c => mkMachine c (mc_paging mc)) m.
Definition on_paging_of {X} (m : ST (Paging M) X) : Mc X := zoom mc_paging (fun mc s => mkMachine (mc_cpu mc) s) m.

(** arch/mod.rs [init] *)
Definition arch_init (tb : Tables) (physical_memory_offset : Z) : Mc unit :=
  on_cpu (interrupts_init tb) ;;
  on_paging_of (paging_init physical_memory_offset).

(** kernel/entry.rs [start] *)
Definition start_machine (im : Image) (tb : Tables) (kernel_high_entry stack_addr : Z) : Mc (Z * Z * Z) :=
  on_paging_of (configure_cr3_switch_safety kernel_high_entry stack_addr) ;;
  on_paging_of (install_kernel_high_alias_from_current im) ;;
  on_cpu (reload_idt_high_alias tb) ;;
  on_paging_of (enter_kernel_high_alias kernel_high_entry).

(** main.rs [kernel_main] *)
Definition kernel_main_machine (im : Image) (tb : Tables) (physical_memory_offset entry stack_addr : Z) : Mc (Z * Z * Z) :=
  arch_init tb physical_memory_offset ;;
  start_machine im tb entry stack_addr.

(** The two parts do not interfere. *)
Lemma on_cpu_Ok {X} (m : ST (Cpu G) X) c s x c' : m c = Ok (x, c') -> on_cpu m (mkMachine c s) = Ok (x, mkMachine c' s).
Proof. intros Hm. unfold on_cpu, zoom. simpl. by rewrite Hm. Qed.
Lemma on_paging_of_Ok {X} (m : ST (Paging M) X) c s x s' :
  m s = Ok (x, s') -> on_paging_of m (mkMachine c s) = Ok (x, mkMachine c s').
Proof. intros Hm. unfold on_paging_of, zoom. simpl. by rewrite Hm. Qed.

Lemma kernel_main_parts im tb poff entry stack c c' s s' regs :
  load_tables tb c = Ok (tt, c') -> kernel_main im poff entry stack s = Ok (regs, s') ->
  kernel_main_machine im tb poff entry stack (mkMachine c s) = Ok (regs, mkMachine c' s').
Proof.
  unfold load_tables, kernel_main, start, kernel_main_machine, arch_init, start_machine.
  intros ([] & c1 & Hlow & Hhigh)%bind_inv ([] & s1 & Hinit & Hrun)%bind_inv.
  apply bind_inv in Hrun as ([] & s2 & Hconf & Hrun). apply bind_inv in Hrun as ([] & s3 & Hinst & Henter).
  rewrite bind_assoc, (bind_Ok _ _ _ _ _ (on_cpu_Ok _ c s _ _ Hlow)).
  rewrite (bind_Ok _ _ _ _ _ (on_paging_of_Ok _ c1 s _ _ Hinit)), (bind_Ok _ _ _ _ _ (on_paging_of_Ok _ c1 s1 _ _ Hconf)).
  rewrite (bind_Ok _ _ _ _ _ (on_paging_of_Ok _ c1 s2 _ _ Hinst)), (bind_Ok _ _ _ _ _ (on_cpu_Ok _ c1 s3 _ _ Hhigh)).
  by apply on_paging_of_Ok.
Qed.
End bringup.

(** The low addresses of what an interrupt uses: the tables, the first words of the
    stacks, the handlers. *)
Definition stack_word (top : Z) : Z := top - top mod 16 - 8.
Definition table_addresses (tb : Tables) : list Z :=
  [tb_idt_high tb; tb_gdt tb; tb_tss tb; stack_word (tb_rsp0 tb); tb_page_fault tb; tb_gp tb;
   tb_double_fault tb; stack_word (tb_df_ist tb); tb_int80 tb; stack_word (tb_pf_ist tb)].

Lemma loaded_addresses {G} `{GdtLaws G} tb (c : Cpu G) :
  cpu_idtr c = Some (high (tb_idt_high tb)) -> cpu_gdtr c = Some (high (tb_gdt tb)) ->
  task_register_base c = Some (high (tb_tss tb)) ->
  interrupt_addresses c (loaded_idt tb) (loaded_tss tb) = high <$> table_addresses tb.
Proof.
  intros E1 E2 E3. unfold interrupt_addresses, table_addresses, stack_word, high, high_top. rewrite E1, E2, E3. cbn.
  unfold high, high_top. repeat (apply (f_equal2 cons); [lia|]). done.
Qed.

Lemma table_address_low tb low : tables_ok tb -> low ∈ table_addresses tb -> low_address low.
Proof.
  intros [(L1 & L2 & L3 & L4 & L5 & L6 & L7 & L8) (S1 & S2 & S3)].
  assert (Hstack : forall a, low_top a -> low_address (stack_word a)).
  { intros a Ha. destruct (high_stack_Ok (H := Ref_addr) a Ha) as [_ Hb]. unfold low_top, low_address, stack_word in *. lia. }
  unfold table_addresses. intros Hin. repeat (apply elem_of_cons in Hin as [->|Hin]; [auto|]). by apply elem_of_nil in Hin.
Qed.

Section claims.
Context {M : Type} `{X86Laws M} {G : Type} `{GdtLaws G} (im : Image) (poff : Z) (boot : gset Z).

(** C14: the machine comes up.  On any machine as the bootloader leaves it
    ([loaded]: the physical-memory window in a slot of the lower half other than 0
    and away from the user slot, index 3 in the log of arch/virt_layout.rs; the
    kernel's code, stack and statics mapped in the first four slots, code and
    stack outside those of the window; the kernel runs behind the alias after
    the move) with the CPU's tables in mapped low memory, [kernel_main] returns
    without a panic: the low IDT, paging, the guard addresses, the alias, the
    high tables and the move.  Paging is ready, the entry, the aligned stack and
    the frame pointer are the aliases of the low ones, and whatever the CPU uses
    to deliver an interrupt (tables, handlers, stacks) is found through the alias
    at the physical address it had in the low half before.  Real CR3 switches
    are enabled although code and stack are in the low half, where README.md
    says they stay disabled. *)
Theorem machine_comes_up (tb : Tables) (s : Paging M) (entry stack : Z)
    (Hload : loaded im poff boot entry stack s) (Htb : tables_ok tb)
    (Hmapped : forall low, low ∈ table_addresses tb -> exists pa, low_ok boot (pg_mem s) (pg_cr3 s) low pa) :
  exists he rsp rbp h (c : Cpu G) s' idt tss,
    kernel_main_machine im tb poff entry stack (mkMachine Cpu_reset s) = Ok ((he, rsp, rbp), mkMachine c s') /\
    paging_ready im poff boot (pg_cr3 s) [] s' /\ pg_cr3 s' = pg_cr3 s /\ ALLOW_REAL_CR3_SWITCH s' = true /\
    kernel_high_alias_of_low entry = Ok he /\
    kernel_high_alias_of_low (pg_context s 1%nat).1.2 = Ok h /\ rsp = Z.land h (u64_not 0xF) /\
    kernel_high_alias_of_low (pg_context s 1%nat).2 = Ok rbp /\
    IDT_HIGH c = Some idt /\ TSS c = Some tss /\ length (interrupt_addresses c idt tss) = 10%nat /\
    forall va, va ∈ interrupt_addresses c idt tss -> exists low pa,
      kernel_high_alias_of_low low = Ok va /\ translate_addr (pg_mem s) (pg_cr3 s) low = Some pa /\
      translate_addr (pg_mem s') (pg_cr3 s) va = Some pa.
Proof.
  destruct (kernel_main_spec im poff boot s entry stack Hload)
    as ([[he rsp] rbp] & s' & Hrun & Hr & Hc & Hsw & He & (h & Hh & Hrsp) & Hrbp & Hal & _).
  destruct (load_tables_Ok tb Htb) as (c & g & sel & Hld & Hidt & Htss & E1 & E2 & Hg & (_ & Htr & _) & Hsel).
  assert (E3 : task_register_base c = Some (high (tb_tss tb))).
  { unfold task_register_base. rewrite Hg, Htr. simpl. by rewrite (proj1 (so_tss _ _ _ Hsel)). }
  pose proof (loaded_addresses tb c E1 E2 E3) as Hall.
  exists he, rsp, rbp, h, c, s', (loaded_idt tb), (loaded_tss tb). split_and!; try done.
  { by apply kernel_main_parts. }
  { by rewrite Hall. }
  intros va. rewrite Hall. intros (low & -> & Hin)%list_elem_of_fmap.
  destruct (Hmapped low Hin) as [pa Hlow]. exists low, pa.
  assert (Hh2 : kernel_high_alias_of_low low = Ok (high low)) by (by apply alias_linear, table_address_low with tb).
  split; [done|]. split.
  - destruct Hlow as (Hcan & _ & (l & Hlk & <-) & _). rewrite x86_translate by done.
    unfold slot in Hlk. by rewrite Hlk.
  - apply (alias_translate poff boot (ld_tables _ _ _ _ _ _ Hload) Hal low); done.
Qed.
End claims.

(** ** A witness *)

Lemma machine_comes_up_witness :
  exists (c : Cpu GdtList) s' idt tss,
    kernel_main_machine demo_image demo_tables demo_off demo_entry demo_stack (mkMachine Cpu_reset demo_loaded_paging)
    = Ok ((0xfffffe0000200000, 0xfffffe0000201fe0, 0xfffffe0000201ff0), mkMachine c s') /\
    IDT_HIGH c = Some idt /\ TSS c = Some tss /\
    is_Some (translate_addr (pg_mem s') demo_kr (gate_handler (idt_int80 idt))).
Proof.
  destruct (machine_comes_up (G := GdtList) demo_image demo_off demo_boot demo_tables demo_loaded_paging demo_entry demo_stack
    demo_loaded) as (he & rsp & rbp & h & c & s' & idt & tss & Hrun & _ & _ & _ & He & Hh & -> & Hb & Hi & Ht & _ & Hall).
  - split; vm_compute; intuition congruence.
  - intros low Hin. eexists. apply demo_low_ok. unfold table_addresses, stack_word, demo_tables in Hin. cbn in Hin.
    repeat (apply elem_of_cons in Hin as [->|Hin]; [split; vm_compute; congruence|]). by apply elem_of_nil in Hin.
  - vm_compute in He. vm_compute in Hh. vm_compute in Hb. injection He as <-. injection Hh as <-. injection Hb as <-.
    exists c, s', idt, tss. split; [exact Hrun|]. split; [exact Hi|]. split; [exact Ht|].
    destruct (Hall (gate_handler (idt_int80 idt))) as (low & pa & _ & _ & Htr); [|by exists pa].
    unfold interrupt_addresses. rewrite !elem_of_app. right. right. right. right. apply list_elem_of_bind.
    exists (idt_int80 idt). split; [left|]. right. right. right. left.
Defined.
